(** * deer-flow low-code agents: a shallow embedding of the coordination logic

    The Python sources under [src/] are embedded as Rocq functions:

    - [src/models/low_code_models.py], [src/models/reward_models.py]:
      records, enumerations and [KnowledgeEntry.add_usage] ([Models]);
    - [src/agents/low_code_developer.py]: [_finalize_solution] ([Developer]);
    - [src/agents/knowledge_manager.py]: similarity ranking,
      [store_solution], [cleanup_old_solutions] ([TextSimilarity],
      [KnowledgeManager]);
    - [src/database/knowledge_store.py]: the tables and methods of the store
      ([KnowledgeStore]); [StorePort] holds the two methods the design
      expects of a store and the class does not define;
    - [src/graph/low_code_workflow.py]: the orchestrator's nodes, its
      conditional edges and [execute] ([Workflow]);
    - [src/models/reward_models.py]: [add_rating] and
      [calculate_overall_score] ([Ratings], [Evaluation]);
    - [src/agents/knowledge_manager.py]: [evaluate_solution] and
      [rollback_solution] ([Evaluation], [Rollback]);
    - [src/agents/low_code_developer.py] with
      [src/tools/playwright_automation.py]: the graph of [develop]
      ([DeveloperGraph]);
    - [src/agents/function_validator.py]: the graph of [validate]
      ([ValidatorGraph]);
    - the workflow with these agents behind it ([Assembly]).

    Conventions.  Python [int] is [Z].  Python [float] values (scores,
    success rates, thresholds) are rationals [Q], compared with
    [Qle_bool]; equalities between them are stated with [==].  Where a
    float is fed back into further arithmetic (the running success rate
    of [add_usage], the similarity keys of the ranking) every operation
    is followed by [Binary64.round64], the rounding of binary64 to the
    nearest value, ties to even; overflow to infinity is outside the
    model.  Text is ASCII: [str.lower] and [str.split] are modelled on
    the ASCII letters and separators, and [TextSimilarity.is_ascii]
    delimits the texts on which they are the code's.
    [datetime] values are seconds as [Z].  Python exceptions are the
    [Raised] constructor of [Outcome]; [try_except] is the
    [try: ... except Exception as e: ...] statement.  Identifiers produced
    by [uuid4] and clock readings are inputs of the functions that draw
    them. *)

From Stdlib Require Import ZArith QArith Qround Qpower Qminmax Lia Lqa Bool Ascii String Sorted.
From stdpp Require Import gmap strings list pretty.

Local Open Scope Z_scope.

(** ** Python exceptions *)

Inductive Outcome (A : Type) : Type :=
| Returned (a : A)
| Raised (e : string).
Arguments Returned {A} a.
Arguments Raised {A} e.

Definition obind {A B : Type} (m : Outcome A) (k : A -> Outcome B) : Outcome B :=
  match m with
  | Returned a => k a
  | Raised e => Raised e
  end.

(** [try: body except Exception as e: handler e] *)
Definition try_except {A : Type} (body : Outcome A) (handler : string -> Outcome A)
  : Outcome A :=
  match body with
  | Returned a => Returned a
  | Raised e => handler e
  end.

#[global] Instance Outcome_ret : MRet Outcome := fun _ a => Returned a.
#[global] Instance Outcome_bind : MBind Outcome := fun _ _ k m => obind m k.

(** ** What the graph engine hands back *)

Module Engine.

(** The value of [await self.graph.ainvoke(initial_state)].  The engine
    that runs a compiled graph is a library outside the source.  It hands
    back the values of the state's channels as a mapping (a [dict] keyed
    by the names of the fields), not an object of the state class; the
    sources test for the other case with [hasattr]. *)
Inductive Output (S : Type) : Type :=
| Mapping (values : S)
| Object (state : S).
Arguments Mapping {S} values.
Arguments Object {S} state.

(** The message of the [AttributeError] raised by reading an attribute of
    a mapping; its first words name the class of the mapping, which is
    the engine's. *)
Definition attribute_error (name : string) : string :=
  ("'dict' object has no attribute '" ++ name ++ "'")%string.

(** [final_state.name], for a field [name] of the state class. *)
Definition getattr {S A : Type} (field : S -> A) (name : string) (out : Output S)
  : Outcome A :=
  match out with
  | Object state => Returned (field state)
  | Mapping _ => Raised (attribute_error name)
  end.

End Engine.

(** ** Binary64 rounding *)

Module Binary64.
Local Open Scope Q_scope.

(** 2^e *)
Definition pow2 (e : Z) : Q := (2 # 1) ^ e.

(** The binade of a positive rational: 2^e <= q < 2^(e+1). *)
Definition ilog2 (q : Q) : Z :=
  let e := (Z.log2 (Qnum q) - Z.log2 (Zpos (Qden q)))%Z in
  if Qle_bool (pow2 e) q then e else (e - 1)%Z.

(** The nearest integer, ties to the even one. *)
Definition rne (x : Q) : Z :=
  let f := Qfloor x in
  match Qcompare (x - inject_Z f) (1 # 2) with
  | Lt => f
  | Gt => (f + 1)%Z
  | Eq => if Z.even f then f else (f + 1)%Z
  end.

(** The exponent of the unit in the last place: 53 bits of precision,
    and the fixed unit 2^-1074 below the normal range. *)
Definition ulp_exponent (q : Q) : Z := (Z.max (ilog2 q) (-1022) - 52)%Z.

Definition round_pos (q : Q) : Q :=
  inject_Z (rne (q / pow2 (ulp_exponent q))) * pow2 (ulp_exponent q).

(** The binary64 value nearest to [q], ties to even: what a float
    operation returns for the exact result [q], what [float(n)] is for an
    integer and what a literal denotes. *)
Definition round64 (q : Q) : Q :=
  match Qcompare q 0 with
  | Eq => 0
  | Gt => Qred (round_pos q)
  | Lt => Qred (- round_pos (- q))
  end.

(** The values of the type [float]. *)
Definition is_float (q : Q) : Prop := round64 q == q.

End Binary64.

(** ** Data model *)

Module Models.

(** [class RewardDecision(str, Enum)] *)
Inductive RewardDecision : Type := ACCEPTED | REJECTED | PENDING.

Definition RewardDecision_eqb (a b : RewardDecision) : bool :=
  match a, b with
  | ACCEPTED, ACCEPTED | REJECTED, REJECTED | PENDING, PENDING => true
  | _, _ => false
  end.

(** [RewardDecision.value] *)
Definition RewardDecision_value (d : RewardDecision) : string :=
  match d with
  | ACCEPTED => "accepted"
  | REJECTED => "rejected"
  | PENDING => "pending"
  end.

(** [class DevelopmentRequest]: the fields the agents read or write. *)
Record DevelopmentRequest : Type := {
  request_id : string;
  req_title : string;
  req_description : string;
  requirements : list string;
  req_created_at : Z
}.

(** [request.created_at = now] *)
Definition set_req_created_at (now : Z) (r : DevelopmentRequest) : DevelopmentRequest :=
  {| request_id := request_id r; req_title := req_title r;
     req_description := req_description r; requirements := requirements r;
     req_created_at := now |}.

(** [class LowCodeOperation]: the fields written by the automation
    executor and read back at finalization. *)
Record LowCodeOperation : Type := {
  operation_id : string;
  target_element : string;
  op_execution_time : option Q;
  op_success : option bool;
  error_message : option string
}.

(** [class ValidationResult] *)
Record ValidationResult : Type := {
  is_valid : bool;
  score : Q;
  issues : list string;
  suggestions : list string;
  validator_agent : option string
}.

(** [class VisualAnalysisResult]: the fields the agents read. *)
Record VisualAnalysisResult : Type := {
  screenshot_path : string;
  va_suggestions : list string;
  confidence_score : Q
}.

(** [class ImplementationSolution] *)
Record ImplementationSolution : Type := {
  solution_id : string;
  sol_request_id : string;
  title : string;
  description : option string;
  operations : list LowCodeOperation;
  validation_result : option ValidationResult;
  visual_analysis : list VisualAnalysisResult;
  reward_decision : RewardDecision;
  success_rate : Q;
  execution_time : Q;
  developer_agent : option string;
  version : Z;
  created_at : Z;
  updated_at : Z
}.

(** Attribute assignments on a solution object. *)
Definition set_reward_decision (d : RewardDecision) (s : ImplementationSolution)
  : ImplementationSolution :=
  {| solution_id := solution_id s; sol_request_id := sol_request_id s;
     title := title s; description := description s;
     operations := operations s; validation_result := validation_result s;
     visual_analysis := visual_analysis s;
     reward_decision := d; success_rate := success_rate s;
     execution_time := execution_time s; developer_agent := developer_agent s;
     version := version s; created_at := created_at s; updated_at := updated_at s |}.

Definition set_success_rate (r : Q) (s : ImplementationSolution)
  : ImplementationSolution :=
  {| solution_id := solution_id s; sol_request_id := sol_request_id s;
     title := title s; description := description s;
     operations := operations s; validation_result := validation_result s;
     visual_analysis := visual_analysis s;
     reward_decision := reward_decision s; success_rate := r;
     execution_time := execution_time s; developer_agent := developer_agent s;
     version := version s; created_at := created_at s; updated_at := updated_at s |}.

Definition set_updated_at (t : Z) (s : ImplementationSolution)
  : ImplementationSolution :=
  {| solution_id := solution_id s; sol_request_id := sol_request_id s;
     title := title s; description := description s;
     operations := operations s; validation_result := validation_result s;
     visual_analysis := visual_analysis s;
     reward_decision := reward_decision s; success_rate := success_rate s;
     execution_time := execution_time s; developer_agent := developer_agent s;
     version := version s; created_at := created_at s; updated_at := t |}.

Definition set_validation_result (vr : option ValidationResult)
    (s : ImplementationSolution) : ImplementationSolution :=
  {| solution_id := solution_id s; sol_request_id := sol_request_id s;
     title := title s; description := description s;
     operations := operations s; validation_result := vr;
     visual_analysis := visual_analysis s;
     reward_decision := reward_decision s; success_rate := success_rate s;
     execution_time := execution_time s; developer_agent := developer_agent s;
     version := version s; created_at := created_at s; updated_at := updated_at s |}.

(** [ImplementationSolution.update_validation_result(self, result)] *)
Definition update_validation_result (now : Z) (result : ValidationResult)
    (s : ImplementationSolution) : ImplementationSolution :=
  set_updated_at now (set_validation_result (Some result) s).

(** [validation_result.issues.append(issue)] *)
Definition append_issue (issue : string) (vr : ValidationResult) : ValidationResult :=
  {| is_valid := is_valid vr; score := score vr;
     issues := issues vr ++ [issue]; suggestions := suggestions vr;
     validator_agent := validator_agent vr |}.

(** [class KnowledgeEntry]: usage statistics and provenance. *)
Record KnowledgeEntry : Type := {
  entry_id : string;
  entry_title : string;
  entry_description : option string;
  entry_type : string;
  related_solution_ids : list string;
  usage_count : Z;
  entry_success_rate : Q;
  last_used_at : option Z;
  quality_score : Q;
  is_verified : bool
}.

(** [class RewardTransaction] *)
Record RewardTransaction : Type := {
  tx_solution_id : string;
  evaluation_id : string;
  reward_points : Z;
  reward_type : string;
  reward_reason : string;
  tx_status : string;
  processed_at : option Z
}.

(** [KnowledgeEntry.add_usage(self, success=True)], called at time [now].
    The product, the sum and the quotient are float operations, each
    rounded; an [int] operand is converted to [float] first. *)
Definition add_usage (now : Z) (success : bool) (e : KnowledgeEntry) : KnowledgeEntry :=
  let count := usage_count e + 1 in
  let rate :=
    if count =? 1 then (if success then 1%Q else 0%Q)
    else
      let current_successes :=
        Binary64.round64
          (entry_success_rate e * Binary64.round64 (inject_Z (count - 1)))%Q in
      let current_successes :=
        if success then Binary64.round64 (current_successes + 1)%Q
        else current_successes in
      Binary64.round64 (current_successes / Binary64.round64 (inject_Z count))%Q in
  {| entry_id := entry_id e;
     entry_title := entry_title e;
     entry_description := entry_description e;
     entry_type := entry_type e;
     related_solution_ids := related_solution_ids e;
     usage_count := count;
     entry_success_rate := rate;
     last_used_at := Some now;
     quality_score := quality_score e;
     is_verified := is_verified e |}.

(** A sequence of [add_usage] calls; each call carries its clock reading
    and its [success] argument. *)
Definition add_usages (calls : list (Z * bool)) (e : KnowledgeEntry) : KnowledgeEntry :=
  fold_left (fun acc c => add_usage (fst c) (snd c) acc) calls e.

(** Number of calls of the sequence made with [success = True]. *)
Definition successes (calls : list (Z * bool)) : Z :=
  Z.of_nat (length (List.filter (fun c => snd c) calls)).

End Models.

(** ** Developer sub-workflow: finalization
    ([src/agents/low_code_developer.py]) *)

Module Developer.
Import Models.

(** [class LowCodeDeveloperState]: the fields the finalization and the
    routing functions read. *)
Record LowCodeDeveloperState : Type := {
  request : option DevelopmentRequest;
  solution : option ImplementationSolution;
  current_operation_index : Z;
  error_count : Z;
  max_errors : Z;
  is_authenticated : bool
}.

(** Default of [LowCodeDeveloperState.max_errors]. *)
Definition default_max_errors : Z := 5.

(** [op.success is True] *)
Definition success_is_True (op : LowCodeOperation) : bool :=
  match op_success op with
  | Some true => true
  | _ => false
  end.

(** [sum(1 for op in operations if op.success is True)] *)
Definition successful_operations (ops : list LowCodeOperation) : Z :=
  Z.of_nat (length (List.filter success_is_True ops)).

(** [sum(op.execution_time or 0 for op in operations)] *)
Definition total_time (ops : list LowCodeOperation) : Q :=
  fold_left (fun acc op => (acc + default 0%Q (op_execution_time op))%Q) ops 0%Q.

(** The success rate computed by [_finalize_solution]. *)
Definition finalized_success_rate (ops : list LowCodeOperation) : Q :=
  let total_operations := Z.of_nat (length ops) in
  if 0 <? total_operations
  then (inject_Z (successful_operations ops) / inject_Z total_operations)%Q
  else 0%Q.

(** The reward decision set by [_finalize_solution] from the validation
    result and the recomputed success rate. *)
Definition finalized_decision (vr : option ValidationResult) (rate : Q) : RewardDecision :=
  match vr with
  | Some r =>
      if is_valid r
      then (if Qle_bool (8 # 10) rate then ACCEPTED else PENDING)
      else REJECTED
  | None => REJECTED
  end.

(** The body of the [try] block of [_finalize_solution] on the solution
    object.  [self.operations.close()] traps its own failures, so nothing
    in the block raises once [state.solution] is present. *)
Definition finalize_solution_body (now : Z) (sol : ImplementationSolution)
  : ImplementationSolution :=
  let rate := finalized_success_rate (operations sol) in
  {| solution_id := solution_id sol;
     sol_request_id := sol_request_id sol;
     title := title sol;
     description := description sol;
     operations := operations sol;
     validation_result := validation_result sol;
     visual_analysis := visual_analysis sol;
     reward_decision := finalized_decision (validation_result sol) rate;
     success_rate := rate;
     execution_time := total_time (operations sol);
     developer_agent := developer_agent sol;
     version := version sol;
     created_at := created_at sol;
     updated_at := now |}.

(** [async def _finalize_solution(self, state)].  With [state.solution]
    absent both the body and the handler dereference [None]. *)
Definition _finalize_solution (now : Z) (state : LowCodeDeveloperState)
  : Outcome LowCodeDeveloperState :=
  match solution state with
  | None => Raised "AttributeError: 'NoneType' object has no attribute 'reward_decision'"
  | Some sol =>
      Returned {| request := request state;
                  solution := Some (finalize_solution_body now sol);
                  current_operation_index := current_operation_index state;
                  error_count := error_count state;
                  max_errors := max_errors state;
                  is_authenticated := is_authenticated state |}
  end.

End Developer.

(** ** Validator sub-workflow: its error budget
    ([src/agents/function_validator.py]) *)

Module Validator.

(** Default of [ValidationState.max_errors]. *)
Definition default_max_errors : Z := 3.

End Validator.

(** ** Token-set similarity ([KnowledgeManagerAgent._text_similarity]) *)

Module TextSimilarity.

(** [str.lower] on the ASCII letters; other bytes are kept. *)
Definition lower_ascii (c : ascii) : ascii :=
  let n := nat_of_ascii c in
  if ((65 <=? n)%nat && (n <=? 90)%nat)%bool then ascii_of_nat (n + 32) else c.

Fixpoint lower (s : string) : string :=
  match s with
  | EmptyString => EmptyString
  | String c s' => String (lower_ascii c) (lower s')
  end.

(** The ASCII characters [str.split()] treats as separators: tab, line
    feed, vertical tab, form feed, carriage return, the four information
    separators and space. *)
Definition is_space (c : ascii) : bool :=
  let n := nat_of_ascii c in
  (((9 <=? n)%nat && (n <=? 13)%nat) || ((28 <=? n)%nat && (n <=? 32)%nat))%bool.

(** [str.split()] with no argument: maximal runs of non-separators.
    [cur] is the run read so far, last character first. *)
Fixpoint split_from (cur : list ascii) (s : string) : list string :=
  let flush (rest : list string) :=
    match cur with
    | [] => rest
    | _ => string_of_list_ascii (rev cur) :: rest
    end in
  match s with
  | EmptyString => flush []
  | String c s' =>
      if is_space c then flush (split_from [] s')
      else split_from (c :: cur) s'
  end.

Definition split (s : string) : list string := split_from [] s.

(** [set(text.lower().split())] *)
Definition words (text : string) : gset string := list_to_set (split (lower text)).

(** The texts on which [lower] and [split] are [str.lower] and
    [str.split]: those of ASCII characters.  On other text Python also
    folds the case of letters and splits at separators outside ASCII. *)
Fixpoint is_ascii (s : string) : bool :=
  match s with
  | EmptyString => true
  | String c s' => (nat_of_ascii c <? 128)%nat && is_ascii s'
  end.

(** [len(intersection) / len(union)], or [0.0] for an empty union. *)
Definition jaccard (words1 words2 : gset string) : Q :=
  let intersection := words1 ∩ words2 in
  let union := words1 ∪ words2 in
  if (size union =? 0)%nat then 0%Q
  else (inject_Z (Z.of_nat (size intersection)) / inject_Z (Z.of_nat (size union)))%Q.

(** [_text_similarity(self, text1, text2)].  The candidate's description is
    [Optional[str]]: on [None] the call [text2.lower()] raises inside the
    [try] block and the handler returns [0.0]. *)
Definition _text_similarity (text1 : string) (text2 : option string) : Q :=
  match text2 with
  | Some t2 => jaccard (words text1) (words t2)
  | None => 0%Q
  end.

End TextSimilarity.

(** ** The Store ([src/database/knowledge_store.py]) *)

Module KnowledgeStore.
Import Models.

(** The tables of the store.  [solutions] are the rows of
    [implementation_solutions] in the order the database returns them
    (insertion order); [solution_id] is the primary key.
    [reward_transactions] are the transactions handed to
    [store_reward_transaction], in call order: the method's body keeps
    nothing of them, the model keeps the calls. *)
Record KnowledgeStore : Type := {
  solutions : list ImplementationSolution;
  knowledge_entries : list KnowledgeEntry;
  reward_transactions : list RewardTransaction
}.

(** The methods [class KnowledgeStore] defines.  Looking up any other
    attribute on an instance raises [AttributeError]. *)
Definition methods : list string :=
  [ "initialize"; "store_solution"; "get_solution"; "search_solutions";
    "store_knowledge_entry"; "get_knowledge_entries"; "store_evaluation";
    "store_version"; "store_reward_transaction"; "get_reward_criteria";
    "_convert_to_solution" ].

Definition has_method (name : string) : bool := bool_decide (name ∈ methods).

Definition has_solution (sid : string) (st : KnowledgeStore) : bool :=
  existsb (fun s => String.eqb (solution_id s) sid) (solutions st).

(** The JSON columns of a row are given [op.dict()] for every operation,
    [validation_result.dict()] and [va.dict()] for every visual analysis.
    Each of these holds a [datetime] ([created_at]), which the column's
    serializer does not take: the commit raises for a solution that has
    an operation, a validation result or a visual analysis. *)
Definition json_columns_ok (sol : ImplementationSolution) : bool :=
  match operations sol, validation_result sol, visual_analysis sol with
  | [], None, [] => true
  | _, _, _ => false
  end.

(** [store_solution(self, solution)]: one [INSERT].  [db_ok] says whether
    the session and the commit go through for a row the database can
    take; a second row with the same primary key is refused by the
    database.  Failures are trapped and reported as [False]. *)
Definition store_solution (db_ok : bool) (sol : ImplementationSolution)
    (st : KnowledgeStore) : bool * KnowledgeStore :=
  if db_ok && json_columns_ok sol && negb (has_solution (solution_id sol) st)
  then (true, {| solutions := solutions st ++ [sol];
                 knowledge_entries := knowledge_entries st;
                 reward_transactions := reward_transactions st |})
  else (false, st).

(** [get_solution(self, solution_id)] *)
Definition get_solution (db_ok : bool) (sid : string) (st : KnowledgeStore)
  : option ImplementationSolution :=
  if db_ok then List.find (fun s => String.eqb (solution_id s) sid) (solutions st)
  else None.

(** [search_solutions(self, keywords, requirements, limit)]: the accepted
    rows, at most [limit] of them, in return order; [[]] on failure. *)
Definition search_solutions (db_ok : bool) (keywords requirements : list string)
    (limit : nat) (st : KnowledgeStore) : list ImplementationSolution :=
  if db_ok
  then take limit (List.filter (fun s => RewardDecision_eqb (reward_decision s) ACCEPTED)
                               (solutions st))
  else [].

(** [store_knowledge_entry(self, entry)] *)
Definition store_knowledge_entry (db_ok : bool) (entry : KnowledgeEntry)
    (st : KnowledgeStore) : bool * KnowledgeStore :=
  if db_ok
  then (true, {| solutions := solutions st;
                 knowledge_entries := knowledge_entries st ++ [entry];
                 reward_transactions := reward_transactions st |})
  else (false, st).

(** [store_reward_transaction(self, transaction)]: always [True]. *)
Definition store_reward_transaction (transaction : RewardTransaction)
    (st : KnowledgeStore) : bool * KnowledgeStore :=
  (true, {| solutions := solutions st;
            knowledge_entries := knowledge_entries st;
            reward_transactions := reward_transactions st ++ [transaction] |}).

(** The two further methods [KnowledgeManagerAgent.cleanup_old_solutions]
    looks up on the store.  [class KnowledgeStore] defines neither (they
    are not among [methods]), so each lookup finds nothing. *)
Definition get_solutions_before_date
  : option (Z -> KnowledgeStore -> Outcome (list ImplementationSolution)) := None.

Definition delete_solution
  : option (string -> KnowledgeStore -> Outcome KnowledgeStore) := None.

End KnowledgeStore.

(** ** The Store port of the design *)

Module StorePort.
Import Models.

(** Modelled from the spec: the Store port's lookup of the solutions
    created before a date, which [cleanup_old_solutions] calls and
    [class KnowledgeStore] does not define. *)
Definition get_solutions_before_date (cutoff_date : Z)
    (st : KnowledgeStore.KnowledgeStore) : Outcome (list ImplementationSolution) :=
  Returned (List.filter (fun s => created_at s <? cutoff_date)
                        (KnowledgeStore.solutions st)).

(** Modelled from the spec: the Store port's deletion of a solution by its
    identifier, which [cleanup_old_solutions] calls and
    [class KnowledgeStore] does not define. *)
Definition delete_solution (sid : string) (st : KnowledgeStore.KnowledgeStore)
  : Outcome KnowledgeStore.KnowledgeStore :=
  Returned
    {| KnowledgeStore.solutions :=
         List.filter (fun s => negb (String.eqb (solution_id s) sid))
                     (KnowledgeStore.solutions st);
       KnowledgeStore.knowledge_entries := KnowledgeStore.knowledge_entries st;
       KnowledgeStore.reward_transactions := KnowledgeStore.reward_transactions st |}.

End StorePort.

(** ** Knowledge manager ([src/agents/knowledge_manager.py]) *)

Module KnowledgeManager.
Import Models TextSimilarity.

(** *** Similarity ranking *)

(** The float [_text_similarity] returns.  [TextSimilarity._text_similarity]
    is the quotient of the two sizes; the division [len(intersection) /
    len(union)] of two integers returns the float nearest to it. *)
Definition text_similarity_float (text1 : string) (text2 : option string) : Q :=
  Binary64.round64 (_text_similarity text1 text2).

(** The literals [0.6] and [0.4]. *)
Definition title_weight : Q := Binary64.round64 (6 # 10).
Definition description_weight : Q := Binary64.round64 (4 # 10).

(** [_calculate_similarity(self, request, solution)]: two products, a sum
    and a product of floats, each rounded. *)
Definition _calculate_similarity (request : DevelopmentRequest)
    (solution : ImplementationSolution) : Q :=
  let title_similarity := text_similarity_float (req_title request) (Some (title solution)) in
  let desc_similarity := text_similarity_float (req_description request) (description solution) in
  let similarity :=
    Binary64.round64
      (Binary64.round64 (title_similarity * title_weight)
       + Binary64.round64 (desc_similarity * description_weight))%Q in
  Binary64.round64 (similarity * success_rate solution)%Q.

(** [list.sort(key=lambda x: x[1], reverse=True)]: a stable sort by
    descending key.  An element is placed before the first element whose
    key is not greater than its own, so elements with equal keys keep
    their order. *)
Fixpoint insert_desc {A : Type} (x : A * Q) (l : list (A * Q)) : list (A * Q) :=
  match l with
  | [] => [x]
  | y :: l' =>
      if Qle_bool (snd y) (snd x) then x :: y :: l'
      else y :: insert_desc x l'
  end.

Definition sort_desc {A : Type} (l : list (A * Q)) : list (A * Q) :=
  foldr insert_desc [] l.

(** [_rank_solutions_by_similarity(self, request, solutions)] *)
Definition _rank_solutions_by_similarity (request : DevelopmentRequest)
    (solutions : list ImplementationSolution) : list ImplementationSolution :=
  let scored_solutions :=
    List.map (fun solution => (solution, _calculate_similarity request solution)) solutions in
  List.map fst (sort_desc scored_solutions).

(** [_extract_keywords(self, request)]: [llm] is what the Completion port
    and the parse of its answer give for the key ["keywords"]. *)
Definition _extract_keywords (llm : Outcome (list string)) (request : DevelopmentRequest)
  : list string :=
  match llm with
  | Returned keywords => keywords
  | Raised _ => [req_title request]
  end.

(** [search_similar_solutions(self, request)].  The orchestrator passes
    [state.request], which is [None] when no request was given: reading
    [request.title] then raises inside the [try] block.  Every failure
    ends in [return []]. *)
Definition search_similar_solutions (llm : Outcome (list string)) (db_ok : bool)
    (request : option DevelopmentRequest) (st : KnowledgeStore.KnowledgeStore)
  : list ImplementationSolution :=
  match request with
  | None => []
  | Some request =>
      let keywords := _extract_keywords llm request in
      let similar_solutions :=
        KnowledgeStore.search_solutions db_ok keywords (requirements request) 5 st in
      _rank_solutions_by_similarity request similar_solutions
  end.

(** *** Storing a solution with its decision *)

(** What the parse of the Completion port's answer gives
    [create_knowledge_entry]: the keys it reads, each possibly missing. *)
Record KnowledgeData : Type := {
  kd_title : option string;
  kd_description : option string;
  kd_entry_type : option string
}.

(** The values of [class KnowledgeEntryType]. *)
Definition entry_type_values : list string :=
  [ "solution_pattern"; "best_practice"; "common_issue"; "optimization_tip" ].

(** The behaviour of the ports during one [store_solution] call. *)
Record StorePorts : Type := {
  llm_knowledge : Outcome KnowledgeData;
  fresh_entry_id : string;
  db_entry_ok : bool;
  db_solution_ok : bool
}.

(** [create_knowledge_entry(self, solution)].  The constructor of
    [KnowledgeEntry] validates its arguments: an unknown entry type, a
    missing description or a quality score outside [0, 1] raise, and the
    handler returns [None]. *)
Definition create_knowledge_entry (ports : StorePorts)
    (solution : ImplementationSolution) (st : KnowledgeStore.KnowledgeStore)
  : option KnowledgeEntry * KnowledgeStore.KnowledgeStore :=
  if negb (RewardDecision_eqb (reward_decision solution) ACCEPTED) then (None, st)
  else
    match llm_knowledge ports with
    | Raised _ => (None, st)
    | Returned knowledge_data =>
        let ty := default "solution_pattern" (kd_entry_type knowledge_data) in
        let descr :=
          match kd_description knowledge_data with
          | Some d => Some d
          | None => description solution
          end in
        if bool_decide (ty ∈ entry_type_values)
           && bool_decide (is_Some descr)
           && Qle_bool 0 (success_rate solution)
           && Qle_bool (success_rate solution) 1
        then
          let entry :=
            {| entry_id := fresh_entry_id ports;
               entry_title := default (title solution) (kd_title knowledge_data);
               entry_description := descr;
               entry_type := ty;
               related_solution_ids := [solution_id solution];
               usage_count := 0;
               entry_success_rate := 0;
               last_used_at := None;
               quality_score := success_rate solution;
               is_verified := true |} in
          (Some entry, snd (KnowledgeStore.store_knowledge_entry (db_entry_ok ports) entry st))
        else (None, st)
    end.

(** [_handle_accepted_solution(self, solution)] *)
Definition _handle_accepted_solution (ports : StorePorts)
    (solution : ImplementationSolution) (st : KnowledgeStore.KnowledgeStore)
  : ImplementationSolution * KnowledgeStore.KnowledgeStore :=
  let solution :=
    set_success_rate (Qmin 1 (success_rate solution + (1 # 10))) solution in
  (solution, snd (create_knowledge_entry ports solution st)).

(** [_handle_rejected_solution(self, solution)] *)
Definition _handle_rejected_solution (solution : ImplementationSolution)
  : ImplementationSolution :=
  let solution :=
    set_success_rate (Qmax 0 (success_rate solution - (1 # 10))) solution in
  match validation_result solution with
  | Some vr => set_validation_result (Some (append_issue "方案被用户拒绝" vr)) solution
  | None => solution
  end.

(** [_handle_pending_solution(self, solution)] *)
Definition _handle_pending_solution (solution : ImplementationSolution)
  : ImplementationSolution := solution.

(** The points [_record_reward_transaction] writes for a decision. *)
Definition reward_points_of (decision : RewardDecision) : Z :=
  match decision with
  | ACCEPTED => 100
  | REJECTED => -50
  | PENDING => 0
  end.

(** [_record_reward_transaction(self, solution, decision)] *)
Definition _record_reward_transaction (now : Z) (solution : ImplementationSolution)
    (decision : RewardDecision) (st : KnowledgeStore.KnowledgeStore)
  : KnowledgeStore.KnowledgeStore :=
  let transaction :=
    {| tx_solution_id := solution_id solution;
       evaluation_id := "";
       reward_points := reward_points_of decision;
       reward_type := RewardDecision_value decision;
       reward_reason := "方案" ++ RewardDecision_value decision;
       tx_status := "processed";
       processed_at := Some now |} in
  snd (KnowledgeStore.store_reward_transaction transaction st).

(** [store_solution(self, solution, reward_decision)]: the result, the
    solution object after the call and the store after the call.  Every
    callee traps its own failures, so the [try] block runs to its
    [return True]. *)
Definition store_solution (ports : StorePorts) (now : Z)
    (solution : ImplementationSolution) (reward_decision : RewardDecision)
    (st : KnowledgeStore.KnowledgeStore)
  : bool * ImplementationSolution * KnowledgeStore.KnowledgeStore :=
  let solution := set_updated_at now (set_reward_decision reward_decision solution) in
  let '(solution, st) :=
    match reward_decision with
    | ACCEPTED => _handle_accepted_solution ports solution st
    | REJECTED => (_handle_rejected_solution solution, st)
    | PENDING => (_handle_pending_solution solution, st)
    end in
  let st := snd (KnowledgeStore.store_solution (db_solution_ok ports) solution st) in
  let st := _record_reward_transaction now solution reward_decision st in
  (true, solution, st).

(** *** Cleaning up old solutions *)

Section Cleanup.
(** The store object behind [self.knowledge_store]: its state [S] and
    the two methods [cleanup_old_solutions] looks up on it.  A method
    the object does not have is [None]; calling it raises
    [AttributeError]. *)
Context {S : Type}.
Variable get_solutions_before_date
  : option (Z -> S -> Outcome (list ImplementationSolution)).
Variable delete_solution : option (string -> S -> Outcome S).

(** The [for solution in old_solutions] loop: the count so far and the
    store so far; [Raised] when a call raises. *)
Fixpoint cleanup_loop (old_solutions : list ImplementationSolution)
    (cleaned_count : Z) (st : S) : Outcome Z * S :=
  match old_solutions with
  | [] => (Returned cleaned_count, st)
  | solution :: rest =>
      if RewardDecision_eqb (reward_decision solution) REJECTED
      then
        match delete_solution with
        | None => (Raised "AttributeError: delete_solution", st)
        | Some delete =>
            match delete (solution_id solution) st with
            | Returned st' => cleanup_loop rest (cleaned_count + 1) st'
            | Raised e => (Raised e, st)
            end
        end
      else cleanup_loop rest cleaned_count st
  end.

(** [timedelta(days=retention_days)] in seconds. *)
Definition timedelta_days (days : Z) : Z := days * 86400.

(** [cleanup_old_solutions(self, retention_days=90)] at time [now]: the
    returned count and the store after the call.  Any exception ends in
    the handler's [return 0]. *)
Definition cleanup_old_solutions (now retention_days : Z) (st : S) : Z * S :=
  let cutoff_date := now - timedelta_days retention_days in
  match get_solutions_before_date with
  | None => (0, st)
  | Some get_before =>
      match get_before cutoff_date st with
      | Raised _ => (0, st)
      | Returned old_solutions =>
          match cleanup_loop old_solutions 0 st with
          | (Returned cleaned_count, st') => (cleaned_count, st')
          | (Raised _, st') => (0, st')
          end
      end
  end.
End Cleanup.

(** [cleanup_old_solutions] of the agent, whose [self.knowledge_store] is
    a [KnowledgeStore()]. *)
Definition cleanup_old_solutions_agent (now retention_days : Z)
    (st : KnowledgeStore.KnowledgeStore) : Z * KnowledgeStore.KnowledgeStore :=
  cleanup_old_solutions KnowledgeStore.get_solutions_before_date
                        KnowledgeStore.delete_solution now retention_days st.

End KnowledgeManager.

(** ** Top-level orchestrator ([src/graph/low_code_workflow.py]) *)

Module Workflow.
Import Models.

(** [class WorkflowStage(str, Enum)] *)
Inductive WorkflowStage : Type :=
| INITIALIZATION | KNOWLEDGE_SEARCH | DEVELOPMENT | VALIDATION
| REVIEW | KNOWLEDGE_UPDATE | COMPLETION.

(** [class LowCodeWorkflowState(BaseModel)] *)
Record LowCodeWorkflowState : Type := {
  request : option DevelopmentRequest;
  user_feedback : option string;
  current_stage : WorkflowStage;
  iteration_count : Z;
  max_iterations : Z;
  similar_solutions : list ImplementationSolution;
  current_solution : option ImplementationSolution;
  validation_result : option ValidationResult;
  reward_decision : RewardDecision;
  human_in_loop : bool;
  auto_accept_threshold : Q;
  errors : list string;
  warnings : list string;
  final_solution : option ImplementationSolution;
  workflow_completed : bool;
  success : bool
}.

(** Attribute assignments on the state object. *)
Definition set_request (v : option DevelopmentRequest) (s : LowCodeWorkflowState)
  : LowCodeWorkflowState :=
  {| request := v; user_feedback := user_feedback s; current_stage := current_stage s;
     iteration_count := iteration_count s; max_iterations := max_iterations s;
     similar_solutions := similar_solutions s;
     current_solution := current_solution s;
     validation_result := validation_result s; reward_decision := reward_decision s;
     human_in_loop := human_in_loop s;
     auto_accept_threshold := auto_accept_threshold s; errors := errors s;
     warnings := warnings s; final_solution := final_solution s;
     workflow_completed := workflow_completed s; success := success s |}.

Definition set_current_stage (v : WorkflowStage) (s : LowCodeWorkflowState)
  : LowCodeWorkflowState :=
  {| request := request s; user_feedback := user_feedback s; current_stage := v;
     iteration_count := iteration_count s; max_iterations := max_iterations s;
     similar_solutions := similar_solutions s;
     current_solution := current_solution s;
     validation_result := validation_result s; reward_decision := reward_decision s;
     human_in_loop := human_in_loop s;
     auto_accept_threshold := auto_accept_threshold s; errors := errors s;
     warnings := warnings s; final_solution := final_solution s;
     workflow_completed := workflow_completed s; success := success s |}.

Definition set_iteration_count (v : Z) (s : LowCodeWorkflowState)
  : LowCodeWorkflowState :=
  {| request := request s; user_feedback := user_feedback s;
     current_stage := current_stage s; iteration_count := v;
     max_iterations := max_iterations s; similar_solutions := similar_solutions s;
     current_solution := current_solution s;
     validation_result := validation_result s; reward_decision := reward_decision s;
     human_in_loop := human_in_loop s;
     auto_accept_threshold := auto_accept_threshold s; errors := errors s;
     warnings := warnings s; final_solution := final_solution s;
     workflow_completed := workflow_completed s; success := success s |}.

Definition set_similar_solutions (v : list ImplementationSolution) (s : LowCodeWorkflowState)
  : LowCodeWorkflowState :=
  {| request := request s; user_feedback := user_feedback s;
     current_stage := current_stage s; iteration_count := iteration_count s;
     max_iterations := max_iterations s; similar_solutions := v;
     current_solution := current_solution s;
     validation_result := validation_result s; reward_decision := reward_decision s;
     human_in_loop := human_in_loop s;
     auto_accept_threshold := auto_accept_threshold s; errors := errors s;
     warnings := warnings s; final_solution := final_solution s;
     workflow_completed := workflow_completed s; success := success s |}.

Definition set_current_solution (v : option ImplementationSolution) (s : LowCodeWorkflowState)
  : LowCodeWorkflowState :=
  {| request := request s; user_feedback := user_feedback s;
     current_stage := current_stage s; iteration_count := iteration_count s;
     max_iterations := max_iterations s; similar_solutions := similar_solutions s;
     current_solution := v; validation_result := validation_result s;
     reward_decision := reward_decision s; human_in_loop := human_in_loop s;
     auto_accept_threshold := auto_accept_threshold s; errors := errors s;
     warnings := warnings s; final_solution := final_solution s;
     workflow_completed := workflow_completed s; success := success s |}.

Definition set_validation_result (v : option ValidationResult) (s : LowCodeWorkflowState)
  : LowCodeWorkflowState :=
  {| request := request s; user_feedback := user_feedback s;
     current_stage := current_stage s; iteration_count := iteration_count s;
     max_iterations := max_iterations s; similar_solutions := similar_solutions s;
     current_solution := current_solution s; validation_result := v;
     reward_decision := reward_decision s; human_in_loop := human_in_loop s;
     auto_accept_threshold := auto_accept_threshold s; errors := errors s;
     warnings := warnings s; final_solution := final_solution s;
     workflow_completed := workflow_completed s; success := success s |}.

Definition set_reward_decision (v : RewardDecision) (s : LowCodeWorkflowState)
  : LowCodeWorkflowState :=
  {| request := request s; user_feedback := user_feedback s;
     current_stage := current_stage s; iteration_count := iteration_count s;
     max_iterations := max_iterations s; similar_solutions := similar_solutions s;
     current_solution := current_solution s;
     validation_result := validation_result s; reward_decision := v;
     human_in_loop := human_in_loop s;
     auto_accept_threshold := auto_accept_threshold s; errors := errors s;
     warnings := warnings s; final_solution := final_solution s;
     workflow_completed := workflow_completed s; success := success s |}.

Definition set_errors (v : list string) (s : LowCodeWorkflowState)
  : LowCodeWorkflowState :=
  {| request := request s; user_feedback := user_feedback s;
     current_stage := current_stage s; iteration_count := iteration_count s;
     max_iterations := max_iterations s; similar_solutions := similar_solutions s;
     current_solution := current_solution s;
     validation_result := validation_result s; reward_decision := reward_decision s;
     human_in_loop := human_in_loop s;
     auto_accept_threshold := auto_accept_threshold s; errors := v;
     warnings := warnings s; final_solution := final_solution s;
     workflow_completed := workflow_completed s; success := success s |}.

Definition set_warnings (v : list string) (s : LowCodeWorkflowState)
  : LowCodeWorkflowState :=
  {| request := request s; user_feedback := user_feedback s;
     current_stage := current_stage s; iteration_count := iteration_count s;
     max_iterations := max_iterations s; similar_solutions := similar_solutions s;
     current_solution := current_solution s;
     validation_result := validation_result s; reward_decision := reward_decision s;
     human_in_loop := human_in_loop s;
     auto_accept_threshold := auto_accept_threshold s; errors := errors s;
     warnings := v; final_solution := final_solution s;
     workflow_completed := workflow_completed s; success := success s |}.

Definition set_final_solution (v : option ImplementationSolution) (s : LowCodeWorkflowState)
  : LowCodeWorkflowState :=
  {| request := request s; user_feedback := user_feedback s;
     current_stage := current_stage s; iteration_count := iteration_count s;
     max_iterations := max_iterations s; similar_solutions := similar_solutions s;
     current_solution := current_solution s;
     validation_result := validation_result s; reward_decision := reward_decision s;
     human_in_loop := human_in_loop s;
     auto_accept_threshold := auto_accept_threshold s; errors := errors s;
     warnings := warnings s; final_solution := v;
     workflow_completed := workflow_completed s; success := success s |}.

Definition set_workflow_completed (v : bool) (s : LowCodeWorkflowState)
  : LowCodeWorkflowState :=
  {| request := request s; user_feedback := user_feedback s;
     current_stage := current_stage s; iteration_count := iteration_count s;
     max_iterations := max_iterations s; similar_solutions := similar_solutions s;
     current_solution := current_solution s;
     validation_result := validation_result s; reward_decision := reward_decision s;
     human_in_loop := human_in_loop s;
     auto_accept_threshold := auto_accept_threshold s; errors := errors s;
     warnings := warnings s; final_solution := final_solution s;
     workflow_completed := v; success := success s |}.

Definition set_success (v : bool) (s : LowCodeWorkflowState)
  : LowCodeWorkflowState :=
  {| request := request s; user_feedback := user_feedback s;
     current_stage := current_stage s; iteration_count := iteration_count s;
     max_iterations := max_iterations s; similar_solutions := similar_solutions s;
     current_solution := current_solution s;
     validation_result := validation_result s; reward_decision := reward_decision s;
     human_in_loop := human_in_loop s;
     auto_accept_threshold := auto_accept_threshold s; errors := errors s;
     warnings := warnings s; final_solution := final_solution s;
     workflow_completed := workflow_completed s; success := v |}.

(** [state.errors.append(msg)] and [state.warnings.append(msg)] *)
Definition add_error (msg : string) (s : LowCodeWorkflowState) : LowCodeWorkflowState :=
  set_errors (errors s ++ [msg]) s.

Definition add_warning (msg : string) (s : LowCodeWorkflowState) : LowCodeWorkflowState :=
  set_warnings (warnings s ++ [msg]) s.

(** The three agents as the orchestrator calls them.  A call is told
    apart from the others by the iteration count it is made under, so the
    agents may answer every call differently.  [store_solution] gives its
    result together with the solution object as the call left it. *)
Record Agents : Type := {
  search_similar_solutions
    : option DevelopmentRequest -> Outcome (list ImplementationSolution);
  develop : Z -> option DevelopmentRequest -> Outcome ImplementationSolution;
  validate : Z -> ImplementationSolution -> Outcome ValidationResult;
  store_solution
    : ImplementationSolution -> RewardDecision -> Outcome bool * ImplementationSolution;
  clock : Z -> Z
}.

Section Nodes.
Variable agents : Agents.

(** [_initialize(self, state)]: the request present is stamped with the
    time, [state.request.created_at = datetime.now()]. *)
Definition _initialize (state : LowCodeWorkflowState) : LowCodeWorkflowState :=
  let state := set_current_stage INITIALIZATION state in
  match request state with
  | None => add_error "缺少开发请求" state
  | Some request =>
      set_request
        (Some (set_req_created_at (clock agents (iteration_count state)) request)) state
  end.

(** [_search_knowledge(self, state)] *)
Definition _search_knowledge (state : LowCodeWorkflowState) : LowCodeWorkflowState :=
  let state := set_current_stage KNOWLEDGE_SEARCH state in
  match search_similar_solutions agents (request state) with
  | Returned similar_solutions =>
      let state := set_similar_solutions similar_solutions state in
      match similar_solutions with
      | [] => state
      | _ :: _ =>
          add_warning ("找到" ++ pretty (length similar_solutions)
                         ++ "个相似方案，可参考复用") state
      end
  | Raised e => add_error ("搜索知识失败: " ++ e) state
  end.

(** [_develop_solution(self, state)] *)
Definition _develop_solution (state : LowCodeWorkflowState) : LowCodeWorkflowState :=
  let state := set_current_stage DEVELOPMENT state in
  let state := set_iteration_count (iteration_count state + 1) state in
  match develop agents (iteration_count state) (request state) with
  | Returned solution =>
      let state := set_current_solution (Some solution) state in
      match operations solution with
      | _ :: _ => state
      | [] => add_error "方案开发失败" state
      end
  | Raised e => add_error ("开发方案失败: " ++ e) state
  end.

(** [_validate_solution(self, state)] *)
Definition _validate_solution (state : LowCodeWorkflowState) : LowCodeWorkflowState :=
  let state := set_current_stage VALIDATION state in
  match current_solution state with
  | None => add_error "没有可验证的方案" state
  | Some solution =>
      match validate agents (iteration_count state) solution with
      | Returned result =>
          let state := set_validation_result (Some result) state in
          set_current_solution
            (Some (update_validation_result (clock agents (iteration_count state))
                                            result solution)) state
      | Raised e => add_error ("验证方案失败: " ++ e) state
      end
  end.

(** The automatic decision of [_review_solution]. *)
Definition review_decision (result : ValidationResult) (state : LowCodeWorkflowState)
  : RewardDecision :=
  if is_valid result && Qle_bool (auto_accept_threshold state) (score result)
  then ACCEPTED
  else if is_valid result && Qle_bool (7 # 10) (score result)
  then (if human_in_loop state then PENDING else ACCEPTED)
  else (if iteration_count state <? max_iterations state then PENDING else REJECTED).

(** [_review_solution(self, state)] *)
Definition _review_solution (state : LowCodeWorkflowState) : LowCodeWorkflowState :=
  let state := set_current_stage REVIEW state in
  match current_solution state, validation_result state with
  | Some _, Some result => set_reward_decision (review_decision result state) state
  | _, _ => add_error "缺少方案或验证结果" state
  end.

(** [_update_knowledge(self, state)].  The knowledge manager assigns to
    the solution object it is given, which is [state.current_solution]. *)
Definition _update_knowledge (state : LowCodeWorkflowState) : LowCodeWorkflowState :=
  let state := set_current_stage KNOWLEDGE_UPDATE state in
  match current_solution state with
  | None => add_error "没有可存储的方案" state
  | Some solution =>
      let '(result, solution) :=
        store_solution agents solution (reward_decision state) in
      let state := set_current_solution (Some solution) state in
      match result with
      | Returned true => state
      | Returned false => add_warning "知识库更新失败" state
      | Raised e => add_error ("更新知识库失败: " ++ e) state
      end
  end.

(** [_finalize(self, state)] *)
Definition _finalize (state : LowCodeWorkflowState) : LowCodeWorkflowState :=
  let state := set_current_stage COMPLETION state in
  let state := set_workflow_completed true state in
  match current_solution state with
  | Some solution =>
      if negb (RewardDecision_eqb (reward_decision state) REJECTED)
      then set_success true (set_final_solution (Some solution) state)
      else set_success false state
  | None => set_success false state
  end.

(** [_handle_error(self, state)] *)
Definition _handle_error (state : LowCodeWorkflowState) : LowCodeWorkflowState :=
  set_success false (set_workflow_completed true state).

(** *** Conditional edges *)

(** The labels the routing functions return:
    [Literal["validate", "error", "retry"]],
    [Literal["review", "retry", "error"]] and
    [Literal["accept", "reject", "pending"]]. *)
Inductive AfterDevelopment : Type := Dev_validate | Dev_error | Dev_retry.
Inductive AfterValidation : Type := Val_review | Val_retry | Val_error.
Inductive AfterReview : Type := Rev_accept | Rev_reject | Rev_pending.

(** [_after_development(self, state)] *)
Definition _after_development (state : LowCodeWorkflowState) : AfterDevelopment :=
  match errors state with
  | _ :: _ => Dev_error
  | [] =>
      let no_operations :=
        match current_solution state with
        | None => true
        | Some solution =>
            match operations solution with [] => true | _ :: _ => false end
        end in
      if no_operations
      then (if iteration_count state <? max_iterations state
            then Dev_retry else Dev_error)
      else Dev_validate
  end.

(** [_after_validation(self, state)] *)
Definition _after_validation (state : LowCodeWorkflowState) : AfterValidation :=
  match errors state with
  | _ :: _ => Val_error
  | [] =>
      match validation_result state with
      | None => Val_error
      | Some _ => Val_review
      end
  end.

(** [_after_review(self, state)] *)
Definition _after_review (state : LowCodeWorkflowState) : AfterReview :=
  match reward_decision state with
  | ACCEPTED => Rev_accept
  | REJECTED => Rev_reject
  | PENDING => Rev_pending
  end.

(** *** The graph of [_build_workflow_graph] *)

Inductive Node : Type :=
| initialize | search_knowledge | develop_solution | validate_solution
| review_solution | update_knowledge | finalize | handle_error | END.

Definition Node_eqb (a b : Node) : bool :=
  match a, b with
  | initialize, initialize | search_knowledge, search_knowledge
  | develop_solution, develop_solution | validate_solution, validate_solution
  | review_solution, review_solution | update_knowledge, update_knowledge
  | finalize, finalize | handle_error, handle_error | END, END => true
  | _, _ => false
  end.

(** [graph.add_node(name, function)] *)
Definition node_function (n : Node) : LowCodeWorkflowState -> LowCodeWorkflowState :=
  match n with
  | initialize => _initialize
  | search_knowledge => _search_knowledge
  | develop_solution => _develop_solution
  | validate_solution => _validate_solution
  | review_solution => _review_solution
  | update_knowledge => _update_knowledge
  | finalize => _finalize
  | handle_error => _handle_error
  | END => fun state => state
  end.

(** The path maps of the three [add_conditional_edges] calls. *)
Definition after_development_edges (r : AfterDevelopment) : Node :=
  match r with
  | Dev_validate => validate_solution
  | Dev_error => handle_error
  | Dev_retry => develop_solution
  end.

Definition after_validation_edges (r : AfterValidation) : Node :=
  match r with
  | Val_review => review_solution
  | Val_retry => develop_solution
  | Val_error => handle_error
  end.

Definition after_review_edges (r : AfterReview) : Node :=
  match r with
  | Rev_accept => update_knowledge
  | Rev_reject => develop_solution
  | Rev_pending => finalize
  end.

(** The edge taken out of node [n] once its function has returned
    [state]. *)
Definition next_node (n : Node) (state : LowCodeWorkflowState) : Node :=
  match n with
  | initialize => search_knowledge
  | search_knowledge => develop_solution
  | develop_solution => after_development_edges (_after_development state)
  | validate_solution => after_validation_edges (_after_validation state)
  | review_solution => after_review_edges (_after_review state)
  | update_knowledge => finalize
  | handle_error => finalize
  | finalize => END
  | END => END
  end.

(** One state transition: run the node, then follow its edge. *)
Definition step (c : Node * LowCodeWorkflowState) : Node * LowCodeWorkflowState :=
  let state := node_function (fst c) (snd c) in
  (next_node (fst c) state, state).

(** At most [fuel] transitions, stopping at [END]. *)
Fixpoint run (fuel : nat) (c : Node * LowCodeWorkflowState)
  : Node * LowCodeWorkflowState :=
  match fuel with
  | O => c
  | S fuel' => if Node_eqb (fst c) END then c else run fuel' (step c)
  end.

(** [graph.ainvoke(initial_state)]: the graph is run from its entry
    point.  The engine that runs a compiled graph is a library outside the
    source; it is taken to give up with an exception when
    [recursion_limit] transitions did not reach [END]. *)
Definition ainvoke (recursion_limit : nat) (state : LowCodeWorkflowState)
  : Outcome (Engine.Output LowCodeWorkflowState) :=
  let c := run recursion_limit (initialize, state) in
  if Node_eqb (fst c) END then Returned (Engine.Mapping (snd c))
  else Raised "GraphRecursionError".
End Nodes.

(** *** The entry point *)

(** [LowCodeWorkflowState(request=request, human_in_loop=human_in_loop,
    current_stage=WorkflowStage.INITIALIZATION)] *)
Definition initial_state (req : DevelopmentRequest) (hil : bool) : LowCodeWorkflowState :=
  {| request := Some req; user_feedback := None; current_stage := INITIALIZATION;
     iteration_count := 0; max_iterations := 3; similar_solutions := [];
     current_solution := None; validation_result := None;
     reward_decision := PENDING; human_in_loop := hil;
     auto_accept_threshold := 9 # 10; errors := []; warnings := [];
     final_solution := None; workflow_completed := false; success := false |}.

(** The solution [execute] builds when the run gave none:
    [ImplementationSolution(request_id=..., title=..., description=...,
    operations=[], reward_decision=RewardDecision.REJECTED)]. *)
Definition rejected_solution (fresh_id : string) (now : Z) (req : DevelopmentRequest)
    (title_prefix descr : string) : ImplementationSolution :=
  {| solution_id := fresh_id; sol_request_id := request_id req;
     title := title_prefix ++ req_title req; description := Some descr;
     operations := []; Models.validation_result := None; visual_analysis := [];
     Models.reward_decision := REJECTED; success_rate := 0; execution_time := 0;
     developer_agent := None; version := 1; created_at := now; updated_at := now |}.

(** [execute(self, request, human_in_loop=True)] over any behaviour
    [graph_ainvoke] of the compiled graph.  The two tests
    [hasattr(final_state, 'final_solution') and final_state.final_solution]
    and [hasattr(final_state, 'current_solution') and
    final_state.current_solution] hold of an object of the state class
    with that solution set; of a mapping both [hasattr] tests are false. *)
Definition execute
    (graph_ainvoke : LowCodeWorkflowState -> Outcome (Engine.Output LowCodeWorkflowState))
    (fresh_id : string) (now : Z) (req : DevelopmentRequest) (hil : bool)
  : Outcome ImplementationSolution :=
  try_except
    (final_state ← graph_ainvoke (initial_state req hil);
     let fallback := rejected_solution fresh_id now req "失败方案: " "工作流执行失败" in
     match final_state with
     | Engine.Object state =>
         match final_solution state with
         | Some solution => Returned solution
         | None =>
             match current_solution state with
             | Some solution => Returned solution
             | None => Returned fallback
             end
         end
     | Engine.Mapping _ => Returned fallback
     end)
    (fun e =>
       Returned (rejected_solution fresh_id now req "异常方案: " ("工作流执行异常: " ++ e))).

End Workflow.

(** ** Concrete inputs used by the examples below *)

Module Scenarios.
Import Models.

(** An entry that was never used, and three recorded uses. *)
Definition fresh_entry : KnowledgeEntry :=
  {| entry_id := "e-1"; entry_title := "form pattern";
     entry_description := Some "reusable form layout";
     entry_type := "solution_pattern"; related_solution_ids := ["s-1"];
     usage_count := 0; entry_success_rate := 0; last_used_at := None;
     quality_score := 9 # 10; is_verified := true |}.

Definition three_uses : list (Z * bool) := [(10, true); (20, false); (30, true)].

(** An executed operation. *)
Definition operation (oid : string) (ok : option bool) : LowCodeOperation :=
  {| operation_id := oid; target_element := "[data-testid='create-form']";
     op_execution_time := Some (1 # 2); op_success := ok; error_message := None |}.

Definition validation (valid : bool) (sc : Q) : ValidationResult :=
  {| is_valid := valid; score := sc; issues := []; suggestions := [];
     validator_agent := Some "function_validator" |}.

(** A solution with the given identifier, title, description, operations,
    validation result, decision, success rate and creation time. *)
Definition solution_of (sid ttl : string) (descr : option string)
    (ops : list LowCodeOperation) (vr : option ValidationResult)
    (d : RewardDecision) (rate : Q) (created : Z) : ImplementationSolution :=
  {| solution_id := sid; sol_request_id := "r-1"; title := ttl; description := descr;
     operations := ops; validation_result := vr; visual_analysis := [];
     reward_decision := d; success_rate := rate; execution_time := 0;
     developer_agent := Some "low_code_developer"; version := 1;
     created_at := created; updated_at := created |}.

(** Two operations, both marked successful, and a valid validation result
    with score 0.85. *)
Definition two_successful_operations : ImplementationSolution :=
  solution_of "s-1" "Invoice Form" (Some "invoice entry form")
    [operation "op-1" (Some true); operation "op-2" (Some true)]
    (Some (validation true (85 # 100))) PENDING 0 0.

(** Three operations, one marked successful, one failed and one never
    executed, and the same validation result. *)
Definition one_successful_operation : ImplementationSolution :=
  solution_of "s-4" "Invoice Form" (Some "invoice entry form")
    [operation "op-1" (Some true); operation "op-2" (Some false); operation "op-3" None]
    (Some (validation true (85 # 100))) PENDING 1 0.

Definition developer_state (sol : ImplementationSolution)
  : Developer.LowCodeDeveloperState :=
  {| Developer.request := None; Developer.solution := Some sol;
     Developer.current_operation_index := 2; Developer.error_count := 0;
     Developer.max_errors := Developer.default_max_errors;
     Developer.is_authenticated := true |}.

(** The request titled "Invoice Form" and the candidate titled "Invoice
    Management Form": no shared description token, success rate 0.5. *)
Definition invoice_request : DevelopmentRequest :=
  {| request_id := "r-1"; req_title := "Invoice Form";
     req_description := "capture supplier bills"; requirements := ["amount field"];
     req_created_at := 0 |}.

Definition invoice_candidate : ImplementationSolution :=
  solution_of "s-7" "Invoice Management Form" (Some "ledger screen with approval")
    [] None ACCEPTED (1 # 2) 0.

(** Two candidates for the same request in the order the Store returns
    them: seven title tokens of which two are shared and success rate
    0.875, and one title token, shared, and success rate 0.5.  Neither
    description shares a token with the request's. *)
Definition itemised_candidate : ImplementationSolution :=
  solution_of "s-8" "Invoice Form With Tax And Line Items" (Some "seven part layout")
    [] None ACCEPTED (7 # 8) 0.

Definition short_candidate : ImplementationSolution :=
  solution_of "s-9" "Invoice" (Some "short layout")
    [] None ACCEPTED (1 # 2) 0.

(** A validated candidate with success rate 0.95 about to be stored, the
    ports of the call and an empty store. *)
Definition candidate_095 : ImplementationSolution :=
  solution_of "s-2" "Customer Form" (Some "customer entry form")
    [operation "op-1" (Some true)] (Some (validation true (92 # 100))) PENDING (95 # 100) 0.

Definition store_ports : KnowledgeManager.StorePorts :=
  {| KnowledgeManager.llm_knowledge :=
       Returned {| KnowledgeManager.kd_title := Some "Customer form pattern";
                   KnowledgeManager.kd_description := None;
                   KnowledgeManager.kd_entry_type := Some "best_practice" |};
     KnowledgeManager.fresh_entry_id := "e-9";
     KnowledgeManager.db_entry_ok := true;
     KnowledgeManager.db_solution_ok := true |}.

Definition empty_store : KnowledgeStore.KnowledgeStore :=
  {| KnowledgeStore.solutions := []; KnowledgeStore.knowledge_entries := [];
     KnowledgeStore.reward_transactions := [] |}.

(** *** Orchestrator states and agents *)

(** A developed solution with one executed operation. *)
Definition working_solution : ImplementationSolution :=
  solution_of "s-3" "Order Form" (Some "order entry form")
    [operation "op-1" (Some true)] None PENDING 1 0.

(** A state in review: [iteration] development rounds done out of
    [max_it], the given threshold and validation result. *)
Definition review_state (iteration max_it : Z) (threshold : Q)
    (result : ValidationResult) (hil : bool) : Workflow.LowCodeWorkflowState :=
  {| Workflow.request := Some invoice_request; Workflow.user_feedback := None;
     Workflow.current_stage := Workflow.VALIDATION;
     Workflow.iteration_count := iteration; Workflow.max_iterations := max_it;
     Workflow.similar_solutions := [];
     Workflow.current_solution := Some working_solution;
     Workflow.validation_result := Some result;
     Workflow.reward_decision := PENDING; Workflow.human_in_loop := hil;
     Workflow.auto_accept_threshold := threshold;
     Workflow.errors := []; Workflow.warnings := [];
     Workflow.final_solution := None; Workflow.workflow_completed := false;
     Workflow.success := false |}.

(** Agents none of which fails: no similar solution is found, every
    development round yields [working_solution], every validation finds
    it invalid with score 0.5. *)
Definition low_quality_agents : Workflow.Agents :=
  {| Workflow.search_similar_solutions := fun _ => Returned [];
     Workflow.develop := fun _ _ => Returned working_solution;
     Workflow.validate := fun _ _ => Returned (validation false (1 # 2));
     Workflow.store_solution := fun s _ => (Returned true, s);
     Workflow.clock := fun k => k |}.

(** Agents whose similarity search raises while development and
    validation succeed with score 0.95. *)
Definition failing_search_agents : Workflow.Agents :=
  {| Workflow.search_similar_solutions := fun _ => Raised "store unreachable";
     Workflow.develop := fun _ _ => Returned working_solution;
     Workflow.validate := fun _ _ => Returned (validation true (95 # 100));
     Workflow.store_solution := fun s _ => (Returned true, s);
     Workflow.clock := fun k => k |}.

(** The orchestrator's agents with the similarity search of the knowledge
    manager over a Completion port answering [llm], a database reachable
    or not ([db_ok]) and the store [st]. *)
Definition agents_with_knowledge_manager (llm : Outcome (list string)) (db_ok : bool)
    (st : KnowledgeStore.KnowledgeStore) : Workflow.Agents :=
  {| Workflow.search_similar_solutions :=
       fun req => Returned (KnowledgeManager.search_similar_solutions llm db_ok req st);
     Workflow.develop := fun _ _ => Returned working_solution;
     Workflow.validate := fun _ _ => Returned (validation true (95 # 100));
     Workflow.store_solution := fun s _ => (Returned true, s);
     Workflow.clock := fun k => k |}.

(** *** A store holding old solutions *)

Definition day : Z := 86400.

(** Now is day 200.  A rejected solution created 100 days ago, an
    accepted one created 200 days ago and a pending one created 150 days
    ago. *)
Definition today : Z := 200 * day.

Definition old_rejected : ImplementationSolution :=
  solution_of "s-rejected" "Leave Form" (Some "leave request form") [] None
    REJECTED (3 # 10) (today - 100 * day).

Definition old_accepted : ImplementationSolution :=
  solution_of "s-accepted" "Expense Form" (Some "expense claim form") [] None
    ACCEPTED (9 # 10) (today - 200 * day).

Definition old_pending : ImplementationSolution :=
  solution_of "s-pending" "Travel Form" (Some "travel request form") [] None
    PENDING (5 # 10) (today - 150 * day).

Definition aged_store : KnowledgeStore.KnowledgeStore :=
  {| KnowledgeStore.solutions := [old_rejected; old_accepted; old_pending];
     KnowledgeStore.knowledge_entries := [];
     KnowledgeStore.reward_transactions := [] |}.

End Scenarios.

(** ** Notions used in the statements below *)

Module Notions.
Import Models.

(** The validation result of a solution is present and valid. *)
Definition validated (sol : ImplementationSolution) : Prop :=
  exists vr, validation_result sol = Some vr /\ is_valid vr = true.

(** The operations whose success flag is [True], and their number. *)
Definition flagged_successful (op : LowCodeOperation) : Prop := op_success op = Some true.

Fixpoint count_flagged_successful (ops : list LowCodeOperation) : Z :=
  match ops with
  | [] => 0
  | op :: rest =>
      (if bool_decide (flagged_successful op) then 1 else 0)
      + count_flagged_successful rest
  end.

(** In a list sorted by descending key [y] may stand after [x]: its key
    is not greater. *)
Definition desc {A : Type} (x y : A * Q) : Prop := (snd y <= snd x)%Q.

(** Elements whose key equals [q], in list order. *)
Definition with_key {A : Type} (q : Q) (l : list (A * Q)) : list (A * Q) :=
  List.filter (fun x => Qeq_bool (snd x) q) l.

(** The candidates paired with their scores, as
    [_rank_solutions_by_similarity] builds them. *)
Definition scored (request : DevelopmentRequest) (l : list ImplementationSolution)
  : list (ImplementationSolution * Q) :=
  List.map (fun s => (s, KnowledgeManager._calculate_similarity request s)) l.

(** Every pair carries the score of its solution. *)
Definition well_scored (request : DevelopmentRequest) (x : ImplementationSolution * Q)
  : Prop :=
  snd x = KnowledgeManager._calculate_similarity request (fst x).

(** The description term of the score: the Jaccard similarity of the two
    descriptions, 0 for a candidate without description. *)
Definition description_jaccard (request : DevelopmentRequest)
    (candidate : ImplementationSolution) : Q :=
  match description candidate with
  | Some d =>
      TextSimilarity.jaccard (TextSimilarity.words (req_description request))
                             (TextSimilarity.words d)
  | None => 0%Q
  end.

(** The formula of the score evaluated over the rationals, without
    rounding. *)
Definition exact_score (request : DevelopmentRequest)
    (candidate : ImplementationSolution) : Q :=
  (((6 # 10)
    * TextSimilarity.jaccard (TextSimilarity.words (req_title request))
                             (TextSimilarity.words (title candidate))
    + (4 # 10) * description_jaccard request candidate)
   * success_rate candidate)%Q.

(** The texts of a request and of a candidate are ASCII. *)
Definition ascii_request (request : DevelopmentRequest) : bool :=
  TextSimilarity.is_ascii (req_title request)
  && TextSimilarity.is_ascii (req_description request).

Definition ascii_solution (candidate : ImplementationSolution) : bool :=
  TextSimilarity.is_ascii (title candidate)
  && match description candidate with
     | Some d => TextSimilarity.is_ascii d
     | None => true
     end.

(** The three components of the result of [store_solution]. *)
Definition stored_result (ports : KnowledgeManager.StorePorts) (now : Z)
    (solution : ImplementationSolution) (decision : RewardDecision)
    (st : KnowledgeStore.KnowledgeStore) : bool :=
  fst (fst (KnowledgeManager.store_solution ports now solution decision st)).

Definition stored_solution (ports : KnowledgeManager.StorePorts) (now : Z)
    (solution : ImplementationSolution) (decision : RewardDecision)
    (st : KnowledgeStore.KnowledgeStore) : ImplementationSolution :=
  snd (fst (KnowledgeManager.store_solution ports now solution decision st)).

Definition stored_store (ports : KnowledgeManager.StorePorts) (now : Z)
    (solution : ImplementationSolution) (decision : RewardDecision)
    (st : KnowledgeStore.KnowledgeStore) : KnowledgeStore.KnowledgeStore :=
  snd (KnowledgeManager.store_solution ports now solution decision st).

(** The bound of the termination claim: [max_iterations] times the sum of
    the two sub-workflow error budgets. *)
Definition transition_budget (max_it : Z) : nat :=
  Z.to_nat (max_it * (Developer.default_max_errors + Validator.default_max_errors)).

(** [END] is reached from [c] by at most [k] transitions. *)
Definition ends_within (agents : Workflow.Agents) (k : nat)
    (c : Workflow.Node * Workflow.LowCodeWorkflowState) : Prop :=
  fst (Workflow.run agents k c) = Workflow.END.

(** The configurations of a run that [execute] starts: the iteration
    budget is 3, no decision is [REJECTED], and one development round has
    been made once the run is past [develop_solution], none before. *)
Definition within_first_round (c : Workflow.Node * Workflow.LowCodeWorkflowState) : Prop :=
  Workflow.max_iterations (snd c) = 3
  /\ Workflow.reward_decision (snd c) <> REJECTED
  /\ Workflow.iteration_count (snd c)
     = match fst c with
       | Workflow.initialize | Workflow.search_knowledge | Workflow.develop_solution => 0
       | _ => 1
       end.

(** A solution [cleanup_old_solutions] is to delete: rejected and created
    before the cutoff. *)
Definition expired (cutoff : Z) (s : ImplementationSolution) : bool :=
  RewardDecision_eqb (reward_decision s) REJECTED && (created_at s <? cutoff).

(** The identifiers the cleanup loop passes to [delete_solution]. *)
Definition rejected_ids (l : list ImplementationSolution) : list string :=
  List.map solution_id
    (List.filter (fun s => RewardDecision_eqb (reward_decision s) REJECTED) l).

(** A solution survives the deletion of the identifiers [ids]. *)
Definition kept (ids : list string) (s : ImplementationSolution) : bool :=
  negb (existsb (String.eqb (solution_id s)) ids).

End Notions.

(** * Further notions and inputs *)

Module RunNotions.
Import Models.

(** The request [r'] is the request [r] up to its creation time. *)
Definition stamped (r r' : option DevelopmentRequest) : Prop :=
  match r, r' with
  | Some a, Some b => exists t : Z, b = set_req_created_at t a
  | None, None => True
  | _, _ => False
  end.

(** The fields of the state that configure a run; the request up to its
    creation time. *)
Definition same_configuration (s s' : Workflow.LowCodeWorkflowState) : Prop :=
  stamped (Workflow.request s) (Workflow.request s')
  /\ Workflow.max_iterations s' = Workflow.max_iterations s
  /\ Workflow.human_in_loop s' = Workflow.human_in_loop s
  /\ Workflow.auto_accept_threshold s' = Workflow.auto_accept_threshold s
  /\ Workflow.user_feedback s' = Workflow.user_feedback s.

(** Case analysis on everything a node function branches on. *)
Ltac node_cases :=
  unfold Workflow.node_function, Workflow._initialize, Workflow._search_knowledge,
    Workflow._develop_solution, Workflow._validate_solution, Workflow._review_solution,
    Workflow._update_knowledge, Workflow._finalize, Workflow._handle_error;
  cbn;
  repeat match goal with
         | |- context [match ?x with _ => _ end] => destruct x; cbn
         end.

(** Agents whose validator raises: the search finds nothing and every
    development round yields [Scenarios.working_solution]. *)
Definition validation_raising_agents : Workflow.Agents :=
  {| Workflow.search_similar_solutions := fun _ => Returned [];
     Workflow.develop := fun _ _ => Returned Scenarios.working_solution;
     Workflow.validate := fun _ _ => Raised "browser closed";
     Workflow.store_solution := fun s _ => (Returned true, s);
     Workflow.clock := fun k => k |}.

(** Agents on the accepting path: validation is valid with score 0.95 and
    the knowledge manager leaves the decision and a success rate of 1 on
    the solution it stores. *)
Definition accepting_agents : Workflow.Agents :=
  {| Workflow.search_similar_solutions := fun _ => Returned [];
     Workflow.develop := fun _ _ => Returned Scenarios.working_solution;
     Workflow.validate := fun _ _ => Returned (Scenarios.validation true (95 # 100));
     Workflow.store_solution :=
       fun s d => (Returned true, set_success_rate 1 (set_reward_decision d s));
     Workflow.clock := fun k => k |}.

End RunNotions.

Module StoreNotions.
Import Models.

(** The row carries the decision the search filters on:
    [SolutionTable.reward_decision == "accepted"]. *)
Definition accepted (s : ImplementationSolution) : bool :=
  RewardDecision_eqb (reward_decision s) ACCEPTED.

(** The accepted rows of the store, in return order. *)
Definition accepted_rows (st : KnowledgeStore.KnowledgeStore)
  : list ImplementationSolution :=
  List.filter accepted (KnowledgeStore.solutions st).

(** The primary keys of the solutions table. *)
Definition solution_ids (st : KnowledgeStore.KnowledgeStore) : list string :=
  List.map solution_id (KnowledgeStore.solutions st).

End StoreNotions.

Module StoreCalls.
Import Models.

(** One call [store_solution(solution, reward_decision)] of the knowledge
    manager: the behaviour of the ports during the call, the clock
    reading, and the two arguments. *)
Record StoreCall : Type := {
  call_ports : KnowledgeManager.StorePorts;
  call_time : Z;
  call_solution : ImplementationSolution;
  call_decision : RewardDecision
}.

(** The store after a sequence of calls. *)
Definition store_calls (calls : list StoreCall) (st : KnowledgeStore.KnowledgeStore)
  : KnowledgeStore.KnowledgeStore :=
  fold_left
    (fun st c =>
       snd (KnowledgeManager.store_solution (call_ports c) (call_time c)
              (call_solution c) (call_decision c) st))
    calls st.

End StoreCalls.

(** ** Ratings and evaluations ([src/models/reward_models.py]) *)

Module Ratings.
Import Models.

(** A [KnowledgeEntry] object together with its [user_ratings] list. *)
Record RatedEntry : Type := {
  entry : KnowledgeEntry;
  user_ratings : list Q
}.

(** [self.quality_score = q] *)
Definition set_quality_score (q : Q) (e : KnowledgeEntry) : KnowledgeEntry :=
  {| entry_id := entry_id e;
     entry_title := entry_title e;
     entry_description := entry_description e;
     entry_type := entry_type e;
     related_solution_ids := related_solution_ids e;
     usage_count := usage_count e;
     entry_success_rate := entry_success_rate e;
     last_used_at := last_used_at e;
     quality_score := q;
     is_verified := is_verified e |}.

(** [sum(xs)]: the elements are added to 0 from left to right. *)
Definition sum (xs : list Q) : Q := fold_left Qplus xs 0%Q.

(** [KnowledgeEntry.add_rating(self, rating)] *)
Definition add_rating (rating : Q) (e : RatedEntry) : RatedEntry :=
  if Qle_bool 0 rating && Qle_bool rating 1
  then
    let ratings := user_ratings e ++ [rating] in
    {| entry := set_quality_score (sum ratings / inject_Z (Z.of_nat (length ratings)))%Q
                                  (entry e);
       user_ratings := ratings |}
  else e.

(** A sequence of [add_rating] calls. *)
Definition add_ratings (ratings : list Q) (e : RatedEntry) : RatedEntry :=
  fold_left (fun acc r => add_rating r acc) ratings e.

(** The ratings of a sequence that [add_rating] takes. *)
Definition in_range (rating : Q) : bool := Qle_bool 0 rating && Qle_bool rating 1.

End Ratings.

Module Evaluation.
Import Models.

(** [class RewardCriteria]: the fields [calculate_overall_score] and its
    callers can tell apart. *)
Record RewardCriteria : Type := {
  criteria_name : string;
  weight : Q;
  is_active : bool
}.

(** [class SolutionEvaluation] *)
Record SolutionEvaluation : Type := {
  ev_solution_id : string;
  evaluator_type : string;
  evaluator_id : option string;
  functionality_score : Q;
  code_quality_score : Q;
  performance_score : Q;
  user_satisfaction_score : Q;
  overall_score : Q;
  strengths : list string;
  weaknesses : list string;
  improvement_suggestions : list string;
  status : string;
  completed_at : option Z
}.

Definition set_overall_score (q : Q) (ev : SolutionEvaluation) : SolutionEvaluation :=
  {| ev_solution_id := ev_solution_id ev;
     evaluator_type := evaluator_type ev;
     evaluator_id := evaluator_id ev;
     functionality_score := functionality_score ev;
     code_quality_score := code_quality_score ev;
     performance_score := performance_score ev;
     user_satisfaction_score := user_satisfaction_score ev;
     overall_score := q;
     strengths := strengths ev;
     weaknesses := weaknesses ev;
     improvement_suggestions := improvement_suggestions ev;
     status := status ev;
     completed_at := completed_at ev |}.

(** The term one criterion adds to [weighted_sum]: the score its name
    selects times its weight; nothing for any other name. *)
Definition weighted_term (ev : SolutionEvaluation) (criterion : RewardCriteria) : Q :=
  if String.eqb (criteria_name criterion) "functionality"
  then (functionality_score ev * weight criterion)%Q
  else if String.eqb (criteria_name criterion) "code_quality"
  then (code_quality_score ev * weight criterion)%Q
  else if String.eqb (criteria_name criterion) "performance"
  then (performance_score ev * weight criterion)%Q
  else if String.eqb (criteria_name criterion) "user_satisfaction"
  then (user_satisfaction_score ev * weight criterion)%Q
  else 0%Q.

(** The [for criterion in criteria] loop on [(weighted_sum, total_weight)]. *)
Definition accumulate (ev : SolutionEvaluation) (criteria : list RewardCriteria)
    (acc : Q * Q) : Q * Q :=
  fold_left
    (fun acc criterion =>
       ((fst acc + weighted_term ev criterion)%Q, (snd acc + weight criterion)%Q))
    criteria acc.

(** [SolutionEvaluation.calculate_overall_score(self, criteria)]: the
    returned score and the evaluation object after the call. *)
Definition calculate_overall_score (criteria : list RewardCriteria)
    (ev : SolutionEvaluation) : Q * SolutionEvaluation :=
  match criteria with
  | [] => (0%Q, ev)
  | _ :: _ =>
      let '(weighted_sum, total_weight) := accumulate ev criteria (0%Q, 0%Q) in
      let overall :=
        if negb (Qle_bool total_weight 0) then (weighted_sum / total_weight)%Q else 0%Q in
      (overall, set_overall_score overall ev)
  end.

(** [KnowledgeStore.get_reward_criteria(self)]: the four default criteria. *)
Definition get_reward_criteria : list RewardCriteria :=
  [ {| criteria_name := "functionality"; weight := 4 # 10; is_active := true |};
    {| criteria_name := "code_quality"; weight := 2 # 10; is_active := true |};
    {| criteria_name := "performance"; weight := 2 # 10; is_active := true |};
    {| criteria_name := "user_satisfaction"; weight := 2 # 10; is_active := true |} ].

(** The keys [evaluate_solution] reads from [evaluator_feedback], each
    possibly missing; the scores given are numbers. *)
Record EvaluatorFeedback : Type := {
  fb_evaluator_id : option string;
  fb_functionality_score : option Q;
  fb_code_quality_score : option Q;
  fb_performance_score : option Q;
  fb_user_satisfaction_score : option Q;
  fb_strengths : option (list string);
  fb_weaknesses : option (list string);
  fb_improvement_suggestions : option (list string)
}.

(** [KnowledgeManagerAgent.evaluate_solution(self, solution,
    evaluator_feedback)] at time [now].  Assignments to the fields of the
    evaluation are not validated; [get_reward_criteria] and
    [store_evaluation] trap their own failures, so the [try] block runs to
    its [return]. *)
Definition evaluate_solution (now : Z) (solution : ImplementationSolution)
    (evaluator_feedback : EvaluatorFeedback) : SolutionEvaluation :=
  let evaluation :=
    {| ev_solution_id := solution_id solution;
       evaluator_type := "human";
       evaluator_id := Some (default "unknown" (fb_evaluator_id evaluator_feedback));
       functionality_score := default 0%Q (fb_functionality_score evaluator_feedback);
       code_quality_score := default 0%Q (fb_code_quality_score evaluator_feedback);
       performance_score := default 0%Q (fb_performance_score evaluator_feedback);
       user_satisfaction_score :=
         default 0%Q (fb_user_satisfaction_score evaluator_feedback);
       overall_score := 0;
       strengths := [];
       weaknesses := [];
       improvement_suggestions := [];
       status := "pending";
       completed_at := None |} in
  let evaluation := snd (calculate_overall_score get_reward_criteria evaluation) in
  {| ev_solution_id := ev_solution_id evaluation;
     evaluator_type := evaluator_type evaluation;
     evaluator_id := evaluator_id evaluation;
     functionality_score := functionality_score evaluation;
     code_quality_score := code_quality_score evaluation;
     performance_score := performance_score evaluation;
     user_satisfaction_score := user_satisfaction_score evaluation;
     overall_score := overall_score evaluation;
     strengths := default [] (fb_strengths evaluator_feedback);
     weaknesses := default [] (fb_weaknesses evaluator_feedback);
     improvement_suggestions := default [] (fb_improvement_suggestions evaluator_feedback);
     status := "completed";
     completed_at := Some now |}.

(** The four scores of an evaluation lie in [0, 1]. *)
Definition scores_in_range (ev : SolutionEvaluation) : Prop :=
  (0 <= functionality_score ev <= 1
   /\ 0 <= code_quality_score ev <= 1
   /\ 0 <= performance_score ev <= 1
   /\ 0 <= user_satisfaction_score ev <= 1)%Q.

(** The same criterion with another [is_active] flag. *)
Definition with_active (flag : bool) (criterion : RewardCriteria) : RewardCriteria :=
  {| criteria_name := criteria_name criterion; weight := weight criterion;
     is_active := flag |}.

End Evaluation.

(** ** Rolling a solution back ([KnowledgeManagerAgent.rollback_solution]) *)

Module Rollback.
Import Models.

Section Rollback.
(** The store object behind [self.knowledge_store]: the method
    [rollback_solution] looks up on it at its last step.  A method the
    object does not have is [None]; calling it raises [AttributeError]. *)
Variable update_solution
  : option (ImplementationSolution -> KnowledgeStore.KnowledgeStore
            -> Outcome (bool * KnowledgeStore.KnowledgeStore)).

(** [rollback_solution(self, solution_id)] at time [now]: the result and
    the store after the call.  [store_version] keeps nothing and returns
    [True]; the changes are made to the object [get_solution] built, not
    to the stored row. *)
Definition rollback_solution (db_ok : bool) (now : Z) (sid : string)
    (st : KnowledgeStore.KnowledgeStore) : bool * KnowledgeStore.KnowledgeStore :=
  match KnowledgeStore.get_solution db_ok sid st with
  | None => (false, st)
  | Some solution =>
      let solution := set_reward_decision REJECTED solution in
      let solution :=
        set_success_rate (Qmax 0 (success_rate solution - (1 # 10))) solution in
      let solution := set_updated_at now solution in
      match update_solution with
      | None => (false, st)
      | Some update =>
          match update solution st with
          | Returned (_, st') => (true, st')
          | Raised _ => (false, st)
          end
      end
  end.
End Rollback.

(** [class KnowledgeStore] defines no [update_solution] (it is not among
    [KnowledgeStore.methods]). *)
Definition update_solution
  : option (ImplementationSolution -> KnowledgeStore.KnowledgeStore
            -> Outcome (bool * KnowledgeStore.KnowledgeStore)) := None.

(** [rollback_solution] of the agent, whose [self.knowledge_store] is a
    [KnowledgeStore()]. *)
Definition rollback_solution_agent (db_ok : bool) (now : Z) (sid : string)
    (st : KnowledgeStore.KnowledgeStore) : bool * KnowledgeStore.KnowledgeStore :=
  rollback_solution update_solution db_ok now sid st.

End Rollback.

(** ** Developer sub-workflow: the graph
    ([src/agents/low_code_developer.py],
    [src/tools/playwright_automation.py]) *)

Module DeveloperGraph.
Import Models.

(** *** Text helpers *)

(** [needle in hay] on strings. *)
Fixpoint contains (needle hay : string) : bool :=
  String.prefix needle hay
  || match hay with
     | EmptyString => false
     | String _ rest => contains needle rest
     end.

(** [s.replace(' ', '-')] *)
Fixpoint replace_spaces (s : string) : string :=
  match s with
  | EmptyString => EmptyString
  | String c rest =>
      String (if Ascii.eqb c " " then "-"%char else c) (replace_spaces rest)
  end.

(** [l[i]] for a Python list: a negative index counts from the end;
    [None] stands for [IndexError]. *)
Definition position {A : Type} (l : list A) (i : Z) : option nat :=
  let n := Z.of_nat (length l) in
  if (0 <=? i) && (i <? n) then Some (Z.to_nat i)
  else if (- n <=? i) && (i <? 0) then Some (Z.to_nat (n + i))
  else None.

(** *** Data *)

(** The values of [class OperationType] and [class ActionType]. *)
Definition operation_type_values : list string :=
  [ "data_modeling"; "form_design"; "page_design"; "workflow_design";
    "report_design"; "dictionary_management"; "navigation"; "authentication" ].

Definition action_values : list string :=
  [ "click"; "fill"; "select"; "drag_drop"; "hover"; "wait"; "screenshot"; "validate" ].

(** The actions [PlaywrightAutomation._execute_action] has a branch for. *)
Definition supported_actions : list string :=
  [ "click"; "fill"; "select"; "hover"; "wait"; "screenshot" ].

(** One entry of the operation plan the Completion port gave, with the
    identifier drawn for the operation built from it.  A key the entry
    does not have is [None].  The entries are taken to be well-typed
    objects; what can still fail is an operation type or an action outside
    its enumeration. *)
Record OpData : Type := {
  od_operation_id : string;
  od_operation_type : option string;
  od_action : option string;
  od_target_description : option string
}.

(** What the parse of the analysis answer gives for the two keys the
    description is built from, as formatted. *)
Record Analysis : Type := {
  complexity : string;
  feasibility : string
}.

(** [class LowCodeDeveloperState] during a [develop] run.  [develop]
    builds the initial state with a request and a solution and no node
    removes them, so both are present.  [planned] holds, for each
    operation of the solution and in the same order, what the operation
    object carries besides the fields of [LowCodeOperation] above: its
    [action] and its [parameters["target_description"]].  A checkpoint is
    kept by its operation index, the session by its platform URL. *)
Record State : Type := {
  request : DevelopmentRequest;
  solution : ImplementationSolution;
  planned : list (string * string);
  current_operation_index : Z;
  error_count : Z;
  max_errors : Z;
  checkpoints : list Z;
  is_authenticated : bool;
  session_info : option string
}.

Definition set_solution (sol : ImplementationSolution) (s : State) : State :=
  {| request := request s; solution := sol; planned := planned s;
     current_operation_index := current_operation_index s;
     error_count := error_count s; max_errors := max_errors s;
     checkpoints := checkpoints s; is_authenticated := is_authenticated s;
     session_info := session_info s |}.

Definition set_planned (p : list (string * string)) (s : State) : State :=
  {| request := request s; solution := solution s; planned := p;
     current_operation_index := current_operation_index s;
     error_count := error_count s; max_errors := max_errors s;
     checkpoints := checkpoints s; is_authenticated := is_authenticated s;
     session_info := session_info s |}.

Definition set_current_operation_index (i : Z) (s : State) : State :=
  {| request := request s; solution := solution s; planned := planned s;
     current_operation_index := i;
     error_count := error_count s; max_errors := max_errors s;
     checkpoints := checkpoints s; is_authenticated := is_authenticated s;
     session_info := session_info s |}.

Definition set_error_count (n : Z) (s : State) : State :=
  {| request := request s; solution := solution s; planned := planned s;
     current_operation_index := current_operation_index s;
     error_count := n; max_errors := max_errors s;
     checkpoints := checkpoints s; is_authenticated := is_authenticated s;
     session_info := session_info s |}.

Definition set_checkpoints (c : list Z) (s : State) : State :=
  {| request := request s; solution := solution s; planned := planned s;
     current_operation_index := current_operation_index s;
     error_count := error_count s; max_errors := max_errors s;
     checkpoints := c; is_authenticated := is_authenticated s;
     session_info := session_info s |}.

Definition set_authenticated (url : string) (s : State) : State :=
  {| request := request s; solution := solution s; planned := planned s;
     current_operation_index := current_operation_index s;
     error_count := error_count s; max_errors := max_errors s;
     checkpoints := checkpoints s; is_authenticated := true;
     session_info := Some url |}.

(** [state.error_count += 1] *)
Definition count_error (s : State) : State := set_error_count (error_count s + 1) s.

(** Attribute assignments on a solution and on an operation. *)
Definition set_description (d : option string) (s : ImplementationSolution)
  : ImplementationSolution :=
  {| solution_id := solution_id s; sol_request_id := sol_request_id s;
     title := title s; description := d;
     operations := operations s; validation_result := validation_result s;
     visual_analysis := visual_analysis s;
     reward_decision := reward_decision s; success_rate := success_rate s;
     execution_time := execution_time s; developer_agent := developer_agent s;
     version := version s; created_at := created_at s; updated_at := updated_at s |}.

Definition set_operations (ops : list LowCodeOperation) (s : ImplementationSolution)
  : ImplementationSolution :=
  {| solution_id := solution_id s; sol_request_id := sol_request_id s;
     title := title s; description := description s;
     operations := ops; validation_result := validation_result s;
     visual_analysis := visual_analysis s;
     reward_decision := reward_decision s; success_rate := success_rate s;
     execution_time := execution_time s; developer_agent := developer_agent s;
     version := version s; created_at := created_at s; updated_at := updated_at s |}.

Definition set_target_element (sel : string) (op : LowCodeOperation) : LowCodeOperation :=
  {| operation_id := operation_id op; target_element := sel;
     op_execution_time := op_execution_time op; op_success := op_success op;
     error_message := error_message op |}.

Definition set_error_message (msg : string) (op : LowCodeOperation) : LowCodeOperation :=
  {| operation_id := operation_id op; target_element := target_element op;
     op_execution_time := op_execution_time op; op_success := op_success op;
     error_message := Some msg |}.

Definition set_op_success (ok : bool) (op : LowCodeOperation) : LowCodeOperation :=
  {| operation_id := operation_id op; target_element := target_element op;
     op_execution_time := op_execution_time op; op_success := Some ok;
     error_message := error_message op |}.

Definition set_op_execution_time (t : Q) (op : LowCodeOperation) : LowCodeOperation :=
  {| operation_id := operation_id op; target_element := target_element op;
     op_execution_time := Some t; op_success := op_success op;
     error_message := error_message op |}.

(** [ImplementationSolution.add_operation(self, operation)] *)
Definition add_operation (now : Z) (op : LowCodeOperation) (s : ImplementationSolution)
  : ImplementationSolution :=
  set_updated_at now (set_operations (operations s ++ [op]) s).

(** *** The ports *)

(** What the Completion port, the environment, the browser and the vision
    model answer during one run.  The answers to the calls a node makes
    are told apart by the number of transitions the run has made when the
    node is entered, so every call may be answered differently.
    [operations.initialize], [operations.authenticate], [take_screenshot],
    [find_element_suggestions], [analyze_screenshot], [wait_for_element]
    and [navigate_to_url] trap their own failures; [create_checkpoint]
    re-raises.  [action_outcome] is the fate of a supported action:
    [Raised] carries the message the handler of [_execute_action] writes.
    [action_text] is how an [ActionType] member is formatted in a message. *)
Record Ports : Type := {
  llm_analysis : Outcome Analysis;
  llm_plan : Outcome (list OpData);
  clock : nat -> Z;
  operations_initialize : nat -> bool;
  env_username : nat -> string;
  env_password : nat -> string;
  env_platform_url : nat -> string;
  operations_authenticate : nat -> bool;
  browser_create_checkpoint : nat -> Outcome unit;
  vision_find_element_suggestions : nat -> list string;
  page_ready : nat -> bool;
  element_found : nat -> bool;
  action_outcome : nat -> Outcome unit;
  elapsed : nat -> Q;
  action_text : string -> string;
  vision_analyze_screenshot : nat -> list string * Q
}.

Section Nodes.
Variable ports : Ports.

(** *** Nodes *)

(** [_analyze_request(self, state)] *)
Definition _analyze_request (state : State) : State :=
  match llm_analysis ports with
  | Returned analysis_result =>
      set_solution
        (set_description
           (Some ("需求分析完成。复杂度: " ++ complexity analysis_result
                  ++ ", 可行性: " ++ feasibility analysis_result)%string)
           (solution state))
        state
  | Raised _ => count_error state
  end.

(** The [for op_data in operations] loop of [_plan_implementation]:
    [false] when building an operation raised.  An operation type or an
    action outside the enumeration raises; the operations added before
    stay. *)
Fixpoint plan_loop (now : Z) (operations : list OpData) (state : State)
  : bool * State :=
  match operations with
  | [] => (true, state)
  | op_data :: rest =>
      let operation_type := default "navigation" (od_operation_type op_data) in
      let action := default "click" (od_action op_data) in
      if bool_decide (operation_type ∈ operation_type_values)
         && bool_decide (action ∈ action_values)
      then
        let operation :=
          {| operation_id := od_operation_id op_data; target_element := "";
             op_execution_time := None; op_success := None; error_message := None |} in
        let state :=
          set_planned (planned state
                         ++ [(action, default "" (od_target_description op_data))])
                      (set_solution (add_operation now operation (solution state)) state) in
        plan_loop now rest state
      else (false, state)
  end.

(** [_plan_implementation(self, state)], entered after [t] transitions. *)
Definition _plan_implementation (t : nat) (state : State) : State :=
  match llm_plan ports with
  | Returned operations =>
      let '(completed, state) := plan_loop (clock ports t) operations state in
      if completed then state else count_error state
  | Raised _ => count_error state
  end.

(** [_authenticate(self, state)] *)
Definition _authenticate (t : nat) (state : State) : State :=
  if is_authenticated state then state
  else if negb (operations_initialize ports t) then count_error state
  else if String.eqb (env_username ports t) "" || String.eqb (env_password ports t) ""
  then count_error state
  else if operations_authenticate ports t then set_authenticated (env_platform_url ports t) state
  else count_error state.

(** [PlaywrightAutomation._execute_action(self, operation)] for an
    operation with the given action. *)
Definition _execute_action (t : nat) (action : string) (operation : LowCodeOperation)
  : bool * LowCodeOperation :=
  if bool_decide (action ∈ supported_actions)
  then
    match action_outcome ports t with
    | Returned _ => (true, operation)
    | Raised msg => (false, set_error_message msg operation)
    end
  else
    (false,
     set_error_message ("不支持的操作类型: " ++ action_text ports action)%string operation).

(** [PlaywrightAutomation.execute_operation(self, operation)]: the result
    and the operation object after the call. *)
Definition execute_operation (t : nat) (action : string) (operation : LowCodeOperation)
  : bool * LowCodeOperation :=
  if negb (page_ready ports t)
  then (false, set_op_success false (set_error_message "浏览器页面未初始化" operation))
  else if negb (element_found ports t)
  then
    (false,
     set_error_message ("目标元素未找到: " ++ target_element operation)%string operation)
  else
    let '(success, operation) := _execute_action t action operation in
    (success, set_op_success success (set_op_execution_time (elapsed ports t) operation)).

(** The selector [_execute_operations] gives an operation that has a
    target description and no target element yet. *)
Definition located (t : nat) (target_description : string) (operation : LowCodeOperation)
  : LowCodeOperation :=
  if negb (String.eqb target_description "")
     && String.eqb (target_element operation) ""
  then
    match vision_find_element_suggestions ports t with
    | suggestion :: _ => set_target_element suggestion operation
    | [] =>
        set_target_element
          ("[data-testid='" ++ TextSimilarity.lower (replace_spaces target_description)
           ++ "']")%string
          operation
    end
  else operation.

(** [_execute_operations(self, state)] *)
Definition _execute_operations (t : nat) (state : State) : State :=
  let operations := operations (solution state) in
  if Z.of_nat (length operations) <=? current_operation_index state then state
  else
    match position operations (current_operation_index state) with
    | None => count_error state
    | Some i =>
        match operations !! i, planned state !! i with
        | Some current_op, Some (action, target_description) =>
            match browser_create_checkpoint ports t with
            | Raised _ => count_error state
            | Returned _ =>
                let state :=
                  set_checkpoints (checkpoints state ++ [current_operation_index state])
                                  state in
                let current_op := located t target_description current_op in
                let '(success, current_op) := execute_operation t action current_op in
                let state :=
                  set_solution
                    (set_operations (<[i := current_op]> operations) (solution state))
                    state in
                if success
                then set_current_operation_index (current_operation_index state + 1) state
                else count_error state
            end
        | _, _ => count_error state
        end
    end.

(** The texts [_validate_result] takes as signs of success. *)
Definition success_indicators : list string :=
  [ "保存成功"; "创建完成"; "配置成功"; "表单已创建"; "页面已生成" ].

(** [any(indicator in suggestion.lower() for suggestion in suggestions
    for indicator in success_indicators)] *)
Definition is_success (suggestions : list string) : bool :=
  existsb
    (fun suggestion =>
       existsb (fun indicator => contains indicator (TextSimilarity.lower suggestion))
               success_indicators)
    suggestions.

(** [_validate_result(self, state)].  The constructor of
    [ValidationResult] refuses a score outside [0, 1]. *)
Definition _validate_result (t : nat) (state : State) : State :=
  let '(suggestions, confidence_score) := vision_analyze_screenshot ports t in
  if Qle_bool 0 confidence_score && Qle_bool confidence_score 1
  then
    let result :=
      if is_success suggestions || negb (Qle_bool confidence_score (7 # 10))
      then {| is_valid := true; score := confidence_score; issues := [];
              suggestions := suggestions; validator_agent := None |}
      else {| is_valid := false; score := confidence_score;
              issues := ["实现结果不符合预期"];
              suggestions := suggestions; validator_agent := None |} in
    set_solution (set_validation_result (Some result) (solution state)) state
  else count_error state.

(** [_handle_error(self, state)] *)
Definition _handle_error (state : State) : State :=
  if max_errors state <=? error_count state
  then set_solution (set_reward_decision REJECTED (solution state)) state
  else
    match checkpoints state with
    | _ :: _ =>
        if 0 <? current_operation_index state
        then
          set_current_operation_index (Z.max 0 (current_operation_index state - 1)) state
        else state
    | [] => state
    end.

(** [_finalize_solution(self, state)]: the body given above, on the
    solution of the state. *)
Definition _finalize_solution (t : nat) (state : State) : State :=
  set_solution (Developer.finalize_solution_body (clock ports t) (solution state)) state.

(** *** Conditional edges *)

Inductive AfterAuth : Type := Auth_continue | Auth_retry | Auth_error.
Inductive AfterExecution : Type := Exec_continue | Exec_validate | Exec_error.
Inductive AfterValidation : Type := Check_success | Check_retry | Check_error.

(** [_should_continue_after_auth(self, state)] *)
Definition _should_continue_after_auth (state : State) : AfterAuth :=
  if is_authenticated state then Auth_continue
  else if error_count state <? max_errors state then Auth_retry
  else Auth_error.

(** [_should_continue_execution(self, state)] *)
Definition _should_continue_execution (state : State) : AfterExecution :=
  if max_errors state <=? error_count state then Exec_error
  else if Z.of_nat (length (operations (solution state))) <=? current_operation_index state
  then Exec_validate
  else Exec_continue.

(** [_should_continue_after_validation(self, state)] *)
Definition _should_continue_after_validation (state : State) : AfterValidation :=
  if max_errors state <=? error_count state then Check_error
  else
    match validation_result (solution state) with
    | Some result =>
        if is_valid result then Check_success
        else if error_count state <? max_errors state / 2 then Check_retry
        else Check_error
    | None =>
        if error_count state <? max_errors state / 2 then Check_retry
        else Check_error
    end.

(** *** The graph *)

Inductive Node : Type :=
| analyze_request | plan_implementation | authenticate | execute_operations
| validate_result | handle_error | finalize_solution | END.

Definition Node_eqb (a b : Node) : bool :=
  match a, b with
  | analyze_request, analyze_request | plan_implementation, plan_implementation
  | authenticate, authenticate | execute_operations, execute_operations
  | validate_result, validate_result | handle_error, handle_error
  | finalize_solution, finalize_solution | END, END => true
  | _, _ => false
  end.

(** The function [add_node] binds to a node, entered after [t]
    transitions. *)
Definition node_function (n : Node) (t : nat) (state : State) : State :=
  match n with
  | analyze_request => _analyze_request state
  | plan_implementation => _plan_implementation t state
  | authenticate => _authenticate t state
  | execute_operations => _execute_operations t state
  | validate_result => _validate_result t state
  | handle_error => _handle_error state
  | finalize_solution => _finalize_solution t state
  | END => state
  end.

(** The edges of [_build_graph], on the state the node returned. *)
Definition next_node (n : Node) (state : State) : Node :=
  match n with
  | analyze_request => plan_implementation
  | plan_implementation => authenticate
  | authenticate =>
      match _should_continue_after_auth state with
      | Auth_continue => execute_operations
      | Auth_retry => authenticate
      | Auth_error => handle_error
      end
  | execute_operations =>
      match _should_continue_execution state with
      | Exec_continue => execute_operations
      | Exec_validate => validate_result
      | Exec_error => handle_error
      end
  | validate_result =>
      match _should_continue_after_validation state with
      | Check_success => finalize_solution
      | Check_retry => execute_operations
      | Check_error => handle_error
      end
  | handle_error => finalize_solution
  | finalize_solution => END
  | END => END
  end.

(** A configuration of a run: the node to enter, the state, and the
    number of transitions made. *)
Definition Config : Type := Node * State * nat.

Definition node_of (c : Config) : Node := fst (fst c).
Definition state_of (c : Config) : State := snd (fst c).
Definition time_of (c : Config) : nat := snd c.

(** One transition. *)
Definition step (c : Config) : Config :=
  let state := node_function (node_of c) (time_of c) (state_of c) in
  (next_node (node_of c) state, state, S (time_of c)).

(** At most [fuel] transitions, stopping at [END]. *)
Fixpoint run (fuel : nat) (c : Config) : Config :=
  match fuel with
  | O => c
  | S fuel' => if Node_eqb (node_of c) END then c else run fuel' (step c)
  end.

(** *** The entry point *)

(** The initial state of [develop]; [fresh_id] is the identifier drawn
    for the solution, [now] the clock reading. *)
Definition initial_state (fresh_id : string) (now : Z) (req : DevelopmentRequest)
  : State :=
  {| request := req;
     solution :=
       {| solution_id := fresh_id; sol_request_id := request_id req;
          title := ("实现方案: " ++ req_title req)%string;
          description := Some "基于需求自动生成的实现方案";
          operations := []; validation_result := None; visual_analysis := [];
          reward_decision := PENDING;
          success_rate := 0; execution_time := 0;
          developer_agent := Some "low_code_developer";
          version := 1; created_at := now; updated_at := now |};
     planned := [];
     current_operation_index := 0;
     error_count := 0;
     max_errors := Developer.default_max_errors;
     checkpoints := [];
     is_authenticated := false;
     session_info := None |}.

(** The solution [develop] builds in its handler. *)
Definition failed_solution (fresh_id : string) (now : Z) (req : DevelopmentRequest)
    (e : string) : ImplementationSolution :=
  {| solution_id := fresh_id; sol_request_id := request_id req;
     title := ("实现方案: " ++ req_title req)%string;
     description := Some ("开发失败: " ++ e)%string;
     operations := []; validation_result := None; visual_analysis := [];
     reward_decision := REJECTED;
     success_rate := 0; execution_time := 0;
     developer_agent := Some "low_code_developer";
     version := 1; created_at := now; updated_at := now |}.

(** [self.graph.ainvoke(initial_state)].  The engine that runs the
    compiled graph is taken to give up with an exception when
    [recursion_limit] transitions did not reach [END], as for the
    orchestrator. *)
Definition ainvoke (recursion_limit : nat) (state : State)
  : Outcome (Engine.Output State) :=
  let c := run recursion_limit (analyze_request, state, O) in
  if Node_eqb (node_of c) END then Returned (Engine.Mapping (state_of c))
  else Raised "GraphRecursionError".

(** The solution [develop] builds when it finds no solution on what the
    run handed back:
    [ImplementationSolution(request_id=..., title=f"失败方案: ...",
    description="智能体执行失败", operations=[],
    reward_decision=RewardDecision.REJECTED)]. *)
Definition fallback_solution (fresh_id : string) (now : Z) (req : DevelopmentRequest)
  : ImplementationSolution :=
  {| solution_id := fresh_id; sol_request_id := request_id req;
     title := ("失败方案: " ++ req_title req)%string;
     description := Some "智能体执行失败";
     operations := []; validation_result := None; visual_analysis := [];
     reward_decision := REJECTED;
     success_rate := 0; execution_time := 0;
     developer_agent := None;
     version := 1; created_at := now; updated_at := now |}.

(** [develop(self, request)].  [fresh_id] is the identifier drawn for the
    solution of the initial state and [fresh_id'] the one drawn for the
    solution built after the run, [now] and [now'] the clock readings.
    The test [hasattr(final_state, 'solution') and final_state.solution]
    holds of an object of the state class; of a mapping it is false, as
    is the test for ['current_solution'], which the state class does not
    have.  Without a request both the [try] block and the handler read an
    attribute of [None]. *)
Definition develop (recursion_limit : nat) (fresh_id fresh_id' : string) (now now' : Z)
    (req : option DevelopmentRequest) : Outcome ImplementationSolution :=
  match req with
  | None => Raised "AttributeError: 'NoneType' object has no attribute 'request_id'"
  | Some req =>
      try_except
        (final_state ← ainvoke recursion_limit (initial_state fresh_id now req);
         match final_state with
         | Engine.Object state => Returned (solution state)
         | Engine.Mapping _ => Returned (fallback_solution fresh_id' now' req)
         end)
        (fun e => Returned (failed_solution fresh_id' now' req e))
  end.
End Nodes.

End DeveloperGraph.

(** Notions for the runs of the developer graph. *)
Module DeveloperNotions.
Import Models DeveloperGraph.

(** The operation was executed with success: [op.success is True]. *)
Definition succeeded (op : LowCodeOperation) : Prop := op_success op = Some true.

(** What the states of a [develop] run keep: the plan and the
    operations go together, the index is within the operations, the
    operations below the index were executed with success, and only an
    operation with a supported action was. *)
Definition consistent (state : State) : Prop :=
  length (planned state) = length (operations (solution state))
  /\ 0 <= current_operation_index state <= Z.of_nat (length (operations (solution state)))
  /\ forall i op, operations (solution state) !! i = Some op ->
        (Z.of_nat i < current_operation_index state -> succeeded op)
        /\ (succeeded op ->
            exists action target, planned state !! i = Some (action, target)
                                  /\ action ∈ supported_actions).

(** What the configurations of a [develop] run keep: before the plan is
    made nothing is executed or checked; while operations are executed a
    page check was made only with every operation done; the page is
    checked only with every operation done; from error handling on, a page
    check was made only with every operation executed with success. *)
Definition reachable (c : Config) : Prop :=
  consistent (state_of c)
  /\ match node_of c with
     | analyze_request | plan_implementation =>
         validation_result (solution (state_of c)) = None
         /\ current_operation_index (state_of c) = 0
     | authenticate | execute_operations =>
         validation_result (solution (state_of c)) <> None ->
         Z.of_nat (length (operations (solution (state_of c))))
         <= current_operation_index (state_of c)
     | validate_result =>
         Z.of_nat (length (operations (solution (state_of c))))
         <= current_operation_index (state_of c)
     | handle_error | finalize_solution | END =>
         validation_result (solution (state_of c)) <> None ->
         Forall succeeded (operations (solution (state_of c)))
     end.

(** Nothing was executed or checked yet, and nobody is logged in. *)
Definition untouched (state : State) : Prop :=
  is_authenticated state = false
  /\ checkpoints state = []
  /\ current_operation_index state = 0
  /\ max_errors state = Developer.default_max_errors
  /\ validation_result (solution state) = None
  /\ Forall (fun op => op_success op = None) (operations (solution state)).

(** Authentication fails at every attempt of the run. *)
Definition never_authenticates (ports : Ports) : Prop :=
  forall t,
    operations_initialize ports t
    && negb (String.eqb (env_username ports t) "" || String.eqb (env_password ports t) "")
    && operations_authenticate ports t = false.

(** The page check of [_validate_result] fails at every attempt: the
    analysis is within range, names no success indicator and its
    confidence is at most 0.7. *)
Definition page_check_always_fails (ports : Ports) : Prop :=
  forall t,
    let '(suggestions, confidence) := vision_analyze_screenshot ports t in
    is_success suggestions = false
    /\ (0 <= confidence)%Q /\ (confidence <= 7 # 10)%Q.

(** The page check of [_validate_result] passes when made after [t]
    transitions. *)
Definition page_check_passes (ports : Ports) (t : nat) : Prop :=
  let '(suggestions, confidence) := vision_analyze_screenshot ports t in
  (0 <= confidence <= 1)%Q
  /\ (is_success suggestions = true \/ (7 # 10 < confidence)%Q).

(** The login succeeds when tried after [t] transitions. *)
Definition login_succeeds (ports : Ports) (t : nat) : Prop :=
  operations_initialize ports t = true
  /\ env_username ports t <> ""
  /\ env_password ports t <> ""
  /\ operations_authenticate ports t = true.

(** The browser executes every operation it is given. *)
Definition browser_always_works (ports : Ports) : Prop :=
  forall t,
    (exists checkpoint, browser_create_checkpoint ports t = Returned checkpoint)
    /\ page_ready ports t = true
    /\ element_found ports t = true
    /\ exists done, action_outcome ports t = Returned done.

(** The entries of a plan are of known operation types and their actions
    are supported by the browser automation. *)
Definition executable (entry : OpData) : Prop :=
  default "navigation" (od_operation_type entry) ∈ operation_type_values
  /\ default "click" (od_action entry) ∈ supported_actions.

(** The configurations of the cycle between [validate_result] and
    [execute_operations]: every operation is executed, fewer than
    [max_errors // 2] errors are counted, and the page check has not
    passed. *)
Definition in_validation_cycle (c : Config) : Prop :=
  let state := state_of c in
  (node_of c = validate_result \/ node_of c = execute_operations)
  /\ Z.of_nat (length (operations (solution state))) <= current_operation_index state
  /\ error_count state < max_errors state
  /\ error_count state < max_errors state / 2
  /\ match validation_result (solution state) with
     | Some result => is_valid result = false
     | None => True
     end.

End DeveloperNotions.

(** Inputs for the developer graph. *)
Module DeveloperScenarios.
Import Models DeveloperGraph.

(** A plan of two operations: a click and a fill. *)
Definition two_step_plan : list OpData :=
  [ {| od_operation_id := "op-1"; od_operation_type := Some "form_design";
       od_action := Some "click"; od_target_description := Some "create form" |};
    {| od_operation_id := "op-2"; od_operation_type := None;
       od_action := Some "fill"; od_target_description := None |} ].

(** Ports of a run in which the Completion port, the login and the
    browser work; [suggestions] and [confidence] are what the vision model
    says at every page check. *)
Definition working_ports (plan : list OpData) (suggestions : list string) (confidence : Q)
  : Ports :=
  {| llm_analysis := Returned {| complexity := "simple"; feasibility := "high" |};
     llm_plan := Returned plan;
     clock := fun t => Z.of_nat t;
     operations_initialize := fun _ => true;
     env_username := fun _ => "dev";
     env_password := fun _ => "secret";
     env_platform_url := fun _ => "https://platform.example";
     operations_authenticate := fun _ => true;
     browser_create_checkpoint := fun _ => Returned tt;
     vision_find_element_suggestions := fun _ => [];
     page_ready := fun _ => true;
     element_found := fun _ => true;
     action_outcome := fun _ => Returned tt;
     elapsed := fun _ => 1 # 2;
     action_text := fun a => a;
     vision_analyze_screenshot := fun _ => (suggestions, confidence) |}.

(** The same with no credentials configured. *)
Definition no_credentials_ports (plan : list OpData) : Ports :=
  {| llm_analysis := Returned {| complexity := "simple"; feasibility := "high" |};
     llm_plan := Returned plan;
     clock := fun t => Z.of_nat t;
     operations_initialize := fun _ => true;
     env_username := fun _ => "";
     env_password := fun _ => "";
     env_platform_url := fun _ => "https://platform.example";
     operations_authenticate := fun _ => true;
     browser_create_checkpoint := fun _ => Returned tt;
     vision_find_element_suggestions := fun _ => [];
     page_ready := fun _ => true;
     element_found := fun _ => true;
     action_outcome := fun _ => Returned tt;
     elapsed := fun _ => 1 # 2;
     action_text := fun a => a;
     vision_analyze_screenshot := fun _ => (["saved"], 9 # 10) |}.

End DeveloperScenarios.

(** ** Validator sub-workflow: the graph
    ([src/agents/function_validator.py]) *)

Module ValidatorGraph.

(** *** Data *)

(** One test scenario the Completion port gave: the keys the validator
    reads.  [scenario["name"]] and [scenario["type"]] raise [KeyError] on
    a scenario without them; the steps are read with a default. *)
Record Scenario : Type := {
  sc_name : option string;
  sc_type : option string;
  sc_steps : list string
}.

(** The dict [_execute_test_scenario] returns, with the execution time
    [_execute_tests] adds. *)
Record TestResult : Type := {
  scenario_name : string;
  scenario_type : string;
  success : bool;
  issues : list string;
  observations : list string;
  execution_time : Q
}.

(** [class ValidationState]: [validate] builds the initial state with a
    validation result and no node removes it.  The validation result is
    kept by the fields of [ValidationResult] above; the performance
    metrics and the validation time, which no decision reads, are left
    out. *)
Record ValidationState : Type := {
  solution : option Models.ImplementationSolution;
  validation_result : Models.ValidationResult;
  test_scenarios : list Scenario;
  current_test_index : Z;
  test_results : list TestResult;
  issues_found : list string;
  suggestions : list string;
  error_count : Z;
  max_errors : Z
}.

Definition set_validation_result (r : Models.ValidationResult) (s : ValidationState)
  : ValidationState :=
  {| solution := solution s; validation_result := r;
     test_scenarios := test_scenarios s; current_test_index := current_test_index s;
     test_results := test_results s; issues_found := issues_found s;
     suggestions := suggestions s; error_count := error_count s;
     max_errors := max_errors s |}.

Definition set_test_scenarios (l : list Scenario) (s : ValidationState) : ValidationState :=
  {| solution := solution s; validation_result := validation_result s;
     test_scenarios := l; current_test_index := current_test_index s;
     test_results := test_results s; issues_found := issues_found s;
     suggestions := suggestions s; error_count := error_count s;
     max_errors := max_errors s |}.

Definition set_current_test_index (i : Z) (s : ValidationState) : ValidationState :=
  {| solution := solution s; validation_result := validation_result s;
     test_scenarios := test_scenarios s; current_test_index := i;
     test_results := test_results s; issues_found := issues_found s;
     suggestions := suggestions s; error_count := error_count s;
     max_errors := max_errors s |}.

Definition set_test_results (l : list TestResult) (s : ValidationState) : ValidationState :=
  {| solution := solution s; validation_result := validation_result s;
     test_scenarios := test_scenarios s; current_test_index := current_test_index s;
     test_results := l; issues_found := issues_found s;
     suggestions := suggestions s; error_count := error_count s;
     max_errors := max_errors s |}.

Definition set_issues_found (l : list string) (s : ValidationState) : ValidationState :=
  {| solution := solution s; validation_result := validation_result s;
     test_scenarios := test_scenarios s; current_test_index := current_test_index s;
     test_results := test_results s; issues_found := l;
     suggestions := suggestions s; error_count := error_count s;
     max_errors := max_errors s |}.

Definition set_suggestions (l : list string) (s : ValidationState) : ValidationState :=
  {| solution := solution s; validation_result := validation_result s;
     test_scenarios := test_scenarios s; current_test_index := current_test_index s;
     test_results := test_results s; issues_found := issues_found s;
     suggestions := l; error_count := error_count s;
     max_errors := max_errors s |}.

Definition set_error_count (n : Z) (s : ValidationState) : ValidationState :=
  {| solution := solution s; validation_result := validation_result s;
     test_scenarios := test_scenarios s; current_test_index := current_test_index s;
     test_results := test_results s; issues_found := issues_found s;
     suggestions := suggestions s; error_count := n;
     max_errors := max_errors s |}.

(** [state.error_count += 1] *)
Definition count_error (s : ValidationState) : ValidationState :=
  set_error_count (error_count s + 1) s.

(** [state.validation_result.suggestions = suggestions] *)
Definition with_suggestions (l : list string) (r : Models.ValidationResult)
  : Models.ValidationResult :=
  {| Models.is_valid := Models.is_valid r; Models.score := Models.score r;
     Models.issues := Models.issues r; Models.suggestions := l;
     Models.validator_agent := Models.validator_agent r |}.

(** *** The ports *)

(** What the Completion port, the browser and the vision model answer
    during one run; the answers to the calls a node makes are told apart
    by the number of transitions the run has made when the node is
    entered.  Each [llm_] field stands for the call and the reading of its
    answer in one node's [try] block.  [step_succeeds t i] is what
    [_execute_test_step] returns for step [i]: the function traps every
    failure.  [take_screenshot] and [analyze_screenshot] trap their own
    failures as well. *)
Record Ports : Type := {
  llm_analysis : Outcome unit;
  llm_scenarios : Outcome (list Scenario);
  start_browser : bool;
  step_succeeds : nat -> nat -> bool;
  analyze_screenshot : nat -> list string * Q;
  elapsed : nat -> Q;
  llm_suggestions : Outcome (list string)
}.

Section Nodes.
Variable ports : Ports.

(** *** Nodes *)

(** [_analyze_solution(self, state)]: the analysis is kept in
    [validation_result.test_results], which is not among the fields
    above. *)
Definition _analyze_solution (state : ValidationState) : ValidationState :=
  match llm_analysis ports with
  | Returned _ => state
  | Raised _ => count_error state
  end.

(** [_generate_test_scenarios(self, state)] *)
Definition _generate_test_scenarios (state : ValidationState) : ValidationState :=
  match llm_scenarios ports with
  | Returned scenarios => set_test_scenarios scenarios state
  | Raised _ => count_error state
  end.

(** [_setup_test_environment(self, state)] *)
Definition _setup_test_environment (state : ValidationState) : ValidationState :=
  if start_browser ports then state else count_error state.

(** The [for i, step in enumerate(steps)] loop of
    [_execute_test_scenario], from step [i] on: the issues it records.
    The loop stops at the first step that fails. *)
Fixpoint run_steps (t : nat) (i : nat) (steps : list string) : list string :=
  match steps with
  | [] => []
  | step :: rest =>
      if step_succeeds ports t i then run_steps t (S i) rest
      else [("步骤" ++ pretty (S i) ++ "执行失败: " ++ step)%string]
  end.

(** The texts [_validate_test_result] takes as signs of success. *)
Definition success_indicators : list string := [ "成功"; "完成"; "正确"; "符合预期" ].

Definition is_success (suggestions : list string) : bool :=
  existsb
    (fun suggestion =>
       existsb (fun indicator =>
                  DeveloperGraph.contains indicator (TextSimilarity.lower suggestion))
               success_indicators)
    suggestions.

(** [_validate_test_result(self, scenario, before, after)]: the values of
    ["success"], ["observations"] and ["issues"]. *)
Definition _validate_test_result (t : nat) : bool * list string * list string :=
  let '(suggestions, confidence_score) := analyze_screenshot ports t in
  (is_success suggestions && negb (Qle_bool confidence_score (6 # 10)),
   suggestions,
   if is_success suggestions then [] else ["测试结果不符合预期"]).

(** [_execute_test_scenario(self, scenario)] for a scenario with a name
    and a type, with the execution time [_execute_tests] adds. *)
Definition _execute_test_scenario (t : nat) (name type : string) (steps : list string)
  : TestResult :=
  let step_issues := run_steps t O steps in
  let '(ok, seen, check_issues) := _validate_test_result t in
  {| scenario_name := name;
     scenario_type := type;
     success := ok;
     issues := if ok then step_issues else step_issues ++ check_issues;
     observations := seen;
     execution_time := elapsed ports t |}.

(** [_execute_tests(self, state)].  A scenario without a name or a type
    raises [KeyError], in this function or in the handler of
    [_execute_test_scenario]. *)
Definition _execute_tests (t : nat) (state : ValidationState) : ValidationState :=
  if Z.of_nat (length (test_scenarios state)) <=? current_test_index state then state
  else
    match DeveloperGraph.position (test_scenarios state) (current_test_index state) with
    | None => count_error state
    | Some i =>
        match test_scenarios state !! i with
        | Some current_scenario =>
            match sc_name current_scenario, sc_type current_scenario with
            | Some name, Some type =>
                let test_result :=
                  _execute_test_scenario t name type (sc_steps current_scenario) in
                set_current_test_index (current_test_index state + 1)
                  (set_test_results (test_results state ++ [test_result]) state)
            | _, _ => count_error state
            end
        | None => count_error state
        end
    end.

(** [sum(1 for result in state.test_results if result["success"])] *)
Definition successful_tests (results : list TestResult) : Z :=
  Z.of_nat (length (List.filter success results)).

(** The issues of all results, in order. *)
Definition all_issues (results : list TestResult) : list string :=
  List.concat (List.map issues results).

(** The score and the validity [_analyze_test_results] computes. *)
Definition test_score (results : list TestResult) : Q :=
  let total_tests := Z.of_nat (length results) in
  if 0 <? total_tests
  then (inject_Z (successful_tests results) / inject_Z total_tests)%Q
  else 0%Q.

Definition test_validity (results : list TestResult) : bool :=
  (0 <? Z.of_nat (length results)) && Qle_bool (7 # 10) (test_score results).

(** [_analyze_test_results(self, state)] *)
Definition _analyze_test_results (state : ValidationState) : ValidationState :=
  let issues := all_issues (test_results state) in
  let state := set_issues_found issues state in
  set_validation_result
    {| Models.is_valid := test_validity (test_results state);
       Models.score := test_score (test_results state);
       Models.issues := issues;
       Models.suggestions := Models.suggestions (validation_result state);
       Models.validator_agent := Models.validator_agent (validation_result state) |}
    state.

(** [_generate_suggestions(self, state)] *)
Definition _generate_suggestions (state : ValidationState) : ValidationState :=
  match issues_found state with
  | [] =>
      let given := ["功能实现良好，无需改进"] in
      set_validation_result (with_suggestions given (validation_result state))
                            (set_suggestions given state)
  | _ :: _ =>
      match llm_suggestions ports with
      | Returned given =>
          set_validation_result (with_suggestions given (validation_result state))
                                (set_suggestions given state)
      | Raised _ => count_error state
      end
  end.

(** [_finalize_validation(self, state)]: [close_browser] traps its own
    failures; the time of completion is not among the fields above. *)
Definition _finalize_validation (state : ValidationState) : ValidationState := state.

(** *** The conditional edge *)

Inductive AfterTests : Type := Tests_continue | Tests_analyze | Tests_error.

(** [_should_continue_testing(self, state)] *)
Definition _should_continue_testing (state : ValidationState) : AfterTests :=
  if max_errors state <=? error_count state then Tests_error
  else if Z.of_nat (length (test_scenarios state)) <=? current_test_index state
  then Tests_analyze
  else Tests_continue.

(** *** The graph *)

Inductive Node : Type :=
| analyze_solution | generate_test_scenarios | setup_test_environment | execute_tests
| analyze_test_results | generate_suggestions | finalize_validation | END.

Definition Node_eqb (a b : Node) : bool :=
  match a, b with
  | analyze_solution, analyze_solution
  | generate_test_scenarios, generate_test_scenarios
  | setup_test_environment, setup_test_environment
  | execute_tests, execute_tests
  | analyze_test_results, analyze_test_results
  | generate_suggestions, generate_suggestions
  | finalize_validation, finalize_validation | END, END => true
  | _, _ => false
  end.

Definition node_function (n : Node) (t : nat) (state : ValidationState)
  : ValidationState :=
  match n with
  | analyze_solution => _analyze_solution state
  | generate_test_scenarios => _generate_test_scenarios state
  | setup_test_environment => _setup_test_environment state
  | execute_tests => _execute_tests t state
  | analyze_test_results => _analyze_test_results state
  | generate_suggestions => _generate_suggestions state
  | finalize_validation => _finalize_validation state
  | END => state
  end.

(** The edges of [_build_graph], on the state the node returned. *)
Definition next_node (n : Node) (state : ValidationState) : Node :=
  match n with
  | analyze_solution => generate_test_scenarios
  | generate_test_scenarios => setup_test_environment
  | setup_test_environment => execute_tests
  | execute_tests =>
      match _should_continue_testing state with
      | Tests_continue => execute_tests
      | Tests_analyze => analyze_test_results
      | Tests_error => finalize_validation
      end
  | analyze_test_results => generate_suggestions
  | generate_suggestions => finalize_validation
  | finalize_validation => END
  | END => END
  end.

(** A configuration of a run: the node to enter, the state, and the
    number of transitions made. *)
Definition Config : Type := Node * ValidationState * nat.

Definition node_of (c : Config) : Node := fst (fst c).
Definition state_of (c : Config) : ValidationState := snd (fst c).
Definition time_of (c : Config) : nat := snd c.

Definition step (c : Config) : Config :=
  let state := node_function (node_of c) (time_of c) (state_of c) in
  (next_node (node_of c) state, state, S (time_of c)).

Fixpoint run (fuel : nat) (c : Config) : Config :=
  match fuel with
  | O => c
  | S fuel' => if Node_eqb (node_of c) END then c else run fuel' (step c)
  end.

(** *** The entry point *)

(** [ValidationResult(is_valid=False, validator_agent="function_validator")] *)
Definition initial_result : Models.ValidationResult :=
  {| Models.is_valid := false; Models.score := 0; Models.issues := [];
     Models.suggestions := []; Models.validator_agent := Some "function_validator" |}.

(** The initial state of [validate]. *)
Definition initial_state (sol : Models.ImplementationSolution) : ValidationState :=
  {| solution := Some sol;
     validation_result := initial_result;
     test_scenarios := [];
     current_test_index := 0;
     test_results := [];
     issues_found := [];
     suggestions := [];
     error_count := 0;
     max_errors := Validator.default_max_errors |}.

(** The result [validate] builds in its handler. *)
Definition failed_result (e : string) : Models.ValidationResult :=
  {| Models.is_valid := false; Models.score := 0;
     Models.issues := [("验证失败: " ++ e)%string];
     Models.suggestions := []; Models.validator_agent := Some "function_validator" |}.

(** [self.graph.ainvoke(initial_state)], the engine taken as for the
    orchestrator. *)
Definition ainvoke (recursion_limit : nat) (state : ValidationState)
  : Outcome (Engine.Output ValidationState) :=
  let c := run recursion_limit (analyze_solution, state, O) in
  if Node_eqb (node_of c) END then Returned (Engine.Mapping (state_of c))
  else Raised "GraphRecursionError".

(** [validate(self, solution)]: [return final_state.validation_result]
    reads the attribute without a test. *)
Definition validate (recursion_limit : nat) (sol : Models.ImplementationSolution)
  : Outcome Models.ValidationResult :=
  try_except
    (final_state ← ainvoke recursion_limit (initial_state sol);
     Engine.getattr validation_result "validation_result" final_state)
    (fun e => Returned (failed_result e)).
End Nodes.

End ValidatorGraph.

(** Notions for the runs of the validator graph. *)
Module ValidatorNotions.
Import ValidatorGraph.

(** The scenarios the run works on: what the Completion port gave, or
    none when the call failed. *)
Definition generated_scenarios (ports : Ports) : list Scenario :=
  match llm_scenarios ports with
  | Returned scenarios => scenarios
  | Raised _ => []
  end.

(** A scenario without a name or without a type. *)
Definition malformed (scenario : Scenario) : Prop :=
  sc_name scenario = None \/ sc_type scenario = None.

(** The configurations of a run whose scenario [i] cannot be run: the
    tests are at scenario [i] or before it with the initial validation
    result, or the run is on its way out without an analysis. *)
Definition blocked_at (scenarios : list Scenario) (i : nat) (c : Config) : Prop :=
  validation_result (state_of c) = initial_result
  /\ (Z.of_nat (length (test_results (state_of c))) <= Z.of_nat i)%Z
  /\ match node_of c with
     | execute_tests =>
         test_scenarios (state_of c) = scenarios
         /\ (0 <= current_test_index (state_of c) <= Z.of_nat i)%Z
         /\ Z.of_nat (length (test_results (state_of c)))
            = current_test_index (state_of c)
     | finalize_validation | END => True
     | _ => False
     end.

(** A scenario with its name and its type. *)
Definition well_formed (scenario : Scenario) : Prop :=
  sc_name scenario <> None /\ sc_type scenario <> None.

(** The verdict of the vision model on the test entered after [t]
    transitions is a pass: it names a success indicator, with a
    confidence above 0.6. *)
Definition verdict_passes (ports : Ports) (t : nat) : Prop :=
  let '(suggestions, confidence) := analyze_screenshot ports t in
  is_success suggestions = true /\ (6 # 10 < confidence)%Q.

(** The result of the test of scenario [i] of a run whose tests start
    after 3 transitions: the test is counted as a success and its issues
    are those of its steps. *)
Definition passed (ports : Ports) (scenarios : list Scenario) (i : nat)
    (result : TestResult) : Prop :=
  success result = true
  /\ exists scenario,
       scenarios !! i = Some scenario
       /\ issues result = run_steps ports (3 + i) O (sc_steps scenario).

(** The states between two tests of a run whose tests all pass: the
    results recorded so far are those of the first scenarios, one per
    transition since the tests started, and the errors allowed are not
    used up. *)
Definition between_tests (ports : Ports) (scenarios : list Scenario)
    (state : ValidationState) (t : nat) : Prop :=
  test_scenarios state = scenarios
  /\ current_test_index state = Z.of_nat (length (test_results state))
  /\ t = (3 + length (test_results state))%nat
  /\ error_count state < max_errors state
  /\ forall i result, test_results state !! i = Some result ->
                      passed ports scenarios i result.

(** The tests still to run plus the errors still allowed. *)
Definition budget (state : ValidationState) : nat :=
  Z.to_nat (Z.of_nat (length (test_scenarios state)) - current_test_index state)
  + Z.to_nat (max_errors state - error_count state).

(** [END] is reached from [c] by at most [k] transitions. *)
Definition ends_within (ports : Ports) (k : nat) (c : Config) : Prop :=
  node_of (run ports k c) = END.

(** What the configurations of a [validate] run keep: one result is
    recorded per test run; until the results are analysed the validation
    result is the initial one; from the analysis on, every scenario was
    run and the validation result holds the score, the validity and the
    issues of the results; on the error path the validation result is
    still the initial one. *)
Definition reachable (c : Config) : Prop :=
  let state := state_of c in
  Z.of_nat (length (test_results state)) = current_test_index state
  /\ current_test_index state <= Z.of_nat (length (test_scenarios state))
  /\ match node_of c with
     | analyze_solution | generate_test_scenarios =>
         validation_result state = initial_result
         /\ test_scenarios state = [] /\ current_test_index state = 0
     | setup_test_environment | execute_tests =>
         validation_result state = initial_result
     | analyze_test_results =>
         validation_result state = initial_result
         /\ current_test_index state = Z.of_nat (length (test_scenarios state))
     | generate_suggestions =>
         current_test_index state = Z.of_nat (length (test_scenarios state))
         /\ Models.is_valid (validation_result state) = test_validity (test_results state)
         /\ Models.score (validation_result state) = test_score (test_results state)
         /\ Models.issues (validation_result state) = all_issues (test_results state)
         /\ Models.validator_agent (validation_result state) = Some "function_validator"
         /\ issues_found state = all_issues (test_results state)
     | finalize_validation | END =>
         validation_result state = initial_result
         \/ (current_test_index state = Z.of_nat (length (test_scenarios state))
             /\ Models.is_valid (validation_result state)
                = test_validity (test_results state)
             /\ Models.score (validation_result state) = test_score (test_results state)
             /\ Models.issues (validation_result state) = all_issues (test_results state)
             /\ Models.validator_agent (validation_result state)
                = Some "function_validator"
             /\ (all_issues (test_results state) = [] ->
                 Models.suggestions (validation_result state)
                 = ["功能实现良好，无需改进"]))
     end.

End ValidatorNotions.

(** Inputs for the validator graph. *)
Module ValidatorScenarios.
Import ValidatorGraph.

Definition scenario (name : string) : Scenario :=
  {| sc_name := Some name; sc_type := Some "basic_functionality";
     sc_steps := ["open the form"; "submit the form"] |}.

(** A scenario the Completion port gave without its type. *)
Definition untyped_scenario : Scenario :=
  {| sc_name := Some "search"; sc_type := None; sc_steps := [] |}.

(** Ports of a run in which the Completion port and the browser work;
    the vision model says "成功" with the given confidence for the tests
    entered after transition 3 and nothing of the sort for later ones. *)
Definition working_ports (scenarios : list Scenario) (confidence : Q) : Ports :=
  {| llm_analysis := Returned tt;
     llm_scenarios := Returned scenarios;
     start_browser := true;
     step_succeeds := fun _ _ => true;
     analyze_screenshot :=
       fun t => if (t <=? 3)%nat then (["提交成功"], confidence)
                else (["nothing happened"], confidence);
     elapsed := fun _ => 1 # 4;
     llm_suggestions := Returned ["check the second scenario"] |}.

(** Ports of a run in which no step of any test can be carried out,
    while the vision model reads a success off every screenshot. *)
Definition failing_steps_ports (scenarios : list Scenario) : Ports :=
  {| llm_analysis := Returned tt;
     llm_scenarios := Returned scenarios;
     start_browser := true;
     step_succeeds := fun _ _ => false;
     analyze_screenshot := fun _ => (["页面加载完成"], 8 # 10);
     elapsed := fun _ => 1 # 4;
     llm_suggestions := Raised "no answer" |}.

End ValidatorScenarios.

(** ** The workflow with its three agents

    [low_code_workflow.py] calls the module-level agents
    [low_code_developer_agent], [function_validator_agent] and
    [knowledge_manager_agent]. *)

Module Assembly.
Import Models.

(** What the three agents meet during one run of the workflow: the ports
    of the developer and of the validator in each development round, the
    identifiers and clock readings [develop] draws in that round, the
    recursion limit of the engine for their graphs, the answer to the
    keyword call of the search, the ports of the store call, and the
    knowledge store.  A run searches before it stores, and stores at most
    once: both calls meet the store as it is when the run starts. *)
Record World : Type := {
  developer_ports : Z -> DeveloperGraph.Ports;
  developer_ids : Z -> string * string;
  developer_readings : Z -> Z * Z;
  validator_ports : Z -> ValidatorGraph.Ports;
  recursion_limit : nat;
  llm_keywords : Outcome (list string);
  db_search_ok : bool;
  store_ports : KnowledgeManager.StorePorts;
  store_time : Z;
  knowledge : KnowledgeStore.KnowledgeStore;
  clock : Z -> Z
}.

(** [low_code_developer_agent.develop(state.request)] in round [i] *)
Definition develop (w : World) (i : Z) (req : option DevelopmentRequest)
  : Outcome ImplementationSolution :=
  DeveloperGraph.develop (developer_ports w i) (recursion_limit w)
    (fst (developer_ids w i)) (snd (developer_ids w i))
    (fst (developer_readings w i)) (snd (developer_readings w i)) req.

(** [function_validator_agent.validate(state.current_solution)] in round
    [i] *)
Definition validate (w : World) (i : Z) (sol : ImplementationSolution)
  : Outcome ValidationResult :=
  ValidatorGraph.validate (validator_ports w i) (recursion_limit w) sol.

(** [knowledge_manager_agent.search_similar_solutions(state.request)] *)
Definition search_similar_solutions (w : World) (req : option DevelopmentRequest)
  : Outcome (list ImplementationSolution) :=
  Returned (KnowledgeManager.search_similar_solutions (llm_keywords w) (db_search_ok w)
              req (knowledge w)).

(** [knowledge_manager_agent.store_solution(state.current_solution,
    state.reward_decision)]: the result and the solution object after the
    call. *)
Definition store_solution (w : World) (sol : ImplementationSolution)
    (decision : RewardDecision) : Outcome bool * ImplementationSolution :=
  let r := KnowledgeManager.store_solution (store_ports w) (store_time w) sol decision
             (knowledge w) in
  (Returned (fst (fst r)), snd (fst r)).

(** The agents of the workflow. *)
Definition agents (w : World) : Workflow.Agents :=
  {| Workflow.search_similar_solutions := search_similar_solutions w;
     Workflow.develop := develop w;
     Workflow.validate := validate w;
     Workflow.store_solution := store_solution w;
     Workflow.clock := clock w |}.

(** The run of the developer graph behind the [develop] call of round
    [i], for the request as [_initialize] stamped it. *)
Definition development (w : World) (i : Z) (req : DevelopmentRequest)
  : DeveloperGraph.Config :=
  DeveloperGraph.run (developer_ports w i) (recursion_limit w)
    (DeveloperGraph.analyze_request,
     DeveloperGraph.initial_state (fst (developer_ids w i)) (fst (developer_readings w i))
       req,
     O).

End Assembly.

(** Notions for the runs of the workflow with its agents. *)
Module AssemblyNotions.
Import Models.

(** What the configurations of a run from the initial state keep: the
    request is there; no error is recorded before development has
    delivered; validation, review and the knowledge update are entered
    without an error and with what they read; the one error a run can end
    with is that of a development that delivered no operations. *)
Definition on_course (c : Workflow.Node * Workflow.LowCodeWorkflowState) : Prop :=
  let state := snd c in
  Workflow.request state <> None
  /\ match fst c with
     | Workflow.initialize | Workflow.search_knowledge | Workflow.develop_solution =>
         Workflow.errors state = []
     | Workflow.validate_solution | Workflow.update_knowledge =>
         Workflow.errors state = [] /\ Workflow.current_solution state <> None
     | Workflow.review_solution =>
         Workflow.errors state = []
         /\ Workflow.current_solution state <> None
         /\ Workflow.validation_result state <> None
     | Workflow.handle_error | Workflow.finalize | Workflow.END =>
         Workflow.errors state = []
         \/ (Workflow.errors state = ["方案开发失败"]
             /\ exists sol, Workflow.current_solution state = Some sol
                            /\ operations sol = [])
     end.

(** The nodes of the one path a run takes with the agents of the
    repository, by the number of transitions made. *)
Definition course : list Workflow.Node :=
  [ Workflow.initialize; Workflow.search_knowledge; Workflow.develop_solution;
    Workflow.handle_error; Workflow.finalize ].

Definition node_after (k : nat) : Workflow.Node := nth k course Workflow.END.

End AssemblyNotions.

(** Inputs for the workflow with its agents. *)
Module AssemblyScenarios.
Import Models.

(** A world in which everything works: the developer logs in, carries
    out its plan of two operations and sees the page check pass, and the
    vision model reads a success off every screenshot of the validator. *)
Definition working_world : Assembly.World :=
  {| Assembly.developer_ports :=
       fun _ => DeveloperScenarios.working_ports DeveloperScenarios.two_step_plan
                  ["表单已创建"] (1 # 2);
     Assembly.developer_ids := fun _ => ("s-1", "s-2");
     Assembly.developer_readings := fun _ => (0, 9);
     Assembly.validator_ports :=
       fun _ => ValidatorScenarios.working_ports [ValidatorScenarios.scenario "save"]
                  (9 # 10);
     Assembly.recursion_limit := 25;
     Assembly.llm_keywords := Returned ["invoice"];
     Assembly.db_search_ok := true;
     Assembly.store_ports := Scenarios.store_ports;
     Assembly.store_time := 20;
     Assembly.knowledge := Scenarios.empty_store;
     Assembly.clock := fun i => 10 + i |}.

End AssemblyScenarios.

(** * Properties *)

(** ** Binary64 rounding *)

Module Binary64Facts.
Import Binary64.
Local Open Scope Q_scope.

Lemma pow2_pos (e : Z) : 0 < pow2 e.
Proof. apply Qpower_0_lt. reflexivity. Qed.

Lemma pow2_add (a b : Z) : pow2 (a + b) == pow2 a * pow2 b.
Proof. apply Qpower_plus. discriminate. Qed.

Lemma pow2_le (a b : Z) : (a <= b)%Z -> pow2 a <= pow2 b.
Proof. intros H. apply Qpower_le_compat_l; [exact H | discriminate]. Qed.

Lemma pow2_lt (a b : Z) : (a < b)%Z -> pow2 a < pow2 b.
Proof. intros H. apply Qpower_lt_compat_l; [exact H | reflexivity]. Qed.

Lemma pow2_lt_inv (a b : Z) : pow2 a < pow2 b -> (a < b)%Z.
Proof. intros H. apply (Qpower_lt_compat_l_inv (2 # 1)); [exact H | reflexivity]. Qed.

Lemma pow2_Z (n : Z) : (0 <= n)%Z -> pow2 n == inject_Z (2 ^ n).
Proof. intros H. unfold pow2. now rewrite Zpower_Qpower. Qed.

Lemma pow2_sub (a b : Z) : pow2 (a - b) == pow2 a / pow2 b.
Proof.
  unfold Z.sub. rewrite pow2_add. unfold pow2 at 2. rewrite Qpower_opp. reflexivity.
Qed.

(** [ilog2 q] is the binade of a positive [q]. *)
Lemma ilog2_spec (q : Q) : 0 < q -> pow2 (ilog2 q) <= q /\ q < pow2 (ilog2 q + 1).
Proof.
  intros Hq. destruct q as [a b]. unfold ilog2. cbn [Qnum Qden].
  assert (Ha : (0 < a)%Z) by (unfold Qlt in Hq; cbn in Hq; lia).
  pose proof (Z.log2_spec a Ha) as [Hal Hau].
  pose proof (Z.log2_spec (Zpos b) ltac:(lia)) as [Hbl Hbu].
  pose proof (Z.log2_nonneg a) as Hla. pose proof (Z.log2_nonneg (Zpos b)) as Hlb.
  set (la := Z.log2 a) in *. set (lb := Z.log2 (Zpos b)) in *.
  assert (Hab : a # b == inject_Z a / inject_Z (Zpos b)) by (rewrite Qmake_Qdiv; reflexivity).
  assert (Hbpos : 0 < inject_Z (Zpos b)) by (unfold Qlt; cbn; lia).
  assert (Hpl : (0 < 2 ^ lb)%Z) by (apply Z.pow_pos_nonneg; lia).
  assert (Hpl1 : (0 < 2 ^ (lb + 1))%Z) by (apply Z.pow_pos_nonneg; lia).
  assert (Hupper : a # b < pow2 (la - lb + 1)).
  { replace (la - lb + 1)%Z with ((la + 1) - lb)%Z by lia.
    rewrite pow2_sub, !pow2_Z by lia. rewrite Hab.
    apply Qlt_shift_div_l; [rewrite <- (Zlt_Qlt 0); exact Hpl |].
    unfold Qdiv. rewrite <- Qmult_assoc, (Qmult_comm (/ _)), Qmult_assoc.
    apply Qlt_shift_div_r; [exact Hbpos |].
    rewrite <- !inject_Z_mult, <- Zlt_Qlt. nia. }
  assert (Hlower : pow2 (la - lb - 1) < a # b).
  { replace (la - lb - 1)%Z with (la - (lb + 1))%Z by lia.
    rewrite pow2_sub, !pow2_Z by lia. rewrite Hab.
    apply Qlt_shift_div_r; [rewrite <- (Zlt_Qlt 0); exact Hpl1 |].
    unfold Qdiv. rewrite <- Qmult_assoc, (Qmult_comm (/ _)), Qmult_assoc.
    apply Qlt_shift_div_l; [exact Hbpos |].
    rewrite <- !inject_Z_mult, <- Zlt_Qlt. nia. }
  destruct (Qle_bool (pow2 (la - lb)) (a # b)) eqn:Hle.
  - apply Qle_bool_iff in Hle. split; [exact Hle | exact Hupper].
  - split; [apply Qlt_le_weak; exact Hlower |].
    replace (la - lb - 1 + 1)%Z with (la - lb)%Z by lia.
    apply Qnot_le_lt. intros H. apply Qle_bool_iff in H. congruence.
Qed.


Lemma ilog2_unique (q : Q) (e : Z) : pow2 e <= q -> q < pow2 (e + 1) -> ilog2 q = e.
Proof.
  intros Hl Hu.
  assert (Hq : 0 < q) by (eapply Qlt_le_trans; [apply (pow2_pos e) | exact Hl]).
  destruct (ilog2_spec q Hq) as [Hl' Hu'].
  assert (ilog2 q < e + 1)%Z
    by (apply pow2_lt_inv; eapply Qle_lt_trans; [exact Hl' | exact Hu]).
  assert (e < ilog2 q + 1)%Z
    by (apply pow2_lt_inv; eapply Qle_lt_trans; [exact Hl | exact Hu']).
  lia.
Qed.

Lemma ilog2_le (x y : Q) : 0 < x -> x <= y -> (ilog2 x <= ilog2 y)%Z.
Proof.
  intros Hx Hxy.
  assert (Hy : 0 < y) by (eapply Qlt_le_trans; eauto).
  destruct (ilog2_spec x Hx) as [Hl _]. destruct (ilog2_spec y Hy) as [_ Hu].
  assert (ilog2 x < ilog2 y + 1)%Z; [| lia].
  apply pow2_lt_inv. eapply Qle_lt_trans; [exact Hl |]. eapply Qle_lt_trans; eauto.
Qed.

(** *** Rounding to the nearest integer *)

Lemma rne_range (x : Q) : (Qfloor x <= rne x <= Qfloor x + 1)%Z.
Proof.
  unfold rne. destruct (Qcompare _ _); [destruct (Z.even _) | |]; lia.
Qed.

Lemma rne_Z (z : Z) : rne (inject_Z z) = z.
Proof.
  unfold rne. rewrite Qfloor_Z.
  destruct (Qcompare_spec (inject_Z z - inject_Z z) (1 # 2)) as [H | H | H];
    [exfalso; lra | reflexivity | exfalso; lra].
Qed.

Lemma rne_le (x y : Q) : x <= y -> (rne x <= rne y)%Z.
Proof.
  intros Hxy. pose proof (Qfloor_resp_le x y Hxy) as Hf.
  pose proof (rne_range x) as Hx. pose proof (rne_range y) as Hy.
  destruct (Z.eq_dec (Qfloor x) (Qfloor y)) as [Heq | Hne]; [| lia].
  unfold rne in *. rewrite <- Heq in *.
  assert (Hd : x - inject_Z (Qfloor x) <= y - inject_Z (Qfloor x)) by lra.
  destruct (Qcompare_spec (x - inject_Z (Qfloor x)) (1 # 2)) as [Hx2 | Hx2 | Hx2];
    destruct (Qcompare_spec (y - inject_Z (Qfloor x)) (1 # 2)) as [Hy2 | Hy2 | Hy2];
    try destruct (Z.even (Qfloor x)); try lia; lra.
Qed.

#[global] Instance rne_proper : Proper (Qeq ==> eq) rne.
Proof.
  intros x y Hxy. apply Z.le_antisymm; apply rne_le; rewrite Hxy; apply Qle_refl.
Qed.

Lemma rne_nonneg (x : Q) : 0 <= x -> (0 <= rne x)%Z.
Proof. intros H. rewrite <- (rne_Z 0). now apply rne_le. Qed.

(** *** Rounding a positive rational *)

Lemma ulp_exponent_le (x y : Q) :
  0 < x -> x <= y -> (ulp_exponent x <= ulp_exponent y)%Z.
Proof. intros Hx Hxy. pose proof (ilog2_le x y Hx Hxy). unfold ulp_exponent. lia. Qed.

Lemma round_pos_nonneg (q : Q) : 0 < q -> 0 <= round_pos q.
Proof.
  intros Hq. unfold round_pos. apply Qmult_le_0_compat.
  - rewrite <- (Zle_Qle 0). apply rne_nonneg.
    apply Qle_shift_div_l; [apply pow2_pos |]. lra.
  - apply Qlt_le_weak, pow2_pos.
Qed.

(** The scaled value lies below 2^53. *)
Lemma scaled_lt (q : Q) : 0 < q -> q / pow2 (ulp_exponent q) < pow2 53.
Proof.
  intros Hq. destruct (ilog2_spec q Hq) as [_ Hu].
  apply Qlt_shift_div_r; [apply pow2_pos |].
  rewrite <- pow2_add. eapply Qlt_le_trans; [exact Hu |].
  apply pow2_le. unfold ulp_exponent. lia.
Qed.

(** In the normal range it is at least 2^52. *)
Lemma scaled_ge (q : Q) :
  0 < q -> (-1022 <= ilog2 q)%Z -> pow2 52 <= q / pow2 (ulp_exponent q).
Proof.
  intros Hq He. destruct (ilog2_spec q Hq) as [Hl _].
  apply Qle_shift_div_l; [apply pow2_pos |].
  rewrite <- pow2_add. eapply Qle_trans; [| exact Hl].
  apply pow2_le. unfold ulp_exponent. lia.
Qed.

Lemma round_pos_upper (q : Q) : 0 < q -> round_pos q <= pow2 (ulp_exponent q + 53).
Proof.
  intros Hq. unfold round_pos.
  rewrite Z.add_comm, pow2_add.
  apply Qmult_le_compat_r; [| apply Qlt_le_weak, pow2_pos].
  rewrite (pow2_Z 53) by lia. rewrite <- Zle_Qle.
  rewrite <- (rne_Z (2 ^ 53)). apply rne_le.
  rewrite <- (pow2_Z 53) by lia. apply Qlt_le_weak. now apply scaled_lt.
Qed.

Lemma round_pos_lower (q : Q) :
  0 < q -> (-1022 <= ilog2 q)%Z -> pow2 (ilog2 q) <= round_pos q.
Proof.
  intros Hq He. unfold round_pos.
  assert (Hex : ilog2 q = (52 + ulp_exponent q)%Z) by (unfold ulp_exponent; lia).
  rewrite Hex at 1. rewrite pow2_add.
  apply Qmult_le_compat_r; [| apply Qlt_le_weak, pow2_pos].
  rewrite (pow2_Z 52) by lia. rewrite <- Zle_Qle.
  rewrite <- (rne_Z (2 ^ 52)). apply rne_le.
  rewrite <- (pow2_Z 52) by lia. now apply scaled_ge.
Qed.

Lemma round_pos_le (x y : Q) : 0 < x -> x <= y -> round_pos x <= round_pos y.
Proof.
  intros Hx Hxy.
  assert (Hy : 0 < y) by (eapply Qlt_le_trans; eauto).
  pose proof (ulp_exponent_le x y Hx Hxy) as Hexp.
  destruct (Z.eq_dec (ulp_exponent x) (ulp_exponent y)) as [Heq | Hne].
  - unfold round_pos. rewrite Heq.
    apply Qmult_le_compat_r; [| apply Qlt_le_weak, pow2_pos].
    rewrite <- Zle_Qle. apply rne_le.
    apply Qmult_le_compat_r; [exact Hxy |].
    apply Qlt_le_weak, Qinv_lt_0_compat, pow2_pos.
  - assert (Hnormal : (-1022 < ilog2 y)%Z) by (unfold ulp_exponent in *; lia).
    eapply Qle_trans; [apply round_pos_upper; exact Hx |].
    eapply Qle_trans; [| apply round_pos_lower; [exact Hy | lia]].
    apply pow2_le. unfold ulp_exponent in *. lia.
Qed.

(** *** [round64] *)

Lemma round64_0 : round64 0 = 0.
Proof. reflexivity. Qed.

Lemma round64_pos (q : Q) : 0 < q -> round64 q == round_pos q.
Proof.
  intros Hq. unfold round64.
  destruct (Qcompare_spec q 0) as [H | H | H]; [lra | lra | apply Qred_correct].
Qed.

Lemma round64_neg (q : Q) : q < 0 -> round64 q == - round_pos (- q).
Proof.
  intros Hq. unfold round64.
  destruct (Qcompare_spec q 0) as [H | H | H]; [lra | apply Qred_correct | lra].
Qed.

Lemma round64_zero (q : Q) : q == 0 -> round64 q = 0.
Proof.
  intros Hq. unfold round64.
  destruct (Qcompare_spec q 0) as [H | H | H]; [reflexivity | lra | lra].
Qed.

Lemma round64_le (x y : Q) : x <= y -> round64 x <= round64 y.
Proof.
  intros Hxy.
  destruct (Qcompare_spec x 0) as [Hx | Hx | Hx];
    destruct (Qcompare_spec y 0) as [Hy | Hy | Hy];
    rewrite ?(round64_zero x), ?(round64_zero y), ?(round64_pos x), ?(round64_pos y),
      ?(round64_neg x), ?(round64_neg y) by assumption;
    try lra.
  - now apply round_pos_nonneg.
  - pose proof (round_pos_nonneg (- x) ltac:(lra)). lra.
  - pose proof (round_pos_le (- y) (- x) ltac:(lra) ltac:(lra)). lra.
  - pose proof (round_pos_nonneg (- x) ltac:(lra)).
    pose proof (round_pos_nonneg y Hy). lra.
  - apply round_pos_le; assumption.
Qed.

#[global] Instance round64_proper : Proper (Qeq ==> Qeq) round64.
Proof.
  intros x y Hxy. apply Qle_antisym; apply round64_le; rewrite Hxy; apply Qle_refl.
Qed.

Lemma round64_nonneg (q : Q) : 0 <= q -> 0 <= round64 q.
Proof. intros H. rewrite <- round64_0. now apply round64_le. Qed.

(** A positive multiple of its unit in the last place is kept. *)
Lemma round_pos_exact (q : Q) (k : Z) :
  0 < q -> q == inject_Z k * pow2 (ulp_exponent q) -> round_pos q == q.
Proof.
  intros Hq Hk. unfold round_pos.
  assert (Hscaled : q / pow2 (ulp_exponent q) == inject_Z k).
  { rewrite Hk at 1. field. intros H. pose proof (pow2_pos (ulp_exponent q)). lra. }
  rewrite Hscaled, rne_Z. symmetry. exact Hk.
Qed.

(** The integers up to 2^53 are kept. *)
Lemma round64_Z (n : Z) : (0 <= n <= 2 ^ 53)%Z -> round64 (inject_Z n) == inject_Z n.
Proof.
  intros Hn. destruct (Z.eq_dec n 0%Z) as [-> | Hne]; [reflexivity |].
  assert (Hpos : 0 < inject_Z n) by (rewrite <- (Zlt_Qlt 0); lia).
  rewrite round64_pos by exact Hpos.
  pose proof (Z.log2_spec n ltac:(lia)) as [Hl Hu].
  pose proof (Z.log2_nonneg n) as Hl0.
  assert (Hlog : ilog2 (inject_Z n) = Z.log2 n).
  { apply ilog2_unique; rewrite pow2_Z by lia; [rewrite <- Zle_Qle | rewrite <- Zlt_Qlt];
      assumption. }
  assert (Hl53 : (Z.log2 n <= 53)%Z).
  { destruct (Z.le_gt_cases (Z.log2 n) 53%Z) as [H | H]; [exact H | exfalso].
    assert (2 ^ 54 <= 2 ^ Z.log2 n)%Z by (apply Z.pow_le_mono_r; lia).
    assert (2 ^ 53 < 2 ^ 54)%Z by (apply Z.pow_lt_mono_r; lia). lia. }
  assert (Hexp : ulp_exponent (inject_Z n) = (Z.log2 n - 52)%Z)
    by (unfold ulp_exponent; rewrite Hlog; lia).
  destruct (Z.eq_dec (Z.log2 n) 53%Z) as [H53 | H53].
  - apply (round_pos_exact _ (2 ^ 52)); [exact Hpos |].
    rewrite Hexp, H53. assert (n = 2 ^ 53)%Z as -> by (rewrite H53 in Hl; lia).
    reflexivity.
  - apply (round_pos_exact _ (n * 2 ^ (52 - Z.log2 n))); [exact Hpos |].
    rewrite Hexp, inject_Z_mult, <- (pow2_Z (52 - Z.log2 n)) by lia.
    rewrite <- Qmult_assoc, <- pow2_add.
    replace (52 - Z.log2 n + (Z.log2 n - 52))%Z with 0%Z by lia.
    unfold pow2. cbn. ring.
Qed.

Lemma round64_1 : round64 1 == 1.
Proof. reflexivity. Qed.

(** Rounding keeps a value within integer bounds. *)
Lemma round64_bounds (q : Q) (lo hi : Z) :
  (0 <= lo)%Z -> (hi <= 2 ^ 53)%Z -> inject_Z lo <= q <= inject_Z hi ->
  inject_Z lo <= round64 q <= inject_Z hi.
Proof.
  intros Hlo Hhi [Hl Hu].
  assert (lo <= hi)%Z by (rewrite Zle_Qle; lra).
  split.
  - rewrite <- (round64_Z lo) by lia. now apply round64_le.
  - rewrite <- (round64_Z hi) by lia. now apply round64_le.
Qed.

(** The nearest integer is at most one half away. *)
Lemma rne_error (x : Q) : - (1 # 2) <= inject_Z (rne x) - x <= 1 # 2.
Proof.
  unfold rne. pose proof (Qfloor_le x) as Hl. pose proof (Qlt_floor x) as Hu.
  rewrite inject_Z_plus in Hu. change (inject_Z 1) with 1 in Hu.
  destruct (Qcompare_spec (x - inject_Z (Qfloor x)) (1 # 2)) as [H | H | H];
    [destruct (Z.even _) | |];
    rewrite ?inject_Z_plus; change (inject_Z 1) with 1; lra.
Qed.

(** Below 1 the unit in the last place is at most 2^-53, and rounding
    moves a value by at most half of it. *)
Lemma round_pos_error (q : Q) :
  0 < q -> q < 1 -> - pow2 (-54) <= round_pos q - q <= pow2 (-54).
Proof.
  intros Hq H1.
  assert (Hlog : (ilog2 q < 0)%Z).
  { apply pow2_lt_inv. destruct (ilog2_spec q Hq) as [Hl _].
    eapply Qle_lt_trans; [exact Hl | exact H1]. }
  assert (Hexp : (ulp_exponent q <= -53)%Z) by (unfold ulp_exponent; lia).
  pose proof (pow2_pos (ulp_exponent q)) as Hp.
  pose proof (pow2_le _ _ Hexp) as Hp53.
  assert (H54 : pow2 (-54) == (1 # 2) * pow2 (-53)) by reflexivity.
  pose proof (rne_error (q / pow2 (ulp_exponent q))) as [Hel Heu].
  unfold round_pos.
  set (p := pow2 (ulp_exponent q)) in *.
  set (r := inject_Z (rne (q / p))) in *.
  assert (Hq' : q == q / p * p) by (field; lra).
  assert (Hd : r * p - q == (r - q / p) * p) by (field; lra).
  rewrite Hd, H54. split.
  - apply Qle_trans with (- (1 # 2) * p); [lra |].
    apply Qmult_le_compat_r; lra.
  - apply Qle_trans with ((1 # 2) * p); [| lra].
    apply Qmult_le_compat_r; lra.
Qed.

Lemma round64_error (q : Q) :
  0 <= q <= 1 -> - pow2 (-54) <= round64 q - q <= pow2 (-54).
Proof.
  intros [H0 H1]. pose proof (pow2_pos (-54)) as Hp.
  destruct (Qcompare_spec q 0) as [Hz | Hz | Hz]; [| lra |].
  - rewrite (round64_zero q Hz), Hz. lra.
  - destruct (Qcompare_spec q 1) as [Ho | Ho | Ho]; [| | lra].
    + rewrite Ho, round64_1. lra.
    + rewrite round64_pos by exact Hz. now apply round_pos_error.
Qed.

(** A value in the unit interval stays there. *)
Lemma round64_unit (q : Q) : 0 <= q <= 1 -> 0 <= round64 q <= 1.
Proof. intros H. apply (round64_bounds q 0 1); [lia | lia | exact H]. Qed.

(** Values of the rounding: 0.1, 0.6, 0.4 and 2/3 in binary64. *)
Lemma round64_values :
  round64 (1 # 10) = 3602879701896397 # 36028797018963968
  /\ round64 (6 # 10) = 5404319552844595 # 9007199254740992
  /\ round64 (4 # 10) = 3602879701896397 # 9007199254740992
  /\ round64 (2 # 3) = 6004799503160661 # 9007199254740992
  /\ round64 (- (1 # 3)) = - 6004799503160661 # 18014398509481984.
Proof. vm_compute. repeat split. Qed.

End Binary64Facts.

(** ** Usage statistics of a knowledge entry *)

Module UsageFacts.
Import Models Binary64 Binary64Facts.
Local Open Scope Q_scope.

Lemma add_usages_snoc (calls : list (Z * bool)) (c : Z * bool) (e : KnowledgeEntry) :
  add_usages (calls ++ [c]) e = add_usage (fst c) (snd c) (add_usages calls e).
Proof. unfold add_usages. now rewrite fold_left_app. Qed.

Lemma add_usages_count (calls : list (Z * bool)) (e : KnowledgeEntry) :
  usage_count (add_usages calls e) = (usage_count e + Z.of_nat (length calls))%Z.
Proof.
  induction calls as [|c calls IH] using rev_ind.
  - cbn. lia.
  - rewrite add_usages_snoc, length_app. cbn. rewrite IH. lia.
Qed.

(** The rate one call leaves, for a call that is not the first. *)
Lemma add_usage_rate (now : Z) (success : bool) (e : KnowledgeEntry) :
  (1 <= usage_count e)%Z ->
  entry_success_rate (add_usage now success e)
  = let products := round64 (entry_success_rate e * round64 (inject_Z (usage_count e))) in
    round64 ((if success then round64 (products + 1) else products)
             / round64 (inject_Z (usage_count e + 1))).
Proof.
  intros Hn. unfold add_usage. cbn [entry_success_rate].
  destruct (Z.eqb_spec (usage_count e + 1) 1) as [H | _]; [lia |].
  replace (usage_count e + 1 - 1)%Z with (usage_count e) by lia.
  now destruct success.
Qed.

(** One call keeps the rate within [0, 1]. *)
Lemma add_usage_range (now : Z) (success : bool) (e : KnowledgeEntry) :
  (0 <= usage_count e < 2 ^ 53)%Z ->
  ((1 <= usage_count e)%Z -> 0 <= entry_success_rate e <= 1) ->
  0 <= entry_success_rate (add_usage now success e) <= 1.
Proof.
  intros Hn Hrate.
  destruct (Z.eq_dec (usage_count e) 0%Z) as [H0 | H0].
  - unfold add_usage. cbn [entry_success_rate]. rewrite H0. cbn.
    destruct success; split; discriminate.
  - rewrite add_usage_rate by lia. cbv zeta.
    specialize (Hrate ltac:(lia)).
    set (n := usage_count e) in *.
    assert (Hn0 : 0 < inject_Z n) by (rewrite <- (Zlt_Qlt 0); lia).
    assert (Hn1 : 0 < inject_Z (n + 1)) by (rewrite <- (Zlt_Qlt 0); lia).
    assert (Hsucc : inject_Z (n + 1) == inject_Z n + 1)
      by (rewrite inject_Z_plus; reflexivity).
    assert (Hproducts : inject_Z 0 <= round64 (entry_success_rate e * round64 (inject_Z n))
                        <= inject_Z n).
    { apply round64_bounds; [lia | lia |]. rewrite (round64_Z n) by lia.
      change (inject_Z 0) with 0. split.
      - apply Qmult_le_0_compat; lra.
      - rewrite <- (Qmult_1_l (inject_Z n)) at 2. apply Qmult_le_compat_r; lra. }
    change (inject_Z 0) with 0 in Hproducts.
    set (products := round64 (entry_success_rate e * round64 (inject_Z n))) in *.
    assert (Hsum : 0 <= (if success then round64 (products + 1) else products)
                   <= inject_Z (n + 1)).
    { destruct success.
      - apply (round64_bounds _ 0 (n + 1)); [lia | lia |].
        change (inject_Z 0) with 0. lra.
      - lra. }
    set (sum := if success then round64 (products + 1) else products) in *.
    rewrite (round64_Z (n + 1)) by lia.
    apply (round64_bounds _ 0 1); [lia | lia |].
    change (inject_Z 0) with 0. change (inject_Z 1) with 1.
    split.
    + apply Qle_shift_div_l; [exact Hn1 | lra].
    + apply Qle_shift_div_r; [exact Hn1 | lra].
Qed.

(** A success after nothing but successes keeps the rate 1; a failure
    after nothing but failures keeps it 0. *)
Lemma add_usage_constant (now : Z) (success : bool) (e : KnowledgeEntry) :
  (0 <= usage_count e < 2 ^ 53)%Z ->
  ((1 <= usage_count e)%Z -> entry_success_rate e == (if success then 1 else 0)) ->
  entry_success_rate (add_usage now success e) == (if success then 1 else 0).
Proof.
  intros Hn Hrate.
  destruct (Z.eq_dec (usage_count e) 0%Z) as [H0 | H0].
  - unfold add_usage. cbn [entry_success_rate]. rewrite H0. cbn. reflexivity.
  - rewrite add_usage_rate by lia. cbv zeta.
    specialize (Hrate ltac:(lia)).
    set (n := usage_count e) in *.
    assert (Hn1 : ~ inject_Z (n + 1) == 0).
    { intros H. assert (0 < inject_Z (n + 1)) by (rewrite <- (Zlt_Qlt 0); lia). lra. }
    destruct success.
    + rewrite Hrate, (round64_Z n), (round64_Z (n + 1)) by lia.
      rewrite Qmult_1_l, (round64_Z n) by lia.
      assert (Hsucc : inject_Z n + 1 == inject_Z (n + 1))
        by (rewrite inject_Z_plus; reflexivity).
      rewrite Hsucc, (round64_Z (n + 1)) by lia.
      assert (Hone : inject_Z (n + 1) / inject_Z (n + 1) == 1) by (field; exact Hn1).
      rewrite Hone. reflexivity.
    + rewrite Hrate, (round64_Z (n + 1)) by lia.
      rewrite Qmult_0_l. rewrite round64_0.
      assert (Hzero : 0 / inject_Z (n + 1) == 0) by (field; exact Hn1).
      rewrite Hzero. reflexivity.
Qed.

Lemma add_usages_range (calls : list (Z * bool)) (e : KnowledgeEntry) :
  usage_count e = 0%Z -> (Z.of_nat (length calls) <= 2 ^ 53)%Z -> calls <> [] ->
  0 <= entry_success_rate (add_usages calls e) <= 1.
Proof.
  intros H0. induction calls as [|c calls IH] using rev_ind; [congruence |].
  intros Hlen _. rewrite length_app in Hlen. cbn in Hlen.
  rewrite add_usages_snoc. apply add_usage_range.
  - rewrite add_usages_count, H0. lia.
  - rewrite add_usages_count, H0. intros Hn. apply IH; [lia |].
    intros ->. cbn in Hn. lia.
Qed.

Lemma add_usages_constant (success : bool) (calls : list (Z * bool)) (e : KnowledgeEntry) :
  usage_count e = 0%Z -> (Z.of_nat (length calls) <= 2 ^ 53)%Z -> calls <> [] ->
  Forall (fun c => snd c = success) calls ->
  entry_success_rate (add_usages calls e) == (if success then 1 else 0).
Proof.
  intros H0. induction calls as [|c calls IH] using rev_ind; [congruence |].
  intros Hlen _ Hall. rewrite length_app in Hlen. cbn in Hlen.
  apply Forall_app in Hall as [Hall Hc]. apply List.Forall_inv in Hc. cbv beta in Hc.
  rewrite add_usages_snoc, Hc. apply add_usage_constant.
  - rewrite add_usages_count, H0. lia.
  - rewrite add_usages_count, H0. intros Hn. apply IH; [lia | | exact Hall].
    intros ->. cbn in Hn. lia.
Qed.




End UsageFacts.

(** ** Finalization of a developed solution *)

Module DeveloperFacts.
Import Models Developer Notions.
Local Open Scope Q_scope.

(** The counter of [_finalize_solution] counts the operations whose
    success flag is [True]. *)
Lemma successful_operations_count (ops : list LowCodeOperation) :
  successful_operations ops = count_flagged_successful ops.
Proof.
  unfold successful_operations.
  induction ops as [| op ops IH]; [reflexivity |].
  cbn [List.filter count_flagged_successful]. rewrite <- IH.
  unfold success_is_True, flagged_successful.
  destruct (op_success op) as [[|] |].
  - rewrite bool_decide_eq_true_2 by reflexivity.
    cbn [length]. rewrite Nat2Z.inj_succ. lia.
  - rewrite bool_decide_eq_false_2 by discriminate. lia.
  - rewrite bool_decide_eq_false_2 by discriminate. lia.
Qed.

Lemma count_flagged_bounds (ops : list LowCodeOperation) :
  (0 <= count_flagged_successful ops <= Z.of_nat (length ops))%Z.
Proof.
  induction ops as [| op ops IH]; cbn [count_flagged_successful length]; [lia |].
  destruct (bool_decide _); lia.
Qed.

Lemma count_flagged_all (ops : list LowCodeOperation) :
  count_flagged_successful ops = Z.of_nat (length ops) <-> Forall flagged_successful ops.
Proof.
  induction ops as [| op ops IH]; cbn [count_flagged_successful length].
  - split; [constructor | reflexivity].
  - pose proof (count_flagged_bounds ops) as Hb.
    destruct (bool_decide_reflect (flagged_successful op)) as [Hop | Hop]; split.
    + intros H. constructor; [exact Hop | apply IH; lia].
    + intros H. apply Forall_cons in H as [_ H]. apply IH in H. lia.
    + intros H. lia.
    + intros H. apply Forall_cons in H as [H _]. contradiction.
Qed.

Lemma count_flagged_none (ops : list LowCodeOperation) :
  count_flagged_successful ops = 0%Z <-> Forall (fun op => ~ flagged_successful op) ops.
Proof.
  induction ops as [| op ops IH]; cbn [count_flagged_successful].
  - split; [constructor | reflexivity].
  - pose proof (count_flagged_bounds ops) as Hb.
    destruct (bool_decide_reflect (flagged_successful op)) as [Hop | Hop]; split.
    + intros H. lia.
    + intros H. apply Forall_cons in H as [H _]. contradiction.
    + intros H. constructor; [exact Hop | apply IH; lia].
    + intros H. apply Forall_cons in H as [_ H]. apply IH in H. lia.
Qed.

Lemma finalized_success_rate_empty : finalized_success_rate [] == 0.
Proof. reflexivity. Qed.

Lemma finalized_success_rate_ratio (ops : list LowCodeOperation) :
  ops <> [] ->
  finalized_success_rate ops
  == inject_Z (count_flagged_successful ops) / inject_Z (Z.of_nat (length ops)).
Proof.
  intros Hne. unfold finalized_success_rate. rewrite successful_operations_count.
  destruct ops as [|op ops]; [congruence|].
  destruct (Z.ltb_spec 0 (Z.of_nat (length (op :: ops)))) as [_|Hle]; [reflexivity|].
  cbn [length] in Hle. lia.
Qed.

(** The rate is 1 exactly when every operation is flagged successful, and
    0 exactly when none is. *)
Lemma finalized_success_rate_extremes (ops : list LowCodeOperation) :
  ops <> [] ->
  (finalized_success_rate ops == 1 <-> Forall flagged_successful ops)
  /\ (finalized_success_rate ops == 0 <-> Forall (fun op => ~ flagged_successful op) ops).
Proof.
  intros Hne. rewrite (finalized_success_rate_ratio ops Hne).
  assert (Hlen : (0 < Z.of_nat (length ops))%Z) by (destruct ops; [congruence | cbn [length]; lia]).
  assert (Hpos : 0 < inject_Z (Z.of_nat (length ops))) by (rewrite <- (Zlt_Qlt 0); lia).
  set (c := count_flagged_successful ops).
  set (n := Z.of_nat (length ops)) in *.
  assert (Hdiv : forall k : Z, inject_Z c / inject_Z n == inject_Z k <-> c = (k * n)%Z).
  { intros k. split.
    - intros H. apply inject_Z_injective. rewrite inject_Z_mult, <- H. field. lra.
    - intros ->. rewrite inject_Z_mult. field. lra. }
  split.
  - rewrite <- count_flagged_all. fold c. fold n.
    change 1 with (inject_Z 1). rewrite Hdiv. split; lia.
  - rewrite <- count_flagged_none. fold c.
    change 0 with (inject_Z 0) at 1. rewrite Hdiv. split; lia.
Qed.

(** C4.  After [_finalize_solution] the success rate of the solution is
    the number of operations whose success flag is [True] divided by the
    number of operations, or 0 without operations: it is 1 exactly when
    every operation carries the flag [True], and an operation that failed
    or was never executed does not count.  The decision is accepted when
    the validation result is valid and the rate is at least 0.8, pending
    when it is valid and the rate is below 0.8, and rejected otherwise. *)
Theorem finalize_solution_rate_and_decision (now : Z)
    (state : LowCodeDeveloperState) (sol : ImplementationSolution) :
  solution state = Some sol ->
  exists state' sol',
    _finalize_solution now state = Returned state'
    /\ solution state' = Some sol'
    /\ operations sol' = operations sol
    /\ (operations sol = [] -> success_rate sol' == 0)
    /\ (operations sol <> [] ->
        success_rate sol'
        == inject_Z (count_flagged_successful (operations sol))
           / inject_Z (Z.of_nat (length (operations sol)))
        /\ (success_rate sol' == 1
            <-> Forall (fun op => op_success op = Some true) (operations sol))
        /\ (success_rate sol' == 0
            <-> Forall (fun op => op_success op <> Some true) (operations sol)))
    /\ (validated sol -> 8 # 10 <= success_rate sol' -> reward_decision sol' = ACCEPTED)
    /\ (validated sol -> success_rate sol' < 8 # 10 -> reward_decision sol' = PENDING)
    /\ (~ validated sol -> reward_decision sol' = REJECTED).
Proof.
  intros Hsol. unfold _finalize_solution. rewrite Hsol.
  eexists _, _. split; [reflexivity|]. split; [reflexivity|].
  cbn [solution finalize_solution_body operations success_rate reward_decision].
  split; [reflexivity|].
  split; [intros ->; reflexivity|].
  split.
  { intros Hne. split; [now apply finalized_success_rate_ratio |].
    exact (finalized_success_rate_extremes (operations sol) Hne). }
  unfold finalized_decision, validated.
  split; [|split].
  - intros (vr & -> & ->) Hrate.
    apply Qle_bool_iff in Hrate. now rewrite Hrate.
  - intros (vr & -> & ->) Hrate.
    destruct (Qle_bool (8 # 10) _) eqn:E; [|reflexivity].
    apply Qle_bool_iff in E. exfalso. exact (Qlt_not_le _ _ Hrate E).
  - intros Hnot. destruct (validation_result sol) as [vr|]; [|reflexivity].
    destruct (is_valid vr) eqn:E; [|reflexivity].
    exfalso. apply Hnot. now exists vr.
Qed.

(** The scenario of the claim: two operations, both successful, and a
    valid validation result with score 0.85 give success rate 1 and an
    accepted decision.  With one operation flagged successful, one failed
    and one never executed, the same validation result gives success
    rate 1/3 and a pending decision. *)
Lemma finalize_solution_rate_and_decision_witness :
  solution (Scenarios.developer_state Scenarios.two_successful_operations)
  = Some Scenarios.two_successful_operations
  /\ (exists state' sol',
        _finalize_solution 100
          (Scenarios.developer_state Scenarios.two_successful_operations)
        = Returned state'
        /\ solution state' = Some sol'
        /\ success_rate sol' == 1
        /\ reward_decision sol' = ACCEPTED)
  /\ solution (Scenarios.developer_state Scenarios.one_successful_operation)
     = Some Scenarios.one_successful_operation
  /\ (exists state' sol',
        _finalize_solution 100
          (Scenarios.developer_state Scenarios.one_successful_operation)
        = Returned state'
        /\ solution state' = Some sol'
        /\ success_rate sol' == 1 # 3
        /\ reward_decision sol' = PENDING).
Proof.
  split; [reflexivity|].
  split.
  { destruct (finalize_solution_rate_and_decision 100
                (Scenarios.developer_state Scenarios.two_successful_operations)
                Scenarios.two_successful_operations eq_refl)
      as (state' & sol' & Hret & Hsol & _ & _ & Hrate & Hacc & _).
    exists state', sol'.
    assert (Hr : success_rate sol' == 1).
    { destruct (Hrate ltac:(discriminate)) as [Hr _]. rewrite Hr. reflexivity. }
    repeat split; try assumption.
    apply Hacc.
    - eexists. split; reflexivity.
    - rewrite Hr. discriminate. }
  split; [reflexivity|].
  destruct (finalize_solution_rate_and_decision 100
              (Scenarios.developer_state Scenarios.one_successful_operation)
              Scenarios.one_successful_operation eq_refl)
    as (state' & sol' & Hret & Hsol & _ & _ & Hrate & _ & Hpending & _).
  exists state', sol'.
  assert (Hr : success_rate sol' == 1 # 3).
  { destruct (Hrate ltac:(discriminate)) as [Hr _]. rewrite Hr. reflexivity. }
  repeat split; try assumption.
  apply Hpending.
  - eexists. split; reflexivity.
  - rewrite Hr. reflexivity.
Defined.
End DeveloperFacts.

(** ** Similarity ranking *)

Module SimilarityFacts.
Import Models TextSimilarity KnowledgeManager Notions Binary64 Binary64Facts.
Local Open Scope Q_scope.

Lemma ratio_in_unit_interval (a b : Z) :
  (0 <= a <= b)%Z -> (0 < b)%Z -> 0 <= inject_Z a / inject_Z b <= 1.
Proof.
  intros [Ha Hab] Hb.
  assert (Hb' : 0 < inject_Z b) by (rewrite <- (Zlt_Qlt 0); exact Hb).
  assert (Ha' : 0 <= inject_Z a) by (rewrite <- (Zle_Qle 0); exact Ha).
  assert (Hab' : inject_Z a <= inject_Z b) by (rewrite <- Zle_Qle; exact Hab).
  split.
  - apply Qle_shift_div_l; [exact Hb' | lra].
  - apply Qle_shift_div_r; [exact Hb' | lra].
Qed.

Lemma jaccard_bounds (a b : gset string) : 0 <= jaccard a b <= 1.
Proof.
  unfold jaccard. destruct (Nat.eqb_spec (size (a ∪ b)) 0) as [_|Hne].
  - split; discriminate.
  - apply ratio_in_unit_interval; [|lia].
    assert (size (a ∩ b) <= size (a ∪ b))%nat.
    { apply subseteq_size. etrans; [apply intersection_subseteq_l|apply union_subseteq_l]. }
    lia.
Qed.

Lemma jaccard_disjoint (a b : gset string) : a ## b -> jaccard a b == 0.
Proof.
  intros Hd. unfold jaccard. destruct (size (a ∪ b) =? 0)%nat; [reflexivity|].
  assert (Hempty : a ∩ b = ∅) by now apply disjoint_intersection_L.
  rewrite Hempty, size_empty. reflexivity.
Qed.

Lemma text_similarity_bounds (t1 : string) (t2 : option string) :
  0 <= _text_similarity t1 t2 <= 1.
Proof.
  destruct t2 as [t2|]; cbn; [apply jaccard_bounds|split; discriminate].
Qed.

(** *** The stable descending sort *)

Section Sort.
Context {A : Type}.
Implicit Types (x y : A * Q) (l : list (A * Q)).

Lemma insert_desc_perm x l : Permutation (insert_desc x l) (x :: l).
Proof.
  induction l as [|y l IH]; cbn; [reflexivity|].
  destruct (Qle_bool (snd y) (snd x)); [reflexivity|].
  rewrite IH. apply perm_swap.
Qed.

Lemma sort_desc_perm l : Permutation (sort_desc l) l.
Proof.
  induction l as [|x l IH]; cbn; [reflexivity|].
  rewrite insert_desc_perm. now constructor.
Qed.

Lemma insert_desc_sorted x l :
  StronglySorted desc l -> StronglySorted desc (insert_desc x l).
Proof.
  induction 1 as [|y l Hs IH Hall]; cbn.
  - constructor; constructor.
  - destruct (Qle_bool (snd y) (snd x)) eqn:E.
    + apply Qle_bool_iff in E. constructor; [now constructor|].
      constructor; [exact E|].
      eapply List.Forall_impl; [|exact Hall].
      intros z Hz. unfold desc in *. now apply Qle_trans with (snd y).
    + assert (Hlt : snd x < snd y).
      { apply Qnot_le_lt. intros Hle. apply Qle_bool_iff in Hle. congruence. }
      constructor; [exact IH|].
      rewrite (insert_desc_perm x l). constructor; [|exact Hall].
      unfold desc. now apply Qlt_le_weak.
Qed.

Lemma sort_desc_sorted l : StronglySorted desc (sort_desc l).
Proof.
  induction l as [|x l IH]; cbn; [constructor|now apply insert_desc_sorted].
Qed.

Lemma insert_desc_with_key (q : Q) x l :
  with_key q (insert_desc x l) = with_key q (x :: l).
Proof.
  induction l as [|y l IH]; [reflexivity|].
  cbn [insert_desc]. destruct (Qle_bool (snd y) (snd x)) eqn:E; [reflexivity|].
  unfold with_key in *. cbn [List.filter] in *. rewrite IH.
  destruct (Qeq_bool (snd x) q) eqn:Ex, (Qeq_bool (snd y) q) eqn:Ey; try reflexivity.
  apply Qeq_bool_iff in Ex, Ey.
  assert (Hle : Qle_bool (snd y) (snd x) = true).
  { apply Qle_bool_iff. rewrite Ex, Ey. apply Qle_refl. }
  congruence.
Qed.

Lemma sort_desc_with_key (q : Q) l : with_key q (sort_desc l) = with_key q l.
Proof.
  induction l as [|x l IH]; [reflexivity|].
  cbn [sort_desc foldr]. fold (sort_desc l).
  rewrite insert_desc_with_key. unfold with_key in *. cbn [List.filter].
  now rewrite IH.
Qed.
End Sort.

(** *** Ranking *)

Section Ranking.
Variable request : DevelopmentRequest.

Local Abbreviation score_of := (_calculate_similarity request).
Local Abbreviation scored := (Notions.scored request).
Local Abbreviation well_scored := (Notions.well_scored request).

Lemma scored_well_scored l : Forall well_scored (scored l).
Proof. induction l; constructor; [reflexivity|assumption]. Qed.

Lemma sorted_well_scored l : Forall well_scored (sort_desc (scored l)).
Proof.
  eapply Permutation_Forall; [|apply scored_well_scored].
  symmetry. apply sort_desc_perm.
Qed.

Lemma rank_perm l : Permutation (_rank_solutions_by_similarity request l) l.
Proof.
  unfold _rank_solutions_by_similarity. fold score_of. fold (scored l).
  rewrite (sort_desc_perm (scored l)). unfold scored.
  rewrite List.map_map. cbn [fst]. now rewrite List.map_id.
Qed.

Lemma map_fst_sorted (L : list (ImplementationSolution * Q)) :
  Forall well_scored L -> StronglySorted desc L ->
  StronglySorted (fun a b => score_of b <= score_of a) (List.map fst L).
Proof.
  intros Hw Hs. induction Hs as [|x L Hs IH Hall]; cbn; [constructor|].
  apply Forall_cons in Hw as [Hx Hw].
  constructor; [now apply IH|].
  apply List.Forall_map. rewrite List.Forall_forall in *.
  intros y Hy. specialize (Hall y Hy). specialize (Hw y Hy).
  unfold desc, well_scored in *. now rewrite <- Hx, <- Hw.
Qed.

Lemma rank_sorted l :
  StronglySorted (fun a b => score_of b <= score_of a)
                 (_rank_solutions_by_similarity request l).
Proof.
  apply map_fst_sorted; [apply sorted_well_scored|apply sort_desc_sorted].
Qed.

Lemma map_fst_with_key (q : Q) (L : list (ImplementationSolution * Q)) :
  Forall well_scored L ->
  List.filter (fun s => Qeq_bool (score_of s) q) (List.map fst L)
  = List.map fst (with_key q L).
Proof.
  induction 1 as [|x L Hx _ IH]; [reflexivity|].
  unfold with_key in *. cbn [List.map List.filter]. rewrite IH, <- Hx.
  now destruct (Qeq_bool (snd x) q).
Qed.

Lemma rank_stable (q : Q) l :
  List.filter (fun s => Qeq_bool (score_of s) q) (_rank_solutions_by_similarity request l)
  = List.filter (fun s => Qeq_bool (score_of s) q) l.
Proof.
  unfold _rank_solutions_by_similarity. fold score_of. fold (scored l).
  rewrite map_fst_with_key by apply sorted_well_scored.
  rewrite sort_desc_with_key, <- map_fst_with_key by apply scored_well_scored.
  unfold scored. rewrite List.map_map. cbn [fst]. now rewrite List.map_id.
Qed.
End Ranking.

Lemma words_invoice_form : elements (words "Invoice Form") ≡ₚ ["invoice"; "form"].
Proof. vm_compute. reflexivity. Qed.

Lemma split_drops_empty_runs :
  split (lower "  Invoice	MANAGEMENT  form ") = ["invoice"; "management"; "form"].
Proof. reflexivity. Qed.

(** *** The score in binary64 *)

Lemma description_jaccard_bounds (request : DevelopmentRequest)
    (candidate : ImplementationSolution) :
  0 <= description_jaccard request candidate <= 1.
Proof.
  unfold description_jaccard. destruct (description candidate).
  - apply jaccard_bounds.
  - split; discriminate.
Qed.

(** The score as the roundings of the quotients, products and sum. *)
Lemma score_unfold (request : DevelopmentRequest) (candidate : ImplementationSolution) :
  _calculate_similarity request candidate
  = round64
      (round64
         (round64 (round64 (jaccard (words (req_title request)) (words (title candidate)))
                   * round64 (6 # 10))
          + round64 (round64 (description_jaccard request candidate) * round64 (4 # 10)))
       * success_rate candidate).
Proof.
  unfold _calculate_similarity, text_similarity_float, _text_similarity,
    description_jaccard, title_weight, description_weight.
  now destruct (description candidate).
Qed.

Lemma weights_sum : round64 (6 # 10) + round64 (4 # 10) == 1.
Proof. vm_compute. reflexivity. Qed.

Lemma title_weight_value : round64 (6 # 10) == 5404319552844595 # 9007199254740992.
Proof. vm_compute. reflexivity. Qed.

Lemma description_weight_value : round64 (4 # 10) == 3602879701896397 # 9007199254740992.
Proof. vm_compute. reflexivity. Qed.

Lemma half_ulp_value : pow2 (-54) == 1 # 18014398509481984.
Proof. reflexivity. Qed.

(** The rounded weighted sum of two rounded similarities: it lies in
    [0, 1] and within 7 * 2^-54 of the exact weighted sum. *)
Lemma weighted_sum_rounded (t d : Q) :
  0 <= t <= 1 -> 0 <= d <= 1 ->
  let s := round64 (round64 (round64 t * round64 (6 # 10))
                    + round64 (round64 d * round64 (4 # 10))) in
  0 <= s <= 1
  /\ - (7 # 18014398509481984) <= s - ((6 # 10) * t + (4 # 10) * d)
     <= 7 # 18014398509481984.
Proof.
  intros Ht Hd.
  pose proof (round64_unit t Ht) as Ht'.
  pose proof (round64_unit d Hd) as Hd'.
  pose proof (round64_error t Ht) as Het.
  pose proof (round64_error d Hd) as Hed.
  set (t' := round64 t) in *. set (d' := round64 d) in *.
  pose proof title_weight_value as Hw6. pose proof description_weight_value as Hw4.
  set (w6 := round64 (6 # 10)) in *. set (w4 := round64 (4 # 10)) in *.
  assert (Hp1 : 0 <= t' * w6 <= 1) by (rewrite Hw6; lra).
  assert (Hp2 : 0 <= d' * w4 <= 1) by (rewrite Hw4; lra).
  pose proof (round64_unit _ Hp1) as Hp1'.
  pose proof (round64_unit _ Hp2) as Hp2'.
  pose proof (round64_error _ Hp1) as Hep1.
  pose proof (round64_error _ Hp2) as Hep2.
  assert (Hp1w : round64 (t' * w6) <= w6).
  { assert (Hf : round64 w6 == w6) by (vm_compute; reflexivity).
    rewrite <- Hf at 2. apply round64_le. rewrite Hw6. lra. }
  assert (Hp2w : round64 (d' * w4) <= w4).
  { assert (Hf : round64 w4 == w4) by (vm_compute; reflexivity).
    rewrite <- Hf at 2. apply round64_le. rewrite Hw4. lra. }
  set (p1 := round64 (t' * w6)) in *. set (p2 := round64 (d' * w4)) in *.
  assert (Hsum : 0 <= p1 + p2 <= 1) by (rewrite Hw6 in Hp1w; rewrite Hw4 in Hp2w; lra).
  pose proof (round64_unit _ Hsum) as Hs.
  pose proof (round64_error _ Hsum) as Hes.
  cbv zeta. split; [exact Hs |].
  rewrite half_ulp_value in Het, Hed, Hep1, Hep2, Hes.
  rewrite Hw6 in Hep1. rewrite Hw4 in Hep2.
  lra.
Qed.

(** The score lies within 2^-51 of the exact value of the formula. *)
Lemma score_error (request : DevelopmentRequest) (candidate : ImplementationSolution) :
  0 <= success_rate candidate <= 1 ->
  - (1 # 2251799813685248)
  <= _calculate_similarity request candidate - exact_score request candidate
  <= 1 # 2251799813685248.
Proof.
  intros Hrate. rewrite score_unfold. unfold exact_score.
  pose proof (jaccard_bounds (words (req_title request)) (words (title candidate))) as Ht.
  pose proof (description_jaccard_bounds request candidate) as Hd.
  destruct (weighted_sum_rounded _ _ Ht Hd) as [Hs Hes]. cbv zeta in Hs, Hes.
  set (t := jaccard _ _) in *. set (d := description_jaccard _ _) in *.
  set (s := round64 (_ + _)) in *. set (r := success_rate candidate) in *.
  set (E := (6 # 10) * t + (4 # 10) * d) in *.
  assert (Hprod : 0 <= s * r <= 1).
  { split; [apply Qmult_le_0_compat; lra |].
    apply Qle_trans with (1 * r); [apply Qmult_le_compat_r; lra | lra]. }
  pose proof (round64_error _ Hprod) as Hep. rewrite half_ulp_value in Hep.
  assert (Hup : (s - E) * r <= (7 # 18014398509481984) * r)
    by (apply Qmult_le_compat_r; lra).
  assert (Hlo : - (7 # 18014398509481984) * r <= (s - E) * r)
    by (apply Qmult_le_compat_r; lra).
  assert (Hdiff : round64 (s * r) - E * r == (round64 (s * r) - s * r) + (s - E) * r) by ring.
  rewrite Hdiff. lra.
Qed.

(** For a float success rate the score lies between 0 and that rate. *)
Lemma score_bounds (request : DevelopmentRequest) (candidate : ImplementationSolution) :
  0 <= success_rate candidate -> is_float (success_rate candidate) ->
  0 <= _calculate_similarity request candidate <= success_rate candidate.
Proof.
  intros Hrate Hfloat. rewrite score_unfold.
  pose proof (jaccard_bounds (words (req_title request)) (words (title candidate))) as Ht.
  pose proof (description_jaccard_bounds request candidate) as Hd.
  destruct (weighted_sum_rounded _ _ Ht Hd) as [Hs _]. cbv zeta in Hs.
  set (s := round64 (_ + _)) in *. set (r := success_rate candidate) in *.
  split.
  - apply round64_nonneg. apply Qmult_le_0_compat; lra.
  - unfold is_float in Hfloat. rewrite <- Hfloat at 2. apply round64_le.
    apply Qle_trans with (1 * r); [apply Qmult_le_compat_r; lra | lra].
Qed.

(** Without a shared token the score is 0. *)
Lemma score_disjoint (request : DevelopmentRequest) (candidate : ImplementationSolution) :
  words (req_title request) ## words (title candidate) ->
  (forall d, description candidate = Some d ->
             words (req_description request) ## words d) ->
  _calculate_similarity request candidate == 0.
Proof.
  intros Htitle Hdescr. rewrite score_unfold.
  assert (Hd : description_jaccard request candidate == 0).
  { unfold description_jaccard. destruct (description candidate) as [d |]; [| reflexivity].
    apply jaccard_disjoint. now apply Hdescr. }
  rewrite (round64_zero _ (jaccard_disjoint _ _ Htitle)), (round64_zero _ Hd).
  assert (Hsum : round64 (round64 (0 * round64 (6 # 10)) + round64 (0 * round64 (4 # 10)))
                 = 0) by (vm_compute; reflexivity).
  rewrite Hsum.
  rewrite (round64_zero (0 * success_rate candidate)) by ring. reflexivity.
Qed.



End SimilarityFacts.

(** ** Storing a solution with its decision *)

Module StoreFacts.
Import Models KnowledgeManager Notions.
Local Open Scope Q_scope.

Section Store.
Variables (ports : StorePorts) (now : Z) (solution : ImplementationSolution)
          (decision : RewardDecision) (st : KnowledgeStore.KnowledgeStore).

Local Abbreviation stored_solution := (Notions.stored_solution ports now solution decision st).
Local Abbreviation stored_store := (Notions.stored_store ports now solution decision st).

Lemma stored_success_rate :
  success_rate stored_solution
  = match decision with
    | ACCEPTED => Qmin 1 (success_rate solution + (1 # 10))
    | REJECTED => Qmax 0 (success_rate solution - (1 # 10))
    | PENDING => success_rate solution
    end.
Proof.
  unfold stored_solution, store_solution. destruct decision; cbn; try reflexivity.
  unfold _handle_rejected_solution. cbn. now destruct (validation_result solution).
Qed.

Lemma stored_transactions :
  KnowledgeStore.reward_transactions stored_store
  = KnowledgeStore.reward_transactions st
    ++ [ {| tx_solution_id := solution_id solution;
            evaluation_id := "";
            reward_points := reward_points_of decision;
            reward_type := RewardDecision_value decision;
            reward_reason := "方案" ++ RewardDecision_value decision;
            tx_status := "processed";
            processed_at := Some now |} ].
Proof.
  unfold stored_store, store_solution.
  destruct decision; cbn -[String.append].
  - unfold _handle_accepted_solution, create_knowledge_entry,
      KnowledgeStore.store_solution, KnowledgeStore.store_knowledge_entry.
    cbn -[String.append].
    repeat match goal with
           | |- context [match ?x with _ => _ end] => destruct x; cbn -[String.append]
           end; reflexivity.
  - unfold _handle_rejected_solution, KnowledgeStore.store_solution.
    cbn -[String.append].
    repeat match goal with
           | |- context [match ?x with _ => _ end] => destruct x; cbn -[String.append]
           end; reflexivity.
  - unfold KnowledgeStore.store_solution. cbn -[String.append].
    repeat match goal with
           | |- context [match ?x with _ => _ end] => destruct x; cbn -[String.append]
           end; reflexivity.
Qed.
End Store.



(** A knowledge entry is derived from accepted solutions only. *)
Lemma knowledge_entry_only_when_accepted (ports : StorePorts) (now : Z)
    (solution : ImplementationSolution) (decision : RewardDecision)
    (st : KnowledgeStore.KnowledgeStore) :
  decision <> ACCEPTED ->
  KnowledgeStore.knowledge_entries (stored_store ports now solution decision st)
  = KnowledgeStore.knowledge_entries st.
Proof.
  intros Hd. unfold stored_store, store_solution.
  destruct decision; [congruence| |];
    unfold _handle_rejected_solution, _handle_pending_solution,
      KnowledgeStore.store_solution; cbn;
    repeat match goal with
           | |- context [match ?x with _ => _ end] => destruct x; cbn
           end; reflexivity.
Qed.
End StoreFacts.

(** ** The orchestrator: the review policy *)

Module ReviewFacts.
Import Models Workflow.
Local Open Scope Q_scope.

Lemma review_solution_decision (state : LowCodeWorkflowState)
    (solution : ImplementationSolution) (result : ValidationResult) :
  current_solution state = Some solution ->
  validation_result state = Some result ->
  reward_decision (_review_solution state)
  = review_decision result (set_current_stage REVIEW state).
Proof. intros Hs Hr. unfold _review_solution. cbn. now rewrite Hs, Hr. Qed.

(** C1, amended.  With a solution and a validation result present the
    review decision is: accepted for a valid result with score at or
    above the auto-accept threshold, whatever [human_in_loop]; for a
    valid result with 0.70 <= score < threshold, pending with
    [human_in_loop] and accepted without; for an invalid result, or a
    score below both 0.70 and the threshold, pending while
    [iteration_count < max_iterations] and rejected otherwise.  The
    step records no error. *)
Theorem review_policy (state : LowCodeWorkflowState)
    (solution : ImplementationSolution) (result : ValidationResult) :
  current_solution state = Some solution ->
  validation_result state = Some result ->
  let decision := reward_decision (_review_solution state) in
  let threshold := auto_accept_threshold state in
  (is_valid result = true -> threshold <= score result -> decision = ACCEPTED)
  /\ (is_valid result = true -> 7 # 10 <= score result -> score result < threshold ->
      decision = if human_in_loop state then PENDING else ACCEPTED)
  /\ (is_valid result = false
      \/ (score result < 7 # 10 /\ score result < threshold) ->
      ((iteration_count state < max_iterations state)%Z -> decision = PENDING)
      /\ ((max_iterations state <= iteration_count state)%Z -> decision = REJECTED))
  /\ errors (_review_solution state) = errors state.
Proof.
  intros Hs Hr decision threshold. unfold decision.
  rewrite (review_solution_decision state solution result Hs Hr).
  unfold review_decision. cbn [auto_accept_threshold set_current_stage human_in_loop
                                iteration_count max_iterations].
  fold threshold.
  split; [|split; [|split]].
  - intros -> Hge. apply Qle_bool_iff in Hge. now rewrite Hge.
  - intros -> Hmid Hlt.
    destruct (Qle_bool threshold (score result)) eqn:E.
    + apply Qle_bool_iff in E. exfalso. exact (Qlt_not_le _ _ Hlt E).
    + apply Qle_bool_iff in Hmid. cbn. now rewrite Hmid.
  - intros Hlow.
    assert (Hbranch : (is_valid result && Qle_bool threshold (score result) = false)
                      /\ (is_valid result && Qle_bool (7 # 10) (score result) = false)).
    { destruct Hlow as [-> | [H7 Ht]]; [now split|].
      assert (Qle_bool threshold (score result) = false).
      { destruct (Qle_bool threshold (score result)) eqn:E; [|reflexivity].
        apply Qle_bool_iff in E. exfalso. exact (Qlt_not_le _ _ Ht E). }
      assert (Qle_bool (7 # 10) (score result) = false).
      { destruct (Qle_bool (7 # 10) (score result)) eqn:E; [|reflexivity].
        apply Qle_bool_iff in E. exfalso. exact (Qlt_not_le _ _ H7 E). }
      split; apply andb_false_iff; now right. }
    destruct Hbranch as [-> ->].
    split; intros Hit.
    + apply Z.ltb_lt in Hit. now rewrite Hit.
    + apply Z.ltb_ge in Hit. now rewrite Hit.
  - unfold _review_solution. cbn. now rewrite Hs, Hr.
Qed.

(** A valid result with score 0.92 under the default threshold. *)
Lemma review_policy_witness :
  current_solution (Scenarios.review_state 1 3 (9 # 10)
                      (Scenarios.validation true (92 # 100)) true)
  = Some Scenarios.working_solution
  /\ reward_decision
       (_review_solution (Scenarios.review_state 1 3 (9 # 10)
                            (Scenarios.validation true (92 # 100)) true))
     = ACCEPTED.
Proof.
  split; [reflexivity|].
  apply (review_policy (Scenarios.review_state 1 3 (9 # 10)
                          (Scenarios.validation true (92 # 100)) true)
           Scenarios.working_solution (Scenarios.validation true (92 # 100))
           eq_refl eq_refl).
  - reflexivity.
  - discriminate.
Defined.

(** C1 as stated fails for a threshold below 0.70: with threshold 0.5 a
    valid result with score 0.6 is below 0.70 while iterations remain,
    and the decision is accepted, not pending. *)
Lemma review_policy_counterexample :
  let state := Scenarios.review_state 1 3 (1 # 2) (Scenarios.validation true (6 # 10)) true in
  current_solution state = Some Scenarios.working_solution
  /\ validation_result state = Some (Scenarios.validation true (6 # 10))
  /\ score (Scenarios.validation true (6 # 10)) < 7 # 10
  /\ (iteration_count state < max_iterations state)%Z
  /\ reward_decision (_review_solution state) = ACCEPTED.
Proof. cbv zeta. repeat split. Qed.
End ReviewFacts.

(** ** The orchestrator: the edges out of review *)

Module RoutingFacts.
Import Models Workflow.
Local Open Scope Q_scope.

(** Whatever made the decision pending, the edge out of review leads to
    [finalize], and [finalize] leads to [END]: no development round and
    no knowledge update follow. *)
Lemma pending_goes_to_finalize (state : LowCodeWorkflowState) :
  reward_decision state = PENDING ->
  next_node review_solution state = finalize
  /\ next_node finalize (_finalize state) = END.
Proof. intros H. cbn. unfold _after_review. now rewrite H. Qed.

(** A rejected decision leads back to [develop_solution], whatever the
    iteration count. *)
Lemma rejected_goes_to_develop (state : LowCodeWorkflowState) :
  reward_decision state = REJECTED ->
  next_node review_solution state = develop_solution.
Proof. intros H. cbn. unfold _after_review. now rewrite H. Qed.

End RoutingFacts.

(** ** The orchestrator: termination *)

Module TerminationFacts.
Import Models Workflow Notions.
Local Open Scope Z_scope.

Section Runs.
Variable agents : Agents.
Implicit Types (state : LowCodeWorkflowState) (c : Node * LowCodeWorkflowState).

Local Abbreviation ends_within := (Notions.ends_within agents).

Lemma run_at_END (k : nat) state : run agents k (END, state) = (END, state).
Proof. now destruct k. Qed.

Lemma ends_within_step (k : nat) c :
  ends_within k (step agents c) -> ends_within (S k) c.
Proof.
  unfold ends_within. destruct c as [n state]. cbn [run fst].
  destruct (Node_eqb n END) eqn:E; [|trivial].
  intros _. destruct n; cbn in *; congruence.
Qed.

Lemma ends_within_S (k : nat) c : ends_within k c -> ends_within (S k) c.
Proof.
  unfold ends_within. revert c. induction k as [|k IH]; intros [n state] H.
  - cbn in H. subst n. reflexivity.
  - cbn [run] in *. destruct (Node_eqb (fst (n, state)) END); [exact H|].
    now apply IH.
Qed.

Lemma finalize_ends state : ends_within 1 (finalize, state).
Proof. reflexivity. Qed.

Lemma handle_error_ends state : ends_within 2 (handle_error, state).
Proof. reflexivity. Qed.

Lemma update_knowledge_ends state : ends_within 2 (update_knowledge, state).
Proof. reflexivity. Qed.

(** The review step never rejects while iterations remain. *)
Lemma review_keeps_unrejected state :
  iteration_count state < max_iterations state ->
  reward_decision state <> REJECTED ->
  reward_decision (_review_solution state) <> REJECTED.
Proof.
  intros Hit Hd. unfold _review_solution. cbn.
  destruct (current_solution state), (validation_result state) as [result|];
    cbn; try exact Hd.
  unfold review_decision. cbn. apply Z.ltb_lt in Hit. rewrite Hit.
  destruct (is_valid result && Qle_bool _ _); [discriminate|].
  destruct (is_valid result && Qle_bool _ _); [|discriminate].
  destruct (human_in_loop state); discriminate.
Qed.

Lemma review_ends state :
  iteration_count state < max_iterations state ->
  reward_decision state <> REJECTED ->
  ends_within 3 (review_solution, state).
Proof.
  intros Hit Hd. apply ends_within_step. unfold step. cbn [fst snd node_function next_node].
  pose proof (review_keeps_unrejected state Hit Hd) as Hr.
  unfold _after_review.
  destruct (reward_decision (_review_solution state)); cbn [after_review_edges].
  - apply update_knowledge_ends.
  - congruence.
  - apply ends_within_S, finalize_ends.
Qed.

Lemma validate_keeps state :
  iteration_count (_validate_solution agents state) = iteration_count state
  /\ max_iterations (_validate_solution agents state) = max_iterations state
  /\ reward_decision (_validate_solution agents state) = reward_decision state.
Proof.
  unfold _validate_solution. cbn.
  destruct (current_solution state) as [solution|]; [|now cbn].
  now destruct (validate agents (iteration_count state) solution).
Qed.

Lemma validate_ends state :
  iteration_count state < max_iterations state ->
  reward_decision state <> REJECTED ->
  ends_within 4 (validate_solution, state).
Proof.
  intros Hit Hd. apply ends_within_step. unfold step. cbn [fst snd node_function next_node].
  destruct (validate_keeps state) as (Hi & Hm & Hr).
  unfold _after_validation.
  destruct (errors (_validate_solution agents state));
    [destruct (validation_result (_validate_solution agents state))|];
    cbn [after_validation_edges].
  - apply review_ends; congruence.
  - apply ends_within_S, handle_error_ends.
  - apply ends_within_S, handle_error_ends.
Qed.

(** A development round is never followed by the [retry] edge: without
    operations the round has recorded an error. *)
Lemma develop_never_retries state :
  _after_development (_develop_solution agents state) <> Dev_retry.
Proof.
  unfold _develop_solution. cbn.
  destruct (develop agents (iteration_count state + 1) (request state)) as [solution|e].
  - destruct (operations solution) eqn:Hops; unfold _after_development; cbn.
    + destruct (errors state); cbn; discriminate.
    + rewrite Hops. destruct (errors state); cbn; discriminate.
  - unfold _after_development. cbn. destruct (errors state); cbn; discriminate.
Qed.

Lemma develop_keeps state :
  iteration_count (_develop_solution agents state) = iteration_count state + 1
  /\ max_iterations (_develop_solution agents state) = max_iterations state
  /\ reward_decision (_develop_solution agents state) = reward_decision state.
Proof.
  unfold _develop_solution. cbn.
  destruct (develop agents (iteration_count state + 1) (request state)) as [solution|e];
    [destruct (operations solution)|]; now cbn.
Qed.

Lemma develop_ends state :
  iteration_count state + 1 < max_iterations state ->
  reward_decision state <> REJECTED ->
  ends_within 5 (develop_solution, state).
Proof.
  intros Hit Hd. apply ends_within_step. unfold step. cbn [fst snd node_function next_node].
  destruct (develop_keeps state) as (Hi & Hm & Hr).
  pose proof (develop_never_retries state) as Hn.
  destruct (_after_development (_develop_solution agents state));
    cbn [after_development_edges].
  - apply validate_ends; [lia|congruence].
  - do 2 apply ends_within_S. apply handle_error_ends.
  - congruence.
Qed.

Lemma search_keeps state :
  iteration_count (_search_knowledge agents state) = iteration_count state
  /\ max_iterations (_search_knowledge agents state) = max_iterations state
  /\ reward_decision (_search_knowledge agents state) = reward_decision state.
Proof.
  unfold _search_knowledge. cbn.
  destruct (search_similar_solutions agents (request state)) as [[|s l]|e]; now cbn.
Qed.

Lemma initialize_keeps state :
  iteration_count (_initialize agents state) = iteration_count state
  /\ max_iterations (_initialize agents state) = max_iterations state
  /\ reward_decision (_initialize agents state) = reward_decision state.
Proof. unfold _initialize. cbn. destruct (request state); now cbn. Qed.

(** With at least two development rounds left in the budget and no
    rejected decision to start with, a run from the entry point
    reaches [END] within seven transitions, whatever the agents do. *)
Lemma run_ends_within_seven state :
  iteration_count state + 1 < max_iterations state ->
  reward_decision state <> REJECTED ->
  ends_within 7 (initialize, state).
Proof.
  intros Hit Hd.
  apply ends_within_step. unfold step. cbn [fst snd node_function next_node].
  destruct (initialize_keeps state) as (Hi & Hm & Hr).
  apply ends_within_step. unfold step. cbn [fst snd node_function next_node].
  destruct (search_keeps (_initialize agents state)) as (Hi' & Hm' & Hr').
  apply develop_ends; [lia|congruence].
Qed.

(** *** The reject edge *)

Lemma review_never_rejects state :
  iteration_count state < max_iterations state ->
  reward_decision state <> REJECTED ->
  next_node review_solution (_review_solution state) <> develop_solution.
Proof.
  intros Hit Hd. pose proof (review_keeps_unrejected state Hit Hd) as Hr.
  cbn [next_node]. unfold _after_review.
  destruct (reward_decision (_review_solution state)); cbn; congruence.
Qed.

Lemma update_knowledge_keeps state :
  iteration_count (_update_knowledge agents state) = iteration_count state
  /\ max_iterations (_update_knowledge agents state) = max_iterations state
  /\ reward_decision (_update_knowledge agents state) = reward_decision state.
Proof.
  unfold _update_knowledge. cbn.
  destruct (current_solution state) as [solution |]; [| now cbn].
  destruct (store_solution agents solution (reward_decision state)) as [[[|] | e] stored];
    now cbn.
Qed.

Lemma finalize_keeps state :
  iteration_count (_finalize state) = iteration_count state
  /\ max_iterations (_finalize state) = max_iterations state
  /\ reward_decision (_finalize state) = reward_decision state.
Proof.
  unfold _finalize. cbn.
  destruct (current_solution state); [destruct (negb _) |]; now cbn.
Qed.

Lemma review_keeps state :
  iteration_count (_review_solution state) = iteration_count state
  /\ max_iterations (_review_solution state) = max_iterations state.
Proof.
  unfold _review_solution. cbn.
  destruct (current_solution state), (validation_result state); now cbn.
Qed.

(** A transition keeps the run within its first round. *)
Lemma first_round_step c :
  fst c <> END -> within_first_round c -> within_first_round (step agents c).
Proof.
  destruct c as [n state]. unfold within_first_round, step.
  cbn [fst snd]. intros Hn (Hmax & Hdec & Hit).
  destruct n; cbn [node_function next_node]; try congruence.
  - destruct (initialize_keeps state) as (Hi & Hm & Hr). repeat split; congruence.
  - destruct (search_keeps state) as (Hi & Hm & Hr). repeat split; congruence.
  - destruct (develop_keeps state) as (Hi & Hm & Hr).
    pose proof (develop_never_retries state) as Hretry.
    split; [congruence |]. split; [congruence |].
    destruct (_after_development (_develop_solution agents state));
      cbn [after_development_edges]; [lia | lia | congruence].
  - destruct (validate_keeps state) as (Hi & Hm & Hr).
    split; [congruence |]. split; [congruence |].
    rewrite Hi, Hit. unfold _after_validation.
    destruct (errors _); [destruct (validation_result _) |]; reflexivity.
  - destruct (review_keeps state) as (Hi & Hm).
    pose proof (review_keeps_unrejected state ltac:(lia) Hdec) as Hr.
    pose proof (review_never_rejects state ltac:(lia) Hdec) as Hnext.
    split; [congruence |]. split; [exact Hr |].
    cbn [next_node] in Hnext.
    destruct (_after_review (_review_solution state)); cbn [after_review_edges] in *;
      [lia | congruence | lia].
  - destruct (update_knowledge_keeps state) as (Hi & Hm & Hr). repeat split; congruence.
  - destruct (finalize_keeps state) as (Hi & Hm & Hr). repeat split; congruence.
  - unfold _handle_error. cbn. repeat split; congruence.
Qed.

Lemma first_round_run (k : nat) c :
  within_first_round c -> within_first_round (run agents k c).
Proof.
  revert c. induction k as [| k IH]; intros c Hc; [exact Hc |].
  cbn [run]. destruct (Node_eqb (fst c) END) eqn:E; [exact Hc |].
  apply IH, first_round_step; [| exact Hc].
  intros Hend. rewrite Hend in E. discriminate.
Qed.
End Runs.

Lemma initial_state_first_round (req : DevelopmentRequest) (hil : bool) :
  within_first_round (initialize, initial_state req hil).
Proof. repeat split. discriminate. Qed.

End TerminationFacts.

(** ** The entry point *)

Module ExecuteFacts.
Import Models Workflow.

(** C7.  For every request and every behaviour of the compiled graph,
    [execute] returns a solution and raises nothing.  When the graph run
    raises, the solution is rejected, has no operations and carries the
    exception text in its description; when the run ends without any
    solution, the solution returned is rejected as well; so it is when
    the run hands back a mapping, whatever the mapping holds. *)
Theorem execute_never_raises
    (graph_ainvoke : LowCodeWorkflowState -> Outcome (Engine.Output LowCodeWorkflowState))
    (fresh_id : string) (now : Z) (req : DevelopmentRequest) (hil : bool) :
  exists solution,
    execute graph_ainvoke fresh_id now req hil = Returned solution
    /\ (forall e, graph_ainvoke (initial_state req hil) = Raised e ->
          Models.reward_decision solution = REJECTED
          /\ description solution = Some ("工作流执行异常: " ++ e)%string
          /\ operations solution = []
          /\ sol_request_id solution = request_id req)
    /\ (forall final,
          graph_ainvoke (initial_state req hil) = Returned (Engine.Object final) ->
          final_solution final = None -> current_solution final = None ->
          Models.reward_decision solution = REJECTED
          /\ description solution = Some "工作流执行失败")
    /\ (forall values,
          graph_ainvoke (initial_state req hil) = Returned (Engine.Mapping values) ->
          Models.reward_decision solution = REJECTED
          /\ description solution = Some "工作流执行失败"
          /\ operations solution = []
          /\ sol_request_id solution = request_id req).
Proof.
  unfold execute, try_except, mbind, Outcome_bind, obind.
  destruct (graph_ainvoke (initial_state req hil)) as [[values | final] | e].
  - eexists. split; [reflexivity |]. split; [discriminate |]. split; [discriminate |].
    intros values' _. now repeat split.
  - destruct (final_solution final) as [s |] eqn:Hf;
      [| destruct (current_solution final) as [s |] eqn:Hc];
      eexists; (split; [reflexivity |]); (split; [discriminate |]);
      (split; [| discriminate]);
      intros final' Heq; inversion Heq; subst; try congruence.
    intros _ _. now split.
  - eexists. split; [reflexivity |]. split; [| split; discriminate].
    intros e' Heq. inversion Heq; subst. now repeat split.
Qed.

(** The solution a finished run hands back as an object of the state
    class: the final solution when the run set one. *)
Lemma execute_returns_run_solution
    (graph_ainvoke : LowCodeWorkflowState -> Outcome (Engine.Output LowCodeWorkflowState))
    (fresh_id : string) (now : Z) (req : DevelopmentRequest) (hil : bool)
    (final : LowCodeWorkflowState) (solution : ImplementationSolution) :
  graph_ainvoke (initial_state req hil) = Returned (Engine.Object final) ->
  final_solution final = Some solution ->
  execute graph_ainvoke fresh_id now req hil = Returned solution.
Proof.
  intros Hrun Hf. unfold execute, try_except, mbind, Outcome_bind, obind.
  now rewrite Hrun, Hf.
Qed.

(** Of a mapping both [hasattr] tests fail: [execute] returns its own
    rejected solution. *)
Lemma execute_of_mapping
    (graph_ainvoke : LowCodeWorkflowState -> Outcome (Engine.Output LowCodeWorkflowState))
    (fresh_id : string) (now : Z) (req : DevelopmentRequest) (hil : bool)
    (values : LowCodeWorkflowState) :
  graph_ainvoke (initial_state req hil) = Returned (Engine.Mapping values) ->
  execute graph_ainvoke fresh_id now req hil
  = Returned (rejected_solution fresh_id now req "失败方案: " "工作流执行失败").
Proof.
  intros Hrun. unfold execute, try_except, mbind, Outcome_bind, obind.
  now rewrite Hrun.
Qed.
End ExecuteFacts.

(** ** Failures of the similarity search *)

Module SearchFacts.
Import Models Workflow.

(** The knowledge manager answers a database failure with the empty
    list, whatever the Completion port did. *)
Lemma manager_search_traps_store_failure (llm : Outcome (list string))
    (req : option DevelopmentRequest) (st : KnowledgeStore.KnowledgeStore) :
  KnowledgeManager.search_similar_solutions llm false req st = [].
Proof. now destruct req. Qed.

(** A search call that raises is recorded in the error list, not in the
    warnings; the run still enters development next, and the edge after
    development then leads to [handle_error]. *)
Lemma search_exception_is_recorded_as_error (agents : Agents)
    (state : LowCodeWorkflowState) (e : string) :
  search_similar_solutions agents (request state) = Raised e ->
  let searched := _search_knowledge agents state in
  errors searched = errors state ++ [("搜索知识失败: " ++ e)%string]
  /\ warnings searched = warnings state
  /\ similar_solutions searched = similar_solutions state
  /\ next_node search_knowledge searched = develop_solution
  /\ next_node develop_solution (_develop_solution agents searched) = handle_error.
Proof.
  intros H searched. unfold searched, _search_knowledge. cbn. rewrite H.
  cbn -[String.append]. repeat split.
  unfold _develop_solution. cbn -[String.append].
  destruct (develop agents (iteration_count state + 1) (request state)) as [solution|e'];
    [destruct (operations solution)|];
    unfold _after_development; cbn -[String.append];
    destruct (errors state); reflexivity.
Qed.

(** C8, amended.  A failure inside the knowledge manager's similarity
    search is trapped there: with the database failing the search returns
    the empty list.  The search step stores the result it is given without
    recording an error, records no warning for an empty result, and hands
    over to development; when no error was recorded before and development
    delivers a solution with operations, the run goes on to validation. *)
Theorem search_failure_is_not_fatal (agents : Agents) (state : LowCodeWorkflowState)
    (llm : Outcome (list string)) (st : KnowledgeStore.KnowledgeStore)
    (result : list ImplementationSolution) :
  KnowledgeManager.search_similar_solutions llm false (request state) st = []
  /\ (search_similar_solutions agents (request state) = Returned result ->
      let searched := _search_knowledge agents state in
      errors searched = errors state
      /\ similar_solutions searched = result
      /\ (result = [] -> warnings searched = warnings state)
      /\ next_node search_knowledge searched = develop_solution
      /\ (errors state = [] ->
          forall solution,
            develop agents (iteration_count state + 1) (request state) = Returned solution ->
            operations solution <> [] ->
            next_node develop_solution (_develop_solution agents searched)
            = validate_solution)).
Proof.
  split; [apply manager_search_traps_store_failure|].
  intros H searched.
  assert (Herr : errors searched = errors state).
  { unfold searched, _search_knowledge. cbn. rewrite H. now destruct result. }
  split; [exact Herr|].
  split; [unfold searched, _search_knowledge; cbn; rewrite H; now destruct result|].
  split; [intros ->; unfold searched, _search_knowledge; cbn; now rewrite H|].
  split; [reflexivity|].
  intros Hnone solution Hdev Hops. rewrite Hnone in Herr.
  assert (Hreq : request searched = request state
                 /\ iteration_count searched = iteration_count state).
  { unfold searched, _search_knowledge. cbn. rewrite H. now destruct result. }
  destruct Hreq as [Hreq Hit].
  unfold _develop_solution. cbn. rewrite Hreq, Hit, Hdev.
  destruct (operations solution) as [|op ops] eqn:E; [congruence|].
  unfold _after_development. cbn. now rewrite Herr, E.
Qed.

(** The knowledge manager's search over an unreachable database and a
    failing Completion port: the empty result is accepted and the run
    heads for validation. *)
Lemma search_failure_is_not_fatal_witness :
  let agents :=
    Scenarios.agents_with_knowledge_manager (Raised "timeout") false Scenarios.aged_store in
  let state := initial_state Scenarios.invoice_request true in
  search_similar_solutions agents (request state) = Returned []
  /\ errors (_search_knowledge agents state) = []
  /\ warnings (_search_knowledge agents state) = []
  /\ next_node develop_solution
       (_develop_solution agents (_search_knowledge agents state)) = validate_solution.
Proof.
  cbv zeta.
  pose proof (search_failure_is_not_fatal
                (Scenarios.agents_with_knowledge_manager (Raised "timeout") false
                   Scenarios.aged_store)
                (initial_state Scenarios.invoice_request true)
                (Raised "timeout") Scenarios.aged_store []) as [_ H].
  destruct (H eq_refl) as (He & _ & Hw & _ & Hnext).
  split; [reflexivity|]. split; [exact He|]. split; [exact (Hw eq_refl)|].
  apply (Hnext eq_refl Scenarios.working_solution eq_refl). discriminate.
Defined.

(** C8 as stated fails when the search call raises: the failure is
    recorded as an error, no warning is recorded, and although
    development succeeds the run is routed to [handle_error]; and a
    failure trapped by the knowledge manager leaves no warning either. *)
Lemma search_failure_counterexample :
  let state := initial_state Scenarios.invoice_request true in
  let searched := _search_knowledge Scenarios.failing_search_agents state in
  let developed := _develop_solution Scenarios.failing_search_agents searched in
  search_similar_solutions Scenarios.failing_search_agents (request state)
  = Raised "store unreachable"
  /\ errors searched = ["搜索知识失败: store unreachable"]
  /\ warnings searched = []
  /\ current_solution developed = Some Scenarios.working_solution
  /\ errors developed = errors searched
  /\ next_node develop_solution developed = handle_error
  /\ fst (run Scenarios.failing_search_agents 3 (initialize, state)) = handle_error
  /\ warnings (_search_knowledge
                 (Scenarios.agents_with_knowledge_manager (Raised "timeout") false
                    Scenarios.aged_store) state) = [].
Proof. cbv zeta. repeat split. Qed.
End SearchFacts.

(** ** Cleaning up old solutions *)

Module CleanupFacts.
Import Models KnowledgeManager.

(** The store class has neither of the two methods the cleanup calls. *)
Lemma store_lacks_cleanup_methods :
  KnowledgeStore.has_method "get_solutions_before_date" = false
  /\ KnowledgeStore.has_method "delete_solution" = false
  /\ KnowledgeStore.has_method "store_solution" = true.
Proof. repeat split. Qed.

(** So the agent's cleanup deletes nothing and reports 0, for every
    store content, clock reading and retention period. *)
Lemma cleanup_agent_deletes_nothing (now retention_days : Z)
    (st : KnowledgeStore.KnowledgeStore) :
  cleanup_old_solutions_agent now retention_days st = (0, st).
Proof. reflexivity. Qed.

(** C9 at the scenario of the claim: the store holds a rejected solution
    created 100 days ago (older than the 90 day cutoff) and an accepted
    one created 200 days ago; [cleanup(90)] reports 0 deletions and the
    rejected solution is still stored. *)
Theorem cleanup_keeps_old_rejected_solution :
  let cutoff := Scenarios.today - timedelta_days 90 in
  let cleaned := cleanup_old_solutions_agent Scenarios.today 90 Scenarios.aged_store in
  created_at Scenarios.old_rejected < cutoff
  /\ reward_decision Scenarios.old_rejected = REJECTED
  /\ fst cleaned = 0
  /\ KnowledgeStore.solutions (snd cleaned)
     = [Scenarios.old_rejected; Scenarios.old_accepted; Scenarios.old_pending]
  /\ KnowledgeStore.has_solution "s-rejected" (snd cleaned) = true.
Proof. cbv zeta. repeat split. Qed.
End CleanupFacts.

(** ** The cleanup loop against a store that offers the two methods *)

Module CleanupPortFacts.
Import Models KnowledgeManager Notions.

Lemma filter_filter {A : Type} (f g : A -> bool) (l : list A) :
  List.filter f (List.filter g l) = List.filter (fun x => g x && f x) l.
Proof.
  induction l as [|x l IH]; [reflexivity|]. cbn.
  destruct (g x); cbn; [destruct (f x)|]; now rewrite IH.
Qed.

Lemma cleanup_loop_with_port (old : list ImplementationSolution) (n : Z)
    (st : KnowledgeStore.KnowledgeStore) :
  let r := cleanup_loop (Some StorePort.delete_solution) old n st in
  fst r = Returned (n + Z.of_nat (length (rejected_ids old)))
  /\ KnowledgeStore.solutions (snd r)
     = List.filter (kept (rejected_ids old)) (KnowledgeStore.solutions st).
Proof.
  revert n st. induction old as [|s old IH]; intros n st; cbn zeta.
  - cbn. split; [f_equal; lia|].
    symmetry. apply forallb_filter_id. now apply forallb_forall.
  - cbn [cleanup_loop]. unfold rejected_ids. cbn [List.filter].
    destruct (RewardDecision_eqb (reward_decision s) REJECTED) eqn:E.
    + cbn [StorePort.delete_solution List.map length].
      destruct (IH (n + 1) {| KnowledgeStore.solutions :=
                   List.filter (fun s0 => negb (String.eqb (solution_id s0) (solution_id s)))
                               (KnowledgeStore.solutions st);
                 KnowledgeStore.knowledge_entries := KnowledgeStore.knowledge_entries st;
                 KnowledgeStore.reward_transactions := KnowledgeStore.reward_transactions st |})
        as [Hn Hs].
      cbn zeta in Hn, Hs. split.
      * rewrite Hn. f_equal. unfold rejected_ids. lia.
      * rewrite Hs. cbn [KnowledgeStore.solutions]. rewrite filter_filter.
        apply List.filter_ext. intros x. unfold kept, rejected_ids. cbn [existsb].
        now rewrite negb_orb.
    + apply IH.
Qed.

Lemma same_id_same_solution (l : list ImplementationSolution)
    (x y : ImplementationSolution) :
  List.NoDup (List.map solution_id l) -> In x l -> In y l ->
  solution_id x = solution_id y -> x = y.
Proof.
  induction l as [|z l IH]; [contradiction|].
  cbn [List.map]. intros Hnd Hx Hy Hid. apply List.NoDup_cons_iff in Hnd as [Hz Hnd].
  destruct Hx as [->|Hx], Hy as [->|Hy].
  - reflexivity.
  - exfalso. apply Hz. rewrite Hid. now apply List.in_map.
  - exfalso. apply Hz. rewrite <- Hid. now apply List.in_map.
  - now apply IH.
Qed.

(** Against a store that offers the two methods, the cleanup removes
    exactly the rejected solutions created before the cutoff, keeps every
    accepted and pending solution, and returns the number removed. *)
Lemma cleanup_with_store_port (now retention_days : Z)
    (st : KnowledgeStore.KnowledgeStore) :
  List.NoDup (List.map solution_id (KnowledgeStore.solutions st)) ->
  let cutoff := now - timedelta_days retention_days in
  let r := cleanup_old_solutions (Some StorePort.get_solutions_before_date)
                                 (Some StorePort.delete_solution)
                                 now retention_days st in
  KnowledgeStore.solutions (snd r)
  = List.filter (fun s => negb (expired cutoff s)) (KnowledgeStore.solutions st)
  /\ fst r = Z.of_nat (length (List.filter (expired cutoff) (KnowledgeStore.solutions st))).
Proof.
  intros Hnd cutoff r. unfold r, cleanup_old_solutions.
  cbn [StorePort.get_solutions_before_date]. fold cutoff.
  set (old := List.filter (fun s => created_at s <? cutoff) (KnowledgeStore.solutions st)).
  destruct (cleanup_loop_with_port old 0 st) as [Hn Hs]. cbn zeta in Hn, Hs.
  destruct (cleanup_loop (Some StorePort.delete_solution) old 0 st) as [[n|e] st'];
    cbn [fst snd] in *; [|discriminate].
  inversion Hn; subst n. clear Hn.
  assert (Hids : rejected_ids old
                 = List.map solution_id
                     (List.filter (expired cutoff) (KnowledgeStore.solutions st))).
  { unfold rejected_ids, old. rewrite filter_filter. f_equal.
    apply List.filter_ext. intros s. unfold expired. apply andb_comm. }
  split.
  - rewrite Hs, Hids. apply List.filter_ext_in. intros x Hx. unfold kept. f_equal.
    destruct (expired cutoff x) eqn:E.
    + apply existsb_exists. exists (solution_id x). split; [|apply String.eqb_refl].
      apply List.in_map, List.filter_In. now split.
    + apply not_true_is_false. intros Hex.
      apply existsb_exists in Hex as (i & Hi & Heq).
      apply String.eqb_eq in Heq. subst i.
      apply List.in_map_iff in Hi as (y & Hid & Hy).
      apply List.filter_In in Hy as [Hy Hexp].
      assert (y = x) by (eapply same_id_same_solution; eauto).
      subst y. congruence.
  - rewrite Hids, length_map. lia.
Qed.

(** With such a store the scenario of the claim comes out as stated: the
    rejected solution of 100 days ago is deleted, the accepted one of 200
    days ago and the pending one are kept. *)
Lemma cleanup_with_store_port_scenario :
  let r := cleanup_old_solutions (Some StorePort.get_solutions_before_date)
                                 (Some StorePort.delete_solution)
                                 Scenarios.today 90 Scenarios.aged_store in
  fst r = 1 /\ KnowledgeStore.solutions (snd r) = [Scenarios.old_accepted; Scenarios.old_pending].
Proof. cbv zeta. split; reflexivity. Qed.
End CleanupPortFacts.


(** ** Runs of the orchestrator graph *)

Module RunFacts.
Import Models Workflow Notions RunNotions.
Local Open Scope Z_scope.

Section Runs.
Variable agents : Agents.
Implicit Types (state : LowCodeWorkflowState) (c : Node * LowCodeWorkflowState).

Lemma run_step (k : nat) c :
  fst c <> END -> run agents (S k) c = run agents k (step agents c).
Proof.
  intros H. cbn [run]. destruct (Node_eqb (fst c) END) eqn:E; [|reflexivity].
  exfalso. apply H. destruct (fst c); cbn in E; congruence.
Qed.

Lemma only_finalize_leads_to_END (n : Node) state :
  n <> END -> next_node n state = END -> n = finalize.
Proof.
  intros Hn. destruct n; cbn; try congruence.
  - destruct (_after_development state); discriminate.
  - destruct (_after_validation state); discriminate.
  - destruct (_after_review state); discriminate.
Qed.

(** A run that reaches [END] ends with the state [_finalize] returned;
    a property that every other node keeps holds of the state finalized. *)
Lemma END_state_is_finalized (P : LowCodeWorkflowState -> Prop) :
  (forall n state, n <> finalize -> P state -> P (node_function agents n state)) ->
  forall (k : nat) c,
    fst c <> END -> P (snd c) -> fst (run agents k c) = END ->
    exists state, P state /\ snd (run agents k c) = _finalize state.
Proof.
  intros Hkeep. induction k as [|k IH]; intros [n state] Hn HP Hend.
  - cbn in *. congruence.
  - rewrite run_step in * by exact Hn. cbn [fst snd] in *.
    unfold step in *. cbn [fst snd] in *.
    destruct (Node_eqb (next_node n (node_function agents n state)) END) eqn:E.
    + assert (Hnext : next_node n (node_function agents n state) = END).
      { destruct (next_node n (node_function agents n state)); cbn in E; congruence. }
      pose proof (only_finalize_leads_to_END n _ Hn Hnext) as ->.
      rewrite Hnext, TerminationFacts.run_at_END. cbn. eauto.
    + apply IH; cbn [fst snd].
      * intros Heq. rewrite Heq in E. discriminate.
      * apply Hkeep; [|exact HP]. intros ->. cbn in E. discriminate.
      * exact Hend.
Qed.
End Runs.

(** X1.  Whatever the agents do, the graph run [execute] starts reaches
    [END] within seven transitions, and it ends completed: the stage is
    [COMPLETION] and [workflow_completed] is set. *)
Theorem execute_run_completes (agents : Agents) (req : DevelopmentRequest) (hil : bool) :
  let final := run agents 7 (initialize, initial_state req hil) in
  fst final = END
  /\ current_stage (snd final) = COMPLETION
  /\ workflow_completed (snd final) = true.
Proof.
  cbv zeta.
  assert (Hend : fst (run agents 7 (initialize, initial_state req hil)) = END).
  { apply TerminationFacts.run_ends_within_seven; cbn; [lia|discriminate]. }
  split; [exact Hend|].
  destruct (END_state_is_finalized agents (fun _ => True) (fun _ _ _ _ => I) 7
              (initialize, initial_state req hil) ltac:(discriminate) I Hend)
    as (state & _ & ->).
  split; unfold _finalize; cbn;
    destruct (current_solution state); cbn;
    try destruct (negb _); reflexivity.
Qed.

(** X2.  The two [retry] edges of the graph are never taken: a development
    round is followed by validation or error handling, never directly by
    another round, and validation is never followed by development. *)
Theorem retry_edges_are_never_taken (agents : Agents) (state : LowCodeWorkflowState) :
  let developed := _develop_solution agents state in
  let validated := _validate_solution agents state in
  (next_node develop_solution developed = validate_solution
   \/ next_node develop_solution developed = handle_error)
  /\ (next_node validate_solution validated = review_solution
      \/ next_node validate_solution validated = handle_error).
Proof.
  cbv zeta. split.
  - pose proof (TerminationFacts.develop_never_retries agents state) as H.
    cbn [next_node].
    destruct (_after_development (_develop_solution agents state));
      cbn; [now left|now right|congruence].
  - cbn [next_node]. unfold _after_validation.
    destruct (errors (_validate_solution agents state)); cbn; [|now right].
    destruct (validation_result (_validate_solution agents state)); cbn;
      [now left|now right].
Qed.

Section Invariants.
Variable agents : Agents.
Implicit Types (state : LowCodeWorkflowState) (c : Node * LowCodeWorkflowState).

Lemma stamped_refl (r : option DevelopmentRequest) : stamped r r.
Proof. destruct r as [[]|]; cbn; [|exact I]. now eexists. Qed.

Lemma stamped_trans (r1 r2 r3 : option DevelopmentRequest) :
  stamped r1 r2 -> stamped r2 r3 -> stamped r1 r3.
Proof.
  destruct r1, r2, r3; cbn; try tauto.
  intros [t ->] [t' ->]. now exists t'.
Qed.

Lemma node_keeps_request (n : Node) state :
  n <> initialize -> request (node_function agents n state) = request state.
Proof. intros Hn. destruct n; try congruence; node_cases; reflexivity. Qed.

Lemma initialize_stamps_request state :
  request (_initialize agents state)
  = option_map (set_req_created_at (clock agents (iteration_count state))) (request state).
Proof.
  unfold _initialize. cbn [request set_current_stage].
  destruct (request state) eqn:E; cbn; rewrite ?E; reflexivity.
Qed.

Lemma node_keeps_configuration (n : Node) state :
  same_configuration state (node_function agents n state).
Proof.
  split.
  - destruct (Node_eqb n initialize) eqn:E.
    + assert (n = initialize) as -> by (destruct n; cbn in E; congruence).
      cbn [node_function]. rewrite initialize_stamps_request.
      destruct (request state); cbn; [now eexists | exact I].
    + rewrite node_keeps_request by (intros ->; discriminate). apply stamped_refl.
  - destruct n; node_cases; repeat split.
Qed.

Lemma next_node_not_initialize (n : Node) state : next_node n state <> initialize.
Proof.
  destruct n; cbn; try discriminate.
  - destruct (_after_development state); discriminate.
  - destruct (_after_validation state); discriminate.
  - destruct (_after_review state); discriminate.
Qed.

Lemma node_iteration_count (n : Node) state :
  iteration_count (node_function agents n state)
  = if Node_eqb n develop_solution then iteration_count state + 1
    else iteration_count state.
Proof. destruct n; node_cases; reflexivity. Qed.

Lemma node_grows_errors (n : Node) state :
  errors state `prefix_of` errors (node_function agents n state)
  /\ warnings state `prefix_of` warnings (node_function agents n state).
Proof.
  destruct n; node_cases; split;
    first [reflexivity | apply prefix_app_r; reflexivity].
Qed.
End Invariants.

(** X3.  Nothing ever removes a recorded error or warning: after any
    number of transitions from any node, the errors and the warnings the
    run started with are a prefix of the recorded ones. *)
Theorem run_only_appends_errors_and_warnings (agents : Agents) (k : nat)
    (c : Node * LowCodeWorkflowState) :
  errors (snd c) `prefix_of` errors (snd (run agents k c))
  /\ warnings (snd c) `prefix_of` warnings (snd (run agents k c)).
Proof.
  revert c. induction k as [|k IH]; intros [n state]; [now split|].
  cbn [run fst]. destruct (Node_eqb n END); [now split|].
  destruct (IH (step agents (n, state))) as [He Hw].
  destruct (node_grows_errors agents n state) as [He' Hw'].
  unfold step in *. cbn [fst snd] in *.
  split; etrans; eassumption.
Qed.

(** X4.  No transition changes the configuration of a run (iteration
    budget, human-in-loop flag, auto-accept threshold, user feedback).
    The request is kept up to its creation time, which [_initialize]
    overwrites with the time of the call; from a node other than
    [initialize] the request is not changed at all.  The iteration count
    never decreases: [k] transitions raise it by at most [k]. *)
Theorem run_keeps_configuration (agents : Agents) (k : nat)
    (c : Node * LowCodeWorkflowState) :
  same_configuration (snd c) (snd (run agents k c))
  /\ (fst c <> initialize -> request (snd (run agents k c)) = request (snd c))
  /\ (forall req, request (snd c) = Some req ->
        request (snd (step agents (initialize, snd c)))
        = Some (set_req_created_at (clock agents (iteration_count (snd c))) req))
  /\ iteration_count (snd c) <= iteration_count (snd (run agents k c))
     <= iteration_count (snd c) + Z.of_nat k.
Proof.
  split; [| split; [| split]].
  - revert c. induction k as [|k IH]; intros [n state].
    + cbn. split; [apply stamped_refl | repeat split].
    + cbn [run fst]. destruct (Node_eqb n END);
        [cbn; split; [apply stamped_refl | repeat split] |].
      destruct (IH (step agents (n, state))) as (G1 & G2 & G3 & G4 & G5).
      unfold step in *. cbn [fst snd] in *.
      destruct (node_keeps_configuration agents n state) as (H1 & H2 & H3 & H4 & H5).
      split; [exact (stamped_trans _ _ _ H1 G1) |]. repeat split; congruence.
  - revert c. induction k as [|k IH]; intros [n state] Hn; [reflexivity |].
    cbn [run fst snd] in *. destruct (Node_eqb n END); [reflexivity |].
    rewrite IH by (unfold step; cbn [fst snd]; apply next_node_not_initialize).
    unfold step. cbn [fst snd]. now apply node_keeps_request.
  - intros req Hreq. unfold step. cbn [fst snd node_function].
    now rewrite initialize_stamps_request, Hreq.
  - revert c. induction k as [|k IH]; intros [n state].
    + cbn. lia.
    + cbn [run fst]. destruct (Node_eqb n END); [cbn; lia |].
      specialize (IH (step agents (n, state))).
      unfold step in *. cbn [fst snd] in *.
      pose proof (node_iteration_count agents n state) as Hn.
      destruct (Node_eqb n develop_solution); lia.
Qed.

Lemma run_beyond_END (agents : Agents) (k m : nat) (c : Node * LowCodeWorkflowState) :
  fst (run agents k c) = END -> run agents (k + m) c = run agents k c.
Proof.
  revert c. induction k as [|k IH]; intros [n state] H.
  - cbn in H. subst n. cbn. apply TerminationFacts.run_at_END.
  - cbn [Nat.add run fst] in *. destruct (Node_eqb n END); [reflexivity|].
    now apply IH.
Qed.

(** X5.  When development delivers a solution with operations and the
    validator then raises, the run goes through [handle_error] and still
    ends as a success: the unvalidated solution becomes the final
    solution of the run and the failure stays in the error list.  The
    engine hands the final values to [execute] as a mapping, on which
    both [hasattr] tests fail: [execute] returns its own rejected
    solution, not the final solution of the run. *)
Theorem validation_failure_ends_as_success (agents : Agents)
    (req : DevelopmentRequest) (hil : bool) (fresh_id : string) (now : Z)
    (similar : list ImplementationSolution) (solution : ImplementationSolution)
    (e : string) :
  let request := Some (set_req_created_at (clock agents 0) req) in
  search_similar_solutions agents request = Returned similar ->
  develop agents 1 request = Returned solution ->
  operations solution <> [] ->
  validate agents 1 solution = Raised e ->
  let final := run agents 6 (initialize, initial_state req hil) in
  fst final = END
  /\ success (snd final) = true
  /\ final_solution (snd final) = Some solution
  /\ validation_result (snd final) = None
  /\ errors (snd final) = [("验证方案失败: " ++ e)%string]
  /\ ainvoke agents 25 (initial_state req hil) = Returned (Engine.Mapping (snd final))
  /\ execute (ainvoke agents 25) fresh_id now req hil
     = Returned (rejected_solution fresh_id now req "失败方案: " "工作流执行失败").
Proof.
  intros request Hsearch Hdev Hops Hval. subst request.
  set (s1 := _initialize agents (initial_state req hil)).
  assert (Hreq : request s1 = Some (set_req_created_at (clock agents 0) req)) by reflexivity.
  assert (Hrun : run agents 6 (initialize, initial_state req hil)
                 = (END,
                    _finalize
                      (_handle_error
                         (_validate_solution agents
                            (_develop_solution agents
                               (_search_knowledge agents s1)))))).
  { do 2 (rewrite run_step by discriminate; unfold step at 1;
          cbn [fst snd node_function next_node]).
    rewrite run_step by discriminate. unfold step at 1.
    cbn [fst snd node_function next_node]. fold s1.
    assert (Hd : _after_development
                   (_develop_solution agents (_search_knowledge agents s1))
                 = Dev_validate).
    { unfold _develop_solution, _search_knowledge. cbn [request set_current_stage].
      rewrite Hreq, Hsearch.
      destruct similar; cbn -[set_req_created_at]; rewrite ?Z.add_0_l, Hdev;
        destruct (operations solution) eqn:E; try congruence;
        unfold _after_development; cbn -[set_req_created_at]; now rewrite E. }
    rewrite Hd. cbn [after_development_edges].
    rewrite run_step by discriminate. unfold step at 1.
    cbn [fst snd node_function next_node].
    assert (Hv : _after_validation
                   (_validate_solution agents
                      (_develop_solution agents (_search_knowledge agents s1)))
                 = Val_error).
    { unfold _validate_solution, _develop_solution, _search_knowledge.
      cbn [request set_current_stage]. rewrite Hreq, Hsearch.
      destruct similar; cbn -[set_req_created_at]; rewrite ?Z.add_0_l, Hdev;
        destruct (operations solution) eqn:E; try congruence;
        cbn -[set_req_created_at]; now rewrite Hval. }
    rewrite Hv. cbn [after_validation_edges].
    do 2 (rewrite run_step by discriminate; unfold step at 1;
          cbn [fst snd node_function next_node]).
    reflexivity. }
  cbv zeta. rewrite Hrun. cbn [fst snd].
  assert (Hfinal :
    success (_finalize (_handle_error (_validate_solution agents
               (_develop_solution agents (_search_knowledge agents s1))))) = true
    /\ final_solution (_finalize (_handle_error (_validate_solution agents
               (_develop_solution agents (_search_knowledge agents s1))))) = Some solution
    /\ validation_result (_finalize (_handle_error (_validate_solution agents
               (_develop_solution agents (_search_knowledge agents s1))))) = None
    /\ errors (_finalize (_handle_error (_validate_solution agents
               (_develop_solution agents (_search_knowledge agents s1)))))
       = [("验证方案失败: " ++ e)%string]).
  { unfold _finalize, _handle_error, _validate_solution, _develop_solution,
      _search_knowledge. cbn [request set_current_stage]. rewrite Hreq, Hsearch.
    destruct similar; cbn -[String.append set_req_created_at];
      rewrite ?Z.add_0_l, Hdev;
      destruct (operations solution) eqn:E; try congruence;
      cbn -[String.append set_req_created_at]; rewrite Hval;
      cbn -[String.append set_req_created_at]; repeat split. }
  destruct Hfinal as (Hs & Hf & Hv & He).
  assert (Hinvoke : ainvoke agents 25 (initial_state req hil)
                    = Returned (Engine.Mapping
                        (_finalize (_handle_error (_validate_solution agents
                           (_develop_solution agents (_search_knowledge agents s1))))))).
  { unfold ainvoke. cbv zeta.
    rewrite (run_beyond_END agents 6 19) by (rewrite Hrun; reflexivity).
    now rewrite Hrun. }
  repeat split; try assumption.
  now apply (ExecuteFacts.execute_of_mapping _ _ _ _ _ _ Hinvoke).
Qed.

Lemma validation_failure_ends_as_success_witness :
  validate validation_raising_agents 1 Scenarios.working_solution = Raised "browser closed"
  /\ success (snd (run validation_raising_agents 6
                     (initialize, initial_state Scenarios.invoice_request true))) = true
  /\ final_solution (snd (run validation_raising_agents 6
                            (initialize, initial_state Scenarios.invoice_request true)))
     = Some Scenarios.working_solution
  /\ execute (ainvoke validation_raising_agents 25) "id-1" 0 Scenarios.invoice_request true
     = Returned (rejected_solution "id-1" 0 Scenarios.invoice_request
                   "失败方案: " "工作流执行失败").
Proof.
  split; [reflexivity|].
  destruct (validation_failure_ends_as_success validation_raising_agents
              Scenarios.invoice_request true "id-1" 0 [] Scenarios.working_solution
              "browser closed" eq_refl eq_refl ltac:(discriminate) eq_refl)
    as (_ & Hs & Hf & _ & _ & _ & Hex).
  split; [exact Hs |]. split; [exact Hf | exact Hex].
Defined.

(** X6.  When development delivers a solution with operations and the
    validator finds it valid with a score of at least 0.9, the run takes
    seven transitions through review and the knowledge update: the
    decision is accepted with or without a human in the loop, the solution
    handed to the knowledge manager carries the validation result, and the
    solution as the knowledge manager left it is the final solution of the
    run.  The engine hands the final values to [execute] as a mapping:
    [execute] returns its own rejected solution, not the stored one. *)
Theorem accepted_run_returns_stored_solution (agents : Agents)
    (req : DevelopmentRequest) (hil : bool) (fresh_id : string) (now : Z)
    (similar : list ImplementationSolution)
    (solution : ImplementationSolution) (result : ValidationResult) :
  let request := Some (set_req_created_at (clock agents 0) req) in
  search_similar_solutions agents request = Returned similar ->
  develop agents 1 request = Returned solution ->
  operations solution <> [] ->
  validate agents 1 solution = Returned result ->
  is_valid result = true ->
  (9 # 10 <= score result)%Q ->
  let validated := update_validation_result (clock agents 1) result solution in
  let stored := snd (store_solution agents validated ACCEPTED) in
  let final := run agents 7 (initialize, initial_state req hil) in
  fst final = END
  /\ reward_decision (snd final) = ACCEPTED
  /\ success (snd final) = true
  /\ final_solution (snd final) = Some stored
  /\ ainvoke agents 25 (initial_state req hil) = Returned (Engine.Mapping (snd final))
  /\ execute (ainvoke agents 25) fresh_id now req hil
     = Returned (rejected_solution fresh_id now req "失败方案: " "工作流执行失败").
Proof.
  intros request Hsearch Hdev Hops Hval Hvalid Hscore validated stored. subst request.
  apply Qle_bool_iff in Hscore.
  set (s1 := _initialize agents (initial_state req hil)).
  assert (Hreq : request s1 = Some (set_req_created_at (clock agents 0) req)) by reflexivity.
  set (s3 := _develop_solution agents (_search_knowledge agents s1)).
  set (s4 := _validate_solution agents s3).
  set (s5 := _review_solution s4).
  assert (H3 : errors s3 = [] /\ current_solution s3 = Some solution
               /\ iteration_count s3 = 1 /\ reward_decision s3 = PENDING
               /\ final_solution s3 = None
               /\ auto_accept_threshold s3 = (9 # 10)%Q).
  { unfold s3, _develop_solution, _search_knowledge. cbn [request set_current_stage].
    rewrite Hreq, Hsearch.
    destruct similar; cbn -[set_req_created_at]; rewrite ?Z.add_0_l, Hdev;
      destruct (operations solution) eqn:E; try congruence;
      cbn -[set_req_created_at]; repeat split. }
  destruct H3 as (He3 & Hc3 & Hi3 & Hr3 & Hf3 & Ht3).
  assert (H4 : errors s4 = [] /\ current_solution s4 = Some validated
               /\ validation_result s4 = Some result
               /\ iteration_count s4 = 1 /\ final_solution s4 = None
               /\ auto_accept_threshold s4 = (9 # 10)%Q).
  { unfold s4, _validate_solution. cbn. rewrite Hc3, Hi3, Hval. cbn.
    rewrite Hi3, He3, Hf3, Ht3. repeat split. }
  destruct H4 as (He4 & Hc4 & Hv4 & Hi4 & Hf4 & Ht4).
  assert (H5 : reward_decision s5 = ACCEPTED /\ current_solution s5 = Some validated
               /\ final_solution s5 = None).
  { unfold s5, _review_solution. cbn. rewrite Hc4, Hv4. cbn.
    unfold review_decision. cbn. rewrite Ht4, Hvalid, Hscore. cbn.
    now rewrite Hc4, Hf4. }
  destruct H5 as (Hr5 & Hc5 & Hf5).
  assert (Hrun : run agents 7 (initialize, initial_state req hil)
                 = (END, _finalize (_update_knowledge agents s5))).
  { do 3 (rewrite run_step by discriminate; unfold step at 1;
          cbn [fst snd node_function next_node]).
    fold s1. fold s3. unfold _after_development. rewrite He3, Hc3.
    destruct (operations solution) eqn:E; [congruence|]. cbn [after_development_edges].
    rewrite run_step by discriminate. unfold step at 1.
    cbn [fst snd node_function next_node]. fold s4.
    unfold _after_validation. rewrite He4, Hv4. cbn [after_validation_edges].
    rewrite run_step by discriminate. unfold step at 1.
    cbn [fst snd node_function next_node]. fold s5.
    unfold _after_review. rewrite Hr5. cbn [after_review_edges].
    do 2 (rewrite run_step by discriminate; unfold step at 1;
          cbn [fst snd node_function next_node]).
    reflexivity. }
  assert (Hfinal : reward_decision (_finalize (_update_knowledge agents s5)) = ACCEPTED
                   /\ success (_finalize (_update_knowledge agents s5)) = true
                   /\ final_solution (_finalize (_update_knowledge agents s5)) = Some stored).
  { unfold _finalize, _update_knowledge. cbn. rewrite Hc5, Hr5. unfold stored.
    destruct (store_solution agents validated ACCEPTED) as [res sol'].
    destruct res as [[|]|e]; cbn; rewrite !Hr5; cbn; repeat split; exact Hr5. }
  destruct Hfinal as (Hr & Hs & Hf).
  assert (Hinvoke : ainvoke agents 25 (initial_state req hil)
                    = Returned (Engine.Mapping (_finalize (_update_knowledge agents s5)))).
  { unfold ainvoke. cbv zeta.
    rewrite (run_beyond_END agents 7 18) by (rewrite Hrun; reflexivity).
    now rewrite Hrun. }
  cbv zeta. rewrite Hrun. cbn [fst snd]. repeat split; try assumption.
  now apply (ExecuteFacts.execute_of_mapping _ _ _ _ _ _ Hinvoke).
Qed.

Lemma accepted_run_returns_stored_solution_witness :
  validate accepting_agents 1 Scenarios.working_solution
  = Returned (Scenarios.validation true (95 # 100))
  /\ (9 # 10 <= score (Scenarios.validation true (95 # 100)))%Q
  /\ (exists stored,
        final_solution (snd (run accepting_agents 7
                               (initialize, initial_state Scenarios.invoice_request true)))
        = Some stored
        /\ Models.reward_decision stored = ACCEPTED
        /\ Models.validation_result stored = Some (Scenarios.validation true (95 # 100)))
  /\ execute (ainvoke accepting_agents 25) "id-1" 0 Scenarios.invoice_request true
     = Returned (rejected_solution "id-1" 0 Scenarios.invoice_request
                   "失败方案: " "工作流执行失败").
Proof.
  split; [reflexivity|]. split; [discriminate|].
  destruct (accepted_run_returns_stored_solution accepting_agents
              Scenarios.invoice_request true "id-1" 0 [] Scenarios.working_solution
              (Scenarios.validation true (95 # 100))
              eq_refl eq_refl ltac:(discriminate) eq_refl eq_refl ltac:(discriminate))
    as (_ & _ & _ & Hf & _ & Hex).
  split; [| exact Hex].
  eexists. split; [exact Hf |]. split; reflexivity.
Defined.

(** X7.  The result flags of a finished run agree.  For a run that starts
    without a final solution and reaches [END]: [success] is set exactly
    when a final solution was set; the final solution is then the current
    solution and the decision is not rejected; a rejected decision or a
    missing solution ends with [success] unset and no final solution. *)
Theorem finished_run_flags_agree (agents : Agents) (k : nat)
    (c : Node * LowCodeWorkflowState) :
  fst c <> END ->
  final_solution (snd c) = None ->
  fst (run agents k c) = END ->
  let final := snd (run agents k c) in
  (success final = true <-> exists solution, final_solution final = Some solution)
  /\ (forall solution, final_solution final = Some solution ->
        current_solution final = Some solution /\ reward_decision final <> REJECTED)
  /\ (reward_decision final = REJECTED \/ current_solution final = None ->
      success final = false /\ final_solution final = None).
Proof.
  intros Hn Hnone Hend.
  destruct (END_state_is_finalized agents (fun s => final_solution s = None)) with
    (k := k) (c := c) as (state & Hstate & Heq); try assumption.
  { intros n s Hfin Hs. destruct n; try congruence; revert Hs; node_cases; trivial. }
  cbv zeta. rewrite Heq. unfold _finalize. cbn.
  destruct (current_solution state) as [solution|] eqn:Ec; cbn.
  - destruct (reward_decision state) eqn:Er; cbn; rewrite ?Ec, ?Er, ?Hstate.
    + split; [split; eauto|]. split; [intros s [= <-]; split; [reflexivity|discriminate]|].
      intros [|]; discriminate.
    + split; [split; [discriminate|intros [s Hs]; discriminate]|].
      split; [discriminate|]. now intros _.
    + split; [split; eauto|]. split; [intros s [= <-]; split; [reflexivity|discriminate]|].
      intros [|]; discriminate.
  - rewrite ?Ec, ?Hstate.
    split; [split; [discriminate|intros [s Hs]; discriminate]|].
    split; [discriminate|]. now intros _.
Qed.

Lemma finished_run_flags_agree_witness :
  final_solution (initial_state Scenarios.invoice_request true) = None
  /\ fst (run validation_raising_agents 6
             (initialize, initial_state Scenarios.invoice_request true)) = END
  /\ (success (snd (run validation_raising_agents 6
                      (initialize, initial_state Scenarios.invoice_request true))) = true
      <-> exists solution,
          final_solution (snd (run validation_raising_agents 6
                                 (initialize, initial_state Scenarios.invoice_request true)))
          = Some solution).
Proof.
  split; [reflexivity|]. split; [reflexivity|].
  apply (finished_run_flags_agree validation_raising_agents 6
           (initialize, initial_state Scenarios.invoice_request true)
           ltac:(discriminate) eq_refl eq_refl).
Defined.
End RunFacts.

(** ** Searching and filling the store *)

Module KnowledgeFacts.
Import Models KnowledgeManager Notions StoreNotions.
Local Open Scope Z_scope.

Lemma accepted_true (s : ImplementationSolution) :
  accepted s = true <-> reward_decision s = ACCEPTED.
Proof. unfold accepted. destruct (reward_decision s); cbn; split; congruence. Qed.

Lemma search_is_ranked_prefix (llm : Outcome (list string))
    (request : DevelopmentRequest) (st : KnowledgeStore.KnowledgeStore) :
  search_similar_solutions llm true (Some request) st
  = _rank_solutions_by_similarity request (take 5 (accepted_rows st)).
Proof. reflexivity. Qed.

(** X8.  What a search can return.  The result holds at most five
    solutions, each an accepted row of the store; with a request and a
    working database it is a rearrangement of the first five accepted rows
    in return order, whatever keywords the Completion port gave (keywords
    and requirements do not filter); without a request or with a failing
    database it is empty. *)
Theorem search_returns_first_accepted_rows (llm : Outcome (list string)) (db_ok : bool)
    (request : option DevelopmentRequest) (st : KnowledgeStore.KnowledgeStore) :
  let result := search_similar_solutions llm db_ok request st in
  (length result <= 5)%nat
  /\ Forall (fun s => reward_decision s = ACCEPTED /\ s ∈ KnowledgeStore.solutions st) result
  /\ (if db_ok && bool_decide (is_Some request)
      then result ≡ₚ take 5 (accepted_rows st)
      else result = [])
  /\ forall llm', search_similar_solutions llm' db_ok request st = result.
Proof.
  cbv zeta. destruct request as [request|]; [destruct db_ok|].
  - rewrite search_is_ranked_prefix.
    pose proof (SimilarityFacts.rank_perm request (take 5 (accepted_rows st))) as Hp.
    split; [|split; [|split]].
    + rewrite Hp, length_take. lia.
    + rewrite Hp. apply Forall_forall. intros s Hs.
      apply elem_of_take in Hs as (i & Hs & _).
      apply list_elem_of_lookup_2, list_elem_of_In, filter_In in Hs as [Hin Hacc].
      split; [now apply accepted_true|now apply list_elem_of_In].
    + exact Hp.
    + reflexivity.
  - cbn. repeat split; [lia|constructor].
  - cbn. repeat split; [lia|constructor|now destruct db_ok].
Qed.

Lemma accepted_rows_snoc (sol : ImplementationSolution) (st : KnowledgeStore.KnowledgeStore)
    (ok : bool) :
  accepted_rows (KnowledgeStore.store_solution ok sol st).2
  = if ok && KnowledgeStore.json_columns_ok sol
       && negb (KnowledgeStore.has_solution (solution_id sol) st) && accepted sol
    then accepted_rows st ++ [sol] else accepted_rows st.
Proof.
  unfold accepted_rows, KnowledgeStore.store_solution.
  destruct (ok && KnowledgeStore.json_columns_ok sol
            && negb (KnowledgeStore.has_solution (solution_id sol) st)); cbn;
    [|reflexivity].
  rewrite List.filter_app. cbn. destruct (accepted sol); [reflexivity|apply app_nil_r].
Qed.

(** The knowledge manager's handling of a decision adds no operation,
    validation result or visual analysis to a solution and removes
    none. *)
Lemma handled_json_columns (ports : StorePorts) (now : Z) (sol : ImplementationSolution)
    (decision : RewardDecision) (st : KnowledgeStore.KnowledgeStore) :
  KnowledgeStore.json_columns_ok (stored_solution ports now sol decision st)
  = KnowledgeStore.json_columns_ok sol.
Proof.
  unfold stored_solution, store_solution, KnowledgeStore.json_columns_ok.
  destruct decision; cbn; unfold _handle_rejected_solution; cbn;
    destruct (validation_result sol) eqn:Hvr; cbn; rewrite ?Hvr;
    destruct (operations sol), (visual_analysis sol); reflexivity.
Qed.

Lemma accepted_rows_after_store (ports : StorePorts) (now : Z)
    (sol : ImplementationSolution) (decision : RewardDecision)
    (st : KnowledgeStore.KnowledgeStore) :
  accepted_rows (stored_store ports now sol decision st)
  = if db_solution_ok ports && KnowledgeStore.json_columns_ok sol
       && negb (KnowledgeStore.has_solution (solution_id sol) st)
       && RewardDecision_eqb decision ACCEPTED
    then accepted_rows st ++ [stored_solution ports now sol decision st]
    else accepted_rows st.
Proof.
  pose proof (handled_json_columns ports now sol decision st) as Hjson.
  unfold stored_store, stored_solution, store_solution in *.
  destruct decision; cbn [fst snd RewardDecision_eqb] in *;
    unfold _handle_accepted_solution, _record_reward_transaction,
      KnowledgeStore.store_reward_transaction in *; cbn [fst snd] in *.
  - set (sol' := set_success_rate _ _) in *.
    assert (Hst : forall st', accepted_rows
               {| KnowledgeStore.solutions := KnowledgeStore.solutions st';
                  KnowledgeStore.knowledge_entries := KnowledgeStore.knowledge_entries st';
                  KnowledgeStore.reward_transactions :=
                    KnowledgeStore.reward_transactions st' ++
                    [{| tx_solution_id := solution_id sol'; evaluation_id := EmptyString;
                        reward_points := reward_points_of ACCEPTED;
                        reward_type := RewardDecision_value ACCEPTED;
                        reward_reason := ("方案" ++ RewardDecision_value ACCEPTED)%string;
                        tx_status := "processed"; processed_at := Some now |}] |}
             = accepted_rows st') by reflexivity.
    rewrite Hst, accepted_rows_snoc, Hjson.
    assert (Hsame : KnowledgeStore.has_solution (solution_id sol')
                      (create_knowledge_entry ports sol' st).2
                    = KnowledgeStore.has_solution (solution_id sol) st
                    /\ accepted_rows (create_knowledge_entry ports sol' st).2
                       = accepted_rows st).
    { unfold create_knowledge_entry, KnowledgeStore.store_knowledge_entry.
      repeat match goal with |- context [if ?b then _ else _] => destruct b end;
        try destruct (llm_knowledge ports);
        repeat match goal with |- context [if ?b then _ else _] => destruct b end;
        split; reflexivity. }
    destruct Hsame as [-> ->]. rewrite andb_true_r.
    destruct (db_solution_ok ports && KnowledgeStore.json_columns_ok sol
              && negb (KnowledgeStore.has_solution (solution_id sol) st));
      reflexivity.
  - rewrite andb_false_r.
    change (accepted_rows (KnowledgeStore.store_solution (db_solution_ok ports)
              (_handle_rejected_solution (set_updated_at now (set_reward_decision REJECTED sol)))
              st).2 = accepted_rows st).
    rewrite accepted_rows_snoc.
    replace (accepted _) with false; [now rewrite andb_false_r|].
    unfold _handle_rejected_solution. cbn. now destruct (validation_result sol).
  - rewrite andb_false_r.
    change (accepted_rows (KnowledgeStore.store_solution (db_solution_ok ports)
              (_handle_pending_solution (set_updated_at now (set_reward_decision PENDING sol)))
              st).2 = accepted_rows st).
    rewrite accepted_rows_snoc. now rewrite andb_false_r.
Qed.

Lemma json_columns_ok_true (sol : ImplementationSolution) :
  KnowledgeStore.json_columns_ok sol = true
  <-> operations sol = [] /\ validation_result sol = None /\ visual_analysis sol = [].
Proof.
  unfold KnowledgeStore.json_columns_ok.
  destruct (operations sol), (validation_result sol), (visual_analysis sol);
    split; try discriminate; try (intros (? & ? & ?); discriminate); now repeat split.
Qed.

Lemma stored_solution_id (ports : StorePorts) (now : Z) (sol : ImplementationSolution)
    (decision : RewardDecision) (st : KnowledgeStore.KnowledgeStore) :
  solution_id (stored_solution ports now sol decision st) = solution_id sol.
Proof.
  unfold stored_solution, store_solution. destruct decision; cbn; try reflexivity.
  unfold _handle_rejected_solution. cbn. now destruct (validation_result sol).
Qed.

Lemma store_call_solutions (ports : StorePorts) (now : Z) (sol : ImplementationSolution)
    (decision : RewardDecision) (st : KnowledgeStore.KnowledgeStore) :
  KnowledgeStore.solutions (stored_store ports now sol decision st)
  = if db_solution_ok ports && KnowledgeStore.json_columns_ok sol
       && negb (KnowledgeStore.has_solution (solution_id sol) st)
    then KnowledgeStore.solutions st ++ [stored_solution ports now sol decision st]
    else KnowledgeStore.solutions st.
Proof.
  assert (Hcreate : forall sol', KnowledgeStore.solutions (create_knowledge_entry ports sol' st).2
                                 = KnowledgeStore.solutions st).
  { intros sol'. unfold create_knowledge_entry, KnowledgeStore.store_knowledge_entry.
    repeat match goal with |- context [if ?b then _ else _] => destruct b end;
      try destruct (llm_knowledge ports);
      repeat match goal with |- context [if ?b then _ else _] => destruct b end;
      reflexivity. }
  assert (Hstore : forall ok sol' st0,
             KnowledgeStore.solutions st0 = KnowledgeStore.solutions st ->
             KnowledgeStore.solutions (KnowledgeStore.store_solution ok sol' st0).2
             = if ok && KnowledgeStore.json_columns_ok sol'
                  && negb (KnowledgeStore.has_solution (solution_id sol') st)
               then KnowledgeStore.solutions st ++ [sol']
               else KnowledgeStore.solutions st).
  { intros ok sol' st0 H0. unfold KnowledgeStore.store_solution, KnowledgeStore.has_solution.
    rewrite H0. destruct (ok && _ && _); cbn; congruence. }
  pose proof (stored_solution_id ports now sol decision st) as Hid.
  pose proof (handled_json_columns ports now sol decision st) as Hjson.
  unfold stored_store, stored_solution, store_solution in *.
  destruct decision; cbn [fst snd] in *;
    unfold _handle_accepted_solution, _record_reward_transaction,
      KnowledgeStore.store_reward_transaction in *;
    cbn [fst snd KnowledgeStore.solutions] in *.
  - rewrite Hstore by apply Hcreate. now rewrite Hid, Hjson.
  - rewrite Hstore by reflexivity. now rewrite Hid, Hjson.
  - rewrite Hstore by reflexivity. now rewrite Hid, Hjson.
Qed.

(** X9.  Storing and searching.  The JSON columns of a row take no
    operation, validation result or visual analysis (each holds a
    [datetime]).  A solution without any of them, stored as accepted under
    a new identifier while the store holds fewer than five accepted rows,
    is among the results of every later search, as the call left it.  A
    solution with an operation, a validation result or a visual analysis
    is never added: the call leaves the solutions of the store, and with
    them every search result, as they were. *)
Theorem accepted_solution_becomes_searchable (ports : StorePorts) (now : Z)
    (sol : ImplementationSolution) (st : KnowledgeStore.KnowledgeStore)
    (llm : Outcome (list string)) (request : DevelopmentRequest) :
  db_solution_ok ports = true ->
  KnowledgeStore.has_solution (solution_id sol) st = false ->
  (length (accepted_rows st) < 5)%nat ->
  let found := stored_solution ports now sol ACCEPTED st in
  let st' := stored_store ports now sol ACCEPTED st in
  (operations sol = [] -> validation_result sol = None -> visual_analysis sol = [] ->
   found ∈ search_similar_solutions llm true (Some request) st'
   /\ solution_id found = solution_id sol
   /\ title found = title sol
   /\ reward_decision found = ACCEPTED)
  /\ (operations sol <> [] \/ validation_result sol <> None \/ visual_analysis sol <> [] ->
      KnowledgeStore.solutions st' = KnowledgeStore.solutions st
      /\ search_similar_solutions llm true (Some request) st'
         = search_similar_solutions llm true (Some request) st).
Proof.
  intros Hdb Hnew Hlen. cbv zeta. split.
  - intros Hops Hvr Hva. split; [| repeat split].
    rewrite search_is_ranked_prefix, (SimilarityFacts.rank_perm request).
    rewrite accepted_rows_after_store, Hdb, Hnew.
    rewrite (proj2 (json_columns_ok_true sol)) by now repeat split.
    cbn [andb negb RewardDecision_eqb].
    apply elem_of_take.
    exists (length (accepted_rows st)). split; [|exact Hlen].
    now rewrite lookup_app_r, Nat.sub_diag by lia.
  - intros Hsome.
    assert (Hjson : KnowledgeStore.json_columns_ok sol = false).
    { destruct (KnowledgeStore.json_columns_ok sol) eqn:E; [| reflexivity].
      apply json_columns_ok_true in E as (H1 & H2 & H3). tauto. }
    split.
    + rewrite store_call_solutions, Hjson. now rewrite andb_false_r.
    + rewrite !search_is_ranked_prefix. f_equal.
      rewrite accepted_rows_after_store, Hjson. now rewrite andb_false_r.
Qed.

Lemma accepted_solution_becomes_searchable_witness :
  KnowledgeStore.has_solution (solution_id Scenarios.invoice_candidate)
                              Scenarios.empty_store = false
  /\ operations Scenarios.invoice_candidate = []
  /\ (exists found,
        found ∈ search_similar_solutions (Raised "llm") true (Some Scenarios.invoice_request)
                  (stored_store Scenarios.store_ports 0 Scenarios.invoice_candidate ACCEPTED
                                Scenarios.empty_store)
        /\ solution_id found = solution_id Scenarios.invoice_candidate)
  /\ operations Scenarios.working_solution <> []
  /\ KnowledgeStore.solutions
       (stored_store Scenarios.store_ports 0 Scenarios.working_solution ACCEPTED
                     Scenarios.empty_store)
     = KnowledgeStore.solutions Scenarios.empty_store.
Proof.
  split; [reflexivity|]. split; [reflexivity|].
  destruct (accepted_solution_becomes_searchable Scenarios.store_ports 0
              Scenarios.invoice_candidate Scenarios.empty_store (Raised "llm")
              Scenarios.invoice_request eq_refl eq_refl ltac:(cbn; lia))
    as (Hfound & _).
  destruct (Hfound eq_refl eq_refl eq_refl) as (Hin & Hid & _).
  split; [eexists; split; [exact Hin | exact Hid] |].
  split; [discriminate |].
  destruct (accepted_solution_becomes_searchable Scenarios.store_ports 0
              Scenarios.working_solution Scenarios.empty_store (Raised "llm")
              Scenarios.invoice_request eq_refl eq_refl ltac:(cbn; lia))
    as (_ & Hkept).
  apply Hkept. left. discriminate.
Defined.

(** X10.  What a store call cannot make searchable.  Searches give the
    same results before and after [store_solution] when the decision is
    rejected or pending, when the identifier is already in the store, when
    the database refuses the row, or when five accepted rows are already
    stored: the limit is applied before the ranking, so a sixth accepted
    solution is never returned, however similar it is. *)
Theorem store_leaves_search_unchanged (ports : StorePorts) (now : Z)
    (sol : ImplementationSolution) (decision : RewardDecision)
    (st : KnowledgeStore.KnowledgeStore)
    (llm : Outcome (list string)) (db_ok : bool) (request : option DevelopmentRequest) :
  decision <> ACCEPTED
  \/ KnowledgeStore.has_solution (solution_id sol) st = true
  \/ db_solution_ok ports = false
  \/ (5 <= length (accepted_rows st))%nat ->
  search_similar_solutions llm db_ok request (stored_store ports now sol decision st)
  = search_similar_solutions llm db_ok request st.
Proof.
  intros H. destruct request as [request|]; [|reflexivity].
  destruct db_ok; [|reflexivity].
  rewrite !search_is_ranked_prefix. f_equal.
  rewrite accepted_rows_after_store.
  destruct H as [H|[H|[H|H]]].
  - replace (RewardDecision_eqb decision ACCEPTED) with false
      by (destruct decision; cbn; congruence).
    now rewrite andb_false_r.
  - now rewrite H, andb_false_r.
  - now rewrite H.
  - destruct (_ && _ && _ && _); [|reflexivity].
    now rewrite take_app_le by exact H.
Qed.

Lemma store_leaves_search_unchanged_witness :
  search_similar_solutions (Raised "llm") true (Some Scenarios.invoice_request)
    (stored_store Scenarios.store_ports 0 Scenarios.working_solution REJECTED
                  Scenarios.empty_store)
  = search_similar_solutions (Raised "llm") true (Some Scenarios.invoice_request)
      Scenarios.empty_store.
Proof.
  apply (store_leaves_search_unchanged Scenarios.store_ports 0 Scenarios.working_solution
           REJECTED Scenarios.empty_store (Raised "llm") true
           (Some Scenarios.invoice_request)).
  left. discriminate.
Defined.

Lemma has_solution_find (sid : string) (st : KnowledgeStore.KnowledgeStore) :
  KnowledgeStore.has_solution sid st = false
  <-> KnowledgeStore.get_solution true sid st = None.
Proof.
  unfold KnowledgeStore.has_solution, KnowledgeStore.get_solution.
  induction (KnowledgeStore.solutions st) as [|s l IH]; cbn; [tauto|].
  destruct (String.eqb (solution_id s) sid); cbn; [split; discriminate|exact IH].
Qed.

Lemma has_solution_ids (sid : string) (st : KnowledgeStore.KnowledgeStore) :
  KnowledgeStore.has_solution sid st = true <-> In sid (solution_ids st).
Proof.
  unfold KnowledgeStore.has_solution, solution_ids.
  rewrite existsb_exists, in_map_iff. split.
  - intros (s & Hin & Heq). apply String.eqb_eq in Heq. eauto.
  - intros (s & Heq & Hin). exists s. split; [exact Hin|now apply String.eqb_eq].
Qed.

Lemma find_snoc_other (sid : string) (sol : ImplementationSolution)
    (l : list ImplementationSolution) :
  sid <> solution_id sol ->
  List.find (fun s => String.eqb (solution_id s) sid) (l ++ [sol])
  = List.find (fun s => String.eqb (solution_id s) sid) l.
Proof.
  intros Hne. induction l as [|s l IH]; cbn.
  - destruct (String.eqb_spec (solution_id sol) sid); congruence.
  - destruct (String.eqb (solution_id s) sid); [reflexivity|exact IH].
Qed.

Lemma find_snoc_new (sol : ImplementationSolution) (l : list ImplementationSolution) :
  existsb (fun s => String.eqb (solution_id s) (solution_id sol)) l = false ->
  List.find (fun s => String.eqb (solution_id s) (solution_id sol)) (l ++ [sol]) = Some sol.
Proof.
  induction l as [|s l IH]; cbn.
  - now rewrite String.eqb_refl.
  - destruct (String.eqb (solution_id s) (solution_id sol)); cbn; [discriminate|exact IH].
Qed.

Lemma find_app_found (sid : string) (s : ImplementationSolution)
    (l k : list ImplementationSolution) :
  List.find (fun s => String.eqb (solution_id s) sid) l = Some s ->
  List.find (fun s => String.eqb (solution_id s) sid) (l ++ k) = Some s.
Proof.
  induction l as [|x l IH]; cbn; [discriminate|].
  destruct (String.eqb (solution_id x) sid); [trivial|exact IH].
Qed.

(** X11.  The solutions table of the Store.  [store_solution] succeeds
    only when the database works, no row has the solution's identifier
    and the solution has no operation, no validation result and no visual
    analysis; a successful call is read back unchanged by [get_solution];
    a refused call leaves the store as it was, so the row stored first
    under an identifier stays; rows under other identifiers are read as
    before; identifiers stay unique. *)
Theorem store_solution_then_get_solution (db_ok : bool) (sol : ImplementationSolution)
    (st : KnowledgeStore.KnowledgeStore) :
  let ok := (KnowledgeStore.store_solution db_ok sol st).1 in
  let st' := (KnowledgeStore.store_solution db_ok sol st).2 in
  (ok = true ->
   db_ok = true
   /\ KnowledgeStore.get_solution true (solution_id sol) st = None
   /\ operations sol = [] /\ validation_result sol = None /\ visual_analysis sol = [])
  /\ (if ok then KnowledgeStore.get_solution true (solution_id sol) st' = Some sol
      else st' = st)
  /\ (forall s, KnowledgeStore.get_solution true (solution_id sol) st = Some s ->
        ok = false /\ KnowledgeStore.get_solution true (solution_id sol) st' = Some s)
  /\ (forall sid, sid <> solution_id sol ->
        KnowledgeStore.get_solution true sid st' = KnowledgeStore.get_solution true sid st)
  /\ (List.NoDup (solution_ids st) -> List.NoDup (solution_ids st')).
Proof.
  cbv zeta. unfold KnowledgeStore.store_solution.
  destruct (KnowledgeStore.has_solution (solution_id sol) st) eqn:Hhas.
  - rewrite andb_false_r. cbn [fst snd].
    split; [discriminate |]. split; [reflexivity |].
    split; [intros s Hs; now split |]. split; trivial.
  - rewrite andb_true_r.
    destruct (db_ok && KnowledgeStore.json_columns_ok sol) eqn:Hok; cbn [fst snd].
    + apply andb_true_iff in Hok as [-> Hjson].
      apply json_columns_ok_true in Hjson as (Hops & Hvr & Hva).
      split; [intros _; split; [reflexivity | split; [now apply has_solution_find |]];
              now repeat split |].
      split; [apply find_snoc_new, Hhas |].
      split; [intros s Hs; apply has_solution_find in Hhas; congruence |].
      split; [intros sid Hne; now apply find_snoc_other |].
      intros Hnd. unfold solution_ids. cbn. rewrite List.map_app. cbn.
      apply NoDup_ListNoDup, NoDup_app. repeat split.
      * now apply NoDup_ListNoDup.
      * intros x Hx Hx'. apply list_elem_of_singleton in Hx' as ->.
        apply list_elem_of_In, has_solution_ids in Hx. congruence.
      * apply NoDup_singleton.
    + split; [discriminate |]. split; [reflexivity |].
      split; [intros s Hs; now split |]. split; trivial.
Qed.

(** X12.  The knowledge manager never changes or removes a stored row.
    Through any sequence of [store_solution] calls, whatever their
    decisions: the rows present before stay first, in order and unchanged
    (a solution stored again under its identifier, for instance with a new
    decision, keeps its first row); [get_solution] keeps finding what it
    found; identifiers stay unique; and every call adds one reward
    transaction, stored row or not. *)
Theorem stored_rows_are_never_changed (calls : list StoreCalls.StoreCall)
    (st : KnowledgeStore.KnowledgeStore) :
  let st' := StoreCalls.store_calls calls st in
  KnowledgeStore.solutions st `prefix_of` KnowledgeStore.solutions st'
  /\ (forall sid s, KnowledgeStore.get_solution true sid st = Some s ->
                    KnowledgeStore.get_solution true sid st' = Some s)
  /\ (List.NoDup (solution_ids st) -> List.NoDup (solution_ids st'))
  /\ length (KnowledgeStore.reward_transactions st')
     = (length (KnowledgeStore.reward_transactions st) + length calls)%nat.
Proof.
  cbv zeta. revert st. induction calls as [|c calls IH]; intros st.
  - cbn. split; [reflexivity|]. split; [trivial|]. split; [trivial|lia].
  - cbn [StoreCalls.store_calls fold_left].
    fold (stored_store (StoreCalls.call_ports c) (StoreCalls.call_time c)
            (StoreCalls.call_solution c) (StoreCalls.call_decision c) st).
    set (st1 := stored_store _ _ _ _ st).
    fold (StoreCalls.store_calls calls st1).
    destruct (IH st1) as (Hpre & Hget & Hnd & Hlen).
    pose proof (store_call_solutions (StoreCalls.call_ports c) (StoreCalls.call_time c)
                  (StoreCalls.call_solution c) (StoreCalls.call_decision c) st) as Hsol.
    fold st1 in Hsol.
    pose proof (stored_solution_id (StoreCalls.call_ports c) (StoreCalls.call_time c)
                  (StoreCalls.call_solution c) (StoreCalls.call_decision c) st) as Hid.
    pose proof (StoreFacts.stored_transactions (StoreCalls.call_ports c)
                  (StoreCalls.call_time c) (StoreCalls.call_solution c)
                  (StoreCalls.call_decision c) st) as Htx.
    fold st1 in Htx.
    split; [|split; [|split]].
    + etrans; [|exact Hpre]. rewrite Hsol.
      destruct (_ && _ && _); [now apply prefix_app_r|reflexivity].
    + intros sid s Hs. apply Hget. unfold KnowledgeStore.get_solution in *.
      rewrite Hsol. destruct (_ && _ && _); [now apply find_app_found|exact Hs].
    + intros H. apply Hnd. unfold solution_ids in *. rewrite Hsol.
      destruct (db_solution_ok _ && KnowledgeStore.json_columns_ok _); cbn [andb];
        [|exact H].
      destruct (KnowledgeStore.has_solution _ st) eqn:Hhas; cbn [negb]; [exact H|].
      rewrite List.map_app. cbn. rewrite Hid.
      apply NoDup_ListNoDup, NoDup_app. repeat split.
      * now apply NoDup_ListNoDup.
      * intros x Hx Hx'. apply list_elem_of_singleton in Hx' as ->.
        apply list_elem_of_In, has_solution_ids in Hx. congruence.
      * apply NoDup_singleton.
    + rewrite Hlen, Htx, length_app. cbn. lia.
Qed.

(** X13.  The knowledge entry of an accepted solution.  Storing a solution
    as accepted adds at most one knowledge entry and removes none.  An
    added entry belongs to this solution alone, is verified and unused, has
    one of the four entry types and a description, and its quality score is
    the success rate after the raise, in [0, 1].  No entry is added when
    the Completion port fails, when the entry store fails, or when neither
    the completion nor the solution gives a description. *)
Theorem accepted_store_adds_at_most_one_entry (ports : StorePorts) (now : Z)
    (sol : ImplementationSolution) (st : KnowledgeStore.KnowledgeStore) :
  let st' := stored_store ports now sol ACCEPTED st in
  let sol' := stored_solution ports now sol ACCEPTED st in
  (KnowledgeStore.knowledge_entries st' = KnowledgeStore.knowledge_entries st
   \/ exists entry data,
        KnowledgeStore.knowledge_entries st'
        = KnowledgeStore.knowledge_entries st ++ [entry]
        /\ llm_knowledge ports = Returned data
        /\ db_entry_ok ports = true
        /\ related_solution_ids entry = [solution_id sol]
        /\ is_verified entry = true
        /\ usage_count entry = 0
        /\ entry_type entry ∈ entry_type_values
        /\ is_Some (entry_description entry)
        /\ quality_score entry = success_rate sol'
        /\ (0 <= quality_score entry <= 1)%Q)
  /\ (match llm_knowledge ports with
      | Raised _ => True
      | Returned data =>
          db_entry_ok ports = false
          \/ (kd_description data = None /\ description sol = None)
      end ->
      KnowledgeStore.knowledge_entries st' = KnowledgeStore.knowledge_entries st).
Proof.
  cbv zeta.
  assert (Hentries : forall sol1 st1,
             KnowledgeStore.knowledge_entries
               (_record_reward_transaction now sol1 ACCEPTED
                  (KnowledgeStore.store_solution (db_solution_ok ports) sol1 st1).2)
             = KnowledgeStore.knowledge_entries st1).
  { intros sol1 st1. unfold _record_reward_transaction,
      KnowledgeStore.store_reward_transaction, KnowledgeStore.store_solution.
    destruct (_ && _ && _); reflexivity. }
  unfold stored_store, stored_solution, store_solution, _handle_accepted_solution.
  cbn [fst snd]. rewrite Hentries. clear Hentries.
  set (sol1 := set_success_rate _ _).
  unfold create_knowledge_entry.
  replace (reward_decision sol1) with ACCEPTED by reflexivity. cbn [RewardDecision_eqb negb].
  destruct (llm_knowledge ports) as [data|e]; [|split; [now left|trivial]].
  destruct (bool_decide (default "solution_pattern" (kd_entry_type data) ∈ entry_type_values))
    eqn:Hty; cbn [andb]; [|split; [now left|trivial]].
  destruct (bool_decide (is_Some match kd_description data with
                                 | Some d => Some d
                                 | None => description sol1
                                 end)) eqn:Hdescr; cbn [andb].
  2:{ split; [now left|trivial]. }
  destruct (Qle_bool 0 (success_rate sol1)) eqn:Hlo; cbn [andb];
    [|split; [now left|trivial]].
  destruct (Qle_bool (success_rate sol1) 1) eqn:Hhi; cbn [andb];
    [|split; [now left|trivial]].
  apply bool_decide_eq_true in Hty, Hdescr. apply Qle_bool_iff in Hlo, Hhi.
  unfold KnowledgeStore.store_knowledge_entry.
  destruct (db_entry_ok ports) eqn:Hdb; cbn [fst snd KnowledgeStore.knowledge_entries].
  - split.
    + right. eexists. exists data. split; [reflexivity|].
      cbn [related_solution_ids is_verified usage_count entry_type entry_description
           quality_score].
      repeat split; trivial.
    + intros [H|[Hk Hs]]; [discriminate|].
      rewrite Hk in Hdescr. change (description sol1) with (description sol) in Hdescr.
      rewrite Hs in Hdescr. now destruct Hdescr.
  - split; [now left|trivial].
Qed.
End KnowledgeFacts.

(** ** Token-set similarity of two texts *)

Module TokenFacts.
Import TextSimilarity.
Local Open Scope Q_scope.

Lemma lower_ascii_idempotent (c : ascii) : lower_ascii (lower_ascii c) = lower_ascii c.
Proof.
  unfold lower_ascii.
  destruct ((65 <=? nat_of_ascii c)%nat && (nat_of_ascii c <=? 90)%nat) eqn:E.
  - apply andb_true_iff in E as [H1 H2]. apply Nat.leb_le in H1, H2.
    rewrite nat_ascii_embedding by lia.
    replace ((65 <=? nat_of_ascii c + 32)%nat && (nat_of_ascii c + 32 <=? 90)%nat)
      with false; [reflexivity|].
    symmetry. apply andb_false_iff. right. apply Nat.leb_gt. lia.
  - now rewrite E.
Qed.

Lemma lower_idempotent (s : string) : lower (lower s) = lower s.
Proof. induction s as [|c s IH]; cbn; [reflexivity|]. now rewrite lower_ascii_idempotent, IH. Qed.

Lemma inject_nat_nonzero (n : nat) : n <> 0%nat -> ~ inject_Z (Z.of_nat n) == 0.
Proof. intros Hn H. unfold Qeq in H. cbn in H. lia. Qed.

Lemma inter_self (a : gset string) : a ∩ a = a.
Proof. apply leibniz_equiv. intros x. rewrite elem_of_intersection. tauto. Qed.

Lemma union_self (a : gset string) : a ∪ a = a.
Proof. apply leibniz_equiv. intros x. rewrite elem_of_union. tauto. Qed.

Lemma inter_swap (a b : gset string) : a ∩ b = b ∩ a.
Proof. apply leibniz_equiv. intros x. rewrite !elem_of_intersection. tauto. Qed.

Lemma union_swap (a b : gset string) : a ∪ b = b ∪ a.
Proof. apply leibniz_equiv. intros x. rewrite !elem_of_union. tauto. Qed.

Lemma jaccard_self (a : gset string) :
  jaccard a a == if decide (a = ∅) then 0 else 1.
Proof.
  unfold jaccard. cbv zeta.
  rewrite inter_self, union_self.
  destruct (decide (a = ∅)) as [->|Hne].
  - reflexivity.
  - destruct (Nat.eqb_spec (size a) 0) as [H0|H0];
      [apply size_empty_iff in H0; exfalso; apply Hne; now apply leibniz_equiv|].
    field. now apply inject_nat_nonzero.
Qed.

Lemma jaccard_one (a b : gset string) : jaccard a b == 1 -> a = b /\ a <> ∅.
Proof.
  unfold jaccard. cbv zeta.
  destruct (Nat.eqb_spec (size (a ∪ b)) 0) as [H0|H0]; [intros H; discriminate H|].
  intros H.
  assert (Hsize : size (a ∩ b) = size (a ∪ b)).
  { assert (Hq : inject_Z (Z.of_nat (size (a ∩ b))) == inject_Z (Z.of_nat (size (a ∪ b)))).
    { rewrite <- (Qmult_1_l (inject_Z (Z.of_nat (size (a ∪ b))))), <- H. field.
      now apply inject_nat_nonzero. }
    unfold Qeq in Hq. cbn in Hq. lia. }
  assert (Heq : a ∩ b ≡ a ∪ b).
  { apply set_subseteq_size_equiv; [|lia].
    intros x. rewrite elem_of_intersection, elem_of_union. tauto. }
  assert (Hab : a = b).
  { apply leibniz_equiv. intros x. specialize (Heq x).
    rewrite elem_of_intersection, elem_of_union in Heq. tauto. }
  split; [exact Hab|]. intros ->. subst b.
  apply H0. rewrite union_self. apply size_empty.
Qed.

(** X14.  The text similarity depends on the two token sets only, and
    symmetrically.  Swapping the texts gives the same value; so does
    lower-casing either text; a text compared with itself gives 1 when it
    has a token and 0 when it has none; and the value 1 is reached only by
    two texts with the same, non-empty, token set. *)
Theorem text_similarity_of_token_sets (text1 text2 : string) :
  _text_similarity text1 (Some text2) == _text_similarity text2 (Some text1)
  /\ _text_similarity (lower text1) (Some (lower text2))
     = _text_similarity text1 (Some text2)
  /\ _text_similarity text1 (Some text1) == (if decide (words text1 = ∅) then 0 else 1)
  /\ (_text_similarity text1 (Some text2) == 1 <->
      words text1 = words text2 /\ words text1 <> ∅).
Proof.
  split; [|split; [|split]].
  - unfold _text_similarity, jaccard. cbv zeta.
    now rewrite (inter_swap (words text1)), (union_swap (words text1)).
  - unfold _text_similarity, words. now rewrite !lower_idempotent.
  - apply jaccard_self.
  - unfold _text_similarity. split.
    + apply jaccard_one.
    + intros [Heq Hne]. rewrite <- Heq, jaccard_self.
      now destruct (decide (words text1 = ∅)).
Qed.
End TokenFacts.

(** ** Ratings and evaluations *)

Module RatingFacts.
Import Models Ratings.
Local Open Scope Q_scope.

Lemma sum_from (xs : list Q) (a : Q) : fold_left Qplus xs a == a + sum xs.
Proof.
  unfold sum. revert a. induction xs as [|x xs IH]; intros a; cbn.
  - ring.
  - rewrite IH, (IH (0 + x)). ring.
Qed.

Lemma sum_snoc (xs : list Q) (x : Q) : sum (xs ++ [x]) == sum xs + x.
Proof. unfold sum. rewrite fold_left_app. reflexivity. Qed.

Lemma sum_bounds (xs : list Q) :
  Forall (fun r => 0 <= r <= 1) xs ->
  0 <= sum xs <= inject_Z (Z.of_nat (length xs)).
Proof.
  induction xs as [|x xs IH] using rev_ind; intros H.
  - split; discriminate.
  - apply Forall_app in H as [Hxs Hx]. apply List.Forall_inv in Hx.
    cbv beta in Hx. destruct Hx as [Hx0 Hx1]. destruct (IH Hxs) as [Hlo Hhi]. rewrite sum_snoc, length_app. cbn [length].
    replace (Z.of_nat (length xs + 1)) with (Z.of_nat (length xs) + 1)%Z by lia.
    rewrite inject_Z_plus. change (inject_Z 1) with 1.
    split.
    + rewrite <- (Qplus_0_r 0). now apply Qplus_le_compat.
    + now apply Qplus_le_compat.
Qed.

Lemma add_ratings_snoc (rs : list Q) (r : Q) (e : RatedEntry) :
  add_ratings (rs ++ [r]) e = add_rating r (add_ratings rs e).
Proof. unfold add_ratings. now rewrite fold_left_app. Qed.

Lemma add_rating_entry (r : Q) (e : RatedEntry) :
  entry (add_rating r e) = set_quality_score (quality_score (entry (add_rating r e))) (entry e)
  \/ add_rating r e = e.
Proof. unfold add_rating. destruct (_ && _); [now left|now right]. Qed.

(** X15.  Ratings of a knowledge entry.  A sequence of [add_rating] calls
    appends exactly the ratings that lie in [0, 1], in call order, and
    drops the others without any effect.  When none was taken the entry is
    as before; otherwise the quality score is the mean of all recorded
    ratings, and it lies in [0, 1] when the ratings recorded before do. *)
Theorem add_rating_keeps_the_mean (e : RatedEntry) (ratings : list Q) :
  let e' := add_ratings ratings e in
  let taken := List.filter in_range ratings in
  user_ratings e' = user_ratings e ++ taken
  /\ (taken = [] -> e' = e)
  /\ (taken <> [] ->
      quality_score (entry e')
      == sum (user_ratings e') / inject_Z (Z.of_nat (length (user_ratings e')))
      /\ (Forall (fun r => 0 <= r <= 1) (user_ratings e) ->
          0 <= quality_score (entry e') <= 1)).
Proof.
  cbv zeta. induction ratings as [|r rs IH] using rev_ind.
  - cbn. rewrite app_nil_r. repeat split; trivial; congruence.
  - rewrite add_ratings_snoc, List.filter_app. cbn [List.filter].
    destruct IH as (Hr & Hnone & Hsome).
    unfold add_rating. fold (in_range r).
    destruct (in_range r) eqn:Hin.
    + cbn [user_ratings entry quality_score set_quality_score].
      rewrite Hr, <- app_assoc.
      split; [reflexivity|]. split; [intros H; now destruct (List.filter in_range rs)|].
      intros _. split; [reflexivity|].
      intros Hold.
      set (all := user_ratings e ++ List.filter in_range rs ++ [r]).
      assert (Hall : Forall (fun r => 0 <= r <= 1) all).
      { unfold all. apply Forall_app. split; [exact Hold|].
        apply Forall_app. split.
        - apply Forall_forall. intros x Hx.
          apply list_elem_of_In, filter_In in Hx as [_ Hx].
          unfold in_range in Hx. apply andb_true_iff in Hx as [H1 H2].
          now rewrite !Qle_bool_iff in *.
        - apply Forall_singleton. unfold in_range in Hin.
          apply andb_true_iff in Hin as [H1 H2]. now rewrite !Qle_bool_iff in *. }
      destruct (sum_bounds all Hall) as [Hlo Hhi].
      assert (Hpos : 0 < inject_Z (Z.of_nat (length all))).
      { unfold all. rewrite !length_app. cbn [length].
        unfold Qlt. cbn. lia. }
      split.
      * apply Qle_shift_div_l; [exact Hpos|]. now rewrite Qmult_0_l.
      * apply Qle_shift_div_r; [exact Hpos|]. now rewrite Qmult_1_l.
    + rewrite app_nil_r. split; [exact Hr|]. split; [exact Hnone|exact Hsome].
Qed.

Lemma add_rating_keeps_the_mean_witness :
  quality_score
    (entry (add_ratings [1 # 2; 3 # 2; 1]
              {| entry := Scenarios.fresh_entry; user_ratings := [] |}))
  == 3 # 4.
Proof.
  destruct (add_rating_keeps_the_mean
              {| entry := Scenarios.fresh_entry; user_ratings := [] |} [1 # 2; 3 # 2; 1])
    as (Hr & _ & Hsome).
  destruct (Hsome ltac:(discriminate)) as [Hmean _].
  rewrite Hmean, Hr. reflexivity.
Defined.
End RatingFacts.

Module EvaluationFacts.
Import Models Evaluation.
Local Open Scope Q_scope.

Lemma weighted_term_bounds (ev : SolutionEvaluation) (c : RewardCriteria) :
  scores_in_range ev -> 0 <= weight c -> 0 <= weighted_term ev c <= weight c.
Proof.
  intros (Hf & Hc & Hp & Hu) Hw. unfold weighted_term.
  assert (H : forall s, 0 <= s <= 1 -> 0 <= s * weight c <= weight c).
  { intros s [H0 H1]. split.
    - now apply Qmult_le_0_compat.
    - rewrite <- (Qmult_1_l (weight c)) at 2. now apply Qmult_le_compat_r. }
  repeat match goal with |- context [if ?b then _ else _] => destruct b end;
    auto. split; [apply Qle_refl|exact Hw].
Qed.

Lemma accumulate_bounds (ev : SolutionEvaluation) (criteria : list RewardCriteria)
    (acc : Q * Q) :
  scores_in_range ev ->
  Forall (fun c => 0 <= weight c) criteria ->
  0 <= fst acc <= snd acc ->
  0 <= fst (accumulate ev criteria acc) <= snd (accumulate ev criteria acc).
Proof.
  intros Hev. revert acc. induction criteria as [|c criteria IH]; intros acc Hw Hacc.
  - exact Hacc.
  - cbn [accumulate fold_left]. apply IH.
    + now apply List.Forall_inv_tail in Hw.
    + apply List.Forall_inv in Hw. cbv beta in Hw.
      destruct (weighted_term_bounds ev c Hev Hw) as [H0 H1]. destruct Hacc as [A0 A1].
      cbn [fst snd]. split.
      * rewrite <- (Qplus_0_r 0). now apply Qplus_le_compat.
      * now apply Qplus_le_compat.
Qed.

Lemma accumulate_ignores_is_active (ev : SolutionEvaluation) (flag : bool)
    (criteria : list RewardCriteria) (acc : Q * Q) :
  accumulate ev (List.map (with_active flag) criteria) acc = accumulate ev criteria acc.
Proof.
  revert acc. induction criteria as [|c criteria IH]; intros acc; [reflexivity|].
  cbn [List.map accumulate fold_left]. apply IH.
Qed.

(** X16.  The overall score of an evaluation.  For scores in [0, 1] and
    weights that are not negative, the score [calculate_overall_score]
    returns lies in [0, 1] and, for a non-empty criteria list, is what the
    evaluation then holds.  With no criteria the call returns 0 and leaves
    the evaluation, its earlier overall score included, as it was.  The
    [is_active] flag of a criterion makes no difference: a criterion
    switched off counts as before. *)
Theorem overall_score_in_unit_interval (ev : SolutionEvaluation)
    (criteria : list RewardCriteria) :
  scores_in_range ev ->
  Forall (fun c => 0 <= weight c) criteria ->
  let overall := fst (calculate_overall_score criteria ev) in
  let ev' := snd (calculate_overall_score criteria ev) in
  0 <= overall <= 1
  /\ (if bool_decide (criteria = []) then overall = 0 /\ ev' = ev
      else ev' = set_overall_score overall ev)
  /\ forall flag,
       calculate_overall_score (List.map (with_active flag) criteria) ev
       = calculate_overall_score criteria ev.
Proof.
  intros Hev Hw. cbv zeta.
  destruct criteria as [|c criteria].
  - cbn. repeat split; discriminate.
  - rewrite bool_decide_eq_false_2 by discriminate.
    pose proof (accumulate_bounds ev (c :: criteria) (0, 0) Hev Hw
                  ltac:(split; apply Qle_refl)) as [H0 H1].
    split; [|split].
    + unfold calculate_overall_score.
      destruct (accumulate ev (c :: criteria) (0, 0)) as [ws tw]. cbn [fst snd] in *.
      destruct (Qle_bool tw 0) eqn:Htw; cbn [negb]; [split; discriminate|].
      assert (Hpos : 0 < tw).
      { apply Qnot_le_lt. intros H. apply Qle_bool_iff in H. congruence. }
      split.
      * apply Qle_shift_div_l; [exact Hpos|]. now rewrite Qmult_0_l.
      * apply Qle_shift_div_r; [exact Hpos|]. now rewrite Qmult_1_l.
    + unfold calculate_overall_score.
      destruct (accumulate ev (c :: criteria) (0, 0)) as [ws tw]. reflexivity.
    + intros flag. unfold calculate_overall_score.
      cbn [List.map]. change (with_active flag c :: List.map (with_active flag) criteria)
        with (List.map (with_active flag) (c :: criteria)).
      now rewrite accumulate_ignores_is_active.
Qed.

Lemma overall_score_in_unit_interval_witness :
  let ev := evaluate_solution 0 Scenarios.working_solution
              {| fb_evaluator_id := None; fb_functionality_score := Some 1;
                 fb_code_quality_score := Some (1 # 2); fb_performance_score := None;
                 fb_user_satisfaction_score := Some 1;
                 fb_strengths := None; fb_weaknesses := None;
                 fb_improvement_suggestions := None |} in
  scores_in_range ev
  /\ 0 <= fst (calculate_overall_score
                 [ {| criteria_name := "functionality"; weight := 1; is_active := false |};
                   {| criteria_name := "usability"; weight := 1; is_active := true |} ] ev)
     <= 1.
Proof.
  cbv zeta.
  assert (H : scores_in_range
                (evaluate_solution 0 Scenarios.working_solution
                   {| fb_evaluator_id := None; fb_functionality_score := Some 1;
                      fb_code_quality_score := Some (1 # 2); fb_performance_score := None;
                      fb_user_satisfaction_score := Some 1;
                      fb_strengths := None; fb_weaknesses := None;
                      fb_improvement_suggestions := None |})).
  { repeat split; discriminate. }
  split; [exact H|].
  apply (overall_score_in_unit_interval _
           [ {| criteria_name := "functionality"; weight := 1; is_active := false |};
             {| criteria_name := "usability"; weight := 1; is_active := true |} ] H).
  repeat constructor; discriminate.
Defined.

(** X17.  Evaluating a solution with the Store's default criteria.  The
    evaluation returned is completed, for this solution, and its overall
    score is 0.4 x functionality + 0.2 x code quality + 0.2 x performance
    + 0.2 x user satisfaction, a score missing from the feedback counting
    as 0.  The scores of the feedback are taken as given: the overall
    score lies in [0, 1] when they do. *)
Theorem evaluate_solution_overall_score (now : Z) (solution : ImplementationSolution)
    (feedback : EvaluatorFeedback) :
  let ev := evaluate_solution now solution feedback in
  status ev = "completed"
  /\ completed_at ev = Some now
  /\ ev_solution_id ev = solution_id solution
  /\ functionality_score ev = default 0 (fb_functionality_score feedback)
  /\ overall_score ev
     == (4 # 10) * functionality_score ev + (2 # 10) * code_quality_score ev
        + (2 # 10) * performance_score ev + (2 # 10) * user_satisfaction_score ev
  /\ (scores_in_range ev -> 0 <= overall_score ev <= 1).
Proof.
  cbv zeta.
  assert (Hscore : overall_score (evaluate_solution now solution feedback)
     == (4 # 10) * functionality_score (evaluate_solution now solution feedback)
        + (2 # 10) * code_quality_score (evaluate_solution now solution feedback)
        + (2 # 10) * performance_score (evaluate_solution now solution feedback)
        + (2 # 10) * user_satisfaction_score (evaluate_solution now solution feedback)).
  { unfold evaluate_solution, calculate_overall_score, get_reward_criteria, accumulate,
      weighted_term. cbn.
    replace (Qle_bool (0 + (4 # 10) + (2 # 10) + (2 # 10) + (2 # 10)) 0) with false
      by reflexivity.
    cbn [negb]. field. }
  repeat split; try reflexivity; try exact Hscore.
  - destruct H as ((F0 & F1) & (C0 & C1) & (P0 & P1) & (U0 & U1)). rewrite Hscore.
    assert (Hterm : forall w s, 0 <= w -> 0 <= s -> 0 <= w * s)
      by (intros; now apply Qmult_le_0_compat).
    assert (Hsum : forall a b, 0 <= a -> 0 <= b -> 0 <= a + b).
    { intros a b Ha Hb. rewrite <- (Qplus_0_r 0). now apply Qplus_le_compat. }
    repeat apply Hsum; apply Hterm; trivial; discriminate.
  - destruct H as ((F0 & F1) & (C0 & C1) & (P0 & P1) & (U0 & U1)). rewrite Hscore.
    assert (Hterm : forall w s, 0 <= w -> s <= 1 -> w * s <= w).
    { intros w s Hw Hs. rewrite <- (Qmult_1_r w) at 2.
      rewrite !(Qmult_comm w). now apply Qmult_le_compat_r. }
    apply Qle_trans with ((4 # 10) + (2 # 10) + (2 # 10) + (2 # 10)); [|discriminate].
    repeat apply Qplus_le_compat; apply Hterm; trivial; discriminate.
Qed.
End EvaluationFacts.

(** ** Rolling a solution back *)

Module RollbackFacts.
Import Models KnowledgeManager Notions StoreNotions Rollback.

(** X18.  [rollback_solution] never rolls anything back.  The Store has no
    [update_solution] method, so for every identifier, stored or not, the
    call returns [False] and the store is as before: a solution stored as
    accepted (one whose row the database takes, without operation,
    validation result and visual analysis) is still read back as accepted
    and still returned by the search after its rollback. *)
Theorem rollback_solution_changes_nothing (db_ok : bool) (now : Z) (sid : string)
    (st : KnowledgeStore.KnowledgeStore) :
  KnowledgeStore.has_method "update_solution" = false
  /\ rollback_solution_agent db_ok now sid st = (false, st)
  /\ forall ports t sol llm request,
       db_solution_ok ports = true ->
       KnowledgeStore.has_solution (solution_id sol) st = false ->
       (length (accepted_rows st) < 5)%nat ->
       operations sol = [] -> validation_result sol = None -> visual_analysis sol = [] ->
       let st1 := stored_store ports t sol ACCEPTED st in
       let st2 := snd (rollback_solution_agent true now (solution_id sol) st1) in
       fst (rollback_solution_agent true now (solution_id sol) st1) = false
       /\ (exists row, KnowledgeStore.get_solution true (solution_id sol) st2 = Some row
                       /\ reward_decision row = ACCEPTED)
       /\ stored_solution ports t sol ACCEPTED st
          ∈ search_similar_solutions llm true (Some request) st2.
Proof.
  assert (Hnothing : forall ok s st0, rollback_solution_agent ok now s st0 = (false, st0)).
  { intros ok s st0. unfold rollback_solution_agent, rollback_solution, update_solution.
    now destruct (KnowledgeStore.get_solution ok s st0). }
  split; [reflexivity|]. split; [apply Hnothing|].
  intros ports t sol llm request Hdb Hnew Hlen Hops Hvr Hva. cbv zeta.
  assert (Hjson : KnowledgeStore.json_columns_ok sol = true)
    by (apply KnowledgeFacts.json_columns_ok_true; now repeat split).
  rewrite Hnothing. cbn [fst snd]. split; [reflexivity|].
  pose proof (KnowledgeFacts.store_call_solutions ports t sol ACCEPTED st) as Hsol.
  rewrite Hdb, Hnew, Hjson in Hsol. cbn [andb negb] in Hsol.
  split.
  - exists (stored_solution ports t sol ACCEPTED st). split; [|reflexivity].
    unfold KnowledgeStore.get_solution. rewrite Hsol.
    rewrite <- (KnowledgeFacts.stored_solution_id ports t sol ACCEPTED st).
    apply KnowledgeFacts.find_snoc_new.
    rewrite KnowledgeFacts.stored_solution_id. exact Hnew.
  - rewrite KnowledgeFacts.search_is_ranked_prefix, (SimilarityFacts.rank_perm request).
    rewrite KnowledgeFacts.accepted_rows_after_store, Hdb, Hnew, Hjson.
    cbn [andb negb RewardDecision_eqb].
    apply elem_of_take. exists (length (accepted_rows st)). split; [|exact Hlen].
    now rewrite lookup_app_r, Nat.sub_diag by lia.
Qed.
End RollbackFacts.

(** ** The developer graph *)

Module DeveloperGraphFacts.
Import Models DeveloperGraph DeveloperNotions.
Local Open Scope Z_scope.

Section Runs.
Variable ports : Ports.
Implicit Types (state : State) (c : Config).

Lemma Node_eqb_END (n : Node) : Node_eqb n END = true <-> n = END.
Proof. destruct n; cbn; split; congruence. Qed.

Lemma develop_run_step (k : nat) c :
  node_of c <> END -> run ports (S k) c = run ports k (step ports c).
Proof.
  intros H. cbn [run]. destruct (Node_eqb (node_of c) END) eqn:E; [|reflexivity].
  apply Node_eqb_END in E. contradiction.
Qed.

Lemma develop_run_at_END (k : nat) c : node_of c = END -> run ports k c = c.
Proof.
  intros H. destruct k; [reflexivity|]. cbn [run].
  now replace (Node_eqb (node_of c) END) with true by (symmetry; now apply Node_eqb_END).
Qed.

Lemma develop_run_add (k m : nat) c : run ports (k + m) c = run ports m (run ports k c).
Proof.
  revert c. induction k as [|k IH]; intros c; [reflexivity|].
  cbn [Nat.add run]. destruct (Node_eqb (node_of c) END) eqn:E.
  - apply Node_eqb_END in E. now rewrite develop_run_at_END.
  - apply IH.
Qed.

Lemma develop_run_beyond_END (k m : nat) c :
  node_of (run ports k c) = END -> run ports (k + m) c = run ports k c.
Proof. intros H. rewrite develop_run_add. now apply develop_run_at_END. Qed.

(** *** What a run keeps *)

Lemma all_done_succeeded state :
  consistent state ->
  Z.of_nat (length (operations (solution state))) <= current_operation_index state ->
  Forall succeeded (operations (solution state)).
Proof.
  intros (_ & _ & Hops) Hdone. apply Forall_lookup. intros i op Hi.
  apply (Hops i op Hi). apply lookup_lt_Some in Hi. lia.
Qed.

Lemma consistent_count_error state : consistent state -> consistent (count_error state).
Proof. trivial. Qed.

Lemma plan_loop_keeps (now : Z) (entries : list OpData) state :
  consistent state ->
  validation_result (solution state) = None ->
  current_operation_index state = 0 ->
  let state' := snd (plan_loop now entries state) in
  consistent state'
  /\ validation_result (solution state') = None
  /\ current_operation_index state' = 0.
Proof.
  cbv zeta. revert state. induction entries as [|entry entries IH];
    intros state Hc Hv Hi; [now cbn|].
  cbn [plan_loop].
  destruct (bool_decide _ && bool_decide _); [|now cbn].
  apply IH; [|exact Hv|exact Hi].
  destruct Hc as (Hlen & Hrange & Hops). repeat split.
  - cbn. rewrite !length_app. cbn. lia.
  - cbn. lia.
  - cbn. rewrite length_app. lia.
  - cbn in *. lia.
  - cbn in *. intros Hs.
    apply lookup_app_Some in H as [H|[_ H]].
    + destruct (proj2 (Hops i op H) Hs) as (action & target & Hp & Hsup).
      exists action, target. split; [|exact Hsup]. now apply lookup_app_l_Some.
    + destruct (i - length (operations (solution state)))%nat; [|discriminate].
      injection H as <-. discriminate Hs.
Qed.

Lemma execute_operation_result (t : nat) (action : string) (op : LowCodeOperation) :
  let result := execute_operation ports t action op in
  if fst result
  then succeeded (snd result) /\ action ∈ supported_actions
  else succeeded (snd result) -> succeeded op.
Proof.
  cbv zeta. unfold execute_operation, _execute_action.
  destruct (page_ready ports t); cbn [negb]; [|cbn; discriminate].
  destruct (element_found ports t); cbn [negb]; [|cbn; trivial].
  destruct (bool_decide (action ∈ supported_actions)) eqn:Hsup.
  - apply bool_decide_eq_true in Hsup.
    destruct (action_outcome ports t); cbn; [now split|discriminate].
  - cbn. discriminate.
Qed.

Lemma located_success (t : nat) (target : string) (op : LowCodeOperation) :
  op_success (located ports t target op) = op_success op.
Proof.
  unfold located. destruct (_ && _); [|reflexivity].
  now destruct (vision_find_element_suggestions ports t).
Qed.

Lemma position_within {A : Type} (l : list A) (i : Z) :
  0 <= i < Z.of_nat (length l) -> position l i = Some (Z.to_nat i).
Proof.
  intros H. unfold position.
  replace ((0 <=? i) && (i <? Z.of_nat (length l))) with true; [reflexivity|].
  symmetry. apply andb_true_iff. split; [apply Z.leb_le|apply Z.ltb_lt]; lia.
Qed.

(** The state [_execute_operations] returns: unchanged but for the
    error count, or with one operation executed. *)
Lemma execute_operations_keeps (t : nat) state :
  consistent state ->
  let state' := _execute_operations ports t state in
  consistent state'
  /\ validation_result (solution state') = validation_result (solution state)
  /\ length (operations (solution state')) = length (operations (solution state))
  /\ current_operation_index state <= current_operation_index state'
  /\ (Z.of_nat (length (operations (solution state))) <= current_operation_index state ->
      state' = state).
Proof.
  intros Hc. cbv zeta. unfold _execute_operations.
  destruct (Z.leb_spec (Z.of_nat (length (operations (solution state))))
                       (current_operation_index state)) as [Hdone|Hmore].
  { split; [exact Hc|]. split; [reflexivity|]. split; [reflexivity|]. split; [lia|trivial]. }
  pose proof Hc as (Hlen & Hrange & Hops).
  rewrite position_within by lia.
  set (i := Z.to_nat (current_operation_index state)).
  assert (Hi : (i < length (operations (solution state)))%nat) by (unfold i; lia).
  destruct (lookup_lt_is_Some_2 _ _ Hi) as [current_op Hop]. rewrite Hop.
  assert (Hi' : (i < length (planned state))%nat) by lia.
  destruct (lookup_lt_is_Some_2 _ _ Hi') as [[action target] Hpl]. rewrite Hpl.
  destruct (browser_create_checkpoint ports t) as [[]|e].
  2:{ split; [exact Hc|]. split; [reflexivity|]. split; [reflexivity|].
      split; [cbn; lia|]. intros; lia. }
  pose proof (execute_operation_result t action (located ports t target current_op)) as Hres.
  cbv zeta in Hres.
  destruct (execute_operation ports t action (located ports t target current_op))
    as [success op'].
  cbn [fst snd] in Hres.
  assert (Hothers : forall j op, <[i := op']> (operations (solution state)) !! j = Some op ->
                                 j = i /\ op = op' \/ j <> i /\ operations (solution state) !! j = Some op).
  { intros j op Hj. apply list_lookup_insert_Some in Hj as [(-> & -> & _)|[Hne Hj]];
      [now left|right; split; [congruence|exact Hj]]. }
  destruct success.
  - destruct Hres as [Hsucc Hsup].
    split; [|cbn; rewrite length_insert; split; [reflexivity|]; split; [reflexivity|];
             split; [lia|intros; lia]].
    unfold consistent. cbn. rewrite length_insert.
    split; [exact Hlen|]. split; [lia|].
    intros j op Hj. destruct (Hothers j op Hj) as [[-> ->]|[Hne Hj']].
    + split; [trivial|]. intros _. exists action, target. now split.
    + split; [|apply (Hops j op Hj')].
      intros Hlt. apply (Hops j op Hj'). unfold i in Hne. lia.
  - split; [|cbn; rewrite length_insert; split; [reflexivity|]; split; [reflexivity|];
             split; [lia|intros; lia]].
    unfold consistent. cbn. rewrite length_insert.
    split; [exact Hlen|]. split; [lia|].
    intros j op Hj. destruct (Hothers j op Hj) as [[-> ->]|[Hne Hj']].
    + split; [unfold i; lia|]. intros Hs. apply Hres in Hs.
      unfold succeeded in Hs. rewrite located_success in Hs.
      destruct (proj2 (Hops i current_op Hop) Hs) as (a & tg & Ha & Hsup).
      exists a, tg. split; [exact Ha|exact Hsup].
    + apply (Hops j op Hj').
Qed.

Lemma validate_result_keeps (t : nat) state :
  let state' := _validate_result ports t state in
  operations (solution state') = operations (solution state)
  /\ planned state' = planned state
  /\ current_operation_index state' = current_operation_index state.
Proof.
  cbv zeta. unfold _validate_result.
  destruct (vision_analyze_screenshot ports t) as [suggestions confidence].
  destruct (_ && _); [|now cbn]. now cbn.
Qed.

Lemma handle_error_keeps state :
  consistent state ->
  let state' := _handle_error state in
  consistent state'
  /\ operations (solution state') = operations (solution state)
  /\ validation_result (solution state') = validation_result (solution state).
Proof.
  intros Hc. cbv zeta. unfold _handle_error.
  destruct (max_errors state <=? error_count state); [now cbn|].
  destruct (checkpoints state); [now cbn|].
  destruct (Z.ltb_spec 0 (current_operation_index state)); [|now cbn].
  split; [|now cbn].
  destruct Hc as (Hlen & Hrange & Hops). split; [exact Hlen|]. split; [cbn; lia|].
  intros i op Hi. cbn in *. split; [|apply (Hops i op Hi)].
  intros Hlt. apply (Hops i op Hi). lia.
Qed.

Lemma step_reachable c : reachable c -> reachable (step ports c).
Proof.
  destruct c as [[n state] t]. unfold reachable, step.
  cbn [node_of state_of time_of fst snd]. intros [Hc Hn].
  destruct n; cbn [node_function next_node].
  - (* analyze_request *)
    unfold _analyze_request. destruct (llm_analysis ports); now cbn.
  - (* plan_implementation *)
    destruct Hn as [Hv Hi]. unfold _plan_implementation.
    destruct (llm_plan ports) as [entries|e]; [|split; [exact Hc|cbn; congruence]].
    pose proof (plan_loop_keeps (clock ports t) entries state Hc Hv Hi) as (Hc' & Hv' & Hi').
    destruct (plan_loop (clock ports t) entries state) as [[|] state']; cbn [snd] in *;
      (split; [trivial|cbn; congruence]).
  - (* authenticate *)
    assert (Hkeep : consistent (_authenticate ports t state)
                    /\ operations (solution (_authenticate ports t state))
                       = operations (solution state)
                    /\ validation_result (solution (_authenticate ports t state))
                       = validation_result (solution state)
                    /\ current_operation_index (_authenticate ports t state)
                       = current_operation_index state).
    { unfold _authenticate.
      repeat match goal with |- context [if ?b then _ else _] => destruct b end;
        now cbn. }
    destruct Hkeep as (Hc' & Hops' & Hv' & Hi'). split; [exact Hc'|].
    destruct (_should_continue_after_auth (_authenticate ports t state));
      rewrite ?Hops', ?Hv', ?Hi'; trivial.
    intros Hv. rewrite <- Hops'. apply all_done_succeeded; [exact Hc'|].
    rewrite Hops', Hi'. now apply Hn.
  - (* execute_operations *)
    pose proof (execute_operations_keeps t state Hc) as (Hc' & Hv' & Hlen' & Hi' & Hsame).
    cbv zeta in *. split; [exact Hc'|].
    destruct (_should_continue_execution (_execute_operations ports t state)) eqn:E.
    + rewrite Hv', Hlen'. intros Hv. specialize (Hn Hv). lia.
    + unfold _should_continue_execution in E.
      destruct (max_errors _ <=? error_count _); [discriminate|].
      destruct (Z.leb_spec (Z.of_nat (length (operations
                   (solution (_execute_operations ports t state)))))
                 (current_operation_index (_execute_operations ports t state)));
        [assumption|discriminate].
    + rewrite Hv'. intros Hv. apply all_done_succeeded; [exact Hc'|].
      rewrite Hlen'. specialize (Hn Hv). lia.
  - (* validate_result *)
    pose proof (validate_result_keeps t state) as (Hops' & Hpl' & Hi'). cbv zeta in *.
    assert (Hc' : consistent (_validate_result ports t state)).
    { unfold consistent. now rewrite Hops', Hpl', Hi'. }
    split; [exact Hc'|].
    destruct (_should_continue_after_validation (_validate_result ports t state));
      rewrite ?Hops', ?Hi'; trivial;
      intros _; rewrite <- Hops'; apply all_done_succeeded; trivial;
      now rewrite Hops', Hi'.
  - (* handle_error *)
    pose proof (handle_error_keeps state Hc) as (Hc' & Hops' & Hv'). cbv zeta in *.
    split; [exact Hc'|]. now rewrite Hops', Hv'.
  - (* finalize_solution *)
    split; [exact Hc|exact Hn].
  - split; [exact Hc|exact Hn].
Qed.

Lemma run_reachable (k : nat) c : reachable c -> reachable (run ports k c).
Proof.
  revert c. induction k as [|k IH]; intros c Hc; [exact Hc|].
  cbn [run]. destruct (Node_eqb (node_of c) END); [exact Hc|].
  apply IH, step_reachable, Hc.
Qed.

Lemma initial_reachable (fresh_id : string) (now : Z) (req : DevelopmentRequest) (t : nat) :
  reachable (analyze_request, initial_state fresh_id now req, t).
Proof.
  split; [|now cbn]. split; [reflexivity|]. split; [cbn; lia|].
  intros i op Hi. cbn in Hi. now rewrite lookup_nil in Hi.
Qed.

(** A run that reaches [END] ends with the state [_finalize_solution]
    returned. *)
Lemma develop_END_state_is_finalized (k : nat) c :
  reachable c -> node_of c <> END -> node_of (run ports k c) = END ->
  exists state t,
    reachable (finalize_solution, state, t)
    /\ state_of (run ports k c) = _finalize_solution ports t state.
Proof.
  revert c. induction k as [|k IH]; intros c Hc Hn Hend; [cbn in Hend; congruence|].
  rewrite develop_run_step in * by exact Hn.
  destruct (Node_eqb (node_of (step ports c)) END) eqn:E.
  - apply Node_eqb_END in E. rewrite develop_run_at_END in * by exact E.
    destruct c as [[n state] t]. unfold step in *.
    cbn [node_of state_of time_of fst snd] in *.
    destruct n; cbn [next_node] in E; try congruence.
    + now destruct (_should_continue_after_auth _).
    + now destruct (_should_continue_execution _).
    + now destruct (_should_continue_after_validation _).
    + exists state, t. split; [exact Hc|reflexivity].
  - apply IH; [apply step_reachable, Hc| |exact Hend].
    intros H. apply Node_eqb_END in H. congruence.
Qed.

Lemma develop_time_of_run (k : nat) c : (time_of (run ports k c) <= time_of c + k)%nat.
Proof.
  revert c. induction k as [|k IH]; intros c; [cbn; lia|].
  cbn [run]. destruct (Node_eqb (node_of c) END); [lia|].
  specialize (IH (step ports c)). unfold step, time_of in *. cbn [snd] in *. lia.
Qed.
End Runs.

(** What [develop] returns.  The engine hands the final values back as a
    mapping, on which neither [hasattr] test holds: when the run reaches
    [END] within the limit, [develop] builds a rejected solution of its
    own; when the engine gives up, the handler builds one. *)
Lemma develop_returns (ports : Ports) (limit : nat) (fresh_id fresh_id' : string)
    (now now' : Z) (req : DevelopmentRequest) :
  develop ports limit fresh_id fresh_id' now now' (Some req)
  = Returned
      (if Node_eqb (node_of (run ports limit
                               (analyze_request, initial_state fresh_id now req, O))) END
       then fallback_solution fresh_id' now' req
       else failed_solution fresh_id' now' req "GraphRecursionError").
Proof.
  unfold develop, ainvoke, try_except, mbind, Outcome_bind, obind.
  now destruct (Node_eqb (node_of (run ports limit _)) END).
Qed.

Lemma develop_of_finished_run (ports : Ports) (k limit : nat) (fresh_id fresh_id' : string)
    (now now' : Z) (req : DevelopmentRequest) :
  node_of (run ports k (analyze_request, initial_state fresh_id now req, O)) = END ->
  (k <= limit)%nat ->
  develop ports limit fresh_id fresh_id' now now' (Some req)
  = Returned (fallback_solution fresh_id' now' req).
Proof.
  intros Hend Hle. rewrite develop_returns.
  replace limit with (k + (limit - k))%nat by lia.
  rewrite develop_run_beyond_END by exact Hend.
  apply Node_eqb_END in Hend. now rewrite Hend.
Qed.

Lemma all_succeeded_filter (ops : list LowCodeOperation) :
  Forall succeeded ops -> List.filter Developer.success_is_True ops = ops.
Proof.
  induction 1 as [|op ops Hop _ IH]; [reflexivity|].
  cbn. unfold Developer.success_is_True at 1. rewrite Hop. now rewrite IH.
Qed.

Lemma all_succeeded_rate (ops : list LowCodeOperation) :
  Forall succeeded ops -> ops <> [] ->
  (Developer.finalized_success_rate ops == 1)%Q.
Proof.
  intros Hall Hne. unfold Developer.finalized_success_rate, Developer.successful_operations.
  rewrite all_succeeded_filter by exact Hall.
  destruct ops as [|op ops]; [congruence|].
  replace (0 <? Z.of_nat (length (op :: ops))) with true
    by (symmetry; apply Z.ltb_lt; cbn [length]; lia).
  field. unfold Qeq. cbn. lia.
Qed.

Lemma finalized_body_decision (now : Z) (sol : ImplementationSolution) :
  (validation_result sol <> None -> Forall succeeded (operations sol)) ->
  let final := Developer.finalize_solution_body now sol in
  operations final = operations sol
  /\ validation_result final = validation_result sol
  /\ match reward_decision final with
     | ACCEPTED =>
         (exists result, validation_result final = Some result /\ is_valid result = true)
         /\ operations final <> []
         /\ Forall succeeded (operations final)
         /\ (success_rate final == 1)%Q
     | PENDING =>
         (exists result, validation_result final = Some result /\ is_valid result = true)
         /\ operations final = []
     | REJECTED =>
         forall result, validation_result final = Some result -> is_valid result = false
     end.
Proof.
  intros Hall. cbv zeta. split; [reflexivity|]. split; [reflexivity|].
  unfold Developer.finalize_solution_body. cbn.
  destruct (validation_result sol) as [result|] eqn:Hv; cbn; [|discriminate].
  destruct (is_valid result) eqn:Hvalid; [|now intros ? [= <-]].
  specialize (Hall ltac:(discriminate)).
  destruct (operations sol) as [|op ops] eqn:Hops.
  - cbn. split; [eauto|reflexivity].
  - rewrite <- Hops in *.
    assert (Hrate : (Developer.finalized_success_rate (operations sol) == 1)%Q)
      by (apply all_succeeded_rate; [exact Hall|congruence]).
    replace (Qle_bool (8 # 10) (Developer.finalized_success_rate (operations sol)))
      with true by (symmetry; apply Qle_bool_iff; rewrite Hrate; discriminate).
    split; [eauto|]. split; [congruence|]. split; [exact Hall|exact Hrate].
Qed.

(** X19.  What [develop] returns and what the run behind it says.
    [develop] always returns a solution when given a request, and never
    the solution of the run: the engine hands the final values back as a
    mapping, on which neither [hasattr] test holds, so a run that reaches
    [END] is answered with the rejected solution "失败方案" without
    operations and without developer agent, and a run the engine gives up
    with the rejected solution of the handler.  The graph run, when it
    reaches [END], leaves in its state a solution that is accepted only if
    the page check passed, there is at least one operation, every
    operation was executed with success (so that the success rate is 1)
    and every planned action is one the browser automation supports;
    pending only if the page check passed on an empty plan; and rejected
    only if no page check passed. *)
Theorem develop_decision_reflects_execution (ports : Ports) (limit : nat)
    (fresh_id fresh_id' : string) (now now' : Z) (req : DevelopmentRequest) :
  let final := run ports limit (analyze_request, initial_state fresh_id now req, O) in
  (exists sol, develop ports limit fresh_id fresh_id' now now' (Some req) = Returned sol
               /\ reward_decision sol = REJECTED
               /\ operations sol = []
               /\ validation_result sol = None
               /\ sol_request_id sol = request_id req
               /\ solution_id sol = fresh_id'
               /\ (node_of final = END ->
                   sol = fallback_solution fresh_id' now' req
                   /\ description sol = Some "智能体执行失败"
                   /\ developer_agent sol = None)
               /\ (node_of final <> END ->
                   exists e, sol = failed_solution fresh_id' now' req e))
  /\ (node_of final = END ->
      let sol := solution (state_of final) in
      match reward_decision sol with
      | ACCEPTED =>
          (exists result, validation_result sol = Some result /\ is_valid result = true)
          /\ operations sol <> []
          /\ Forall succeeded (operations sol)
          /\ (success_rate sol == 1)%Q
          /\ Forall (fun p => fst p ∈ supported_actions) (planned (state_of final))
      | PENDING =>
          (exists result, validation_result sol = Some result /\ is_valid result = true)
          /\ operations sol = []
      | REJECTED =>
          forall result, validation_result sol = Some result -> is_valid result = false
      end).
Proof.
  cbv zeta. split.
  - rewrite develop_returns.
    destruct (Node_eqb (node_of (run ports limit _)) END) eqn:E.
    + apply Node_eqb_END in E. eexists. split; [reflexivity|].
      do 5 (split; [reflexivity |]). split; [now intros _ | congruence].
    + eexists. split; [reflexivity|].
      do 5 (split; [reflexivity |]). split; [| intros _; now eexists].
      intros H. apply Node_eqb_END in H. congruence.
  - intros Hend.
    destruct (develop_END_state_is_finalized ports limit _ (initial_reachable fresh_id now req O)
                ltac:(discriminate) Hend) as (state & t & [Hc Hall] & Hfinal).
    cbn [node_of state_of fst snd] in Hc, Hall. rewrite Hfinal.
    unfold _finalize_solution. cbn [solution set_solution planned].
    pose proof (finalized_body_decision (clock ports t) (solution state) Hall)
      as (Hops & Hv & Hdec). cbv zeta in Hdec.
    destruct (reward_decision (Developer.finalize_solution_body (clock ports t)
                                 (solution state))); [|exact Hdec|exact Hdec].
    destruct Hdec as (Hvalid & Hne & Hsucc & Hrate).
    repeat (split; [assumption|]).
    destruct Hc as (Hlen & _ & Hplanned).
    apply Forall_lookup. intros i [action target] Hi. cbn [fst].
    destruct (lookup_lt_is_Some_2 (operations (solution state)) i) as [op Hop].
    { rewrite <- Hlen. now apply lookup_lt_Some in Hi. }
    destruct (proj2 (Hplanned i op Hop)) as (a & tg & Ha & Hsup).
    { rewrite Hops in Hsucc. eapply Forall_lookup_1; eassumption. }
    congruence.
Qed.

Section Login.
Variable ports : Ports.
Hypothesis no_login : never_authenticates ports.

Lemma authenticate_fails (t : nat) (state : State) :
  is_authenticated state = false -> _authenticate ports t state = count_error state.
Proof.
  intros Hna. unfold _authenticate. rewrite Hna. specialize (no_login t).
  destruct (operations_initialize ports t); cbn [negb andb] in *; [|reflexivity].
  destruct (String.eqb (env_username ports t) "" || String.eqb (env_password ports t) "");
    cbn [negb andb] in *; [reflexivity|].
  now rewrite no_login.
Qed.

Lemma login_loop (n : nat) (state : State) (t : nat) :
  is_authenticated state = false ->
  max_errors state - error_count state = Z.of_nat (S n) ->
  run ports (S n) (authenticate, state, t)
  = (handle_error, set_error_count (max_errors state) state, (t + S n)%nat).
Proof.
  revert state t. induction n as [|n IH]; intros state t Hna Hleft.
  - rewrite develop_run_step by discriminate. unfold step.
    cbn [node_of state_of time_of fst snd node_function next_node run].
    rewrite authenticate_fails by exact Hna.
    unfold _should_continue_after_auth. cbn [is_authenticated count_error set_error_count
      error_count max_errors]. rewrite Hna.
    replace (error_count state + 1 <? max_errors state) with false
      by (symmetry; apply Z.ltb_ge; lia).
    unfold count_error. repeat f_equal; lia.
  - rewrite develop_run_step by discriminate. unfold step.
    cbn [node_of state_of time_of fst snd node_function next_node].
    rewrite authenticate_fails by exact Hna.
    unfold _should_continue_after_auth. cbn [is_authenticated count_error set_error_count
      error_count max_errors]. rewrite Hna.
    replace (error_count state + 1 <? max_errors state) with true
      by (symmetry; apply Z.ltb_lt; lia).
    rewrite IH; [|exact Hna|cbn; lia]. cbn. f_equal. lia.
Qed.
End Login.

Lemma plan_loop_untouched (now : Z) (entries : list OpData) (state : State) :
  untouched state ->
  untouched (snd (plan_loop now entries state))
  /\ error_count (snd (plan_loop now entries state)) = error_count state.
Proof.
  revert state. induction entries as [|entry entries IH]; intros state Hu; [now cbn|].
  cbn [plan_loop]. destruct (bool_decide _ && bool_decide _); [|now cbn].
  match goal with |- context [plan_loop now entries ?s] => destruct (IH s) as [H1 H2] end.
  - destruct Hu as (Ha & Hc & Hi & Hm & Hv & Hops). repeat (split; [assumption|]).
    cbn. apply Forall_app. split; [exact Hops|]. now apply Forall_singleton.
  - split; [exact H1|exact H2].
Qed.

Lemma first_two_steps (ports : Ports) (fresh_id : string) (now : Z)
    (req : DevelopmentRequest) :
  exists state,
    run ports 2 (analyze_request, initial_state fresh_id now req, O)
    = (authenticate, state, 2%nat)
    /\ untouched state
    /\ 0 <= error_count state <= 2.
Proof.
  assert (H0 : untouched (initial_state fresh_id now req)).
  { repeat split. constructor. }
  do 2 (rewrite develop_run_step by discriminate; unfold step;
        cbn [node_of state_of time_of fst snd node_function next_node]).
  eexists. split; [reflexivity|].
  assert (H1 : untouched (_analyze_request ports (initial_state fresh_id now req))
               /\ 0 <= error_count (_analyze_request ports (initial_state fresh_id now req))
                  <= 1).
  { unfold _analyze_request. destruct (llm_analysis ports); cbn; (split; [exact H0|lia]). }
  destruct H1 as [H1 He]. unfold _plan_implementation.
  destruct (llm_plan ports) as [entries|e]; [|split; [exact H1|cbn; lia]].
  destruct (plan_loop_untouched (clock ports 1) entries _ H1) as [H2 He2].
  destruct (plan_loop (clock ports 1) entries _) as [[|] state]; cbn [snd] in *;
    (split; [exact H2|cbn; lia]).
Qed.

Lemma unexecuted_rate (ops : list LowCodeOperation) :
  Forall (fun op => op_success op = None) ops ->
  (Developer.finalized_success_rate ops == 0)%Q.
Proof.
  intros H. unfold Developer.finalized_success_rate, Developer.successful_operations.
  replace (List.filter Developer.success_is_True ops) with (@nil LowCodeOperation).
  - destruct (0 <? Z.of_nat (length ops)); [|reflexivity]. cbn [length Z.of_nat].
    unfold Qdiv. now rewrite Qmult_0_l.
  - induction H as [|op ops Hop _ IH]; [reflexivity|].
    cbn. unfold Developer.success_is_True at 1. now rewrite Hop.
Qed.

(** X20.  A login that never succeeds.  When every attempt to
    authenticate fails (no credentials configured, for instance), the
    graph tries until the error count reaches [max_errors] = 5, the errors
    of analysis and planning included, and then ends through error
    handling: [END] is reached after 9 transitions less those errors, no
    operation was executed, and the solution the run leaves is rejected
    with success rate 0.  [develop], for any recursion limit of at least
    9, is handed a mapping and returns its own rejected solution without
    operations, not the solution of the run. *)
Theorem failed_login_uses_up_the_error_budget (ports : Ports) (fresh_id : string)
    (now : Z) (req : DevelopmentRequest) :
  never_authenticates ports ->
  let c0 := (analyze_request, initial_state fresh_id now req, O) in
  let final := run ports 9 c0 in
  let sol := solution (state_of final) in
  node_of final = END
  /\ Z.of_nat (time_of final) = 9 - error_count (state_of (run ports 2 c0))
  /\ error_count (state_of final) = Developer.default_max_errors
  /\ is_authenticated (state_of final) = false
  /\ reward_decision sol = REJECTED
  /\ validation_result sol = None
  /\ Forall (fun op => op_success op = None) (operations sol)
  /\ (success_rate sol == 0)%Q
  /\ forall limit fresh_id' now',
       (9 <= limit)%nat ->
       develop ports limit fresh_id fresh_id' now now' (Some req)
       = Returned (fallback_solution fresh_id' now' req).
Proof.
  intros Hno. cbv zeta.
  destruct (first_two_steps ports fresh_id now req)
    as (s2 & Hrun2 & (Ha & Hc & Hi & Hm & Hv & Hops) & He).
  rewrite Hrun2. cbn [state_of fst snd].
  set (n := Z.to_nat (4 - error_count s2)).
  assert (Hn : max_errors s2 - error_count s2 = Z.of_nat (S n))
    by (rewrite Hm; unfold Developer.default_max_errors, n; lia).
  assert (Hrun : forall m,
             run ports (2 + (S n + S (S m))) (analyze_request, initial_state fresh_id now req, O)
             = (END,
                _finalize_solution ports (2 + S n + 1)
                  (_handle_error (set_error_count (max_errors s2) s2)),
                (2 + S n + 2)%nat)).
  { intros m. rewrite develop_run_add, Hrun2, develop_run_add, (login_loop ports Hno n s2 2 Ha Hn).
    do 2 (rewrite develop_run_step by discriminate; unfold step;
          cbn [node_of state_of time_of fst snd node_function next_node]).
    rewrite develop_run_at_END by reflexivity. repeat f_equal; lia. }
  assert (H9 : run ports 9 (analyze_request, initial_state fresh_id now req, O)
               = (END,
                  _finalize_solution ports (2 + S n + 1)
                    (_handle_error (set_error_count (max_errors s2) s2)),
                  (2 + S n + 2)%nat)).
  { rewrite <- (Hrun (Z.to_nat (error_count s2))). f_equal. unfold n. lia. }
  rewrite H9. cbn [node_of state_of time_of fst snd].
  assert (Hhandled : _handle_error (set_error_count (max_errors s2) s2)
                     = set_solution (set_reward_decision REJECTED (solution s2))
                         (set_error_count (max_errors s2) s2)).
  { unfold _handle_error. cbn [max_errors error_count set_error_count].
    now rewrite Z.leb_refl. }
  rewrite Hhandled. unfold _finalize_solution.
  cbn [solution set_solution set_error_count error_count is_authenticated].
  split; [reflexivity|]. split; [unfold n; lia|]. split; [exact Hm|]. split; [exact Ha|].
  assert (Hsol : reward_decision (Developer.finalize_solution_body (clock ports (2 + S n + 1))
                                    (set_reward_decision REJECTED (solution s2))) = REJECTED
                 /\ validation_result (Developer.finalize_solution_body
                                         (clock ports (2 + S n + 1))
                                         (set_reward_decision REJECTED (solution s2))) = None
                 /\ operations (Developer.finalize_solution_body (clock ports (2 + S n + 1))
                                  (set_reward_decision REJECTED (solution s2)))
                    = operations (solution s2)
                 /\ (success_rate (Developer.finalize_solution_body
                                     (clock ports (2 + S n + 1))
                                     (set_reward_decision REJECTED (solution s2))) == 0)%Q).
  { unfold Developer.finalize_solution_body. cbn. rewrite Hv. cbn.
    repeat split; trivial. now apply unexecuted_rate. }
  destruct Hsol as (Hd & Hv' & Hops' & Hrate).
  split; [exact Hd|]. split; [exact Hv'|]. split; [now rewrite Hops'|]. split; [exact Hrate|].
  intros limit fresh_id' now' Hlimit.
  apply (develop_of_finished_run ports 9 limit); [now rewrite H9 | exact Hlimit].
Qed.

Lemma failed_login_uses_up_the_error_budget_witness :
  let ports := DeveloperScenarios.no_credentials_ports DeveloperScenarios.two_step_plan in
  let final := run ports 9 (analyze_request,
                            initial_state "s-1" 0 Scenarios.invoice_request, O) in
  never_authenticates ports
  /\ node_of final = END
  /\ time_of final = 9%nat
  /\ reward_decision (solution (state_of final)) = REJECTED
  /\ develop ports 25 "s-1" "s-2" 0 9 (Some Scenarios.invoice_request)
     = Returned (fallback_solution "s-2" 9 Scenarios.invoice_request).
Proof.
  cbv zeta.
  assert (H : never_authenticates
                (DeveloperScenarios.no_credentials_ports DeveloperScenarios.two_step_plan))
    by (intros t; reflexivity).
  split; [exact H|].
  destruct (failed_login_uses_up_the_error_budget _ "s-1" 0 Scenarios.invoice_request H)
    as (Hend & Htime & _ & _ & Hd & _ & _ & _ & Hdev).
  split; [exact Hend|]. split; [| split; [exact Hd | apply Hdev; lia]].
  apply Nat2Z.inj. rewrite Htime. reflexivity.
Defined.

Section Cycle.
Variable ports : Ports.
Hypothesis failing : page_check_always_fails ports.

Lemma validation_cycle_step (c : Config) :
  in_validation_cycle c -> in_validation_cycle (step ports c).
Proof.
  destruct c as [[n state] t]. unfold in_validation_cycle, step.
  cbn [node_of state_of time_of fst snd]. cbv zeta.
  intros ([-> | ->] & Hdone & Hbudget & Hhalf & Hv); cbn [node_function next_node].
  - (* validate_result *)
    specialize (failing t). unfold _validate_result.
    destruct (vision_analyze_screenshot ports t) as [suggestions confidence].
    destruct failing as (Hs & H0 & H7).
    replace (Qle_bool 0 confidence && Qle_bool confidence 1) with true.
    2:{ symmetry. apply andb_true_iff. rewrite !Qle_bool_iff. split; [exact H0|].
        apply Qle_trans with (7 # 10); [exact H7|discriminate]. }
    rewrite Hs. replace (Qle_bool confidence (7 # 10)) with true
      by (symmetry; now apply Qle_bool_iff).
    cbn [orb negb].
    unfold _should_continue_after_validation.
    cbn [solution set_solution validation_result set_validation_result is_valid
         error_count max_errors].
    replace (max_errors state <=? error_count state) with false
      by (symmetry; apply Z.leb_gt; lia).
    replace (error_count state <? max_errors state / 2) with true
      by (symmetry; apply Z.ltb_lt; lia).
    split; [now right|]. cbn. repeat split; trivial.
  - (* execute_operations *)
    unfold _execute_operations.
    replace (Z.of_nat (length (operations (solution state)))
             <=? current_operation_index state) with true
      by (symmetry; apply Z.leb_le; lia).
    unfold _should_continue_execution.
    replace (max_errors state <=? error_count state) with false
      by (symmetry; apply Z.leb_gt; lia).
    replace (Z.of_nat (length (operations (solution state)))
             <=? current_operation_index state) with true
      by (symmetry; apply Z.leb_le; lia).
    split; [now left|]. repeat split; trivial.
Qed.

Lemma validation_cycle_run (k : nat) (c : Config) :
  in_validation_cycle c -> in_validation_cycle (run ports k c).
Proof.
  revert c. induction k as [|k IH]; intros c Hc; [exact Hc|].
  cbn [run]. destruct (Node_eqb (node_of c) END); [exact Hc|].
  apply IH, validation_cycle_step, Hc.
Qed.
End Cycle.

(** X21.  A page check that keeps failing is repeated for ever.  Once
    every operation is executed and fewer than [max_errors // 2] errors
    are counted, a failed page check takes the [retry] edge to
    [execute_operations], which has nothing left to do and hands back to
    [validate_result]: no number of transitions reaches [END], and no
    error is counted on the way.  When a run of [develop] gets there,
    [develop] returns the solution of its handler, rejected and without
    operations, whatever the recursion limit. *)
Theorem failed_page_check_is_retried_for_ever (ports : Ports) (c : Config) :
  page_check_always_fails ports ->
  in_validation_cycle c ->
  (forall k, node_of (run ports k c) <> END
             /\ error_count (state_of (run ports k c)) < max_errors (state_of c) / 2)
  /\ forall fresh_id fresh_id' now now' req k0 limit,
       run ports k0 (analyze_request, initial_state fresh_id now req, O) = c ->
       develop ports limit fresh_id fresh_id' now now' (Some req)
       = Returned (failed_solution fresh_id' now' req "GraphRecursionError").
Proof.
  intros Hfail Hc.
  assert (Hnever : forall k, node_of (run ports k c) <> END).
  { intros k. destruct (validation_cycle_run ports Hfail k c Hc) as ([H|H] & _);
      rewrite H; discriminate. }
  assert (Hmax : forall k c', in_validation_cycle c' ->
                   max_errors (state_of (run ports k c')) = max_errors (state_of c')).
  { induction k as [|k IH]; intros c' Hc'; [reflexivity|].
    cbn [run]. destruct (Node_eqb (node_of c') END); [reflexivity|].
    rewrite IH by (now apply validation_cycle_step).
    destruct c' as [[n state] t]. destruct Hc' as ([Hn|Hn] & _);
      cbn [node_of fst] in Hn; subst n; unfold step;
      cbn [node_of state_of time_of fst snd node_function].
    - unfold _validate_result. destruct (vision_analyze_screenshot ports t).
      destruct (_ && _); reflexivity.
    - pose proof (execute_operations_keeps ports t state) as Hk.
      unfold _execute_operations.
      repeat match goal with
             | |- context [if ?b then _ else _] => destruct b
             | |- context [match ?x with _ => _ end] => destruct x
             end; reflexivity. }
  split.
  - intros k. split; [apply Hnever|].
    destruct (validation_cycle_run ports Hfail k c Hc) as (_ & _ & _ & Hhalf & _).
    cbv zeta in Hhalf. now rewrite Hmax in Hhalf.
  - intros fresh_id fresh_id' now now' req k0 limit Hrun.
    rewrite develop_returns.
    replace (Node_eqb (node_of (run ports limit _)) END) with false; [reflexivity|].
    symmetry. apply not_true_is_false. intros Hend. apply Node_eqb_END in Hend.
    destruct (Nat.le_gt_cases limit k0) as [Hle|Hgt].
    + replace k0 with (limit + (k0 - limit))%nat in Hrun by lia.
      rewrite develop_run_beyond_END in Hrun by exact Hend.
      apply (Hnever O). cbn [run]. now rewrite <- Hrun.
    + replace limit with (k0 + (limit - k0))%nat in Hend by lia.
      rewrite develop_run_add, Hrun in Hend. now apply (Hnever (limit - k0)%nat).
Qed.

Lemma failed_page_check_is_retried_for_ever_witness :
  let ports := DeveloperScenarios.working_ports DeveloperScenarios.two_step_plan
                 ["the form is still empty"] (1 # 2) in
  let c := run ports 5 (analyze_request,
                        initial_state "s-1" 0 Scenarios.invoice_request, O) in
  page_check_always_fails ports
  /\ in_validation_cycle c
  /\ node_of (run ports 20 c) <> END
  /\ develop ports 25 "s-1" "s-2" 0 9 (Some Scenarios.invoice_request)
     = Returned (failed_solution "s-2" 9 Scenarios.invoice_request "GraphRecursionError").
Proof.
  cbv zeta.
  assert (Hfail : page_check_always_fails
                    (DeveloperScenarios.working_ports DeveloperScenarios.two_step_plan
                       ["the form is still empty"] (1 # 2))).
  { intros t. cbn. split; [reflexivity|]. split; discriminate. }
  assert (Hc : in_validation_cycle
                 (run (DeveloperScenarios.working_ports DeveloperScenarios.two_step_plan
                         ["the form is still empty"] (1 # 2)) 5
                    (analyze_request, initial_state "s-1" 0 Scenarios.invoice_request, O))).
  { vm_compute. repeat split; try reflexivity; try discriminate. now left. }
  split; [exact Hfail|]. split; [exact Hc|].
  destruct (failed_page_check_is_retried_for_ever _ _ Hfail Hc) as [Hnever Hdev].
  split; [apply Hnever|].
  apply (Hdev "s-1" "s-2" 0 9 Scenarios.invoice_request 5%nat 25%nat). reflexivity.
Defined.

Lemma plan_loop_executable (now : Z) (entries : list OpData) (state : State) :
  Forall executable entries ->
  Forall (fun p => fst p ∈ supported_actions) (planned state) ->
  let result := plan_loop now entries state in
  fst result = true
  /\ length (operations (solution (snd result)))
     = (length (operations (solution state)) + length entries)%nat
  /\ Forall (fun p => fst p ∈ supported_actions) (planned (snd result)).
Proof.
  cbv zeta. revert state. induction entries as [|entry entries IH]; intros state He Hp.
  - cbn. repeat split; [lia|exact Hp].
  - apply Forall_cons in He as [[Hty Hact] He]. cbn [plan_loop].
    rewrite (bool_decide_eq_true_2 _ Hty).
    assert (Hact' : default "click" (od_action entry) ∈ action_values).
    { apply list_elem_of_In. apply list_elem_of_In in Hact. cbn in *. tauto. }
    rewrite (bool_decide_eq_true_2 _ Hact'). cbn [andb].
    match goal with |- context [plan_loop now entries ?s] =>
      destruct (IH s He) as (H1 & H2 & H3) end.
    { cbn. apply Forall_app. split; [exact Hp|]. now apply Forall_singleton. }
    split; [exact H1|]. split; [|exact H3].
    rewrite H2. cbn. rewrite length_app. cbn. lia.
Qed.

Lemma plan_loop_frame (now : Z) (entries : list OpData) (state : State) :
  error_count (snd (plan_loop now entries state)) = error_count state
  /\ max_errors (snd (plan_loop now entries state)) = max_errors state
  /\ is_authenticated (snd (plan_loop now entries state)) = is_authenticated state.
Proof.
  revert state. induction entries as [|entry entries IH]; intros state; [now cbn|].
  cbn [plan_loop]. destruct (_ && _); [|now cbn].
  match goal with |- context [plan_loop now entries ?s] =>
    destruct (IH s) as (H1 & H2 & H3) end.
  now rewrite H1, H2, H3.
Qed.

Section Working.
Variable ports : Ports.
Hypothesis working : browser_always_works ports.

Lemma execute_operation_works (t : nat) (action : string) (op : LowCodeOperation) :
  action ∈ supported_actions -> fst (execute_operation ports t action op) = true.
Proof.
  intros Hsup. destruct (working t) as (_ & Hpage & Helem & [done Hact]).
  unfold execute_operation, _execute_action. rewrite Hpage, Helem. cbn [negb].
  now rewrite (bool_decide_eq_true_2 _ Hsup), Hact.
Qed.

Lemma execute_operations_advances (t : nat) (state : State) :
  consistent state ->
  Forall (fun p => fst p ∈ supported_actions) (planned state) ->
  current_operation_index state < Z.of_nat (length (operations (solution state))) ->
  let state' := _execute_operations ports t state in
  current_operation_index state' = current_operation_index state + 1
  /\ error_count state' = error_count state
  /\ max_errors state' = max_errors state
  /\ planned state' = planned state.
Proof.
  intros Hc Hp Hmore. cbv zeta. unfold _execute_operations.
  replace (Z.of_nat (length (operations (solution state)))
           <=? current_operation_index state) with false
    by (symmetry; apply Z.leb_gt; lia).
  pose proof Hc as (Hlen & Hrange & _).
  rewrite position_within by lia.
  set (i := Z.to_nat (current_operation_index state)).
  assert (Hi : (i < length (operations (solution state)))%nat) by (unfold i; lia).
  destruct (lookup_lt_is_Some_2 _ _ Hi) as [current_op Hop]. rewrite Hop.
  assert (Hi' : (i < length (planned state))%nat) by lia.
  destruct (lookup_lt_is_Some_2 _ _ Hi') as [[action target] Hpl]. rewrite Hpl.
  destruct (working t) as ([checkpoint ->] & _).
  pose proof (execute_operation_works t action (located ports t target current_op)
                (Forall_lookup_1 _ _ _ _ Hp Hpl)) as Hok.
  destruct (execute_operation ports t action (located ports t target current_op))
    as [success op']. cbn [fst] in Hok. subst success. now cbn.
Qed.

Lemma execution_loop (m : nat) (state : State) (t : nat) :
  consistent state ->
  Forall (fun p => fst p ∈ supported_actions) (planned state) ->
  error_count state < max_errors state ->
  Z.of_nat (length (operations (solution state))) - current_operation_index state
  = Z.of_nat (S m) ->
  exists state',
    run ports (S m) (execute_operations, state, t)
    = (validate_result, state', (t + S m)%nat)
    /\ consistent state'
    /\ Z.of_nat (length (operations (solution state'))) = current_operation_index state'
    /\ length (operations (solution state')) = length (operations (solution state))
    /\ error_count state' = error_count state
    /\ max_errors state' = max_errors state
    /\ validation_result (solution state') = validation_result (solution state).
Proof.
  revert state t. induction m as [|m IH]; intros state t Hc Hp Hbudget Hleft;
    rewrite develop_run_step by discriminate; unfold step;
    cbn [node_of state_of time_of fst snd node_function next_node];
    pose proof (execute_operations_keeps ports t state Hc) as (Hc' & Hv' & Hlen' & _);
    pose proof (execute_operations_advances t state Hc Hp ltac:(lia))
      as (Hi' & He' & Hm' & Hp');
    cbv zeta in *; set (state1 := _execute_operations ports t state) in *;
    unfold _should_continue_execution;
    (replace (max_errors state1 <=? error_count state1) with false
      by (symmetry; apply Z.leb_gt; lia)).
  - replace (Z.of_nat (length (operations (solution state1)))
             <=? current_operation_index state1) with true
      by (symmetry; apply Z.leb_le; lia).
    exists state1. cbn [run]. split; [f_equal; lia|].
    split; [exact Hc'|]. split; [lia|]. repeat split; assumption.
  - replace (Z.of_nat (length (operations (solution state1)))
             <=? current_operation_index state1) with false
      by (symmetry; apply Z.leb_gt; lia).
    destruct (IH state1 (S t) Hc') as (state' & Hrun & H1 & H2 & H3 & H4 & H5 & H6);
      [now rewrite Hp'|lia|lia|].
    exists state'. split; [rewrite Hrun; f_equal; lia|].
    split; [exact H1|]. split; [exact H2|]. repeat split; congruence.
Qed.
End Working.

Lemma finalized_accepts (now : Z) (sol : ImplementationSolution) (result : ValidationResult) :
  validation_result sol = Some result -> is_valid result = true ->
  Forall succeeded (operations sol) -> operations sol <> [] ->
  reward_decision (Developer.finalize_solution_body now sol) = ACCEPTED
  /\ (success_rate (Developer.finalize_solution_body now sol) == 1)%Q.
Proof.
  intros Hv Hvalid Hall Hne.
  pose proof (all_succeeded_rate _ Hall Hne) as Hrate.
  unfold Developer.finalize_solution_body. cbn. rewrite Hv. cbn. rewrite Hvalid.
  replace (Qle_bool (8 # 10) (Developer.finalized_success_rate (operations sol)))
    with true by (symmetry; apply Qle_bool_iff; rewrite Hrate; discriminate).
  now split.
Qed.

(** X22.  A plan that is carried out.  When the plan has n >= 1 entries
    of known types with supported actions, the login succeeds at the
    first attempt, the browser executes every operation and the page
    check passes, the graph reaches [END] after exactly n + 5 transitions
    with every operation executed with success; the solution the run
    leaves is accepted with success rate 1.  [develop] never returns it:
    when the recursion limit is at least n + 5 it is handed a mapping and
    returns its own rejected solution without operations, and otherwise
    the rejected solution of its handler. *)
Theorem executed_plan_is_accepted (ports : Ports) (fresh_id : string) (now : Z)
    (req : DevelopmentRequest) (entries : list OpData) :
  llm_plan ports = Returned entries ->
  entries <> [] ->
  Forall executable entries ->
  login_succeeds ports 2 ->
  browser_always_works ports ->
  page_check_passes ports (3 + length entries) ->
  let n := length entries in
  let final := run ports (n + 5) (analyze_request, initial_state fresh_id now req, O) in
  let sol := solution (state_of final) in
  node_of final = END
  /\ time_of final = (n + 5)%nat
  /\ reward_decision sol = ACCEPTED
  /\ length (operations sol) = n
  /\ Forall succeeded (operations sol)
  /\ (success_rate sol == 1)%Q
  /\ forall limit fresh_id' now',
       exists returned,
         develop ports limit fresh_id fresh_id' now now' (Some req) = Returned returned
         /\ reward_decision returned = REJECTED
         /\ operations returned = []
         /\ ((n + 5 <= limit)%nat -> returned = fallback_solution fresh_id' now' req)
         /\ ((limit < n + 5)%nat ->
             exists e, returned = failed_solution fresh_id' now' req e).
Proof.
  intros Hplan Hne Hexec (Hinit & Huser & Hpass & Hauth) Hwork Hcheck. cbv zeta.
  set (c0 := (analyze_request, initial_state fresh_id now req, O)).
  (* analysis and planning *)
  set (s1 := _analyze_request ports (initial_state fresh_id now req)).
  assert (H1 : reachable (plan_implementation, s1, 1%nat)
               /\ operations (solution s1) = [] /\ planned s1 = []
               /\ 0 <= error_count s1 <= 1 /\ max_errors s1 = 5
               /\ is_authenticated s1 = false).
  { split; [apply (step_reachable ports (analyze_request, initial_state fresh_id now req, O)),
            initial_reachable|].
    unfold s1, _analyze_request. destruct (llm_analysis ports); cbn; repeat split; lia. }
  destruct H1 as (Hr1 & Hops1 & Hpl1 & He1 & Hm1 & Ha1).
  set (s2 := _plan_implementation ports 1 s1).
  assert (H2 : reachable (authenticate, s2, 2%nat)
               /\ length (operations (solution s2)) = length entries
               /\ Forall (fun p => fst p ∈ supported_actions) (planned s2)
               /\ error_count s2 = error_count s1 /\ max_errors s2 = 5
               /\ is_authenticated s2 = false
               /\ validation_result (solution s2) = None
               /\ current_operation_index s2 = 0).
  { split; [apply (step_reachable ports (plan_implementation, s1, 1%nat)), Hr1|].
    destruct Hr1 as [Hc1 [Hv1 Hi1]]. cbn [node_of state_of fst snd] in *.
    pose proof (plan_loop_executable (clock ports 1) entries s1 Hexec) as Hloop.
    pose proof (plan_loop_keeps (clock ports 1) entries s1 Hc1 Hv1 Hi1) as Hkeep.
    pose proof (plan_loop_untouched (clock ports 1) entries s1) as Hunt.
    cbv zeta in *. rewrite Hpl1 in Hloop. specialize (Hloop (Forall_nil_2 _)).
    unfold s2, _plan_implementation. rewrite Hplan.
    destruct (plan_loop (clock ports 1) entries s1) as [completed state] eqn:Eloop.
    cbn [fst snd] in *. destruct Hloop as (-> & Hlen & Hsup).
    destruct Hkeep as (_ & Hv & Hi). rewrite Hops1 in Hlen. cbn in Hlen.
    split; [exact Hlen|]. split; [exact Hsup|].
    pose proof (plan_loop_frame (clock ports 1) entries s1) as Hsame.
    rewrite Eloop in Hsame. cbn [snd] in Hsame.
    destruct Hsame as (-> & -> & ->). repeat split; assumption. }
  destruct H2 as (Hr2 & Hlen2 & Hsup2 & He2 & Hm2 & Ha2 & Hv2 & Hi2).
  (* the login *)
  set (s3 := _authenticate ports 2 s2).
  assert (H3 : s3 = set_authenticated (env_platform_url ports 2) s2).
  { unfold s3, _authenticate. rewrite Ha2, Hinit, Hauth. cbn [negb].
    apply String.eqb_neq in Huser, Hpass. now rewrite Huser, Hpass. }
  assert (Hr3 : reachable (execute_operations, s3, 3%nat)).
  { pose proof (step_reachable ports (authenticate, s2, 2%nat) Hr2) as H.
    unfold step in H. cbn [node_of state_of time_of fst snd node_function next_node] in H.
    fold s3 in H. rewrite H3 in H. unfold _should_continue_after_auth in H.
    cbn [is_authenticated set_authenticated] in H. now rewrite H3. }
  (* the operations *)
  assert (Hn : exists m, length entries = S m).
  { destruct entries; [congruence|]. cbn. eauto. }
  destruct Hn as [m Hm].
  destruct (execution_loop ports Hwork m s3 3) as
    (s4 & Hrun4 & Hc4 & Hi4 & Hlen4 & He4 & Hm4 & Hv4).
  { apply Hr3. }
  { rewrite H3. exact Hsup2. }
  { rewrite H3. cbn. lia. }
  { rewrite H3. cbn. lia. }
  (* the page check *)
  set (s5 := _validate_result ports (3 + S m) s4).
  assert (H5 : exists result,
             validation_result (solution s5) = Some result /\ is_valid result = true
             /\ operations (solution s5) = operations (solution s4)
             /\ error_count s5 = error_count s4 /\ max_errors s5 = max_errors s4).
  { unfold page_check_passes in Hcheck. rewrite Hm in Hcheck.
    unfold s5, _validate_result.
    destruct (vision_analyze_screenshot ports (3 + S m)) as [suggestions confidence].
    destruct Hcheck as [[H0 H1] Hor].
    replace (Qle_bool 0 confidence && Qle_bool confidence 1) with true
      by (symmetry; apply andb_true_iff; now rewrite !Qle_bool_iff).
    replace (is_success suggestions || negb (Qle_bool confidence (7 # 10))) with true.
    - eexists. cbn. repeat split.
    - symmetry. apply orb_true_iff. destruct Hor as [Hs|Hq]; [now left|right].
      apply negb_true_iff, not_true_is_false. intros H. apply Qle_bool_iff in H.
      now apply Qlt_not_le in Hq. }
  destruct H5 as (result & Hv5 & Hvalid & Hops5 & He5 & Hm5).
  assert (Hall : Forall succeeded (operations (solution s4))).
  { apply all_done_succeeded; [exact Hc4|lia]. }
  assert (Hrun : run ports (length entries + 5) c0
                 = (END, _finalize_solution ports (3 + S m + 1) s5, (length entries + 5)%nat)).
  { rewrite Hm. replace (S m + 5)%nat with (3 + (S m + 2))%nat by lia.
    unfold c0. rewrite develop_run_add.
    do 3 (rewrite develop_run_step by discriminate; unfold step;
          cbn [node_of state_of time_of fst snd node_function next_node]).
    fold s1 s2 s3.
    assert (Hnext : _should_continue_after_auth s3 = Auth_continue)
      by (rewrite H3; reflexivity).
    rewrite Hnext. cbn [run]. rewrite develop_run_add, Hrun4.
    rewrite develop_run_step by discriminate. unfold step.
    cbn [node_of state_of time_of fst snd node_function next_node].
    fold s5.
    assert (Hnext5 : _should_continue_after_validation s5 = Check_success).
    { unfold _should_continue_after_validation. rewrite Hv5, Hvalid.
      replace (max_errors s5 <=? error_count s5) with false; [reflexivity|].
      symmetry. apply Z.leb_gt. rewrite He5, Hm5, He4, Hm4, H3. cbn. lia. }
    rewrite Hnext5.
    rewrite develop_run_step by discriminate. unfold step.
    cbn [node_of state_of time_of fst snd node_function next_node run].
    replace (3 + S m + 1)%nat with (S (3 + S m)) by lia. f_equal. lia. }
  rewrite Hrun. cbn [node_of state_of time_of fst snd].
  unfold _finalize_solution. cbn [solution set_solution].
  destruct (finalized_accepts (clock ports (3 + S m + 1)) (solution s5) result Hv5 Hvalid)
    as [Hacc Hrate].
  { now rewrite Hops5. }
  { rewrite Hops5. intros Hnil. rewrite Hnil in Hlen4. rewrite H3 in Hlen4.
    cbn in Hlen4. lia. }
  split; [reflexivity|]. split; [reflexivity|]. split; [exact Hacc|].
  split; [cbn; rewrite Hops5, Hlen4, H3; cbn; lia|].
  split; [cbn; now rewrite Hops5|]. split; [exact Hrate|].
  intros limit fresh_id' now'.
  rewrite develop_returns. fold c0.
  destruct (Nat.leb_spec (length entries + 5) limit) as [Hle|Hlt].
  - replace limit with ((length entries + 5) + (limit - (length entries + 5)))%nat by lia.
    rewrite develop_run_beyond_END by (now rewrite Hrun).
    rewrite Hrun. cbn [node_of fst Node_eqb].
    eexists. split; [reflexivity |]. split; [reflexivity |]. split; [reflexivity |].
    split; [reflexivity | lia].
  - replace (Node_eqb (node_of (run ports limit c0)) END) with false.
    + eexists. split; [reflexivity |]. split; [reflexivity |]. split; [reflexivity |].
      split; [lia | intros _; now eexists].
    + symmetry. apply not_true_is_false. intros Hend. apply Node_eqb_END in Hend.
      pose proof (develop_time_of_run ports limit c0) as Htime.
      replace (length entries + 5)%nat with (limit + (length entries + 5 - limit))%nat
        in Hrun by lia.
      rewrite develop_run_beyond_END in Hrun by exact Hend. rewrite Hrun in Htime.
      cbn in Htime. lia.
Qed.

Lemma executed_plan_is_accepted_witness :
  let ports := DeveloperScenarios.working_ports DeveloperScenarios.two_step_plan
                 ["表单已创建"] (1 # 2) in
  let final := run ports 7 (analyze_request,
                            initial_state "s-1" 0 Scenarios.invoice_request, O) in
  page_check_passes ports 5
  /\ node_of final = END
  /\ reward_decision (solution (state_of final)) = ACCEPTED
  /\ length (operations (solution (state_of final))) = 2%nat
  /\ develop ports 25 "s-1" "s-2" 0 9 (Some Scenarios.invoice_request)
     = Returned (fallback_solution "s-2" 9 Scenarios.invoice_request).
Proof.
  cbv zeta.
  assert (Hcheck : page_check_passes
                     (DeveloperScenarios.working_ports DeveloperScenarios.two_step_plan
                        ["表单已创建"] (1 # 2)) 5).
  { cbn. split; [split; discriminate|now left]. }
  split; [exact Hcheck|].
  destruct (executed_plan_is_accepted
              (DeveloperScenarios.working_ports DeveloperScenarios.two_step_plan
                 ["表单已创建"] (1 # 2))
              "s-1" 0 Scenarios.invoice_request DeveloperScenarios.two_step_plan)
    as (Hend & _ & Hacc & Hlen & _ & _ & Hdev).
  - reflexivity.
  - discriminate.
  - repeat constructor; apply list_elem_of_In; cbn; tauto.
  - repeat split; discriminate.
  - intros t. repeat split; eauto.
  - exact Hcheck.
  - split; [exact Hend |]. split; [exact Hacc |]. split; [exact Hlen |].
    destruct (Hdev 25%nat "s-2" 9) as (returned & Hret & _ & _ & Hfallback & _).
    rewrite Hret, Hfallback; [reflexivity | cbn; lia].
Defined.
End DeveloperGraphFacts.

(** ** The validator graph *)

Module ValidatorGraphFacts.
Import ValidatorGraph ValidatorNotions.
Local Open Scope Z_scope.

Section Runs.
Variable ports : Ports.
Implicit Types (state : ValidationState) (c : Config).

Lemma validator_Node_eqb_END (n : Node) : Node_eqb n END = true <-> n = END.
Proof. destruct n; cbn; split; congruence. Qed.

Lemma validator_run_step (k : nat) c :
  node_of c <> END -> run ports (S k) c = run ports k (step ports c).
Proof.
  intros H. cbn [run]. destruct (Node_eqb (node_of c) END) eqn:E; [|reflexivity].
  apply validator_Node_eqb_END in E. contradiction.
Qed.

Lemma validator_run_at_END (k : nat) c : node_of c = END -> run ports k c = c.
Proof.
  intros H. destruct k; [reflexivity|]. cbn [run].
  now replace (Node_eqb (node_of c) END) with true
    by (symmetry; now apply validator_Node_eqb_END).
Qed.

Lemma validator_run_add (k m : nat) c :
  run ports (k + m) c = run ports m (run ports k c).
Proof.
  revert c. induction k as [|k IH]; intros c; [reflexivity|].
  cbn [Nat.add run]. destruct (Node_eqb (node_of c) END) eqn:E.
  - apply validator_Node_eqb_END in E. now rewrite validator_run_at_END.
  - apply IH.
Qed.

Lemma ends_within_more (k m : nat) c :
  ends_within ports k c -> ends_within ports (k + m) c.
Proof.
  unfold ends_within. intros H. rewrite validator_run_add.
  now rewrite validator_run_at_END.
Qed.

Lemma ends_within_le (k m : nat) c :
  (k <= m)%nat -> ends_within ports k c -> ends_within ports m c.
Proof. intros Hle H. replace m with (k + (m - k))%nat by lia. now apply ends_within_more. Qed.

Lemma ends_within_next (k : nat) c :
  node_of c <> END -> ends_within ports k (step ports c) -> ends_within ports (S k) c.
Proof. intros Hn H. unfold ends_within. now rewrite validator_run_step. Qed.

Lemma finalize_validation_ends state t :
  ends_within ports 1 (finalize_validation, state, t).
Proof. reflexivity. Qed.

Lemma analysis_ends state t : ends_within ports 3 (analyze_test_results, state, t).
Proof. reflexivity. Qed.

(** What [_execute_tests] does to the two counters and to the scenarios. *)
Lemma execute_tests_counts (t : nat) state :
  let state' := _execute_tests ports t state in
  test_scenarios state' = test_scenarios state
  /\ max_errors state' = max_errors state
  /\ ((Z.of_nat (length (test_scenarios state)) <= current_test_index state
       /\ state' = state)
      \/ (current_test_index state < Z.of_nat (length (test_scenarios state))
          /\ ((current_test_index state' = current_test_index state + 1
               /\ error_count state' = error_count state)
              \/ (current_test_index state' = current_test_index state
                  /\ error_count state' = error_count state + 1)))).
Proof.
  cbv zeta. unfold _execute_tests.
  destruct (Z.leb_spec (Z.of_nat (length (test_scenarios state)))
                       (current_test_index state)) as [Hdone|Hmore].
  { split; [reflexivity|]. split; [reflexivity|]. left. now split. }
  assert (Herr : test_scenarios (count_error state) = test_scenarios state
                 /\ max_errors (count_error state) = max_errors state
                 /\ (Z.of_nat (length (test_scenarios state)) <= current_test_index state
                     /\ count_error state = state
                     \/ current_test_index state < Z.of_nat (length (test_scenarios state))
                        /\ (current_test_index (count_error state)
                            = current_test_index state + 1
                            /\ error_count (count_error state) = error_count state
                            \/ current_test_index (count_error state)
                               = current_test_index state
                               /\ error_count (count_error state) = error_count state + 1))).
  { split; [reflexivity|]. split; [reflexivity|]. right. split; [exact Hmore|].
    right. now split. }
  destruct (DeveloperGraph.position _ _) as [i|]; [|exact Herr].
  destruct (test_scenarios state !! i) as [scenario|]; [|exact Herr].
  destruct (sc_name scenario) as [name|]; [|exact Herr].
  destruct (sc_type scenario) as [type|]; [|exact Herr].
  split; [reflexivity|]. split; [reflexivity|]. right. split; [exact Hmore|].
  left. now split.
Qed.

(** The test loop ends: every pass through [execute_tests] that is
    followed by another uses up one test or one allowed error. *)
Lemma execute_tests_ends (n : nat) state t :
  (budget state <= n + 2)%nat -> ends_within ports (S (n + 3)) (execute_tests, state, t).
Proof.
  revert state t. induction n as [|n IH]; intros state t Hb.
  - apply (ends_within_next _ (execute_tests, state, t)); [discriminate|].
    unfold step. cbn [node_of state_of time_of fst snd node_function next_node].
    pose proof (execute_tests_counts t state) as (Hsc & Hmax & Hcases). cbv zeta in *.
    set (state' := _execute_tests ports t state) in *.
    unfold _should_continue_testing.
    destruct (Z.leb_spec (max_errors state') (error_count state')) as [Herr|Hok];
      [apply (ends_within_le 1); [lia|apply finalize_validation_ends]|].
    destruct (Z.leb_spec (Z.of_nat (length (test_scenarios state')))
                         (current_test_index state')) as [Hdone|Hmore];
      [apply (ends_within_le 3); [lia|apply analysis_ends]|].
    exfalso. unfold budget in Hb. rewrite Hsc, Hmax in *.
    destruct Hcases as [[H1 H2]|[H1 [[H2 H3]|[H2 H3]]]]; [rewrite H2 in *; lia|lia|lia].
  - apply (ends_within_next _ (execute_tests, state, t)); [discriminate|].
    unfold step. cbn [node_of state_of time_of fst snd node_function next_node].
    pose proof (execute_tests_counts t state) as (Hsc & Hmax & Hcases). cbv zeta in *.
    set (state' := _execute_tests ports t state) in *.
    unfold _should_continue_testing.
    destruct (Z.leb_spec (max_errors state') (error_count state')) as [Herr|Hok];
      [apply (ends_within_le 1); [lia|apply finalize_validation_ends]|].
    destruct (Z.leb_spec (Z.of_nat (length (test_scenarios state')))
                         (current_test_index state')) as [Hdone|Hmore];
      [apply (ends_within_le 3); [lia|apply analysis_ends]|].
    apply IH. unfold budget in *. rewrite Hsc, Hmax in *.
    destruct Hcases as [[H1 H2]|[H1 [[H2 H3]|[H2 H3]]]]; [rewrite H2 in *; lia|lia|lia].
Qed.

(** *** What a run keeps *)

Lemma results_fold (results : list TestResult) :
  Models.is_valid
    {| Models.is_valid := test_validity results; Models.score := test_score results;
       Models.issues := all_issues results; Models.suggestions := [];
       Models.validator_agent := Some "function_validator" |}
  = test_validity results.
Proof. reflexivity. Qed.

Lemma validator_step_reachable c : reachable c -> reachable (step ports c).
Proof.
  destruct c as [[n state] t]. unfold reachable, step.
  cbn [node_of state_of time_of fst snd]. cbv zeta. intros (Hres & Hle & Hn).
  destruct n; cbn [node_function next_node].
  - unfold _analyze_solution. destruct (llm_analysis ports); now cbn.
  - destruct Hn as (Hv & Hsc & Hi). unfold _generate_test_scenarios.
    destruct (llm_scenarios ports) as [scenarios|e]; cbn; rewrite ?Hi; repeat split;
      trivial; lia.
  - unfold _setup_test_environment. destruct (start_browser ports); now cbn.
  - pose proof (execute_tests_counts t state) as (Hsc & Hmax & Hcases). cbv zeta in *.
    assert (Hkeep : Z.of_nat (length (test_results (_execute_tests ports t state)))
                    = current_test_index (_execute_tests ports t state)
                    /\ validation_result (_execute_tests ports t state) = initial_result).
    { unfold _execute_tests.
      destruct (Z.of_nat (length (test_scenarios state)) <=? current_test_index state);
        [now split|].
      destruct (DeveloperGraph.position _ _) as [i|]; [|now split].
      destruct (test_scenarios state !! i) as [scenario|]; [|now split].
      destruct (sc_name scenario) as [name|]; [|now split].
      destruct (sc_type scenario) as [type|]; [|now split].
      cbn. rewrite length_app. cbn. split; [lia|exact Hn]. }
    destruct Hkeep as [Hres' Hv']. split; [exact Hres'|].
    split.
    { rewrite Hsc. destruct Hcases as [[H1 H2]|[H1 [[H2 H3]|[H2 H3]]]];
        [now rewrite H2|lia|lia]. }
    unfold _should_continue_testing.
    destruct (max_errors _ <=? error_count _); [now left|].
    destruct (Z.leb_spec (Z.of_nat (length (test_scenarios (_execute_tests ports t state))))
                         (current_test_index (_execute_tests ports t state)));
      [|exact Hv'].
    split; [exact Hv'|]. rewrite Hsc in *.
    destruct Hcases as [[H1 H2]|[H1 [[H2 H3]|[H2 H3]]]]; [rewrite H2; lia|lia|lia].
  - destruct Hn as [Hv Hi]. unfold _analyze_test_results. cbn.
    rewrite Hv. repeat split; trivial.
  - destruct Hn as (Hi & Hvalid & Hscore & Hissues & Hagent & Hfound).
    split; [|split]; unfold _generate_suggestions.
    + destruct (issues_found state); [now cbn|].
      destruct (llm_suggestions ports); now cbn.
    + destruct (issues_found state); [now cbn|].
      destruct (llm_suggestions ports); now cbn.
    + right. destruct (issues_found state) as [|issue rest] eqn:Hif.
      * cbn. repeat split; trivial.
      * assert (Hne : all_issues (test_results state) <> [])
          by (rewrite <- Hfound; discriminate).
        destruct (llm_suggestions ports); cbn; repeat split; trivial;
          intros Hnil; contradiction.
  - now cbn.
  - now cbn.
Qed.

Lemma validator_run_reachable (k : nat) c : reachable c -> reachable (run ports k c).
Proof.
  revert c. induction k as [|k IH]; intros c Hc; [exact Hc|].
  cbn [run]. destruct (Node_eqb (node_of c) END); [exact Hc|].
  apply IH, validator_step_reachable, Hc.
Qed.

Lemma validator_initial_reachable (sol : Models.ImplementationSolution) (t : nat) :
  reachable (analyze_solution, initial_state sol, t).
Proof. now cbn. Qed.

Lemma first_three_steps (sol : Models.ImplementationSolution) :
  exists state,
    run ports 3 (analyze_solution, initial_state sol, O) = (execute_tests, state, 3%nat)
    /\ test_scenarios state = generated_scenarios ports
    /\ current_test_index state = 0
    /\ max_errors state = 3
    /\ 0 <= error_count state <= 3.
Proof.
  do 3 (rewrite validator_run_step by discriminate; unfold step;
        cbn [node_of state_of time_of fst snd node_function next_node]).
  eexists. split; [reflexivity|].
  unfold _setup_test_environment, _generate_test_scenarios, _analyze_solution,
    generated_scenarios.
  destruct (start_browser ports), (llm_scenarios ports), (llm_analysis ports); cbn;
    repeat split; lia.
Qed.

Lemma scenarios_of_run (sol : Models.ImplementationSolution) (k : nat) :
  test_scenarios (state_of (run ports k (analyze_solution, initial_state sol, O))) = []
  \/ test_scenarios (state_of (run ports k (analyze_solution, initial_state sol, O)))
     = generated_scenarios ports.
Proof.
  assert (H : forall k c,
             (test_scenarios (state_of c) = []
              \/ test_scenarios (state_of c) = generated_scenarios ports) ->
             (node_of c = analyze_solution \/ node_of c = generate_test_scenarios ->
              test_scenarios (state_of c) = []) ->
             test_scenarios (state_of (run ports k c)) = []
             \/ test_scenarios (state_of (run ports k c)) = generated_scenarios ports).
  { clear k. induction k as [|k IH]; intros c Hc Hearly; [exact Hc|].
    cbn [run]. destruct (Node_eqb (node_of c) END); [exact Hc|].
    destruct c as [[n state] t]. cbn [node_of state_of fst snd] in *.
    apply IH; unfold step; cbn [node_of state_of time_of fst snd].
    - destruct n; cbn [node_function]; trivial.
      + unfold _analyze_solution. now destruct (llm_analysis ports).
      + unfold _generate_test_scenarios, generated_scenarios.
        destruct (llm_scenarios ports); cbn; [now right|left; apply Hearly; now right].
      + unfold _setup_test_environment. now destruct (start_browser ports).
      + pose proof (execute_tests_counts t state) as (Hsc & _). cbv zeta in Hsc.
        now rewrite Hsc.
      + unfold _generate_suggestions. destruct (issues_found state); [exact Hc|].
        now destruct (llm_suggestions ports).
    - destruct n; cbn [node_function next_node]; intros [H|H]; try discriminate.
      + unfold _analyze_solution. destruct (llm_analysis ports); cbn; now apply Hearly; left.
      + destruct (_should_continue_testing _); discriminate.
      + destruct (_should_continue_testing _); discriminate. }
  apply H; [now left|reflexivity].
Qed.
End Runs.

(** What [validate] returns.  The engine hands the final values back as
    a mapping; reading its attribute [validation_result] raises, as does
    the engine when it gives up, and the handler answers. *)
Lemma validate_returns (ports : Ports) (limit : nat) (sol : Models.ImplementationSolution) :
  validate ports limit sol
  = Returned
      (failed_result
         (if Node_eqb (node_of (run ports limit (analyze_solution, initial_state sol, O))) END
          then Engine.attribute_error "validation_result"
          else "GraphRecursionError")).
Proof.
  unfold validate, ainvoke, try_except, mbind, Outcome_bind, obind.
  now destruct (Node_eqb (node_of (run ports limit _)) END).
Qed.

Lemma validate_is_handled (ports : Ports) (limit : nat) (sol : Models.ImplementationSolution) :
  exists e, validate ports limit sol = Returned (failed_result e).
Proof. rewrite validate_returns. now eexists. Qed.

Lemma validation_always_ends_run (ports : Ports) (sol : Models.ImplementationSolution) :
  let n := length (generated_scenarios ports) in
  let final := run ports (n + 8) (analyze_solution, initial_state sol, O) in
  node_of final = END.
Proof.
  cbv zeta.
  destruct (first_three_steps ports sol) as (s3 & Hrun3 & Hsc & Hi & Hmax & Herr).
  replace (length (generated_scenarios ports) + 8)%nat
    with (3 + S (length (generated_scenarios ports) + 1 + 3))%nat by lia.
  rewrite validator_run_add, Hrun3. apply execute_tests_ends.
  unfold budget. rewrite Hsc, Hi, Hmax. lia.
Qed.

(** X23.  The validator always ends.  Whatever the ports do, the graph of
    [validate] reaches [END] within n + 8 transitions, n being the number
    of test scenarios the Completion port gave (0 when the call failed):
    every pass through [execute_tests] that is followed by another runs
    one test or counts one of the 3 allowed errors; the result the run
    leaves names the validator.  [validate] never raises and never
    returns the result of the run: the engine hands the final values back
    as a mapping, reading [validation_result] from it raises, and the
    handler answers with an invalid result of score 0 that names the
    validator and has the exception text as its only issue, whatever the
    recursion limit. *)
Theorem validation_always_ends (ports : Ports) (sol : Models.ImplementationSolution) :
  let n := length (generated_scenarios ports) in
  let final := run ports (n + 8) (analyze_solution, initial_state sol, O) in
  node_of final = END
  /\ Models.validator_agent (validation_result (state_of final))
     = Some "function_validator"
  /\ forall limit, exists e result,
       validate ports limit sol = Returned result
       /\ result = failed_result e
       /\ Models.is_valid result = false
       /\ (Models.score result == 0)%Q
       /\ Models.issues result = [("验证失败: " ++ e)%string]
       /\ Models.suggestions result = []
       /\ Models.validator_agent result = Some "function_validator".
Proof.
  cbv zeta. pose proof (validation_always_ends_run ports sol) as Hend. cbv zeta in Hend.
  split; [exact Hend|]. split.
  - pose proof (validator_run_reachable ports (length (generated_scenarios ports) + 8) _
                  (validator_initial_reachable sol O)) as (_ & _ & Hn).
    rewrite Hend in Hn.
    destruct Hn as [->|(_ & _ & _ & _ & Hagent & _)]; [reflexivity|exact Hagent].
  - intros limit. destruct (validate_is_handled ports limit sol) as [e He].
    exists e, (failed_result e). split; [exact He |]. now repeat split.
Qed.

Lemma successful_tests_bounds (results : list TestResult) :
  0 <= successful_tests results <= Z.of_nat (length results).
Proof.
  unfold successful_tests. split; [lia|].
  apply inj_le. induction results as [|r results IH]; cbn; [lia|].
  destruct (success r); cbn; lia.
Qed.

Lemma test_score_bounds (results : list TestResult) : (0 <= test_score results <= 1)%Q.
Proof.
  unfold test_score. cbv zeta.
  destruct (Z.ltb_spec 0 (Z.of_nat (length results))) as [Hpos|_]; [|split; discriminate].
  pose proof (successful_tests_bounds results) as [H0 H1].
  assert (Hq : (0 < inject_Z (Z.of_nat (length results)))%Q)
    by (unfold Qlt; cbn; lia).
  split.
  - apply Qle_shift_div_l; [exact Hq|]. rewrite Qmult_0_l. unfold Qle. cbn. lia.
  - apply Qle_shift_div_r; [exact Hq|]. rewrite Qmult_1_l. unfold Qle. cbn. lia.
Qed.

Lemma test_validity_true (results : list TestResult) :
  test_validity results = true ->
  (0 < length results)%nat
  /\ 7 * Z.of_nat (length results) <= 10 * successful_tests results.
Proof.
  unfold test_validity, test_score. cbv zeta. intros H.
  apply andb_true_iff in H as [Hpos Hrate]. rewrite Hpos in Hrate.
  apply Z.ltb_lt in Hpos. split; [lia|].
  apply Qle_bool_iff in Hrate.
  assert (Hq : (0 < inject_Z (Z.of_nat (length results)))%Q)
    by (unfold Qlt; cbn; lia).
  apply (Qmult_le_compat_r _ _ (inject_Z (Z.of_nat (length results)))) in Hrate;
    [|now apply Qlt_le_weak].
  assert (Hs : ((7 # 10) * inject_Z (Z.of_nat (length results))
                <= inject_Z (successful_tests results))%Q).
  { eapply Qle_trans; [exact Hrate|]. apply Qle_lteq. right. field.
    intros Hz. rewrite Hz in Hq. now apply Qlt_irrefl in Hq. }
  unfold Qle in Hs. cbn in Hs. lia.
Qed.

(** X24.  What a validation result says about the tests.  When the
    validator graph has reached [END], the result is either the initial
    one (invalid, score 0: the tests were abandoned on the error path) or
    the analysis of one test result per generated scenario: its score is
    the share of successful tests, it is valid exactly when there is a
    test and that share is at least 0.7, its issues are the issues of all
    tests, and with no issue its suggestion is the fixed text that nothing
    needs improving, valid or not.  The score lies in [0, 1]; a valid
    result means that every generated scenario was run and that at least
    7 in 10 were successful. *)
Theorem valid_result_means_tests_passed (ports : Ports)
    (sol : Models.ImplementationSolution) (k : nat) :
  let final := run ports k (analyze_solution, initial_state sol, O) in
  let result := validation_result (state_of final) in
  let results := test_results (state_of final) in
  node_of final = END ->
  (0 <= Models.score result <= 1)%Q
  /\ (result = initial_result
      \/ (length results = length (generated_scenarios ports)
          /\ Models.score result = test_score results
          /\ Models.is_valid result = test_validity results
          /\ Models.issues result = all_issues results
          /\ (all_issues results = [] ->
              Models.suggestions result = ["功能实现良好，无需改进"])))
  /\ (Models.is_valid result = true ->
      length results = length (generated_scenarios ports)
      /\ (0 < length results)%nat
      /\ 7 * Z.of_nat (length results) <= 10 * successful_tests results).
Proof.
  cbv zeta. intros Hend.
  pose proof (validator_run_reachable ports k _ (validator_initial_reachable sol O))
    as (Hres & Hle & Hn).
  cbv zeta in *. rewrite Hend in Hn.
  set (final := state_of (run ports k (analyze_solution, initial_state sol, O))) in *.
  destruct Hn as [Hinit|(Hi & Hvalid & Hscore & Hissues & Hagent & Hsugg)].
  - rewrite Hinit. split; [split; discriminate|]. split; [now left|]. discriminate.
  - split; [rewrite Hscore; apply test_score_bounds|].
    assert (Hlen : length (test_results final) = length (generated_scenarios ports)).
    { destruct (scenarios_of_run ports sol k) as [Hsc|Hsc]; fold final in Hsc.
      - rewrite Hsc in Hi. cbn in Hi.
        assert (Hnone : test_results final = [])
          by (destruct (test_results final); [reflexivity|cbn in Hres; lia]).
        rewrite Hnone. cbn.
        destruct (generated_scenarios ports) eqn:Hg; [reflexivity|].
        (* the scenarios were generated and stored *)
        exfalso. clear -Hsc Hg Hend. revert Hsc Hend. unfold final.
        destruct k as [|[|[|k]]]; try (cbn; discriminate).
        destruct (first_three_steps ports sol) as (s3 & Hrun3 & Hsc3 & _).
        replace (S (S (S k))) with (3 + k)%nat by lia.
        rewrite validator_run_add, Hrun3. intros Hsc _.
        assert (Hkeep : forall k c, node_of c <> analyze_solution ->
                          node_of c <> generate_test_scenarios ->
                          test_scenarios (state_of (run ports k c))
                          = test_scenarios (state_of c)).
        { clear. induction k as [|k IH]; intros c H1 H2; [reflexivity|].
          cbn [run]. destruct (Node_eqb (node_of c) END); [reflexivity|].
          destruct c as [[n state] t]. cbn [node_of fst] in H1, H2.
          rewrite IH; unfold step; cbn [node_of state_of time_of fst snd].
          - destruct n; cbn [node_function]; try congruence; trivial.
            + unfold _setup_test_environment. now destruct (start_browser ports).
            + now destruct (execute_tests_counts ports t state) as (-> & _).
            + unfold _generate_suggestions. destruct (issues_found state); [reflexivity|].
              now destruct (llm_suggestions ports).
          - destruct n; cbn [next_node]; try congruence; try discriminate.
            destruct (_should_continue_testing _); discriminate.
          - destruct n; cbn [next_node]; try congruence; try discriminate.
            destruct (_should_continue_testing _); discriminate. }
        rewrite Hkeep in Hsc by discriminate. cbn [state_of fst snd] in Hsc.
        rewrite Hsc3, Hg in Hsc. discriminate.
      - rewrite Hsc in Hi. lia. }
    split.
    + right. repeat split; assumption.
    + intros Htrue. rewrite Hvalid in Htrue.
      destruct (test_validity_true _ Htrue) as [Hpos Hshare].
      repeat split; assumption.
Qed.

Lemma valid_result_means_tests_passed_witness :
  let ports := ValidatorScenarios.working_ports [ValidatorScenarios.scenario "save"]
                 (9 # 10) in
  let final := run ports 7 (analyze_solution, initial_state Scenarios.working_solution, O) in
  node_of final = END
  /\ Models.is_valid (validation_result (state_of final)) = true
  /\ length (test_results (state_of final)) = 1%nat.
Proof.
  cbv zeta.
  assert (Hend : node_of (run (ValidatorScenarios.working_ports
                                 [ValidatorScenarios.scenario "save"] (9 # 10)) 7
                            (analyze_solution, initial_state Scenarios.working_solution, O))
                 = END) by reflexivity.
  split; [exact Hend|].
  destruct (valid_result_means_tests_passed _ Scenarios.working_solution 7 Hend)
    as (_ & _ & Hvalid).
  assert (Htrue : Models.is_valid
                    (validation_result
                       (state_of (run (ValidatorScenarios.working_ports
                                         [ValidatorScenarios.scenario "save"] (9 # 10)) 7
                                    (analyze_solution,
                                     initial_state Scenarios.working_solution, O))))
                  = true) by reflexivity.
  split; [exact Htrue|]. now destruct (Hvalid Htrue) as [-> _].
Defined.

Section Blocked.
Variable ports : Ports.
Variables (scenarios : list Scenario) (i : nat) (scenario : Scenario).
Hypothesis at_i : scenarios !! i = Some scenario.
Hypothesis bad : malformed scenario.

Lemma blocked_step (c : Config) :
  blocked_at scenarios i c -> blocked_at scenarios i (step ports c).
Proof.
  destruct c as [[n state] t]. unfold blocked_at, step.
  cbn [node_of state_of time_of fst snd]. intros (Hv & Hlen & Hn).
  destruct n; try contradiction; cbn [node_function next_node]; [|now cbn|now cbn].
  destruct Hn as (Hsc & Hrange & Hres).
  pose proof (lookup_lt_Some _ _ _ at_i) as Hi.
  unfold _execute_tests. rewrite Hsc.
  replace (Z.of_nat (length scenarios) <=? current_test_index state) with false
    by (symmetry; apply Z.leb_gt; lia).
  rewrite DeveloperGraphFacts.position_within by lia.
  assert (Herror : validation_result (count_error state) = initial_result
                   /\ Z.of_nat (length (test_results (count_error state))) <= Z.of_nat i
                   /\ match match _should_continue_testing (count_error state) with
                            | Tests_continue => execute_tests
                            | Tests_analyze => analyze_test_results
                            | Tests_error => finalize_validation
                            end with
                      | execute_tests =>
                          test_scenarios (count_error state) = scenarios
                          /\ 0 <= current_test_index (count_error state) <= Z.of_nat i
                          /\ Z.of_nat (length (test_results (count_error state)))
                             = current_test_index (count_error state)
                      | finalize_validation | END => True
                      | _ => False
                      end).
  { split; [exact Hv|]. split; [exact Hlen|].
    unfold _should_continue_testing. cbn [count_error set_error_count max_errors
      error_count test_scenarios current_test_index test_results].
    destruct (max_errors state <=? error_count state + 1); [exact I|].
    rewrite Hsc.
    replace (Z.of_nat (length scenarios) <=? current_test_index state) with false
      by (symmetry; apply Z.leb_gt; lia).
    repeat split; trivial; lia. }
  destruct (scenarios !! Z.to_nat (current_test_index state)) as [current|] eqn:Hcur;
    [|exact Herror].
  destruct (sc_name current) as [name|] eqn:Hname; [|exact Herror].
  destruct (sc_type current) as [type|] eqn:Htype; [|exact Herror].
  assert (Hbefore : current_test_index state < Z.of_nat i).
  { destruct (Z.eq_dec (current_test_index state) (Z.of_nat i)) as [Heq|Hne]; [|lia].
    exfalso. rewrite Heq, Nat2Z.id, at_i in Hcur. injection Hcur as <-.
    destruct bad; congruence. }
  split; [exact Hv|]. cbn [test_results set_current_test_index set_test_results].
  rewrite length_app. cbn [length]. split; [lia|].
  unfold _should_continue_testing.
  cbn [max_errors error_count test_scenarios current_test_index
       set_current_test_index set_test_results].
  destruct (max_errors state <=? error_count state); [exact I|].
  rewrite Hsc.
  replace (Z.of_nat (length scenarios) <=? current_test_index state + 1) with false
    by (symmetry; apply Z.leb_gt; lia).
  cbn [test_scenarios current_test_index test_results set_current_test_index
       set_test_results].
  rewrite ?length_app. cbn [length]. repeat split; trivial; lia.
Qed.

Lemma blocked_run (k : nat) (c : Config) :
  blocked_at scenarios i c -> blocked_at scenarios i (run ports k c).
Proof.
  revert c. induction k as [|k IH]; intros c Hc; [exact Hc|].
  cbn [run]. destruct (Node_eqb (node_of c) END); [exact Hc|].
  apply IH, blocked_step, Hc.
Qed.
End Blocked.

(** X25.  One scenario without a name or a type voids the validation.
    When the scenarios the Completion port gave hold one that lacks its
    name or its type, that test raises at every attempt until the 3
    allowed errors are used up, and the graph ends on the error path: the
    later scenarios are never run, the tests that did run are not
    analysed, and the result the run leaves is the initial one (invalid,
    score 0, no issue, no suggestion), whatever the other tests showed.
    [validate] is handed a mapping and returns the invalid result of its
    handler, whose one issue is the exception text. *)
Theorem malformed_scenario_voids_the_validation (ports : Ports)
    (sol : Models.ImplementationSolution) (scenarios : list Scenario) (i : nat)
    (scenario : Scenario) :
  llm_scenarios ports = Returned scenarios ->
  scenarios !! i = Some scenario ->
  malformed scenario ->
  let final := run ports (length scenarios + 8) (analyze_solution, initial_state sol, O) in
  node_of final = END
  /\ validation_result (state_of final) = initial_result
  /\ (length (test_results (state_of final)) <= i)%nat
  /\ forall limit, exists e,
       validate ports limit sol = Returned (failed_result e)
       /\ Models.issues (failed_result e) = [("验证失败: " ++ e)%string].
Proof.
  intros Hllm Hat Hbad. cbv zeta.
  assert (Hgen : generated_scenarios ports = scenarios)
    by (unfold generated_scenarios; now rewrite Hllm).
  pose proof (validation_always_ends_run ports sol) as Hend. cbv zeta in Hend.
  rewrite Hgen in *.
  destruct (first_three_steps ports sol) as (s3 & Hrun3 & Hsc & Hi & Hmax & Herr).
  pose proof (validator_run_reachable ports 3 _ (validator_initial_reachable sol O))
    as (Hres3 & _ & Hn3).
  rewrite Hrun3 in Hres3, Hn3. cbn [node_of state_of fst snd] in Hres3, Hn3.
  assert (Hblocked : blocked_at scenarios i (execute_tests, s3, 3%nat)).
  { split; [exact Hn3|]. cbn [node_of state_of fst snd].
    split; [lia|]. rewrite Hsc, Hgen, Hi. repeat split; lia. }
  pose proof (blocked_run ports scenarios i scenario Hat Hbad (length scenarios + 5) _
                Hblocked) as (Hv & Hlen & _).
  assert (Hfinal : run ports (length scenarios + 8) (analyze_solution, initial_state sol, O)
                   = run ports (length scenarios + 5) (execute_tests, s3, 3%nat)).
  { replace (length scenarios + 8)%nat with (3 + (length scenarios + 5))%nat by lia.
    now rewrite validator_run_add, Hrun3. }
  rewrite Hfinal in Hend. rewrite Hfinal.
  split; [exact Hend|]. split; [exact Hv|]. split; [lia|].
  intros limit. destruct (validate_is_handled ports limit sol) as [e He].
  exists e. now split.
Qed.

Lemma malformed_scenario_voids_the_validation_witness :
  let ports := ValidatorScenarios.working_ports
                 [ValidatorScenarios.scenario "save"; ValidatorScenarios.untyped_scenario]
                 (9 # 10) in
  malformed ValidatorScenarios.untyped_scenario
  /\ validation_result
       (state_of (run ports 10 (analyze_solution,
                                initial_state Scenarios.working_solution, O)))
     = initial_result
  /\ (exists e, validate ports 25 Scenarios.working_solution = Returned (failed_result e))
  /\ length (test_results
               (state_of (run ports 10 (analyze_solution,
                                        initial_state Scenarios.working_solution, O))))
     = 1%nat.
Proof.
  cbv zeta.
  assert (Hbad : malformed ValidatorScenarios.untyped_scenario) by (now right).
  split; [exact Hbad|].
  destruct (malformed_scenario_voids_the_validation
              (ValidatorScenarios.working_ports
                 [ValidatorScenarios.scenario "save"; ValidatorScenarios.untyped_scenario]
                 (9 # 10))
              Scenarios.working_solution _ 1 _ eq_refl eq_refl Hbad)
    as (_ & Hresult & _ & Hvalidate).
  split; [exact Hresult |].
  split; [| reflexivity].
  destruct (Hvalidate 25%nat) as (e & He & _). now exists e.
Defined.
End ValidatorGraphFacts.

(** ** The validator: tests that the vision model passes *)

Module ValidatorVerdictFacts.
Import ValidatorGraph ValidatorNotions.
Local Open Scope Z_scope.

Lemma validator_time_of_run (ports : Ports) (k : nat) (c : Config) :
  (time_of (run ports k c) <= time_of c + k)%nat.
Proof.
  revert c. induction k as [| k IH]; intros c; cbn; [lia |].
  destruct (Node_eqb (node_of c) END); [lia |].
  specialize (IH (step ports c)). cbn in IH. unfold time_of in *. cbn in *. lia.
Qed.

Section Passing.
Variable ports : Ports.
Variable scenarios : list Scenario.
Hypothesis scenarios_well_formed : Forall well_formed scenarios.
Hypothesis verdicts : forall t, verdict_passes ports t.

(** A test that the vision model passes is a success whatever its steps
    did. *)
Lemma passing_test_result (t : nat) (name type : string) (steps : list string) :
  success (_execute_test_scenario ports t name type steps) = true
  /\ issues (_execute_test_scenario ports t name type steps) = run_steps ports t O steps.
Proof.
  unfold _execute_test_scenario, _validate_test_result.
  pose proof (verdicts t) as Hv. unfold verdict_passes in Hv.
  destruct (analyze_screenshot ports t) as [seen confidence].
  destruct Hv as [Hseen Hconf]. rewrite Hseen.
  assert (Hle : Qle_bool confidence (6 # 10) = false).
  { apply not_true_is_false. intros H. apply Qle_bool_iff in H.
    apply (Qlt_not_le _ _ Hconf H). }
  rewrite Hle. cbn. split; reflexivity.
Qed.

Lemma passing_test (state : ValidationState) (t : nat) :
  between_tests ports scenarios state t ->
  (length (test_results state) < length scenarios)%nat ->
  let state' := _execute_tests ports t state in
  between_tests ports scenarios state' (S t)
  /\ length (test_results state') = S (length (test_results state))
  /\ validation_result state' = validation_result state
  /\ error_count state' = error_count state
  /\ max_errors state' = max_errors state.
Proof.
  intros (Hsc & Hidx & Ht & Herr & Hres) Hlt. unfold _execute_tests.
  rewrite Hsc, Hidx.
  destruct (Z.leb_spec (Z.of_nat (length scenarios))
                       (Z.of_nat (length (test_results state)))) as [Hge | _]; [lia |].
  rewrite DeveloperGraphFacts.position_within by lia.
  rewrite Nat2Z.id.
  destruct (lookup_lt_is_Some_2 scenarios _ Hlt) as [scenario Hat].
  rewrite Hat.
  pose proof (Forall_lookup_1 _ _ _ _ scenarios_well_formed Hat) as [Hname Htype].
  destruct (sc_name scenario) as [name |]; [| congruence].
  destruct (sc_type scenario) as [type |]; [| congruence].
  unfold between_tests, set_current_test_index, set_test_results. cbn.
  destruct (passing_test_result t name type (sc_steps scenario)) as [Hok Hissues].
  rewrite length_app. cbn [length].
  split; [| split; [lia | repeat split; trivial]].
  split; [exact Hsc |]. split; [lia |]. split; [lia |]. split; [exact Herr |].
  intros i result Hi.
  destruct (Nat.lt_ge_cases i (length (test_results state))) as [Hin | Hout].
  - rewrite lookup_app_l in Hi by trivial. now apply Hres.
  - rewrite lookup_app_r in Hi by trivial.
    destruct (i - length (test_results state))%nat as [| j] eqn:Hj; [| discriminate Hi].
    cbn in Hi. injection Hi as <-.
    assert (i = length (test_results state)) as -> by lia.
    split; [exact Hok |].
    exists scenario. split; [exact Hat |].
    rewrite Hissues. now subst t.
Qed.

Lemma edge_between_tests (state : ValidationState) (t : nat) :
  between_tests ports scenarios state t ->
  next_node execute_tests state
  = if (length (test_results state) <? length scenarios)%nat
    then execute_tests else analyze_test_results.
Proof.
  intros (Hsc & Hidx & _ & Herr & _). cbn [next_node]. unfold _should_continue_testing.
  destruct (Z.leb_spec (max_errors state) (error_count state)); [lia |].
  rewrite Hsc, Hidx.
  destruct (Z.leb_spec (Z.of_nat (length scenarios))
                       (Z.of_nat (length (test_results state))));
    destruct (Nat.ltb_spec (length (test_results state)) (length scenarios));
    trivial; lia.
Qed.

(** The tests still to run are run one per transition, and then the
    results are analysed. *)
Lemma passing_loop (m : nat) (state : ValidationState) (t : nat) :
  between_tests ports scenarios state t ->
  (length (test_results state) + S m = length scenarios)%nat ->
  exists state',
    run ports (S m) (execute_tests, state, t) = (analyze_test_results, state', (t + S m)%nat)
    /\ between_tests ports scenarios state' (t + S m)
    /\ length (test_results state') = length scenarios
    /\ validation_result state' = validation_result state.
Proof.
  revert state t. induction m as [| m IH]; intros state t Hb Hlen.
  - destruct (passing_test state t Hb ltac:(lia)) as (Hb' & Hl & Hv & He & Hm).
    pose proof (edge_between_tests _ _ Hb') as Hnext.
    destruct (Nat.ltb_spec (length (test_results (_execute_tests ports t state)))
                           (length scenarios)) as [Hlt | _]; [lia |].
    exists (_execute_tests ports t state).
    rewrite ValidatorGraphFacts.validator_run_step by discriminate.
    unfold step. cbn [node_of state_of time_of fst snd node_function run].
    rewrite Hnext. replace (t + 1)%nat with (S t) by lia.
    split; [reflexivity | split; [exact Hb' | split; [lia | exact Hv]]].
  - destruct (passing_test state t Hb ltac:(lia)) as (Hb' & Hl & Hv & He & Hm).
    pose proof (edge_between_tests _ _ Hb') as Hnext.
    destruct (Nat.ltb_spec (length (test_results (_execute_tests ports t state)))
                           (length scenarios)) as [_ | Hge]; [| lia].
    destruct (IH (_execute_tests ports t state) (S t) Hb' ltac:(lia))
      as (state' & Hrun & Hb'' & Hl' & Hv').
    exists state'.
    rewrite ValidatorGraphFacts.validator_run_step by discriminate.
    unfold step. cbn [node_of state_of time_of fst snd node_function].
    rewrite Hnext, Hrun.
    replace (t + S (S m))%nat with (S t + S m)%nat by lia.
    split; [reflexivity | split; [exact Hb'' | split; [exact Hl' | congruence]]].
Qed.

(** Every result a success: the score is 1. *)
Lemma all_passed_score (results : list TestResult) :
  results <> [] ->
  (forall i result, results !! i = Some result -> success result = true) ->
  (test_score results == 1)%Q /\ test_validity results = true.
Proof.
  intros Hne Hall.
  assert (Hfilter : List.filter success results = results).
  { apply forallb_filter_id. apply forallb_forall. intros r Hr.
    apply list_elem_of_In in Hr. apply list_elem_of_lookup_1 in Hr as [i Hi].
    now apply (Hall i). }
  assert (Hpos : (0 < length results)%nat) by (destruct results; cbn; [congruence | lia]).
  assert (Hscore : (test_score results == 1)%Q).
  { unfold test_score, successful_tests. rewrite Hfilter.
    destruct (Z.ltb_spec 0 (Z.of_nat (length results))) as [_ | H]; [| lia].
    field. unfold Qeq. cbn. lia. }
  split; [exact Hscore |].
  unfold test_validity.
  destruct (Z.ltb_spec 0 (Z.of_nat (length results))) as [_ | H]; [| lia].
  cbn. apply Qle_bool_iff. rewrite Hscore. unfold Qle. cbn. lia.
Qed.

End Passing.

(** The run of the tests that the vision model passes. *)
Lemma passing_run (ports : Ports) (sol : Models.ImplementationSolution)
    (scenarios : list Scenario) :
  llm_scenarios ports = Returned scenarios ->
  scenarios <> [] ->
  Forall well_formed scenarios ->
  (forall t, verdict_passes ports t) ->
  exists state,
    run ports (length scenarios + 6) (analyze_solution, initial_state sol, O)
    = (END, state, (length scenarios + 6)%nat)
    /\ length (test_results state) = length scenarios
    /\ (forall i test, test_results state !! i = Some test ->
                       passed ports scenarios i test)
    /\ Models.is_valid (validation_result state) = true
    /\ (Models.score (validation_result state) == 1)%Q
    /\ Models.issues (validation_result state) = all_issues (test_results state).
Proof.
  intros Hllm Hne Hwf Hverdicts.
  set (n := length scenarios).
  set (c0 := (analyze_solution, initial_state sol, O)).
  assert (H3 : exists s3,
             run ports 3 c0 = (execute_tests, s3, 3%nat)
             /\ between_tests ports scenarios s3 3
             /\ test_results s3 = []).
  { unfold c0, between_tests. cbn. unfold step. cbn.
    unfold _generate_test_scenarios, _analyze_solution, _setup_test_environment.
    rewrite Hllm.
    destruct (llm_analysis ports), (start_browser ports); cbn;
      eexists; (split; [reflexivity |]); cbn; repeat split; trivial;
      try discriminate; intros i test Hi; destruct i; discriminate Hi. }
  destruct H3 as (s3 & Hrun3 & Hb3 & Hres3).
  assert (Hpos : (0 < n)%nat) by (subst n; destruct scenarios; cbn; [congruence | lia]).
  destruct (passing_loop ports scenarios Hwf Hverdicts (n - 1) s3 3 Hb3) as
    (s4 & Hrun4 & Hb4 & Hlen4 & _).
  { rewrite Hres3. cbn. fold n. lia. }
  replace (S (n - 1)) with n in * by lia.
  set (s5 := _analyze_test_results s4).
  set (s6 := _generate_suggestions ports s5).
  assert (Hrun6 : run ports 3 (analyze_test_results, s4, (3 + n)%nat)
                  = (END, s6, (n + 6)%nat)).
  { cbn. unfold step. cbn. f_equal. lia. }
  assert (Hfinal : run ports (n + 6) c0 = (END, s6, (n + 6)%nat)).
  { rewrite <- Hrun6, <- Hrun4, <- Hrun3.
    rewrite <- !ValidatorGraphFacts.validator_run_add. f_equal. lia. }
  assert (Hpassed : forall i test, test_results s4 !! i = Some test ->
                                   passed ports scenarios i test) by apply Hb4.
  assert (Hresults : test_results s6 = test_results s4).
  { unfold s6, s5, _generate_suggestions, _analyze_test_results. cbn.
    destruct (all_issues (test_results s4)); cbn; [reflexivity |].
    destruct (llm_suggestions ports); reflexivity. }
  assert (Hresult : Models.is_valid (validation_result s6) = test_validity (test_results s4)
                    /\ Models.score (validation_result s6) = test_score (test_results s4)
                    /\ Models.issues (validation_result s6) = all_issues (test_results s4)).
  { unfold s6, s5, _generate_suggestions, _analyze_test_results. cbn.
    destruct (all_issues (test_results s4)) eqn:Hall; cbn; [now rewrite ?Hall |].
    destruct (llm_suggestions ports); cbn; now rewrite ?Hall. }
  destruct Hresult as (Hvalid & Hscore & Hissues).
  destruct (all_passed_score (test_results s4)) as [Hone Htrue].
  { intros Hnil. rewrite Hnil in Hlen4. cbn in Hlen4. fold n in Hlen4. lia. }
  { intros i test Hi. now apply (Hpassed i). }
  exists s6. rewrite Hresults, Hvalid, Hscore, Hissues.
  split; [exact Hfinal |]. split; [exact Hlen4 |]. split; [exact Hpassed |].
  split; [exact Htrue |]. split; [exact Hone |]. reflexivity.
Qed.

(** X26.  The verdict on the screenshot decides the validation.  When
    the Completion port gave n >= 1 scenarios, each with a name and a
    type, and the vision model passes every test (it names a success
    indicator with a confidence above 0.6), every test counts as a
    success whatever its steps did, a step that failed only adding an
    issue: the graph reaches [END] after exactly n + 6 transitions, the
    result the run leaves is valid with score 1 and lists the issues of
    the steps.  A failed analysis call or a browser that did not start
    changes nothing.  [validate] never returns that result: it is handed
    a mapping, or the engine gives up, and it returns the invalid result
    of its handler whatever the recursion limit. *)
Theorem screenshot_verdicts_decide_the_validation (ports : Ports)
    (sol : Models.ImplementationSolution) (scenarios : list Scenario) :
  llm_scenarios ports = Returned scenarios ->
  scenarios <> [] ->
  Forall well_formed scenarios ->
  (forall t, verdict_passes ports t) ->
  let n := length scenarios in
  let final := run ports (n + 6) (analyze_solution, initial_state sol, O) in
  let result := validation_result (state_of final) in
  node_of final = END
  /\ time_of final = (n + 6)%nat
  /\ length (test_results (state_of final)) = n
  /\ (forall i test, test_results (state_of final) !! i = Some test ->
                     passed ports scenarios i test)
  /\ Models.is_valid result = true
  /\ (Models.score result == 1)%Q
  /\ Models.issues result = all_issues (test_results (state_of final))
  /\ forall limit, exists e,
       validate ports limit sol = Returned (failed_result e)
       /\ Models.is_valid (failed_result e) = false
       /\ (Models.score (failed_result e) == 0)%Q.
Proof.
  intros Hllm Hne Hwf Hverdicts n final result.
  destruct (passing_run ports sol scenarios Hllm Hne Hwf Hverdicts)
    as (state & Hfinal & Hlen & Hpassed & Hvalid & Hscore & Hissues).
  fold n in Hfinal, Hlen.
  assert (Hstate : state_of final = state) by (unfold final; now rewrite Hfinal).
  assert (Hresult : result = validation_result state) by (unfold result; now rewrite Hstate).
  rewrite Hstate, Hresult.
  split; [unfold final; now rewrite Hfinal |].
  split; [unfold final; now rewrite Hfinal |].
  split; [exact Hlen |]. split; [exact Hpassed |].
  split; [exact Hvalid |]. split; [exact Hscore |]. split; [exact Hissues |].
  intros limit.
  destruct (ValidatorGraphFacts.validate_is_handled ports limit sol) as [e He].
  exists e. now repeat split.
Qed.

Lemma screenshot_verdicts_decide_the_validation_witness :
  let scenarios := [ValidatorScenarios.scenario "save"; ValidatorScenarios.scenario "search"] in
  let ports := ValidatorScenarios.failing_steps_ports scenarios in
  let result := validation_result
                  (state_of (run ports 8 (analyze_solution,
                                          initial_state Scenarios.working_solution, O))) in
  Models.is_valid result = true
  /\ (Models.score result == 1)%Q
  /\ Models.issues result
     = ["步骤1执行失败: open the form"; "步骤1执行失败: open the form"]
  /\ exists e, validate ports 25 Scenarios.working_solution = Returned (failed_result e).
Proof.
  pose proof (screenshot_verdicts_decide_the_validation
                (ValidatorScenarios.failing_steps_ports
                   [ValidatorScenarios.scenario "save"; ValidatorScenarios.scenario "search"])
                Scenarios.working_solution
                [ValidatorScenarios.scenario "save"; ValidatorScenarios.scenario "search"])
    as H.
  destruct H as (_ & _ & _ & _ & Hvalid & Hscore & Hissues & Hvalidate).
  - reflexivity.
  - discriminate.
  - repeat constructor; discriminate.
  - intros t. cbn. split; [reflexivity | reflexivity].
  - split; [exact Hvalid |]. split; [exact Hscore |].
    split; [reflexivity |].
    destruct (Hvalidate 25%nat) as (e & He & _). now exists e.
Defined.


End ValidatorVerdictFacts.

(** ** The workflow with its agents *)

Module AssemblyFacts.
Import Models Workflow AssemblyNotions.
Local Open Scope Z_scope.

Section Assembled.
Variable w : Assembly.World.
Implicit Types (state : LowCodeWorkflowState) (c : Node * LowCodeWorkflowState).

(** Whatever its graph did, the developer hands the workflow a rejected
    solution without operations: the one it builds when it finds no
    solution on the mapping, or the one of its handler. *)
Lemma assembled_develop_returns (i : Z) (req : DevelopmentRequest) :
  exists sol,
    Assembly.develop w i (Some req) = Returned sol
    /\ Models.reward_decision sol = REJECTED
    /\ operations sol = []
    /\ Models.validation_result sol = None
    /\ sol_request_id sol = request_id req
    /\ description sol <> Some "工作流执行失败"
    /\ (DeveloperGraph.node_of (Assembly.development w i req) = DeveloperGraph.END ->
        sol = DeveloperGraph.fallback_solution (snd (Assembly.developer_ids w i))
                (snd (Assembly.developer_readings w i)) req).
Proof.
  unfold Assembly.develop, Assembly.development.
  rewrite DeveloperGraphFacts.develop_returns.
  destruct (DeveloperGraph.Node_eqb _ _) eqn:E; eexists; (split; [reflexivity |]);
    do 4 (split; [reflexivity |]); (split; [cbn; discriminate |]).
  - reflexivity.
  - intros Hend. apply DeveloperGraphFacts.Node_eqb_END in Hend. congruence.
Qed.

Lemma assembled_validate_returns (i : Z) (sol : ImplementationSolution) :
  exists e, Assembly.validate w i sol = Returned (ValidatorGraph.failed_result e).
Proof. apply ValidatorGraphFacts.validate_is_handled. Qed.

Lemma store_returns_true (sol : ImplementationSolution) (decision : RewardDecision) :
  fst (fst (KnowledgeManager.store_solution (Assembly.store_ports w) (Assembly.store_time w)
              sol decision (Assembly.knowledge w))) = true.
Proof. unfold KnowledgeManager.store_solution. destruct decision; reflexivity. Qed.

Lemma on_course_step c : on_course c -> on_course (step (Assembly.agents w) c).
Proof.
  destruct c as [n state]. unfold on_course, step. cbn [fst snd].
  intros [Hreq Hn]. destruct (request state) as [req |] eqn:Hrequest; [| congruence].
  destruct n; cbn [node_function next_node].
  - unfold _initialize. cbn. rewrite Hrequest. cbn. split; [discriminate | exact Hn].
  - unfold _search_knowledge. cbn.
    destruct (KnowledgeManager.search_similar_solutions _ _ _ _); cbn;
      rewrite Hrequest; now split.
  - unfold _develop_solution. cbn. rewrite Hrequest.
    destruct (assembled_develop_returns (iteration_count state + 1) req)
      as (sol & Hsol & _ & Hops & _).
    rewrite Hsol, Hops. cbn.
    unfold _after_development. cbn. rewrite Hn. cbn.
    split; [now rewrite Hrequest |]. right. split; [reflexivity |]. now exists sol.
  - destruct Hn as [Herrors Hsol]. unfold _validate_solution. cbn.
    destruct (current_solution state) as [sol |] eqn:Hcurrent; [| congruence].
    destruct (assembled_validate_returns (iteration_count state) sol) as [e Hresult].
    rewrite Hresult. cbn. unfold _after_validation. cbn. rewrite Herrors. cbn.
    split; [now rewrite Hrequest |]. repeat split; congruence.
  - destruct Hn as (Herrors & Hsol & Hresult). unfold _review_solution. cbn.
    destruct (current_solution state) as [sol |] eqn:Hcurrent; [| congruence].
    destruct (validation_result state) as [result |] eqn:Hvalidation; [| congruence].
    cbn. unfold _after_review. cbn.
    split; [now rewrite Hrequest |].
    destruct (review_decision result _); cbn; rewrite ?Hcurrent;
      first [exact Herrors | left; exact Herrors | split; congruence].
  - destruct Hn as [Herrors Hsol]. unfold _update_knowledge. cbn.
    destruct (current_solution state) as [sol |] eqn:Hcurrent; [| congruence].
    rewrite store_returns_true. cbn. split; [now rewrite Hrequest |]. now left.
  - unfold _finalize. cbn.
    destruct (current_solution state) as [sol |] eqn:Hcurrent; cbn;
      [destruct (negb _); cbn |]; rewrite ?Hcurrent, ?Hrequest;
      (split; [discriminate | exact Hn]).
  - unfold _handle_error. cbn. rewrite Hrequest. now split.
  - rewrite Hrequest. now split.
Qed.

Lemma on_course_run (k : nat) c : on_course c -> on_course (run (Assembly.agents w) k c).
Proof.
  revert c. induction k as [| k IH]; intros c Hc; cbn; [exact Hc |].
  destruct (Node_eqb (fst c) END); [exact Hc |]. apply IH. now apply on_course_step.
Qed.

Lemma on_course_errors c :
  on_course c ->
  errors (snd c) = []
  \/ (errors (snd c) = ["方案开发失败"]
      /\ exists sol, current_solution (snd c) = Some sol /\ operations sol = []).
Proof.
  intros [_ Hn]. destruct (fst c); try exact Hn; left; try exact Hn; apply Hn.
Qed.

Lemma agents_store_true (sol : ImplementationSolution) (decision : RewardDecision) :
  fst (store_solution (Assembly.agents w) sol decision) = Returned true.
Proof.
  unfold Assembly.agents, Assembly.store_solution. cbn [store_solution fst].
  now rewrite store_returns_true.
Qed.

End Assembled.

Lemma workflow_run_add (agents : Agents) (k m : nat) (c : Node * LowCodeWorkflowState) :
  run agents (k + m) c = run agents m (run agents k c).
Proof.
  revert c. induction k as [| k IH]; intros c; [reflexivity |].
  cbn [Nat.add run]. destruct (Node_eqb (fst c) END) eqn:Hend; [| apply IH].
  destruct m; cbn [run]; now rewrite ?Hend.
Qed.

(** A development that delivers no operations: the run records the
    error and goes through [handle_error]. *)
Lemma run_without_operations (agents : Agents) (req : DevelopmentRequest) (hil : bool)
    (similar : list ImplementationSolution) (solution : ImplementationSolution) :
  let request := Some (set_req_created_at (clock agents 0) req) in
  search_similar_solutions agents request = Returned similar ->
  develop agents 1 request = Returned solution ->
  operations solution = [] ->
  exists s1 s2 s3 : LowCodeWorkflowState,
    run agents 1 (initialize, initial_state req hil) = (search_knowledge, s1)
    /\ run agents 2 (initialize, initial_state req hil) = (develop_solution, s2)
    /\ run agents 3 (initialize, initial_state req hil) = (handle_error, s3)
    /\ run agents 4 (initialize, initial_state req hil) = (finalize, _handle_error s3)
    /\ run agents 5 (initialize, initial_state req hil)
       = (END, _finalize (_handle_error s3))
    /\ errors (_finalize (_handle_error s3)) = ["方案开发失败"]
    /\ reward_decision (_finalize (_handle_error s3)) = PENDING
    /\ validation_result (_finalize (_handle_error s3)) = None
    /\ iteration_count (_finalize (_handle_error s3)) = 1
    /\ similar_solutions (_finalize (_handle_error s3)) = similar
    /\ success (_finalize (_handle_error s3)) = true
    /\ current_solution (_finalize (_handle_error s3)) = Some solution
    /\ final_solution (_finalize (_handle_error s3)) = Some solution.
Proof.
  intros request Hsearch Hdev Hops. subst request.
  set (s1 := _initialize agents (initial_state req hil)).
  set (s2 := _search_knowledge agents s1).
  set (s3 := _develop_solution agents s2).
  assert (Hreq : request s1 = Some (set_req_created_at (clock agents 0) req)) by reflexivity.
  assert (H3 : current_solution s3 = Some solution
               /\ errors s3 = ["方案开发失败"]
               /\ iteration_count s3 = 1
               /\ reward_decision s3 = PENDING
               /\ validation_result s3 = None
               /\ similar_solutions s3 = similar).
  { unfold s3, s2, _develop_solution, _search_knowledge. cbn [request set_current_stage].
    rewrite Hreq, Hsearch.
    destruct similar; cbn -[set_req_created_at]; rewrite ?Z.add_0_l, Hdev, Hops;
      cbn -[set_req_created_at]; repeat split. }
  destruct H3 as (Hc3 & He3 & Hi3 & Hr3 & Hv3 & Hs3).
  assert (Hnext : next_node develop_solution s3 = handle_error).
  { cbn [next_node]. unfold _after_development. now rewrite He3. }
  assert (Hstep1 : step agents (initialize, initial_state req hil) = (search_knowledge, s1))
    by reflexivity.
  assert (Hstep2 : step agents (search_knowledge, s1) = (develop_solution, s2))
    by reflexivity.
  assert (Hstep3 : step agents (develop_solution, s2) = (handle_error, s3)).
  { unfold step. cbn [fst snd node_function]. fold s3. now rewrite Hnext. }
  assert (Hstep4 : step agents (handle_error, s3) = (finalize, _handle_error s3))
    by reflexivity.
  assert (Hstep5 : step agents (finalize, _handle_error s3)
                   = (END, _finalize (_handle_error s3))) by reflexivity.
  exists s1, s2, s3.
  split; [now rewrite RunFacts.run_step, Hstep1 by discriminate |].
  split.
  { rewrite RunFacts.run_step, Hstep1 by discriminate.
    now rewrite RunFacts.run_step, Hstep2 by discriminate. }
  split.
  { rewrite RunFacts.run_step, Hstep1 by discriminate.
    rewrite RunFacts.run_step, Hstep2 by discriminate.
    now rewrite RunFacts.run_step, Hstep3 by discriminate. }
  split.
  { rewrite RunFacts.run_step, Hstep1 by discriminate.
    rewrite RunFacts.run_step, Hstep2 by discriminate.
    rewrite RunFacts.run_step, Hstep3 by discriminate.
    now rewrite RunFacts.run_step, Hstep4 by discriminate. }
  split.
  { rewrite RunFacts.run_step, Hstep1 by discriminate.
    rewrite RunFacts.run_step, Hstep2 by discriminate.
    rewrite RunFacts.run_step, Hstep3 by discriminate.
    rewrite RunFacts.run_step, Hstep4 by discriminate.
    now rewrite RunFacts.run_step, Hstep5 by discriminate. }
  unfold _finalize, _handle_error. cbn. rewrite Hc3, Hr3. cbn.
  rewrite He3, Hr3, Hv3, Hi3, Hs3, Hc3. repeat split.
Qed.

(** With the agents of the repository every run takes the same five
    transitions. *)
Lemma assembled_run (w : Assembly.World) (req : DevelopmentRequest) (hil : bool) :
  let start := (initialize, initial_state req hil) in
  let agents := Assembly.agents w in
  exists (final : LowCodeWorkflowState) (developed : ImplementationSolution),
    run agents 5 start = (END, final)
    /\ (forall k : nat, fst (run agents k start) = node_after k)
    /\ develop agents 1 (Some (set_req_created_at (clock agents 0) req)) = Returned developed
    /\ Models.reward_decision developed = REJECTED
    /\ operations developed = []
    /\ Models.validation_result developed = None
    /\ description developed <> Some "工作流执行失败"
    /\ errors final = ["方案开发失败"]
    /\ reward_decision final = PENDING
    /\ validation_result final = None
    /\ iteration_count final = 1
    /\ success final = true
    /\ current_solution final = Some developed
    /\ final_solution final = Some developed.
Proof.
  cbv zeta.
  destruct (assembled_develop_returns w 1 (set_req_created_at (Assembly.clock w 0) req))
    as (developed & Hdev & Hdecision & Hops & Hvalidation & _ & Hdescr & _).
  destruct (run_without_operations (Assembly.agents w) req hil _ developed
              eq_refl Hdev Hops)
    as (s1 & s2 & s3 & H1 & H2 & H3 & H4 & H5 & He & Hr & Hv & Hi & _ & Hs & Hc & Hf).
  exists (_finalize (_handle_error s3)), developed.
  split; [exact H5 |].
  split.
  { intros k.
    destruct k as [| [| [| [| [| k]]]]];
      [reflexivity | now rewrite H1 | now rewrite H2 | now rewrite H3 | now rewrite H4 |].
    replace (S (S (S (S (S k))))) with (5 + k)%nat by lia.
    rewrite RunFacts.run_beyond_END by (now rewrite H5).
    rewrite H5. unfold node_after, course. cbn [fst].
    now destruct k. }
  split; [exact Hdev |].
  repeat (split; [assumption |]). assumption.
Qed.

(** X27.  What the agents let through to the workflow.  With the three
    agents of the repository, [develop] (given a request), [validate] and
    the search always return, and [store_solution] always returns
    [True]: the handlers of [_develop_solution], [_validate_solution],
    [_search_knowledge] and [_update_knowledge] are never entered.  After
    any number of transitions of a run that [execute] starts, the error
    list is empty or holds the one entry of a development that delivered
    a solution without operations. *)
Theorem agent_failures_never_reach_the_workflow (w : Assembly.World)
    (req : DevelopmentRequest) (hil : bool) (k : nat) :
  let agents := Assembly.agents w in
  let final := run agents k (initialize, initial_state req hil) in
  (forall i r, exists sol, develop agents i (Some r) = Returned sol)
  /\ (forall i sol, exists result, validate agents i sol = Returned result)
  /\ (forall r, exists similar, search_similar_solutions agents r = Returned similar)
  /\ (forall sol decision, fst (store_solution agents sol decision) = Returned true)
  /\ (errors (snd final) = []
      \/ (errors (snd final) = ["方案开发失败"]
          /\ exists sol, current_solution (snd final) = Some sol /\ operations sol = [])).
Proof.
  intros agents final.
  split.
  { intros i r. destruct (assembled_develop_returns w i r) as (sol & Hsol & _).
    now exists sol. }
  split.
  { intros i sol. destruct (assembled_validate_returns w i sol) as [e He].
    eexists. exact He. }
  split; [intros r; eexists; reflexivity |].
  split.
  { intros sol decision. apply agents_store_true. }
  apply on_course_errors. apply on_course_run.
  split; [discriminate | reflexivity].
Qed.

(** X28.  With the agents of the repository nothing is ever validated,
    reviewed or stored.  Whatever its graph did, [develop] hands the
    workflow a rejected solution without operations, and [validate], if
    it were called, an invalid result.  So every run that [execute]
    starts takes the same five transitions, [initialize],
    [search_knowledge], [develop_solution], [handle_error], [finalize],
    and stays at [END]: one development round is made, its error is
    recorded, the decision of the workflow is left pending, and the run
    ends with [success] set and the rejected solution without operations
    as its final solution. *)
Theorem assembled_run_never_validates (w : Assembly.World)
    (req : DevelopmentRequest) (hil : bool) :
  let agents := Assembly.agents w in
  let start := (initialize, initial_state req hil) in
  let final := snd (run agents 5 start) in
  (forall i r, exists sol,
      develop agents i (Some r) = Returned sol
      /\ Models.reward_decision sol = REJECTED
      /\ operations sol = []
      /\ Models.validation_result sol = None
      /\ sol_request_id sol = request_id r)
  /\ (forall i sol, exists result,
        validate agents i sol = Returned result
        /\ is_valid result = false
        /\ (score result == 0)%Q)
  /\ (forall k : nat, fst (run agents k start) = node_after k)
  /\ (forall k : nat,
        fst (run agents k start) <> validate_solution
        /\ fst (run agents k start) <> review_solution
        /\ fst (run agents k start) <> update_knowledge)
  /\ fst (run agents 5 start) = END
  /\ errors final = ["方案开发失败"]
  /\ iteration_count final = 1
  /\ reward_decision final = PENDING
  /\ validation_result final = None
  /\ success final = true
  /\ workflow_completed final = true
  /\ exists developed,
       final_solution final = Some developed
       /\ current_solution final = Some developed
       /\ Models.reward_decision developed = REJECTED
       /\ operations developed = []
       /\ Models.validation_result developed = None.
Proof.
  cbv zeta.
  destruct (assembled_run w req hil)
    as (final & developed & Hrun & Hpath & _ & Hd & Hops & Hvr & _ & He & Hr & Hv & Hi & Hs
        & Hc & Hf).
  cbv zeta in Hrun, Hpath.
  split.
  { intros i r.
    destruct (assembled_develop_returns w i r) as (sol & Hsol & H1 & H2 & H3 & H4 & _).
    exists sol. now repeat split. }
  split.
  { intros i sol. destruct (assembled_validate_returns w i sol) as [e He'].
    eexists. split; [exact He' |]. now split. }
  split; [exact Hpath |].
  split.
  { intros k. rewrite Hpath. unfold node_after, course.
    destruct k as [| [| [| [| [| k]]]]]; cbn; try (repeat split; discriminate).
    destruct k; cbn; repeat split; discriminate. }
  rewrite Hrun. cbn [fst snd].
  split; [reflexivity |].
  repeat (split; [assumption |]).
  split.
  { destruct (RunFacts.execute_run_completes (Assembly.agents w) req hil) as (_ & _ & Hdone).
    cbv zeta in Hdone.
    replace 7%nat with (5 + 2)%nat in Hdone by reflexivity.
    rewrite RunFacts.run_beyond_END in Hdone by (now rewrite Hrun).
    now rewrite Hrun in Hdone. }
  exists developed. now repeat split.
Qed.

(** X29.  With the agents of the repository [execute] always returns its
    own rejected solution.  For an engine limit of at least the five
    transitions of the run, the run ends with [success] set, the engine
    hands its final values to [execute] as a mapping, both [hasattr]
    tests fail, and [execute] returns the solution it builds itself:
    rejected, without operations, titled "失败方案: " followed by the
    title of the request and described as "工作流执行失败", whatever the
    developer, the validator and the knowledge manager met. *)
Theorem execute_returns_its_own_rejected_solution (w : Assembly.World)
    (req : DevelopmentRequest) (hil : bool) (fresh_id : string) (now : Z) (limit : nat) :
  (5 <= limit)%nat ->
  let agents := Assembly.agents w in
  let final := snd (run agents 5 (initialize, initial_state req hil)) in
  ainvoke agents limit (initial_state req hil) = Returned (Engine.Mapping final)
  /\ success final = true
  /\ exists returned,
       execute (ainvoke agents limit) fresh_id now req hil = Returned returned
       /\ returned = rejected_solution fresh_id now req "失败方案: " "工作流执行失败"
       /\ Models.reward_decision returned = REJECTED
       /\ operations returned = []
       /\ success_rate returned = 0%Q
       /\ title returned = ("失败方案: " ++ req_title req)%string
       /\ description returned = Some "工作流执行失败"
       /\ sol_request_id returned = request_id req
       /\ solution_id returned = fresh_id
       /\ final_solution final <> Some returned.
Proof.
  intros Hlimit. cbv zeta.
  destruct (assembled_run w req hil)
    as (final & developed & Hrun & _ & _ & Hd & Hops & Hvr & Hdescr & He & Hr & Hv & Hi
        & Hs & Hc & Hf).
  cbv zeta in Hrun.
  assert (Hinvoke : ainvoke (Assembly.agents w) limit (initial_state req hil)
                    = Returned (Engine.Mapping final)).
  { unfold ainvoke. cbv zeta.
    replace limit with (5 + (limit - 5))%nat by lia.
    rewrite RunFacts.run_beyond_END by (now rewrite Hrun).
    now rewrite Hrun. }
  rewrite Hrun. cbn [snd].
  split; [exact Hinvoke |]. split; [exact Hs |].
  eexists. split; [exact (ExecuteFacts.execute_of_mapping _ _ _ _ _ _ Hinvoke) |].
  do 8 (split; [reflexivity |]).
  rewrite Hf. intros [= Heq]. apply Hdescr. now rewrite Heq.
Qed.

(** In a world where the developer carries out its plan of two
    operations and its page check passes, the graph of the developer
    leaves an accepted solution; the run of the workflow still ends on
    the error path, and [execute] returns its own rejected solution. *)
Lemma execute_returns_its_own_rejected_solution_witness :
  let w := AssemblyScenarios.working_world in
  let request := set_req_created_at 10 Scenarios.invoice_request in
  let left_by_graph :=
    DeveloperGraph.solution (DeveloperGraph.state_of (Assembly.development w 1 request)) in
  let final := snd (run (Assembly.agents w) 5
                      (initialize, initial_state Scenarios.invoice_request true)) in
  (5 <= 25)%nat
  /\ DeveloperGraph.node_of (Assembly.development w 1 request) = DeveloperGraph.END
  /\ Models.reward_decision left_by_graph = ACCEPTED
  /\ length (operations left_by_graph) = 2%nat
  /\ errors final = ["方案开发失败"]
  /\ success final = true
  /\ execute (ainvoke (Assembly.agents w) 25) "id-1" 0 Scenarios.invoice_request true
     = Returned (rejected_solution "id-1" 0 Scenarios.invoice_request
                   "失败方案: " "工作流执行失败").
Proof.
  cbv zeta.
  split; [lia |].
  split; [vm_compute; reflexivity |].
  split; [vm_compute; reflexivity |].
  split; [vm_compute; reflexivity |].
  split; [vm_compute; reflexivity |].
  destruct (execute_returns_its_own_rejected_solution AssemblyScenarios.working_world
              Scenarios.invoice_request true "id-1" 0 25 ltac:(lia))
    as (_ & Hsuccess & returned & Hexecute & Hreturned & _).
  split; [exact Hsuccess |].
  rewrite Hexecute, Hreturned. reflexivity.
Defined.

End AssemblyFacts.
